(* ===== verification/_CoqProject ===== *)
-Q . S2P
Prelude.v
GoTime.v
GoStrings.v
GoNumbers.v
GoFloat.v
Json.v
Html.v
Base64.v
Backoff.v
Spool.v
SpoolFacts.v
SpoolClaims.v
Ticket.v
RateLimit.v
Litestream.v
Sha256.v
ControllerDB.v
Migrate.v
Nodes.v
Http.v
Ui.v
Server.v
Pages.v
PagesFacts.v
Results.v
ResultsFacts.v
Handlers.v
Routes.v
HandlersFacts.v
UiFlow.v
Chrony.v
Config.v
Agent.v
Wire.v
AgentFacts.v
Delivery.v
System.v
EndToEnd.v
AgentMain.v
Propagation.v
ControllerMain.v
