(* ===== verification/Prelude.v ===== *)
(** * NetLatencyMonitor: a verification development

    NetLatencyMonitor measures TCP-connect latency between sites.  Agents probe a
    list of targets, spool each report in a local SQLite file and drain the spool
    to a central controller over HTTP; the controller authenticates nodes, stores
    the results, keeps the registry of nodes, serves a web UI with live updates,
    and gates its readiness on clock drift and on the lag of its Litestream
    replica.  The development models the Go code under src/internal and src/cmd
    and proves, component by component and then end to end, what makes it
    correct, and where it is not.

    ** How the code is modelled

    - Integers are in [Z]; where Go's 64-bit wrap-around or [time.Duration]
      saturation matters it is written out ([wrap64], [sat64]).  Instants and
      durations are nanoseconds.  Doubles are [spec_float], with Go's (IEEE)
      rounding.  Strings are byte sequences.
    - Errors are values ([err], [res]); [errors.Is] unwraps as in Go.
    - Stateful code runs in the state monad [M] below, over a world that is the
      component's state and a step counter.  Whatever the environment decides
      (does this statement fail, what does the clock read, is the context done) is
      a function of the step ([Env]): a theorem about every environment covers
      every pattern of failures and every clock.
    - A SQL statement is a transition on the tables that checks the constraints of
      the schema; one connection per database makes statements atomic, and
      transactions in the controller are modelled with their rollback.
    - Code that is not in the repository is a parameter: type classes for the
      database drivers ([SqlDriver], [CtlDriver], [SqlOpen]), golang-migrate
      ([Migrator]), the templ runtime ([Templ]), the network ([Transport],
      [Link]), dialling ([Dialer]), randomness ([Rand], [RunIDs]), files, child
      processes.  What the code relies on in them is a law of the class
      ([MigratorSpec], [TemplSpec]) or a named hypothesis ([trusted],
      [serving], [plain_faults]), and every theorem with such a hypothesis has a
      concrete instance in its witness.  The handlers are stated over interfaces of their
      decoders ([Codec], [AgentCodec]); Wire implements them with JSON, and the
      end-to-end theorems use that implementation.

    ** The files

    - Prelude: integers, errors, the state monad, [moves] (state relations a
      program respects), [ticks] and [onsets] (how often the statements of a run
      start to fail), list lemmas.  GoTime, GoStrings, GoNumbers, GoFloat,
      Base64, Sha256: the parts of Go's library the code computes with (civil
      calendar, date formats, [strings], [strconv] with shortest doubles, hex and
      base64, SHA-256), as functions.  Json: the text format of encoding/json,
      printer and parser.  Html: what a templ component writes, and the tokenizer
      of a browser.  Migrate: dbmigrate.go, the SQL scripts, [spool.Open] and
      [OpenDB].
    - The agent.  Backoff and Spool: internal/spool, every method.  SpoolFacts,
      SpoolClaims: its invariant ([wf_db]), [drain_run], the relation a drain pass
      follows, and its theorems.  Delivery: the interface between spool and sender
      ([SenderContract]).  Agent: internal/agent (client, target cache, probes,
      spoke cycle, hub, listener).  AgentFacts: its theorems.  Config:
      internal/config and internal/logging.
    - The controller.  ControllerDB: tables and constraints.  Nodes: nodes.go.
      Ticket, RateLimit: internal/ticket.  Litestream, Chrony: the packages of
      these names.  Http, Ui: requests, credentials, page models, the live-update
      hub.  Server: the state all handlers share, metrics, the credential gates.
      Results: results.go and targets.go; ResultsFacts: its theorems.  Handlers:
      admin.go, ui.go, ws.go, ws_hub.go, probe_matrix.go, readiness and metrics of
      server.go.  Routes: the mux, and who may change what.  HandlersFacts: the
      database invariant ([wf_cdb]) and the contracts of the handlers.
      Pages: the components of internal/ui, write by write; PagesFacts: the
      documents of their .templ sources and that they are what a browser reads;
      UiFlow: from the pages back to the handlers.  ControllerMain:
      cmd/nlm-controller, the process as a state machine over its events.
    - The system.  System: the agent's transport as a lossy link to the
      controller's [Handler], and the contract of the client towards the spool.
      Wire: the structs of both programs in JSON.  EndToEnd: the invariant that
      ties an agent's spool to the controller's results ([system_inv]).
      AgentMain: cmd/nlm-agent, and series of its processes on one spool file.
      Propagation: from the registry to the agents.

    ** What the theorems show

    - End to end ([exactly_once], [cycle_report_settled]): over any number of
      cycles, any losses, any failures and any other traffic, a report is in the
      spool, or stored whole and once, or dropped by retention; also over any
      series of agent processes, opening and migrating the spool file included,
      each of which may be killed at any step ([processes_exactly_once]).  The
      dropped reports are counted in drops_total, except that the code deletes a
      row before it counts it: a statement that fails, or a kill, between the two
      loses one row uncounted.  The theorems bound these exactly: at most one for
      each time statements start to fail ([onsets]) and each kill, none without.
      What the agent encodes is what the controller decodes
      ([payload_roundtrip]).  A controller process keeps its data from start to
      exit ([controller_process]).  After any history of requests, reports and
      losses at a controller whose statements do not fail, a registry change
      reaches the agent with its next accepted report
      ([registry_reaches_agent]).
    - Spool: loss accounting of a drain pass, exact counters, order and backoff,
      what retention drops and that it ends, the invariant under all call
      sequences, what opening the file does on every path; [Backoff] equals its
      closed form in spite of wrap-around.
    - Ingest: exactly what validates, all-or-nothing storage, idempotence, the
      status codes on every path; the agent's reports validate
      ([cycle_report_valid]); how the drop counter errs.
    - Access: when an operator token is configured, no request changes the database
      without the right credential, and a node can only add its own results and
      statistics ([Handler_authorized]; without a token [empty_token_session]); tickets are
      authentic and single-use under every interleaving; WebSocket upgrades cost a
      ticket; the rate limiter's bounds and isolation; registered secrets work.
    - Pages: whatever bytes the data holds, a page is the document of its template
      with the data as text ([renderHTML_document]); its buttons reach the right
      handlers and do what they say ([row_buttons_work]); when the cells of the
      matrix have ids of their own ([matrix_cell_ids]).
    - Registry, readiness, UI, configuration: the targets version as a change
      detector ([same_version_same_targets]) and what a bump that fails does to it
      ([unbumped_change]); [Upsert]/[Get] round trip, the lost update two concurrent upserts can suffer and the torn read of
      [HubTargetsFor]; when /readyz is 200; what a
      journal poll means for health; ordered bounded delivery to UI clients; target
      lists and durations read from the environment; the drift read from chronyc.

    ** Fuel and termination

    Recursion is structural except for the retention loop of the spool, which runs
    on fuel: one iteration per row and one more ([enforceRetention]);
    [retention_terminates] states that this is enough for every input, and the
    theorems on [Drain] and the probe cycle that they return a result.  The JSON
    parser takes the length of the text as fuel, which [first_value_complete] shows
    to be enough for every text.
    Daemon loops (hub, listener, pruner, watcher, WebSocket pumps) take the finite
    sequence of events they react to.

    ** What is not modelled

    Static files, log output, the text format of metrics, HTTP and WebSocket
    deadlines and keep-alives, down migrations (never run).  Signals and contexts
    appear as environment choices or events.  Requests are served one at a time,
    except for the interleavings inside [Upsert] and [HubTargetsFor]; further
    interleavings of the statements of concurrent handlers are future work.  The
    script of the dashboard is text, not modelled as a program.

    Limits of the models of the libraries: [strings.TrimSpace] and
    [strings.ToLower] are those on ASCII (GoStrings); dates are printed with four
    digits of the year, as far as year 9999 (GoTime); the counters SQLite keeps
    (drops_total, targets_version, AUTOINCREMENT) are unbounded integers, so that
    what SQLite does beyond 64 bits is left out. *)
From Stdlib Require Import Ascii ZArith Lia.
From stdpp Require Export base list strings gmap.

#[global] Open Scope Z_scope.

(** ** Notation scope and hint databases of the development *)

Declare Scope go_scope.
Delimit Scope go_scope with go.

Create HintDb nlm.
Create Rewrite HintDb nlm_simpl.

(** Concatenation reduces on a constructor. *)
#[global] Arguments String.append : simpl nomatch.

(** ** Machine integers

    Go's [int], [int64] and [time.Duration] are 64-bit two's complement; the
    development keeps them in [Z] and writes the wrap-around out. *)

Definition min_int64 : Z := - 2 ^ 63.
Definition max_int64 : Z := 2 ^ 63 - 1.

Definition wrap64 (z : Z) : Z := (z + 2 ^ 63) mod 2 ^ 64 - 2 ^ 63.

Definition in_int64 (z : Z) : Prop := min_int64 <= z <= max_int64.

#[export] Instance in_int64_dec z : Decision (in_int64 z).
Proof. unfold in_int64. apply _. Defined.

Lemma wrap64_in_int64 z : in_int64 (wrap64 z).
Proof.
  unfold in_int64, wrap64, min_int64, max_int64.
  pose proof (Z.mod_pos_bound (z + 2 ^ 63) (2 ^ 64) ltac:(lia)). lia.
Qed.

Lemma wrap64_id z : in_int64 z → wrap64 z = z.
Proof.
  unfold in_int64, wrap64, min_int64, max_int64. intros Hz.
  rewrite Z.mod_small by lia. lia.
Qed.

(** A value in the upper half of one wrap-around period comes back negative:
    this is what an overflowing positive doubling or product does. *)
Lemma wrap64_overflow z : 2 ^ 63 <= z < 2 ^ 64 → wrap64 z = z - 2 ^ 64.
Proof.
  unfold wrap64. intros Hz.
  replace (z + 2 ^ 63) with (z - 2 ^ 63 + 1 * 2 ^ 64) by lia.
  rewrite Z.mod_add by lia. rewrite Z.mod_small by lia. lia.
Qed.

#[export] Hint Resolve wrap64_in_int64 : nlm.
#[export] Hint Rewrite wrap64_id using (unfold in_int64, min_int64, max_int64 in *; lia) : nlm_simpl.

Definition sat64 (z : Z) : Z := Z.max min_int64 (Z.min max_int64 z).

Lemma sat64_id z : in_int64 z → sat64 z = z.
Proof. unfold in_int64, sat64. lia. Qed.

Lemma sat64_in_int64 z : in_int64 (sat64 z).
Proof. unfold in_int64, sat64, min_int64, max_int64. lia. Qed.

(** Saturation never changes the side of an [int64] bound a value is on. *)
Lemma sat64_le z b : in_int64 b → sat64 z <= b ↔ z <= b ∨ (b = max_int64).
Proof. unfold in_int64, sat64, min_int64, max_int64. lia. Qed.

(** ** Errors

    Go errors as values: the sentinel errors of the repository, a driver error
    carrying the driver's text, a plain [errors.New]/[fmt.Errorf] message, and
    [fmt.Errorf("...: %w", err)] wrapping. *)

Inductive err : Type :=
  | ErrDuplicate            (* spool.ErrDuplicate *)
  | ErrUnknownNode          (* controller.ErrUnknownNode *)
  | ErrNoRows               (* sql.ErrNoRows *)
  | ErrUnknownTicket        (* ticket.ErrUnknownTicket *)
  | ErrExpiredTicket        (* ticket.ErrExpiredTicket *)
  | ErrNoChange             (* migrate.ErrNoChange *)
  | ErrCtx                  (* context.Canceled / DeadlineExceeded *)
  | ErrDriver (text : string)
  | ErrMsg (text : string)
  | ErrWrap (prefix : string) (inner : err).

#[export] Instance err_eq_dec : EqDecision err.
Proof. solve_decision. Defined.

(** [err.Error()]: the text of an error. *)
Fixpoint Error (e : err) : string :=
  match e with
  | ErrDuplicate => "spool: duplicate probe_run_id"
  | ErrUnknownNode => "controller: unknown node"
  | ErrNoRows => "sql: no rows in result set"
  | ErrUnknownTicket => "ticket: unknown or already used"
  | ErrExpiredTicket => "ticket: expired"
  | ErrNoChange => "no change"
  | ErrCtx => "context canceled"
  | ErrDriver s | ErrMsg s => s
  | ErrWrap p e' => (p ++ ": " ++ Error e')%string
  end.

(** [errors.Is(e, target)] for a sentinel [target]: unwraps [%w] chains. *)
Fixpoint errors_Is (e target : err) : bool :=
  bool_decide (e = target) ||
  match e with ErrWrap _ e' => errors_Is e' target | _ => false end.

Lemma errors_Is_refl e : errors_Is e e = true.
Proof. destruct e; cbn [errors_Is]; rewrite bool_decide_eq_true_2; done. Qed.

(** A fallible result: the [(value, error)] pairs whose value is meaningless
    when the error is set. *)
Inductive res (A : Type) : Type :=
  | Ok (a : A)
  | Err (e : err).
Arguments Ok {A} a.
Arguments Err {A} e.

#[export] Instance res_eq_dec `{EqDecision A} : EqDecision (res A).
Proof. solve_decision. Defined.

#[export] Instance res_ret : MRet res := @Ok.
#[export] Instance res_bind : MBind res := λ A B f r,
  match r with Ok a => f a | Err e => Err e end.
#[export] Instance res_fmap : FMap res := λ A B f r,
  match r with Ok a => Ok (f a) | Err e => Err e end.

Definition is_Ok {A} (r : res A) : bool := match r with Ok _ => true | Err _ => false end.

(** ** Effects

    Stateful code runs in a world: the component's state and a step counter.
    Everything the environment decides (whether a statement fails, what the
    wall clock reads, how large a file is) is a function of the step at which
    the code asks; a theorem that holds for every environment holds for every
    way the outside world can behave. *)

Record world (S : Type) := mkWorld { st : S; tick : nat }.
Arguments mkWorld {S} st tick.
Arguments st {S} w.
Arguments tick {S} w.

Definition M (S A : Type) : Type := world S → A * world S.

#[export] Instance M_ret {S} : MRet (M S) := λ A a w, (a, w).
#[export] Instance M_bind {S} : MBind (M S) := λ A B f m w,
  let '(a, w') := m w in f a w'.

Class Env := {
  (** driver error of the statement executed at a step, if it fails *)
  fault : nat → option err;
  (** wall clock read at a step: nanoseconds since the Unix epoch *)
  clock : nat → Z;
  (** whether the request or cycle context is done at a step *)
  ctx_done : nat → bool;
}.

(** An environment whose statements never fail and whose context stays open. *)
Definition fault_free (E : Env) : Prop :=
  (∀ n, @fault E n = None) ∧ (∀ n, @ctx_done E n = false).

(** The clock never runs backwards. *)
Definition clock_mono (E : Env) : Prop := ∀ i j, (i <= j)%nat → @clock E i <= @clock E j.

Section Effects.
Context {E : Env} {S : Type}.

(** The clock read at a step: one step of the world. *)
Definition now : M S Z := λ w,
  (clock (tick w), mkWorld (st w) (Datatypes.S (tick w))).

(** [ctx.Err()] *)
Definition ctxErr : M S (option err) := λ w,
  (if ctx_done (tick w) then Some ErrCtx else None,
   mkWorld (st w) (Datatypes.S (tick w))).

(** One SQL statement: it fails as the environment says, or because a
    constraint of the schema refuses it, and then changes nothing; or it runs
    to completion at the instant [clock tick]. *)
Definition stmt {A} (f : Z → S → res (A * S)) : M S (res A) := λ w,
  let w' := mkWorld (st w) (Datatypes.S (tick w)) in
  match fault (tick w) with
  | Some e => (Err e, w')
  | None =>
      match f (clock (tick w)) (st w) with
      | Ok (a, s') => (Ok a, mkWorld s' (Datatypes.S (tick w)))
      | Err e => (Err e, w')
      end
  end.

(** [Result.RowsAffected]: the driver hands out the count or an error. *)
Definition RowsAffected (n : Z) : M S (res Z) := stmt (λ _ s, Ok (n, s)).

Definition get : M S S := λ w, (st w, w).
Definition put (s : S) : M S () := λ w, ((), mkWorld s (tick w)).
End Effects.

Lemma RowsAffected_run {E : Env} {S : Type} n (w : world S) :
  RowsAffected n w = (match fault (tick w) with Some e => Err e | None => Ok n end, mkWorld (st w) (Datatypes.S (tick w))).
Proof. unfold RowsAffected, stmt. by destruct (fault (tick w)). Qed.

(** Closed bounds on integers, by evaluation. *)
Ltac by_compute :=
  repeat split; first [apply Z.leb_le | apply Z.ltb_lt | idtac]; vm_compute; reflexivity.

(** A closed decidable proposition, by evaluating its decision. *)
Ltac by_decide := apply (bool_decide_eq_true_1 _); vm_compute; reflexivity.

(** Unfolds the state monad in a hypothesis or the goal. *)
Ltac unfold_M := unfold mbind, mret, M_bind, M_ret in *.

(** ** Relating the states before and after a program

    [moves R m]: whatever the world, running [m] takes its state to an
    [R]-related one.  With [R] a preorder the rule for [bind] is composition;
    an invariant [P] is the relation [λ s s', P s → P s']. *)

Definition moves {S A} (R : S → S → Prop) (m : M S A) : Prop :=
  ∀ w, R (st w) (st (m w).2).

Section Moves.
Context {E : Env} {S : Type} (R : S → S → Prop) `{!PreOrder R}.

Lemma moves_ret {A} (a : A) : moves R (mret a : M S A).
Proof. intros w. reflexivity. Qed.

Lemma moves_bind {A B} (m : M S A) (k : A → M S B) :
  moves R m → (∀ a, moves R (k a)) → moves R (m ≫= k).
Proof.
  intros Hm Hk w. specialize (Hm w). unfold mbind, M_bind.
  destruct (m w) as [a w']. cbn in *. etransitivity; [exact Hm|apply Hk].
Qed.

Lemma moves_now : moves R now.
Proof. intros w. reflexivity. Qed.

Lemma moves_ctxErr : moves R ctxErr.
Proof. intros w. reflexivity. Qed.

Lemma moves_RowsAffected n : moves R (RowsAffected n).
Proof. intros w. rewrite RowsAffected_run. reflexivity. Qed.

Lemma moves_stmt {A} (f : Z → S → res (A * S)) :
  (∀ n s a s', f (clock n) s = Ok (a, s') → R s s') → moves R (stmt f).
Proof.
  intros Hf w. unfold stmt. destruct (fault (tick w)); [reflexivity|].
  destruct (f _ (st w)) as [[a s']|e] eqn:Ef; cbn; [by eapply Hf|reflexivity].
Qed.
End Moves.

#[export] Instance implies_preorder {S} (P : S → Prop) : PreOrder (λ s s', P s → P s').
Proof. split; repeat intro; auto. Qed.

Create HintDb moves.
#[export] Hint Resolve moves_ret moves_now moves_ctxErr moves_RowsAffected : moves.

(** Splits a program along its binds and matches. *)
Ltac moves_step :=
  match goal with
  | |- PreOrder _ => apply _
  | |- moves _ (mret _) => apply moves_ret
  | |- moves _ (mbind _ _) => apply moves_bind
  | |- moves _ (match ?x with _ => _ end) => destruct x
  | |- moves _ now => apply moves_now
  | |- moves _ ctxErr => apply moves_ctxErr
  | |- moves _ (RowsAffected _) => apply moves_RowsAffected
  | |- ∀ _, _ => intro
  end.

(** ** Lists *)

Lemma NoDup_fmap_filter {A B} (f : A → B) (P : A → Prop) `{∀ x, Decision (P x)} (l : list A) :
  NoDup (f <$> l) → NoDup (f <$> filter P l).
Proof.
  induction l as [|x l IH]; [done|]. rewrite fmap_cons, NoDup_cons. intros [Hx Hl].
  rewrite filter_cons. case_decide; [|by apply IH].
  rewrite fmap_cons, NoDup_cons. split; [|by apply IH].
  intros Hin. apply Hx. apply list_elem_of_fmap in Hin as (y & -> & Hy).
  apply list_elem_of_filter in Hy as [_ Hy]. by apply list_elem_of_fmap_2.
Qed.

Lemma filter_none {A} (P : A → Prop) `{∀ x, Decision (P x)} (l : list A) :
  (∀ x, x ∈ l → ¬ P x) → filter P l = [].
Proof.
  induction l as [|x l IH]; [done|]. intros Hl. rewrite filter_cons, decide_False.
  - apply IH. intros y Hy. apply Hl. by right.
  - apply Hl. by left.
Qed.

Lemma filter_all {A} (P : A → Prop) `{∀ x, Decision (P x)} (l : list A) :
  (∀ x, x ∈ l → P x) → filter P l = l.
Proof.
  induction l as [|x l IH]; [done|]. intros Hl. rewrite filter_cons, decide_True.
  - f_equal. apply IH. intros y Hy. apply Hl. by right.
  - apply Hl. by left.
Qed.

(** With unique keys, selecting by the key of a member selects that member. *)
Lemma filter_key_unique {A K} `{EqDecision K} (key : A → K) (l : list A) (x : A) :
  NoDup (key <$> l) → x ∈ l → filter (λ y, key y = key x) l = [x].
Proof.
  induction l as [|y l IH]; [by intros ? ?%not_elem_of_nil|].
  rewrite fmap_cons, NoDup_cons. intros [Hy Hl] Hx. rewrite filter_cons.
  apply elem_of_cons in Hx as [->|Hx].
  - rewrite decide_True by done. f_equal.
    apply filter_none. intros z Hz Heq. apply Hy. rewrite <- Heq.
    by apply list_elem_of_fmap_2.
  - rewrite decide_False; [by apply IH|].
    intros Heq. apply Hy. rewrite Heq. by apply list_elem_of_fmap_2.
Qed.

Lemma key_inj {A K} (key : A → K) (l : list A) x y :
  NoDup (key <$> l) → x ∈ l → y ∈ l → key x = key y → x = y.
Proof.
  induction l as [|z l IH]; [by intros ? ?%not_elem_of_nil|].
  rewrite fmap_cons, NoDup_cons. intros [Hz Hl] Hx Hy Heq.
  apply elem_of_cons in Hx as [->|Hx]; apply elem_of_cons in Hy as [->|Hy]; try done.
  - exfalso. apply Hz. rewrite Heq. by apply list_elem_of_fmap_2.
  - exfalso. apply Hz. rewrite <- Heq. by apply list_elem_of_fmap_2.
  - by apply IH.
Qed.

(** Removing a key from a list with unique keys shortens it by one. *)
Lemma length_filter_ne {A K} `{EqDecision K} (key : A → K) (l : list A) (x : A) :
  NoDup (key <$> l) → x ∈ l →
  S (length (filter (λ y, key y ≠ key x) l)) = length l.
Proof.
  induction l as [|y l IH]; [by intros ? ?%not_elem_of_nil|].
  rewrite fmap_cons, NoDup_cons. intros [Hy Hl] Hx. rewrite filter_cons.
  apply elem_of_cons in Hx as [->|Hx].
  - rewrite decide_False by (intros ?; done). cbn. f_equal. f_equal.
    apply filter_all. intros z Hz Heq. apply Hy. rewrite <- Heq.
    by apply list_elem_of_fmap_2.
  - rewrite decide_True; [cbn; by rewrite IH|].
    intros Heq. apply Hy. rewrite Heq. by apply list_elem_of_fmap_2.
Qed.

(** An element of the right list of a [Forall2] has a partner on the left. *)
Lemma Forall2_elem_r {A B} (R : A → B → Prop) l k y :
  Forall2 R l k → y ∈ k → ∃ x, x ∈ l ∧ R x y.
Proof.
  induction 1 as [|x' y' l k Hr _ IH]; [by intros ?%not_elem_of_nil|].
  intros [->|Hy]%elem_of_cons; [exists x'; split; [by left|done]|].
  destruct (IH Hy) as (x & Hx & Hxy). exists x. split; [by right|done].
Qed.

(** ** Steps only go forward *)

Definition ticks {S A} (m : M S A) : Prop := ∀ w, (tick w <= tick (m w).2)%nat.

Section Ticks.
Context {E : Env} {S : Type}.

Lemma ticks_ret {A} (a : A) : ticks (mret a : M S A).
Proof. intros w. done. Qed.

Lemma ticks_bind {A B} (m : M S A) (k : A → M S B) : ticks m → (∀ a, ticks (k a)) → ticks (m ≫= k).
Proof.
  intros Hm Hk w. specialize (Hm w). unfold mbind, M_bind. destruct (m w) as [a w']. cbn in *.
  specialize (Hk a w'). lia.
Qed.

Lemma ticks_now : ticks (now (S := S)).
Proof. intros w. cbn. lia. Qed.

Lemma ticks_ctxErr : ticks (ctxErr (S := S)).
Proof. intros w. cbn. lia. Qed.

Lemma ticks_stmt {A} (f : Z → S → res (A * S)) : ticks (stmt f).
Proof. intros w. unfold stmt. destruct (fault _); [cbn; lia|]. destruct (f _ _) as [[a s']|e]; cbn; lia. Qed.
End Ticks.

#[export] Hint Resolve ticks_ret ticks_now ticks_ctxErr : moves.

(** Splits a program along its binds and matches. *)
Ltac ticks_step :=
  match goal with
  | |- ticks (mret _) => apply ticks_ret
  | |- ticks (mbind _ _) => apply ticks_bind
  | |- ticks (match ?x with _ => _ end) => destruct x
  | |- ticks now => apply ticks_now
  | |- ticks ctxErr => apply ticks_ctxErr
  | |- ticks (stmt _) => apply ticks_stmt
  | |- ticks (RowsAffected _) => apply ticks_stmt
  | |- ∀ _, _ => intro
  end.

(** ** How often the environment starts to fail

    A statement that fails right after one that went through may cut a sequence of
    statements in two; [onsets a b] counts such steps from [a] up to [b]. *)

Section Onsets.
Context {E : Env}.

Definition onset (i : nat) : Prop := fault i = None ∧ is_Some (fault (S i)).

#[export] Instance onset_dec i : Decision (onset i).
Proof.
  unfold onset. destruct (fault i); [right; by intros []|].
  destruct (fault (S i)); [left; by split; [|eexists]|right; intros [_ [? ?]]; done].
Defined.

Definition onsets (a b : nat) : nat := length (filter onset (seq a (b - a))).

Lemma onsets_split a b c : (a <= b <= c)%nat → onsets a c = (onsets a b + onsets b c)%nat.
Proof.
  intros H. unfold onsets. replace (c - a)%nat with ((b - a) + (c - b))%nat by lia.
  rewrite seq_app, filter_app, length_app. by replace (a + (b - a))%nat with b by lia.
Qed.

Lemma onsets_one a b i : (a <= i < b)%nat → onset i → (1 <= onsets a b)%nat.
Proof.
  intros Hi Ho. unfold onsets. assert (Hin : i ∈ filter onset (seq a (b - a))).
  { apply list_elem_of_filter. split; [done|]. apply elem_of_seq. lia. }
  destruct (filter _ _); [by apply not_elem_of_nil in Hin|cbn; lia].
Qed.

Lemma onsets_none a b : (∀ n, fault n = None) → onsets a b = 0%nat.
Proof.
  intros H. unfold onsets. replace (filter onset _) with (@nil nat); [done|].
  symmetry. apply filter_none. intros i _ [_ [e He]]. by rewrite H in He.
Qed.
End Onsets.
