(* ===== verification/GoTime.v ===== *)
(** * Go's [time] package, as far as the repository uses it

    Instants and durations in nanoseconds, [Sub] with its saturation, the zero
    [Time], the civil calendar behind [Format]/[Parse], the
    ["2006-01-02 15:04:05"] rendering SQLite's [CURRENT_TIMESTAMP] also emits,
    and [time.ParseInLocation] for the four layouts [parseSQLiteTime] tries. *)
From Stdlib Require Import Ascii ZArith Lia.
From S2P Require Import Prelude.

(** ** Durations and instants *)

Definition Nanosecond : Z := 1.
Definition Millisecond : Z := 1000000.
Definition Second : Z := 1000000000.
Definition Minute : Z := 60 * Second.
Definition Hour : Z := 60 * Minute.

(** The zero [time.Time]: January 1, year 1, 00:00:00 UTC. *)
Definition zero_time : Z := -62135596800 * Second.

Definition IsZero (t : Z) : bool := t =? zero_time.
Definition After (t u : Z) : bool := u <? t.
Definition Before (t u : Z) : bool := t <? u.
Definition TimeAdd (t d : Z) : Z := t + d.

(** [t.Sub(u)] saturates at the ends of [time.Duration]. *)
Definition TimeSub (t u : Z) : Z := sat64 (t - u).

(** Whole Unix seconds of an instant. *)
Definition Unix (t : Z) : Z := t / Second.

(** ** The proleptic Gregorian calendar

    Years are counted from March 1, so that the leap day is the last day of a
    year, in 400-year eras of 146097 days. *)

(** Day of an era to (year of era, day of year). *)
Definition yoe_doy (doe : Z) : Z * Z :=
  let c := Z.min 3 (doe / 36524) in
  let r1 := doe - 36524 * c in
  let q := Z.min 24 (r1 / 1461) in
  let r2 := r1 - 1461 * q in
  let y := Z.min 3 (r2 / 365) in
  (100 * c + 4 * q + y, r2 - 365 * y).

(** Day of a March-based year to (month counted from March, day of month). *)
Definition month_day (doy : Z) : Z * Z :=
  let mp := (5 * doy + 2) / 153 in
  (mp, doy - (153 * mp + 2) / 5 + 1).

Definition civil_from_days (days : Z) : Z * Z * Z :=
  let z := days + 719468 in
  let '(yoe, doy) := yoe_doy (z mod 146097) in
  let '(mp, d) := month_day doy in
  let y := yoe + 400 * (z / 146097) in
  if mp <? 10 then (y, mp + 3, d) else (y + 1, mp - 9, d).

Definition days_from_civil (y m d : Z) : Z :=
  let '(y, mp) := if m <=? 2 then (y - 1, m + 9) else (y, m - 3) in
  let yoe := y mod 400 in
  let doy := (153 * mp + 2) / 5 + d - 1 in
  (y / 400) * 146097 + (yoe * 365 + yoe / 4 - yoe / 100 + doy) - 719468.

Definition is_leap (y : Z) : bool :=
  (y mod 4 =? 0) && (negb (y mod 100 =? 0) || (y mod 400 =? 0)).

Definition days_in (m y : Z) : Z :=
  if m =? 2 then (if is_leap y then 29 else 28)
  else if (m =? 4) || (m =? 6) || (m =? 9) || (m =? 11) then 30 else 31.

(** The date as one number, increasing with the date. *)
Definition date_key (ymd : Z * Z * Z) : Z :=
  let '(y, m, d) := ymd in y * 10000 + m * 100 + d.

(** *** The calendar is correct *)

Ltac div_lia := Z.to_euclidean_division_equations; lia.

Lemma yoe_doy_spec doe :
  0 <= doe < 146097 →
  let '(yoe, doy) := yoe_doy doe in
  0 <= yoe < 400 ∧ 0 <= doy <= 365 ∧
  yoe * 365 + yoe / 4 - yoe / 100 + doy = doe ∧
  (doy = 365 → is_leap (yoe + 1) = true).
Proof.
  intros H. unfold yoe_doy.
  set (c := Z.min 3 (doe / 36524)).
  set (r1 := doe - 36524 * c).
  set (q := Z.min 24 (r1 / 1461)).
  set (r2 := r1 - 1461 * q).
  set (y := Z.min 3 (r2 / 365)).
  assert (0 <= c <= 3 ∧ 0 <= r1 <= 36524 ∧ (c < 3 → r1 < 36524)) as (Hc & Hr1 & Hr1').
  { unfold r1, c. div_lia. }
  assert (0 <= q <= 24 ∧ 0 <= r2 <= 1460 ∧ (q = 24 → c < 3 → r2 < 1460)) as (Hq & Hr2 & Hr2').
  { unfold r2, q. div_lia. }
  assert (0 <= y <= 3 ∧ 0 <= r2 - 365 * y <= 365 ∧ (r2 - 365 * y = 365 → y = 3 ∧ r2 = 1460))
    as (Hy & Hd & Hd').
  { unfold y. div_lia. }
  assert (doe = 36524 * c + 1461 * q + r2) as Hdoe by (unfold r2, r1; lia).
  assert ((100 * c + 4 * q + y) / 4 = 25 * c + q) as H4 by div_lia.
  assert ((100 * c + 4 * q + y) / 100 = c) as H100 by div_lia.
  assert (r2 = 1460 → q = 24 → c = 3) as Hl' by lia.
  clearbody y r2 q r1 c.
  repeat split; lia || idtac.
  intros Hl. destruct (Hd' Hl) as [-> ->]. unfold is_leap.
  div_lia.
Qed.

Lemma month_day_spec doy :
  0 <= doy <= 365 →
  let '(mp, d) := month_day doy in
  0 <= mp <= 11 ∧ (153 * mp + 2) / 5 + d - 1 = doy ∧ 1 <= d <= 31.
Proof. intros H. unfold month_day. div_lia. Qed.

Lemma civil_from_days_roundtrip days :
  let '(y, m, d) := civil_from_days days in
  days_from_civil y m d = days ∧ 1 <= m <= 12 ∧ 1 <= d <= 31.
Proof.
  unfold civil_from_days.
  set (z := days + 719468).
  pose proof (Z.mod_pos_bound z 146097 ltac:(lia)) as Hb.
  pose proof (Z.div_mod z 146097 ltac:(lia)) as Hz.
  pose proof (yoe_doy_spec _ Hb) as Hy. destruct (yoe_doy _) as [yoe doy].
  destruct Hy as (Hyoe & Hdoy & Heq & _).
  pose proof (month_day_spec _ Hdoy) as Hm. destruct (month_day _) as [mp d].
  destruct Hm as (Hmp & Heq2 & Hd).
  assert (∀ e, (yoe + 400 * e) / 400 = e ∧ (yoe + 400 * e) mod 400 = yoe) as Hera.
  { intros e. div_lia. }
  specialize (Hera (z / 146097)) as [He1 He2].
  destruct (mp <? 10) eqn:Hlt; unfold days_from_civil.
  - destruct (mp + 3 <=? 2) eqn:?; [lia|].
    rewrite He1, He2. replace (mp + 3 - 3) with mp by lia. lia.
  - destruct (mp - 9 <=? 2) eqn:?; [|lia].
    replace (yoe + 400 * (z / 146097) + 1 - 1) with (yoe + 400 * (z / 146097)) by lia.
    rewrite He1, He2. replace (mp - 9 + 9) with mp by lia. lia.
Qed.

Lemma is_leap_era y e : is_leap (y + 400 * e) = is_leap y.
Proof.
  unfold is_leap.
  replace ((y + 400 * e) mod 4) with (y mod 4) by div_lia.
  replace ((y + 400 * e) mod 100) with (y mod 100) by div_lia.
  replace ((y + 400 * e) mod 400) with (y mod 400) by div_lia.
  done.
Qed.

(** Every day of the March-based year falls inside its month. *)
Lemma month_day_bound doy y :
  0 <= doy <= 365 → (doy = 365 → is_leap y = true) →
  let '(mp, d) := month_day doy in
  d <= days_in (if mp <? 10 then mp + 3 else mp - 9) y.
Proof.
  intros H Hleap. pose proof (month_day_spec doy H) as Hm.
  assert (∀ mp d, month_day doy = (mp, d) → mp = 11 → d <= 28 ∨ (doy = 365 ∧ d = 29)) as Hfeb.
  { unfold month_day. intros mp d [= <- <-]. div_lia. }
  assert (∀ mp d, month_day doy = (mp, d) →
    (mp = 1 ∨ mp = 3 ∨ mp = 6 ∨ mp = 8) → d <= 30) as H30.
  { unfold month_day. intros mp d [= <- <-]. div_lia. }
  destruct (month_day doy) as [mp d]. destruct Hm as (Hmp & _ & Hd).
  specialize (Hfeb _ _ eq_refl). specialize (H30 _ _ eq_refl).
  unfold days_in.
  destruct (is_leap y) eqn:El; repeat case_match; try lia.
Qed.

Lemma civil_from_days_valid days :
  let '(y, m, d) := civil_from_days days in d <= days_in m y.
Proof.
  unfold civil_from_days. set (z := days + 719468).
  pose proof (Z.mod_pos_bound z 146097 ltac:(lia)) as Hb.
  pose proof (yoe_doy_spec _ Hb) as Hy. destruct (yoe_doy _) as [yoe doy].
  destruct Hy as (Hyoe & Hdoy & _ & Hleap).
  assert (doy = 365 → is_leap (yoe + 400 * (z / 146097) + 1) = true) as Hleap'.
  { intros ->. replace (yoe + 400 * (z / 146097) + 1)
      with (yoe + 1 + 400 * (z / 146097)) by lia. rewrite is_leap_era. by apply Hleap. }
  pose proof (month_day_bound doy _ Hdoy Hleap') as Hm.
  pose proof (month_day_spec doy Hdoy) as Hs.
  destruct (month_day doy) as [mp d]. destruct (mp <? 10) eqn:Hlt; [|done].
  destruct Hs as (Hmp & _ & Hd).
  revert Hm. unfold days_in. destruct (mp + 3 =? 2) eqn:E; [lia|]. done.
Qed.

(** Later days have larger date keys: the textual date order is the order of
    the calendar. *)
Lemma month_day_mono a b :
  0 <= a → a < b → b <= 365 →
  let '(ma, da) := month_day a in let '(mb, db) := month_day b in
  ma * 100 + da < mb * 100 + db.
Proof. intros Ha Hab Hb. unfold month_day. div_lia. Qed.

Lemma date_key_mono a b :
  a < b → date_key (civil_from_days a) < date_key (civil_from_days b).
Proof.
  intros Hab. unfold civil_from_days.
  set (za := a + 719468). set (zb := b + 719468).
  pose proof (Z.mod_pos_bound za 146097 ltac:(lia)) as Hba.
  pose proof (Z.mod_pos_bound zb 146097 ltac:(lia)) as Hbb.
  pose proof (Z.div_mod za 146097 ltac:(lia)) as Hza.
  pose proof (Z.div_mod zb 146097 ltac:(lia)) as Hzb.
  pose proof (yoe_doy_spec _ Hba) as Hya. pose proof (yoe_doy_spec _ Hbb) as Hyb.
  destruct (yoe_doy (za mod 146097)) as [ya da], (yoe_doy (zb mod 146097)) as [yb db].
  destruct Hya as (Hya & Hda & Hea & _), Hyb as (Hyb & Hdb & Heb & _).
  assert (ya + 400 * (za / 146097) < yb + 400 * (zb / 146097) ∨
          (ya + 400 * (za / 146097) = yb + 400 * (zb / 146097) ∧ da < db)) as Hlex.
  { assert (za < zb) by lia. clear Hab. 
    generalize dependent (za / 146097). generalize dependent (zb / 146097).
    intros ea Eea eb Eeb. div_lia. }
  pose proof (month_day_spec da Hda) as Hma. pose proof (month_day_spec db Hdb) as Hmb.
  pose proof (month_day_mono da db) as Hmono.
  destruct (month_day da) as [ma dda], (month_day db) as [mb ddb].
  destruct Hma as (Hma & _ & Hdda), Hmb as (Hmb & _ & Hddb).
  destruct (ma <? 10) eqn:?, (mb <? 10) eqn:?; unfold date_key;
    destruct Hlex as [Hlex|[Hlex Hlt]]; lia || (specialize (Hmono ltac:(lia) Hlt ltac:(lia)); lia).
Qed.

(** The years whose dates are written with four digits. *)
Definition min_unix : Z := -62167219200.
Definition max_unix : Z := 253402300799.

Lemma civil_year_range days :
  min_unix / 86400 <= days <= max_unix / 86400 →
  let '(y, _, _) := civil_from_days days in 0 <= y <= 9999.
Proof.
  intros [Hlo Hhi].
  assert (date_key (civil_from_days (min_unix / 86400)) <= date_key (civil_from_days days)) as Hk1.
  { destruct (decide (days = min_unix / 86400)) as [->|]; [lia|].
    apply Z.lt_le_incl, date_key_mono. lia. }
  assert (date_key (civil_from_days days) <= date_key (civil_from_days (max_unix / 86400))) as Hk2.
  { destruct (decide (days = max_unix / 86400)) as [->|]; [lia|].
    apply Z.lt_le_incl, date_key_mono. lia. }
  change (date_key (civil_from_days (min_unix / 86400))) with 101 in Hk1.
  change (date_key (civil_from_days (max_unix / 86400))) with 99991231 in Hk2.
  pose proof (civil_from_days_roundtrip days) as Hr.
  destruct (civil_from_days days) as [[y m] d]. unfold date_key in *. lia.
Qed.

(** ** Fixed-width decimal fields *)

Definition digit (d : Z) : Ascii.ascii := Ascii.ascii_of_N (Z.to_N (48 + d)).

Definition digit_val (c : Ascii.ascii) : option Z :=
  let n := Z.of_N (Ascii.N_of_ascii c) in
  if (48 <=? n) && (n <=? 57) then Some (n - 48) else None.

Definition pad2 (n : Z) (rest : string) : string :=
  String (digit (n / 10)) (String (digit (n mod 10)) rest).

Definition pad4 (n : Z) (rest : string) : string := pad2 (n / 100) (pad2 (n mod 100) rest).

(** [getnum(value, true)]: exactly two digits. *)
Definition getnum_fixed (s : string) : option (Z * string) :=
  match s with
  | String a (String b rest) =>
      da ← digit_val a; db ← digit_val b; Some (10 * da + db, rest)
  | _ => None
  end.

(** [getnum(value, false)]: one or two digits. *)
Definition getnum (s : string) : option (Z * string) :=
  match s with
  | String a rest =>
      da ← digit_val a;
      match rest with
      | String b rest' =>
          match digit_val b with
          | Some db => Some (10 * da + db, rest')
          | None => Some (da, rest)
          end
      | EmptyString => Some (da, rest)
      end
  | EmptyString => None
  end.

(** [stdLongYear]: four digits. *)
Definition getyear (s : string) : option (Z * string) :=
  '(hi, s1) ← getnum_fixed s; '(lo, s2) ← getnum_fixed s1; Some (100 * hi + lo, s2).

(** A layout literal other than a space must be matched exactly. *)
Definition lit (c : Ascii.ascii) (s : string) : option string :=
  match s with
  | String c' rest => if bool_decide (c = c') then Some rest else None
  | EmptyString => None
  end.

Fixpoint cutspace (s : string) : string :=
  match s with
  | String c rest => if bool_decide (c = " "%char) then cutspace rest else s
  | EmptyString => s
  end.

(** A space in the layout accepts any number of spaces, and the end of input. *)
Definition lit_space (s : string) : option string :=
  match s with
  | String c _ => if bool_decide (c = " "%char) then Some (cutspace s) else None
  | EmptyString => Some s
  end.

Fixpoint span_digits (s : string) : list Z * string :=
  match s with
  | String c rest =>
      match digit_val c with
      | Some d => let '(ds, r) := span_digits rest in (d :: ds, r)
      | None => ([], s)
      end
  | EmptyString => ([], s)
  end.

(** [parseNanoseconds]: at most nine digits count, scaled to nanoseconds. *)
Definition nanos_of_digits (ds : list Z) : Z :=
  let ds := take 9 ds in
  fold_left (λ acc d, 10 * acc + d) ds 0 * 10 ^ (9 - Z.of_nat (length ds)).

(** The fractional second that may follow the seconds field, whether the
    layout asks for it or not. *)
Definition opt_fraction (s : string) : Z * string :=
  match s with
  | String c (String d _ as rest) =>
      if (bool_decide (c = "."%char) || bool_decide (c = ","%char)) &&
         bool_decide (is_Some (digit_val d))
      then let '(ds, r) := span_digits rest in (nanos_of_digits ds, r)
      else (0, s)
  | _ => (0, s)
  end.

(** The ["Z07:00"] zone of RFC 3339: seconds east of UTC. *)
Definition getzone (s : string) : option (Z * string) :=
  match s with
  | String c rest =>
      if bool_decide (c = "Z"%char) then Some (0, rest) else
      '(hh, r1) ← getnum_fixed rest;
      r2 ← lit ":" r1;
      '(mm, r3) ← getnum_fixed r2;
      if (24 <? hh) || (60 <? mm) then None
      else if bool_decide (c = "+"%char) then Some ((hh * 60 + mm) * 60, r3)
      else if bool_decide (c = "-"%char) then Some (- ((hh * 60 + mm) * 60), r3)
      else None
  | EmptyString => None
  end.

(** The layouts of [parseSQLiteTime] differ in the separator between date and
    time and in the presence of a zone; the fraction is always accepted. *)
Record layout := Layout { l_sepT : bool; l_zone : bool }.

Definition parse_in_utc (l : layout) (s : string) : option Z :=
  '(y, s) ← getyear s;
  s ← lit "-" s;
  '(m, s) ← getnum_fixed s;
  _ ← guard (1 <= m <= 12);
  s ← lit "-" s;
  '(d, s) ← getnum_fixed s;
  s ← (if l_sepT l then lit "T" s else lit_space s);
  '(hh, s) ← getnum s;
  _ ← guard (hh < 24);
  s ← lit ":" s;
  '(mi, s) ← getnum_fixed s;
  _ ← guard (mi < 60);
  s ← lit ":" s;
  '(ss, s) ← getnum_fixed s;
  _ ← guard (ss < 60);
  let '(ns, s) := opt_fraction s in
  '(off, s) ← (if l_zone l then getzone s else Some (0, s));
  _ ← guard (s = EmptyString);
  _ ← guard (1 <= d <= days_in m y);
  Some ((days_from_civil y m d * 86400 + hh * 3600 + mi * 60 + ss - off) * Second + ns).

(** ** [time.Format] with the two renderings that occur *)

Definition fmt_clock (sod : Z) (rest : string) : string :=
  pad2 (sod / 3600) (String ":" (pad2 (sod / 60 mod 60) (String ":" (pad2 (sod mod 60) rest)))).

Definition fmt_secs (sep : Ascii.ascii) (secs : Z) (rest : string) : string :=
  let '(y, m, d) := civil_from_days (secs / 86400) in
  pad4 y (String "-" (pad2 m (String "-" (pad2 d (String sep (fmt_clock (secs mod 86400) rest)))))).

(** [t.UTC().Format("2006-01-02 15:04:05")], also SQLite's [CURRENT_TIMESTAMP]. *)
Definition format_datetime (t : Z) : string := fmt_secs " " (Unix t) "".

(** [t.UTC().Format(time.RFC3339)] *)
Definition format_rfc3339 (t : Z) : string := fmt_secs "T" (Unix t) "Z".

Example format_epoch : format_datetime 1743942896000000000 = "2025-04-06 12:34:56"%string.
Proof. reflexivity. Qed.

Example parse_fraction :
  parse_in_utc (Layout false false) "2025-04-06 12:34:56.5" = Some 1743942896500000000.
Proof. reflexivity. Qed.

Example parse_zone :
  parse_in_utc (Layout true true) "2025-04-06T14:34:56+02:00" = Some 1743942896000000000.
Proof. reflexivity. Qed.

Example parse_bad_day : parse_in_utc (Layout false false) "2025-02-29 12:34:56" = None.
Proof. reflexivity. Qed.

(** ** Formatting and parsing are inverse *)

Lemma digit_cases d :
  0 <= d < 10 →
  d = 0 ∨ d = 1 ∨ d = 2 ∨ d = 3 ∨ d = 4 ∨ d = 5 ∨ d = 6 ∨ d = 7 ∨ d = 8 ∨ d = 9.
Proof. lia. Qed.

Lemma digit_val_digit d : 0 <= d < 10 → digit_val (digit d) = Some d.
Proof.
  intros H. apply digit_cases in H.
  repeat (destruct H as [->|H]; [reflexivity|]). by subst.
Qed.

Lemma digit_not_space d : 0 <= d < 10 → digit d ≠ " "%char.
Proof.
  intros H Heq. pose proof (digit_val_digit d H) as Hd. by rewrite Heq in Hd.
Qed.

Lemma getnum_fixed_pad2 n rest : 0 <= n < 100 → getnum_fixed (pad2 n rest) = Some (n, rest).
Proof.
  intros H. unfold pad2, getnum_fixed.
  rewrite !digit_val_digit by div_lia. cbn. f_equal. f_equal. div_lia.
Qed.

Lemma getnum_pad2 n rest : 0 <= n < 100 → getnum (pad2 n rest) = Some (n, rest).
Proof.
  intros H. unfold pad2, getnum.
  rewrite !digit_val_digit by div_lia. cbn. f_equal. f_equal. div_lia.
Qed.

Lemma getyear_pad4 n rest : 0 <= n < 10000 → getyear (pad4 n rest) = Some (n, rest).
Proof.
  intros H. unfold pad4, getyear.
  rewrite getnum_fixed_pad2 by div_lia. cbn [mbind option_bind].
  rewrite getnum_fixed_pad2 by div_lia. cbn. f_equal. f_equal. div_lia.
Qed.

Lemma cutspace_pad2 n rest : 0 <= n < 100 → cutspace (pad2 n rest) = pad2 n rest.
Proof.
  intros H. unfold pad2. cbn [cutspace].
  rewrite bool_decide_eq_false_2; [done|]. apply digit_not_space. div_lia.
Qed.

Lemma lit_same c rest : lit c (String c rest) = Some rest.
Proof. unfold lit. by rewrite bool_decide_eq_true_2. Qed.

Lemma lit_space_space n rest :
  0 <= n < 100 → lit_space (String " " (pad2 n rest)) = Some (pad2 n rest).
Proof.
  intros H. unfold lit_space. rewrite bool_decide_eq_true_2 by done.
  cbn [cutspace]. rewrite bool_decide_eq_true_2 by done. by rewrite cutspace_pad2.
Qed.

#[export] Hint Rewrite getnum_fixed_pad2 getnum_pad2 getyear_pad4 lit_same lit_space_space
  using (first [lia | div_lia]) : nlm_simpl.

(** Runs a chain of option binds whose fields and guards are known to succeed. *)
Ltac opt_run :=
  repeat first
    [ progress cbn [mbind option_bind]
    | progress autorewrite with nlm_simpl
    | rewrite option_guard_True by (done || lia) ].

Definition four_digit_year (t : Z) : Prop := min_unix <= Unix t <= max_unix.

(** Parsing recovers the instant, to the second, whichever of the two
    renderings the text has. *)
Lemma parse_fmt_fraction l rest ns rest' secs :
  min_unix <= secs <= max_unix →
  opt_fraction rest = (ns, rest') →
  (if l_zone l then getzone rest' else Some (0, rest')) = Some (0, ""%string) →
  parse_in_utc l (fmt_secs (if l_sepT l then "T"%char else " "%char) secs rest)
  = Some (secs * Second + ns).
Proof.
  intros Hr Hfrac Hzone. unfold fmt_secs.
  pose proof (civil_year_range (secs / 86400)) as Hy.
  pose proof (civil_from_days_roundtrip (secs / 86400)) as Hrt.
  pose proof (civil_from_days_valid (secs / 86400)) as Hv.
  destruct (civil_from_days (secs / 86400)) as [[y m] d].
  specialize (Hy ltac:(unfold min_unix, max_unix in *; div_lia)).
  destruct Hrt as (Hrt & Hm & Hd).
  pose proof (Z.mod_pos_bound secs 86400 ltac:(lia)) as Hsod.
  pose proof (Z.div_mod secs 86400 ltac:(lia)) as Hdm.
  remember (secs mod 86400) as sod.
  assert (0 <= sod / 3600 < 24 ∧ 0 <= sod / 60 mod 60 < 60 ∧ 0 <= sod mod 60 < 60) as (Hh & Hmi & Hs)
    by div_lia.
  unfold parse_in_utc, fmt_clock. opt_run.
  assert ((if l_sepT l
           then lit "T" (String (if l_sepT l then "T"%char else " "%char) (pad2 (sod / 3600)
                  (String ":" (pad2 (sod / 60 mod 60) (String ":" (pad2 (sod mod 60) rest))))))
           else lit_space (String (if l_sepT l then "T"%char else " "%char) (pad2 (sod / 3600)
                  (String ":" (pad2 (sod / 60 mod 60) (String ":" (pad2 (sod mod 60) rest)))))))
          = Some (pad2 (sod / 3600)
                  (String ":" (pad2 (sod / 60 mod 60) (String ":" (pad2 (sod mod 60) rest)))))) as ->.
  { destruct (l_sepT l); [apply lit_same|apply lit_space_space; lia]. }
  opt_run. rewrite Hfrac, Hzone. opt_run.
  rewrite Hrt. do 3 f_equal. div_lia.
Qed.

Lemma parse_fmt_secs l rest secs :
  min_unix <= secs <= max_unix →
  opt_fraction rest = (0, rest) →
  (if l_zone l then getzone rest else Some (0, rest)) = Some (0, ""%string) →
  parse_in_utc l (fmt_secs (if l_sepT l then "T"%char else " "%char) secs rest)
  = Some (secs * Second).
Proof. intros Hr Hf Hz. by rewrite (parse_fmt_fraction l rest 0 rest), Z.add_0_r. Qed.

Lemma parse_format_datetime t :
  four_digit_year t →
  parse_in_utc (Layout false false) (format_datetime t) = Some (Unix t * Second).
Proof. intros H. by apply (parse_fmt_secs (Layout false false)). Qed.

Lemma parse_format_rfc3339 t :
  four_digit_year t →
  parse_in_utc (Layout true true) (format_rfc3339 t) = Some (Unix t * Second).
Proof. intros H. by apply (parse_fmt_secs (Layout true true)). Qed.

(** The text of one layout is not accepted by the other. *)
Lemma parse_space_rfc3339 t :
  four_digit_year t → parse_in_utc (Layout false false) (format_rfc3339 t) = None.
Proof.
  intros H. unfold format_rfc3339, fmt_secs, four_digit_year in *.
  pose proof (civil_year_range (Unix t / 86400)) as Hy.
  pose proof (civil_from_days_roundtrip (Unix t / 86400)) as Hrt.
  destruct (civil_from_days (Unix t / 86400)) as [[y m] d].
  specialize (Hy ltac:(unfold min_unix, max_unix in *; div_lia)).
  destruct Hrt as (_ & Hm & Hd). unfold parse_in_utc. by opt_run.
Qed.

(** ** The textual order of timestamps is the chronological one *)

Lemma digit_compare a b :
  0 <= a < 10 → 0 <= b < 10 → Ascii.compare (digit a) (digit b) = (a ?= b).
Proof.
  intros Ha Hb. unfold Ascii.compare, digit.
  rewrite !Ascii.N_ascii_embedding by lia.
  rewrite <- N2Z.inj_compare, !Z2N.id by lia.
  destruct (Z.compare_spec a b), (Z.compare_spec (48 + a) (48 + b)); lia || done.
Qed.

Lemma pad2_compare a b s t :
  0 <= a < 100 → 0 <= b < 100 →
  String.compare (pad2 a s) (pad2 b t)
  = match a ?= b with Eq => String.compare s t | c => c end.
Proof.
  intros Ha Hb. unfold pad2. cbn [String.compare].
  rewrite !digit_compare by div_lia.
  destruct (Z.compare_spec (a / 10) (b / 10)) as [H1|H1|H1];
    [destruct (Z.compare_spec (a mod 10) (b mod 10))|..];
    destruct (Z.compare_spec a b); try done; exfalso; div_lia.
Qed.

Lemma pad4_compare a b s t :
  0 <= a < 10000 → 0 <= b < 10000 →
  String.compare (pad4 a s) (pad4 b t)
  = match a ?= b with Eq => String.compare s t | c => c end.
Proof.
  intros Ha Hb. unfold pad4. rewrite !pad2_compare by div_lia.
  destruct (Z.compare_spec (a / 100) (b / 100)) as [H1|H1|H1];
    [destruct (Z.compare_spec (a mod 100) (b mod 100))|..];
    destruct (Z.compare_spec a b); try done; exfalso; div_lia.
Qed.

Lemma sep_compare c s t : String.compare (String c s) (String c t) = String.compare s t.
Proof.
  cbn [String.compare]. unfold Ascii.compare. by rewrite N.compare_refl.
Qed.

Lemma fmt_clock_compare a b s :
  0 <= a < 86400 → 0 <= b < 86400 →
  String.compare (fmt_clock a s) (fmt_clock b s)
  = match a ?= b with Eq => String.compare s s | c => c end.
Proof.
  intros Ha Hb. unfold fmt_clock.
  rewrite pad2_compare, sep_compare, pad2_compare, sep_compare, pad2_compare by div_lia.
  destruct (Z.compare_spec (a / 3600) (b / 3600)),
    (Z.compare_spec (a / 60 mod 60) (b / 60 mod 60)),
    (Z.compare_spec (a mod 60) (b mod 60)),
    (Z.compare_spec a b); try done; exfalso; div_lia.
Qed.

Lemma compare_date_key k1 k2 :
  let '(y1, m1, d1) := k1 in let '(y2, m2, d2) := k2 in
  1 <= m1 <= 12 → 1 <= m2 <= 12 → 1 <= d1 <= 31 → 1 <= d2 <= 31 →
  (date_key k1 ?= date_key k2)
  = match y1 ?= y2 with
    | Eq => match m1 ?= m2 with Eq => d1 ?= d2 | c => c end
    | c => c
    end.
Proof.
  destruct k1 as [[y1 m1] d1], k2 as [[y2 m2] d2]. cbn. intros.
  destruct (Z.compare_spec y1 y2), (Z.compare_spec m1 m2), (Z.compare_spec d1 d2);
    apply Z.compare_eq_iff || apply Z.compare_lt_iff || apply Z.compare_gt_iff; lia.
Qed.

Lemma format_datetime_compare t u :
  four_digit_year t → four_digit_year u →
  String.compare (format_datetime t) (format_datetime u) = (Unix t ?= Unix u).
Proof.
  intros Ht Hu. unfold format_datetime, fmt_secs, four_digit_year, min_unix, max_unix in *.
  set (a := Unix t) in *. set (b := Unix u) in *.
  pose proof (civil_year_range (a / 86400)) as Hya.
  pose proof (civil_year_range (b / 86400)) as Hyb.
  pose proof (civil_from_days_roundtrip (a / 86400)) as Hra.
  pose proof (civil_from_days_roundtrip (b / 86400)) as Hrb.
  pose proof (compare_date_key (civil_from_days (a / 86400)) (civil_from_days (b / 86400))) as Hk.
  pose proof (date_key_mono (a / 86400) (b / 86400)) as Hab.
  pose proof (date_key_mono (b / 86400) (a / 86400)) as Hba.
  assert (a / 86400 = b / 86400 →
    date_key (civil_from_days (a / 86400)) = date_key (civil_from_days (b / 86400))) as Hee
    by (intros ->; done).
  destruct (civil_from_days (a / 86400)) as [[y1 m1] d1],
           (civil_from_days (b / 86400)) as [[y2 m2] d2].
  destruct Hra as (_ & ? & ?), Hrb as (_ & ? & ?).
  specialize (Hya ltac:(unfold min_unix, max_unix; div_lia)).
  specialize (Hyb ltac:(unfold min_unix, max_unix; div_lia)).
  specialize (Hk ltac:(lia) ltac:(lia) ltac:(lia) ltac:(lia)).
  rewrite pad4_compare, sep_compare, pad2_compare, sep_compare, pad2_compare, sep_compare,
    fmt_clock_compare by div_lia.
  transitivity (match date_key (y1, m1, d1) ?= date_key (y2, m2, d2) with
    | Eq => a mod 86400 ?= b mod 86400 | c => c end).
  { rewrite Hk. destruct (y1 ?= y2); [|done..]. destruct (m1 ?= m2); [|done..].
    destruct (d1 ?= d2); [|done..]. by destruct (a mod 86400 ?= b mod 86400). }
  clear Hk. revert Hab Hba Hee. generalize (date_key (y1, m1, d1)) (date_key (y2, m2, d2)).
  intros k1 k2 Hab Hba Hee.
  destruct (Z.compare_spec k1 k2), (Z.compare_spec (a mod 86400) (b mod 86400)),
    (Z.compare_spec a b); try done; exfalso; div_lia.
Qed.
