(* ===== verification/GoStrings.v ===== *)
(** * Go's [strings] and [strconv] functions the repository uses

    Strings are byte sequences.  Case folding and white space follow Go on
    ASCII; bytes above 127 are left as they are (Go would look at the runes). *)
From Stdlib Require Import Ascii ZArith Lia.
From S2P Require Import Prelude GoTime.

Local Open Scope string_scope.

(** ** Slices *)

Fixpoint str_take (n : nat) (s : string) : string :=
  match n, s with
  | S n', String c s' => String c (str_take n' s')
  | _, _ => ""
  end.

Fixpoint str_drop (n : nat) (s : string) : string :=
  match n, s with
  | O, _ => s
  | S n', String _ s' => str_drop n' s'
  | S _, EmptyString => ""
  end.

Lemma str_take_drop n s : str_take n s ++ str_drop n s = s.
Proof. revert s. induction n as [|n IH]; intros [|c s]; cbn; try done. by rewrite IH. Qed.

Lemma string_app_assoc (a b c : string) : (a ++ b) ++ c = a ++ (b ++ c).
Proof. induction a as [|x a IH]; cbn; [done|]. by rewrite IH. Qed.

Lemma string_app_nil_r (a : string) : a ++ "" = a.
Proof. induction a as [|x a IH]; cbn; [done|]. by rewrite IH. Qed.

Lemma string_length_app (a b : string) :
  String.length (a ++ b) = (String.length a + String.length b)%nat.
Proof. induction a as [|x a IH]; cbn; [done|]. by rewrite IH. Qed.

Lemma str_drop_app a b : str_drop (String.length a) (a ++ b) = b.
Proof. induction a as [|c a IH]; cbn; [by destruct b|done]. Qed.

Lemma str_take_app a b : str_take (String.length a) (a ++ b) = a.
Proof. induction a as [|c a IH]; cbn; [by destruct b|]. by rewrite IH. Qed.

Lemma string_compare_refl (s : string) : String.compare s s = Eq.
Proof. induction s as [|c s IH]; [done|]. by rewrite sep_compare. Qed.

(** ** Case *)

Definition lower (c : ascii) : ascii :=
  let n := N_of_ascii c in
  if (65 <=? n)%N && (n <=? 90)%N then ascii_of_N (n + 32) else c.

Fixpoint ToLower (s : string) : string :=
  match s with String c s' => String (lower c) (ToLower s') | EmptyString => "" end.

Definition EqualFold (a b : string) : bool := bool_decide (ToLower a = ToLower b).

(** The folding of a text that is compared with an ASCII text ([strings.EqualFold],
    the names of JSON fields): letters in lower case, with the two runes outside ASCII that fold
    to ASCII letters, the long s (C5 BF) and the Kelvin sign (E2 84 AA). *)
Fixpoint fold_name (s : string) : string :=
  match s with
  | EmptyString => ""
  | String c s1 =>
      let other := String (lower c) (fold_name s1) in
      match s1 with
      | String c1 s2 =>
          if ((N_of_ascii c =? 197) && (N_of_ascii c1 =? 191))%N then String "s" (fold_name s2)
          else match s2 with
               | String c2 s3 =>
                   if ((N_of_ascii c =? 226) && (N_of_ascii c1 =? 132) && (N_of_ascii c2 =? 170))%N
                   then String "k" (fold_name s3) else other
               | EmptyString => other
               end
      | EmptyString => other
      end
  end.

Lemma ToLower_app a b : ToLower (a ++ b) = ToLower a ++ ToLower b.
Proof. induction a as [|c a IH]; cbn; [done|]. by rewrite IH. Qed.

Lemma EqualFold_refl a : EqualFold a a = true.
Proof. by apply bool_decide_eq_true_2. Qed.

(** ** Searching *)

Definition HasPrefix (s p : string) : bool := String.prefix p s.

Fixpoint Contains (s sub : string) : bool :=
  String.prefix sub s ||
  match s with String _ s' => Contains s' sub | EmptyString => false end.

(** [strings.Index], [None] for -1. *)
Fixpoint Index (s sub : string) : option nat :=
  if String.prefix sub s then Some O else
  match s with String _ s' => S <$> Index s' sub | EmptyString => None end.

Fixpoint IndexFunc (f : ascii → bool) (s : string) : option nat :=
  match s with
  | String c s' => if f c then Some O else S <$> IndexFunc f s'
  | EmptyString => None
  end.

Definition IndexByte (s : string) (c : ascii) : option nat :=
  IndexFunc (λ c', bool_decide (c' = c)) s.

Lemma prefix_app p s : String.prefix p s = true ↔ ∃ t, s = p ++ t.
Proof.
  revert s. induction p as [|c p IH]; intros s; cbn.
  { split; [eauto|by destruct s]. }
  destruct s as [|c' s]; [split; [done|by intros [t ?]]|].
  cbn [String.prefix]. destruct (ascii_dec c c') as [->|Hne].
  - rewrite IH. split; intros [t Ht]; exists t; [by rewrite Ht|by injection Ht].
  - split; [done|]. intros [t Ht]. by injection Ht.
Qed.

Lemma Contains_spec s sub : Contains s sub = true ↔ ∃ a b, s = a ++ sub ++ b.
Proof.
  induction s as [|c s IH]; cbn [Contains].
  - rewrite orb_false_r, prefix_app. split.
    + intros [t Ht]. by exists "", t.
    + intros (a & b & H). destruct a; [|done]. by exists b.
  - rewrite orb_true_iff, prefix_app, IH. split.
    + intros [[t Ht]|(a & b & ->)]; [by exists "", t|by exists (String c a), b].
    + intros ([|c' a] & b & H); [left; by exists b|].
      injection H as -> ->. right. by exists a, b.
Qed.

Lemma IndexFunc_Some f s i :
  IndexFunc f s = Some i →
  ∃ c t, s = str_take i s ++ String c t ∧ f c = true ∧ str_drop (S i) s = t ∧
         String.length (str_take i s) = i ∧ (i < String.length s)%nat.
Proof.
  revert i. induction s as [|c s IH]; intros i; cbn; [done|].
  destruct (f c) eqn:Hf.
  - intros [= <-]. exists c, s. cbn. by repeat split; try lia; destruct s.
  - destruct (IndexFunc f s) as [j|] eqn:E; cbn; [|done]. intros [= <-].
    destruct (IH j eq_refl) as (c' & t & H1 & H2 & H3 & H4 & H5).
    exists c', t. cbn. repeat split; try done; [by rewrite <- H1|by rewrite H4|lia].
Qed.

(** ** White space *)

Definition is_space (c : ascii) : bool :=
  let n := N_of_ascii c in ((9 <=? n) && (n <=? 13) || (n =? 32))%N.

Fixpoint TrimLeft (s : string) : string :=
  match s with
  | String c s' => if is_space c then TrimLeft s' else s
  | EmptyString => ""
  end.

Fixpoint TrimRight (s : string) : string :=
  match s with
  | String c s' =>
      let r := TrimRight s' in
      if bool_decide (r = "") && is_space c then "" else String c r
  | EmptyString => ""
  end.

Definition TrimSpace (s : string) : string := TrimRight (TrimLeft s).

Lemma TrimLeft_idem s : TrimLeft (TrimLeft s) = TrimLeft s.
Proof.
  induction s as [|c s IH]; cbn; [done|]. destruct (is_space c) eqn:E; [done|].
  cbn. by rewrite E.
Qed.

Lemma TrimRight_idem s : TrimRight (TrimRight s) = TrimRight s.
Proof.
  induction s as [|c s IH]; cbn; [done|].
  destruct (bool_decide (TrimRight s = "") && is_space c) eqn:E; [done|].
  cbn. by rewrite IH, E.
Qed.

Lemma TrimLeft_TrimRight s : TrimLeft s = s → TrimLeft (TrimRight s) = TrimRight s.
Proof.
  destruct s as [|c s]; cbn; [done|]. destruct (is_space c) eqn:E.
  - intros H. exfalso. apply (f_equal String.length) in H.
    assert (∀ t, (String.length (TrimLeft t) <= String.length t)%nat) as Hl.
    { induction t as [|x t IH]; cbn; [done|]. destruct (is_space x); cbn; lia. }
    specialize (Hl s). cbn in H. lia.
  - intros _. rewrite andb_false_r. cbn. by rewrite E.
Qed.

Lemma TrimSpace_idem s : TrimSpace (TrimSpace s) = TrimSpace s.
Proof.
  unfold TrimSpace.
  rewrite TrimLeft_TrimRight by apply TrimLeft_idem. apply TrimRight_idem.
Qed.

(** ** Splitting *)

Fixpoint split_go (sep : ascii) (cur : string) (s : string) : list string :=
  match s with
  | EmptyString => [cur]
  | String c s' =>
      if bool_decide (c = sep) then cur :: split_go sep "" s'
      else split_go sep (cur ++ String c "") s'
  end.

(** [strings.Split(s, sep)] for a one-byte separator. *)
Definition Split (s : string) (sep : ascii) : list string := split_go sep "" s.

Fixpoint fields_go (cur : string) (s : string) : list string :=
  match s with
  | EmptyString => if bool_decide (cur = "") then [] else [cur]
  | String c s' =>
      if is_space c then
        if bool_decide (cur = "") then fields_go "" s' else cur :: fields_go "" s'
      else fields_go (cur ++ String c "") s'
  end.

(** [strings.Fields]: maximal runs of non-space bytes. *)
Definition Fields (s : string) : list string := fields_go "" s.

(** [strings.TrimRight(s, "/")] *)
Fixpoint TrimRightSlash (s : string) : string :=
  match s with
  | String c s' =>
      let r := TrimRightSlash s' in
      if bool_decide (r = "") && bool_decide (c = "/"%char) then "" else String c r
  | EmptyString => ""
  end.

(** ** Numbers *)

Fixpoint digits_val (acc : Z) (s : string) : option Z :=
  match s with
  | EmptyString => Some acc
  | String c s' => d ← digit_val c; digits_val (10 * acc + d) s'
  end.

Definition atoi_sign (s : string) : Z * string :=
  match s with
  | String "+" s' => (1, s')
  | String "-" s' => (-1, s')
  | _ => (1, s)
  end.

(** [strconv.Atoi]: an optional sign, at least one digit, a 64-bit range. *)
Definition Atoi (s : string) : option Z :=
  let '(sgn, body) := atoi_sign s in
  _ ← guard (body ≠ "");
  n ← digits_val 0 body;
  _ ← guard (in_int64 (sgn * n));
  Some (sgn * n).

Example Atoi_ex : Atoi "-42" = Some (-42) ∧ Atoi "4x" = None ∧ Atoi "+" = None ∧
  Atoi "9223372036854775808" = None ∧ Atoi "9223372036854775807" = Some max_int64.
Proof. by vm_compute. Qed.

Example Split_ex : Split "a,,b" "," = ["a"; ""; "b"] ∧ Split "" "," = [""].
Proof. done. Qed.

Example Fields_ex : Fields " 0.5  seconds slow " = ["0.5"; "seconds"; "slow"].
Proof. done. Qed.

Lemma Atoi_in_int64 s n : Atoi s = Some n → in_int64 n.
Proof.
  unfold Atoi. destruct (atoi_sign s) as [sgn body].
  intros H. apply bind_Some in H as (_ & _ & H). apply bind_Some in H as (k & _ & H).
  apply bind_Some in H as (Hg & _ & H).
  by injection H as <-.
Qed.

(** Every piece [Fields] returns is non-empty. *)
Lemma Fields_nonempty s : Forall (λ f, f ≠ "") (Fields s).
Proof.
  assert (∀ cur, Forall (λ f, f ≠ "") (fields_go cur s)) as H; [|apply H].
  induction s as [|c s IH]; intros cur; cbn [fields_go].
  - case_bool_decide; by repeat constructor.
  - destruct (is_space c); [|apply IH].
    case_bool_decide; [apply IH|]. constructor; [done|apply IH].
Qed.
