(* ===== verification/GoNumbers.v ===== *)
(** * Numbers in text ([strconv], [fmt])

    Decimal integers and the fixed-point form of doubles, as [fmt.Sprintf] with
    the verbs [%d] and [%.1f] writes them: a double is a rational number, and the
    digit printed is the one the exact value rounds to, ties to even. *)
From Stdlib Require Import Ascii ZArith Lia SpecFloat.
From S2P Require Import Prelude GoTime GoStrings.

Local Open Scope string_scope.
Local Open Scope Z_scope.

(** ** Digits *)

Definition is_digit (c : ascii) : bool := bool_decide (is_Some (digit_val c)).

(** The decimal digits of a number below [2 ^ fuel], before [acc]. *)
Fixpoint digits_acc (fuel : nat) (n : Z) (acc : string) : string :=
  match fuel with
  | O => acc
  | S fuel' =>
      let acc' := String (digit (n mod 10)) acc in
      if n / 10 =? 0 then acc' else digits_acc fuel' (n / 10) acc'
  end.

Definition digits (n : Z) : string := digits_acc (S (Z.to_nat (Z.log2 n))) n "".

(** The number a sequence of digits denotes, after the digits of [acc]. *)
Fixpoint dec_value (acc : Z) (s : string) : option Z :=
  match s with
  | EmptyString => Some acc
  | String c s' => d ← digit_val c; dec_value (10 * acc + d) s'
  end.

(** Sequences of digits. *)
Fixpoint all_digits (s : string) : bool :=
  match s with String c s' => is_digit c && all_digits s' | EmptyString => true end.

Lemma all_digits_app a b : all_digits (a ++ b) = all_digits a && all_digits b.
Proof. induction a as [|c a IH]; cbn; [done|]. by rewrite IH, andb_assoc. Qed.

Lemma is_digit_digit d : 0 <= d < 10 → is_digit (digit d) = true.
Proof. intros H. unfold is_digit. rewrite digit_val_digit by done. done. Qed.

Lemma dec_value_app acc a b : dec_value acc (a ++ b) = n ← dec_value acc a; dec_value n b.
Proof.
  revert acc. induction a as [|c a IH]; intros acc; cbn; [done|].
  destruct (digit_val c) as [d|]; cbn; [apply IH|done].
Qed.

Lemma dec_value_some acc s : all_digits s = true → ∃ n, dec_value acc s = Some n.
Proof.
  revert acc. induction s as [|c s IH]; intros acc; cbn; [by exists acc|].
  unfold is_digit. intros [[d Hd]%bool_decide_eq_true Hs]%andb_true_iff. rewrite Hd. cbn. by apply IH.
Qed.

(** What is accumulated is read before what follows. *)
Lemma digits_acc_app fuel n acc : digits_acc fuel n acc = digits_acc fuel n "" ++ acc.
Proof.
  revert n acc. induction fuel as [|fuel IH]; intros n acc; cbn; [done|].
  destruct (n / 10 =? 0); [done|]. rewrite IH, (IH _ (String _ "")), string_app_assoc. done.
Qed.

Lemma digits_acc_value fuel n : 0 <= n < 2 ^ Z.of_nat fuel → dec_value 0 (digits_acc fuel n "") = Some n.
Proof.
  revert n. induction fuel as [|fuel IH]; intros n Hn.
  { cbn in *. f_equal. lia. }
  cbn [digits_acc]. pose proof (Z.div_mod n 10 ltac:(lia)) as Hdm. pose proof (Z.mod_pos_bound n 10 ltac:(lia)).
  destruct (Z.eqb_spec (n / 10) 0) as [H0|H0].
  - cbn. rewrite digit_val_digit by lia. cbn. f_equal. lia.
  - rewrite Nat2Z.inj_succ, Z.pow_succ_r in Hn by lia.
    rewrite digits_acc_app, dec_value_app, IH.
    + cbn. rewrite digit_val_digit by lia. cbn. f_equal. lia.
    + split; [apply Z.div_pos; lia|]. apply Z.div_lt_upper_bound; lia.
Qed.

Lemma log2_fuel n : 0 <= n → 0 <= n < 2 ^ Z.of_nat (S (Z.to_nat (Z.log2 n))).
Proof.
  intros Hn. pose proof (Z.log2_nonneg n). rewrite Nat2Z.inj_succ, Z2Nat.id by done. split; [done|].
  destruct (Z.eq_dec n 0) as [->|]; [done|]. apply Z.log2_spec. lia.
Qed.

Lemma digits_value n : 0 <= n → dec_value 0 (digits n) = Some n.
Proof. intros Hn. by apply digits_acc_value, log2_fuel. Qed.

Lemma digits_acc_all fuel n acc : all_digits acc = true → all_digits (digits_acc fuel n acc) = true.
Proof.
  revert n acc. induction fuel as [|fuel IH]; intros n acc Ha; cbn; [done|].
  assert (all_digits (String (digit (n mod 10)) acc) = true).
  { cbn. rewrite is_digit_digit; [done|]. apply Z.mod_pos_bound. lia. }
  destruct (_ =? 0); [done|by apply IH].
Qed.

Lemma digits_all n : all_digits (digits n) = true.
Proof. by apply digits_acc_all. Qed.

Lemma digits_inj a b : 0 <= a → 0 <= b → digits a = digits b → a = b.
Proof. intros Ha Hb He. pose proof (digits_value a Ha) as H. rewrite He, digits_value in H by done. by simplify_eq. Qed.

Lemma digits_nonempty n : ∃ c s, digits n = String c s ∧ is_digit c = true.
Proof.
  pose proof (digits_all n) as Ha. destruct (digits n) as [|c s] eqn:Hd.
  - exfalso. unfold digits in Hd. cbn [digits_acc] in Hd. destruct (_ =? 0); [done|].
    rewrite digits_acc_app in Hd. apply (f_equal String.length) in Hd.
    rewrite string_length_app in Hd. cbn in Hd. lia.
  - cbn in Ha. apply andb_true_iff in Ha as [? ?]. eauto.
Qed.

(** No number but zero starts with the digit zero. *)
Lemma digits_acc_head fuel n acc : 0 < n < 2 ^ Z.of_nat fuel →
  ∃ d s, digits_acc fuel n acc = String (digit d) s ∧ 0 < d < 10.
Proof.
  revert n acc. induction fuel as [|fuel IH]; intros n acc Hn; [cbn in Hn; lia|].
  cbn [digits_acc]. pose proof (Z.div_mod n 10 ltac:(lia)) as Hdm. pose proof (Z.mod_pos_bound n 10 ltac:(lia)).
  destruct (Z.eqb_spec (n / 10) 0) as [H0|H0].
  - exists (n mod 10), acc. split; [done|lia].
  - apply IH. rewrite Nat2Z.inj_succ, Z.pow_succ_r in Hn by lia.
    pose proof (Z.div_pos n 10 ltac:(lia) ltac:(lia)). split; [lia|]. apply Z.div_lt_upper_bound; lia.
Qed.

Lemma digits_head n : 0 < n → ∃ d s, digits n = String (digit d) s ∧ 0 < d < 10.
Proof. intros Hn. apply digits_acc_head. pose proof (log2_fuel n ltac:(lia)). lia. Qed.

(** ** Integers *)

(** [%d] *)
Definition format_int (z : Z) : string := if z <? 0 then "-" ++ digits (- z) else digits z.

(** ** Doubles *)

#[export] Instance spec_float_eq_dec : EqDecision spec_float.
Proof. solve_decision. Defined.

(** The integer nearest to [n / d], ties to even. *)
Definition round_half_even (n d : Z) : Z :=
  let q := n / d in
  match 2 * (n mod d) ?= d with
  | Lt => q
  | Gt => q + 1
  | Eq => if Z.even q then q else q + 1
  end.

Lemma round_half_even_error n d : 0 < d → 2 * Z.abs (round_half_even n d * d - n) <= d.
Proof.
  intros Hd. unfold round_half_even. pose proof (Z.div_mod n d ltac:(lia)) as Hdm.
  pose proof (Z.mod_pos_bound n d Hd). set (q := n / d) in *. set (r := n mod d) in *.
  destruct (Z.compare_spec (2 * r) d); [destruct (Z.even q)|..]; nia.
Qed.

Lemma round_half_even_exact q d : 0 < d → round_half_even (q * d) d = q.
Proof.
  intros Hd. unfold round_half_even. rewrite Z.mod_mul, Z.div_mul by lia. cbn.
  by destruct d.
Qed.

(** [m * 2 ^ e] in tenths, rounded. *)
Definition tenths (m : positive) (e : Z) : Z :=
  if 0 <=? e then Z.pos m * 10 * 2 ^ e else round_half_even (Z.pos m * 10) (2 ^ (- e)).

(** [%.1f] *)
Definition format_f1 (f : spec_float) : string :=
  match f with
  | S754_zero s => if s then "-0.0" else "0.0"
  | S754_infinity s => if s then "-Inf" else "+Inf"
  | S754_nan => "NaN"
  | S754_finite s m e =>
      let q := tenths m e in
      (if s then "-" else "") ++ digits (q / 10) ++ "." ++ String (digit (q mod 10)) ""
  end.

Example format_f1_examples :
  format_f1 (S754_finite false 5629499534213120 (-49)) = "10.0" ∧
  format_f1 (S754_finite false 1 (-2)) = "0.2" ∧
  format_f1 (S754_finite true 3 (-2)) = "-0.8" ∧
  format_int (-120) = "-120" ∧ format_int 0 = "0".
Proof. repeat split; vm_compute; reflexivity. Qed.
