(* ===== verification/GoFloat.v ===== *)
(** * Doubles as JSON numbers ([strconv.ParseFloat], [strconv.FormatFloat], [encoding/json])

    A decimal [d * 10 ^ k] is read as the nearest double, ties to even; a double is
    written with the fewest digits that read back as it.  Both are stated on exact
    integers: a finite double is [m * 2 ^ e] with [e >= -1074], so in units of
    [2 ^ -1074] it is an integer. *)
From Stdlib Require Import Ascii ZArith Lia SpecFloat.
From S2P Require Import Prelude GoTime GoStrings GoNumbers.

Local Open Scope string_scope.
Local Open Scope Z_scope.

(** ** Doubles *)

(** The canonical positive finite doubles: 53 bits, or the least exponent. *)
Definition canonical (m : positive) (e : Z) : bool :=
  (-1074 <=? e) && (e <=? 971) && (Z.pos m <? 2 ^ 53) && ((2 ^ 52 <=? Z.pos m) || (e =? -1074)).

Definition valid_float (f : spec_float) : bool :=
  match f with S754_finite _ m e => canonical m e | _ => true end.

Definition finite_float (f : spec_float) : bool :=
  match f with S754_finite _ m e => canonical m e | S754_zero _ => true | _ => false end.

(** The exponent, above the least one, at which [n / d] units have 53 bits. *)
Definition scale (n d : Z) : Z :=
  let s := Z.log2 n - Z.log2 d - 52 in
  if s <=? 0 then 0 else if n <? 2 ^ (52 + s) * d then s - 1 else s.

(** The double nearest to [n / d], for positive [n] and [d]; [None] beyond the
    largest one. *)
Definition nearest (sign : bool) (n d : Z) : option spec_float :=
  let n := n * 2 ^ 1074 in
  let s := scale n d in
  let q := round_half_even n (d * 2 ^ s) in
  let '(q, s) := if q =? 2 ^ 53 then (2 ^ 52, s + 1) else (q, s) in
  if 971 + 1074 <? s then None
  else Some (match q with Zpos m => S754_finite sign m (s - 1074) | _ => S754_zero sign end).

(** [strconv.ParseFloat] of the decimal [d * 10 ^ k]. *)
Definition decimal_float (sign : bool) (d k : Z) : option spec_float :=
  if d =? 0 then Some (S754_zero sign)
  else if 0 <=? k then nearest sign (d * 10 ^ k) 1 else nearest sign d (10 ^ (- k)).

(** ** A decimal that is a double is read as that double *)

Lemma log2_product m s d :
  0 < m → 0 <= s → 0 < d →
  Z.log2 m + s + Z.log2 d <= Z.log2 (m * 2 ^ s * d) <= Z.log2 m + s + Z.log2 d + 1.
Proof.
  intros Hm Hs Hd. assert (0 < m * 2 ^ s) by (apply Z.mul_pos_pos; [done|by apply Z.pow_pos_nonneg]).
  pose proof (Z.log2_mul_pow2 m s ltac:(lia) Hs) as Hl. replace (Z.log2 m + s) with (Z.log2 (m * 2 ^ s)) by lia.
  split; [by apply Z.log2_mul_below|apply Z.log2_mul_above; lia].
Qed.

Lemma scale_exact m s d :
  0 < m < 2 ^ 53 → 0 <= s → 0 < d → (2 ^ 52 <= m ∨ s = 0) → scale (m * 2 ^ s * d) d = s.
Proof.
  intros Hm Hs Hd Hc. unfold scale. pose proof (log2_product m s d ltac:(lia) Hs Hd) as [Hlo Hhi].
  assert (Hp : 0 < 2 ^ s) by (by apply Z.pow_pos_nonneg).
  destruct (Z.le_gt_cases (2 ^ 52) m) as [Hn|Hsub].
  - assert (Hl : Z.log2 m = 52) by (apply Z.log2_unique; lia).
    set (L := Z.log2 (m * 2 ^ s * d)) in *.
    assert (Hcases : L - Z.log2 d - 52 = s ∨ L - Z.log2 d - 52 = s + 1) by lia.
    destruct Hcases as [-> | ->].
    + destruct (Z.leb_spec s 0); [lia|]. destruct (Z.ltb_spec (m * 2 ^ s * d) (2 ^ (52 + s) * d)) as [Hlt|]; [|done].
      exfalso. rewrite Z.pow_add_r in Hlt by lia. nia.
    + destruct (Z.leb_spec (s + 1) 0); [lia|].
      destruct (Z.ltb_spec (m * 2 ^ s * d) (2 ^ (52 + (s + 1)) * d)) as [|Hge]; [lia|].
      exfalso. replace (52 + (s + 1)) with (53 + s) in Hge by lia. rewrite Z.pow_add_r in Hge by lia. nia.
  - destruct Hc as [|Hs0]; [lia|]. rewrite Hs0 in *. assert (Hl : Z.log2 m < 52) by (apply Z.log2_lt_pow2; lia).
    destruct (Z.leb_spec (Z.log2 (m * 2 ^ 0 * d) - Z.log2 d - 52) 0) as [|H]; [done|lia].
Qed.

Lemma canonical_cases m e :
  canonical m e = true → -1074 <= e <= 971 ∧ Z.pos m < 2 ^ 53 ∧ (2 ^ 52 <= Z.pos m ∨ e = -1074).
Proof.
  unfold canonical. intros [[[?%Z.leb_le ?%Z.leb_le]%andb_true_iff ?%Z.ltb_lt]%andb_true_iff
    [?%Z.leb_le|?%Z.eqb_eq]%orb_true_iff]%andb_true_iff; lia.
Qed.

Lemma nearest_exact sign m e n d :
  canonical m e = true → 0 < n → 0 < d → n * 2 ^ 1074 = Z.pos m * 2 ^ (e + 1074) * d →
  nearest sign n d = Some (S754_finite sign m e).
Proof.
  intros Hc Hn Hd Heq. apply canonical_cases in Hc as (He & Hm & Hc).
  unfold nearest. rewrite Heq, scale_exact by lia.
  assert (0 < 2 ^ (e + 1074)) by (apply Z.pow_pos_nonneg; lia).
  replace (Z.pos m * 2 ^ (e + 1074) * d) with (Z.pos m * (d * 2 ^ (e + 1074))) by lia.
  rewrite round_half_even_exact by nia. destruct (Z.eqb_spec (Z.pos m) (2 ^ 53)); [lia|].
  destruct (Z.ltb_spec (971 + 1074) (e + 1074)); [lia|]. do 2 f_equal. lia.
Qed.

(** ** The shortest decimal *)

(** [m * 2 ^ e] exactly, as [d * 10 ^ k]. *)
Definition exact_decimal (m : positive) (e : Z) : Z * Z :=
  if 0 <=? e then (Z.pos m * 2 ^ e, 0) else (Z.pos m * 5 ^ (- e), e).

(** Without trailing zeros. *)
Fixpoint strip_zeros (fuel : nat) (d k : Z) : Z * Z :=
  match fuel with
  | O => (d, k)
  | S fuel' => if d mod 10 =? 0 then strip_zeros fuel' (d / 10) (k + 1) else (d, k)
  end.

Definition ndigits (d : Z) : Z := Z.of_nat (String.length (digits d)).

(** The two decimals of [p] digits around [d * 10 ^ k], the nearer one first. *)
Definition around (d k p : Z) : list (Z * Z) :=
  let cut := 10 ^ (ndigits d - p) in
  let lo := (d / cut, k + (ndigits d - p)) in
  let hi := (d / cut + 1, k + (ndigits d - p)) in
  if 2 * (d mod cut) <=? cut then [lo; hi] else [hi; lo].

Definition reads_as (f : spec_float) (c : Z * Z) : bool :=
  (0 <? c.1) &&
  match decimal_float false c.1 c.2 with
  | Some g => bool_decide (f = g)
  | None => false
  end.

(** Tries the numbers of digits in order. *)
Fixpoint search (f : spec_float) (d k : Z) (ps : list nat) : option (Z * Z) :=
  match ps with
  | [] => None
  | p :: ps' =>
      let stripped := (λ '(d', k'), strip_zeros (String.length (digits d)) d' k') <$> around d k (Z.of_nat p) in
      match List.find (reads_as f) stripped with
      | Some c => Some c
      | None => search f d k ps'
      end
  end.

(** The digits of the double of value [m * 2 ^ e]: the fewest that do, else all. *)
Definition shortest (m : positive) (e : Z) : Z * Z :=
  let '(d, k) := exact_decimal m e in
  match search (S754_finite false m e) d k (seq 1 (String.length (digits d))) with
  | Some c => c
  | None => strip_zeros (String.length (digits d)) d k
  end.

(** [d * 10 ^ k] and [m * 2 ^ e] are the same number. *)
Definition same_value (d k : Z) (m : positive) (e : Z) : Prop :=
  ∃ j, 0 <= j ∧ 0 <= k + j ∧ d * 10 ^ (k + j) * 2 ^ 1074 = Z.pos m * 2 ^ (e + 1074) * 10 ^ j.

Lemma decimal_exact sign d k m e :
  canonical m e = true → 0 < d → same_value d k m e → decimal_float sign d k = Some (S754_finite sign m e).
Proof.
  intros Hc Hd (j & Hj & Hkj & Heq). unfold decimal_float. destruct (Z.eqb_spec d 0); [lia|].
  destruct (Z.leb_spec 0 k).
  - assert (0 < 10 ^ k) by (by apply Z.pow_pos_nonneg). apply nearest_exact; [done|nia|lia|].
    assert (0 < 10 ^ j) by (by apply Z.pow_pos_nonneg).
    rewrite Z.pow_add_r in Heq by lia. apply (Z.mul_reg_r _ _ (10 ^ j)); [lia|]. lia.
  - assert (0 < 10 ^ (- k)) by (apply Z.pow_pos_nonneg; lia). apply nearest_exact; [done|lia|lia|].
    assert (0 < 10 ^ (k + j)) by (by apply Z.pow_pos_nonneg).
    assert (Hp : 10 ^ j = 10 ^ (- k) * 10 ^ (k + j)) by (rewrite <- Z.pow_add_r by lia; f_equal; lia).
    rewrite Hp in Heq. apply (Z.mul_reg_r _ _ (10 ^ (k + j))); [lia|]. lia.
Qed.

Lemma exact_same_value m e :
  -1074 <= e → let '(d, k) := exact_decimal m e in 0 < d ∧ same_value d k m e.
Proof.
  intros He. unfold exact_decimal. destruct (Z.leb_spec 0 e).
  - assert (0 < 2 ^ e) by (by apply Z.pow_pos_nonneg). split; [lia|].
    exists 0. split; [done|]. split; [done|]. rewrite (Z.pow_add_r 2 e 1074), Z.pow_0_r by lia. ring.
  - assert (0 < 5 ^ (- e)) by (apply Z.pow_pos_nonneg; lia). split; [lia|].
    exists (- e). split; [lia|]. split; [lia|]. replace (e + - e) with 0 by lia. rewrite Z.pow_0_r.
    change 10 with (2 * 5). rewrite Z.pow_mul_l.
    replace (2 ^ 1074) with (2 ^ (e + 1074) * 2 ^ (- e)) by (rewrite <- Z.pow_add_r by lia; f_equal; lia). lia.
Qed.

Lemma strip_same_value fuel d k m e :
  0 < d → same_value d k m e →
  let '(d', k') := strip_zeros fuel d k in 0 < d' ∧ same_value d' k' m e.
Proof.
  revert d k. induction fuel as [|fuel IH]; intros d k Hd Hv; cbn; [done|].
  destruct (Z.eqb_spec (d mod 10) 0) as [H0|]; [|done]. apply IH; [Z.to_euclidean_division_equations; lia|].
  destruct Hv as (j & Hj & Hkj & Heq). exists j. split; [done|]. split; [lia|]. rewrite <- Heq.
  replace (k + 1 + j) with (Z.succ (k + j)) by lia. rewrite Z.pow_succ_r by lia.
  pose proof (Z.div_mod d 10 ltac:(lia)). nia.
Qed.

Lemma nearest_sign sign n d m e :
  nearest false n d = Some (S754_finite false m e) → nearest sign n d = Some (S754_finite sign m e).
Proof.
  unfold nearest. set (p := if _ =? _ then _ else _). destruct p as [q s].
  destruct (_ <? s); [done|]. destruct q; [done| |done]. by intros [= -> ->].
Qed.

Lemma decimal_sign sign d k m e :
  decimal_float false d k = Some (S754_finite false m e) → decimal_float sign d k = Some (S754_finite sign m e).
Proof.
  unfold decimal_float. destruct (d =? 0); [done|]. destruct (0 <=? k); apply nearest_sign.
Qed.

Lemma search_reads f d k ps c : search f d k ps = Some c → reads_as f c = true.
Proof.
  induction ps as [|p ps IH]; cbn [search]; [done|].
  destruct (List.find _ _) as [c'|] eqn:Hf; [|done]. intros [= <-]. by apply List.find_some in Hf as [_ ?].
Qed.

(** What the search finds, or the exact decimal, reads back. *)
Lemma shortest_reads sign m e :
  canonical m e = true →
  let '(d, k) := shortest m e in 0 < d ∧ decimal_float sign d k = Some (S754_finite sign m e).
Proof.
  intros Hc. unfold shortest. pose proof (canonical_cases _ _ Hc) as (He & _ & _).
  pose proof (exact_same_value m e ltac:(lia)) as Hx. destruct (exact_decimal m e) as [d k]. destruct Hx as [Hd Hv].
  destruct (search _ _ _ _) as [[d' k']|] eqn:Hf.
  - apply search_reads in Hf as Hr. unfold reads_as in Hr. cbn in Hr. apply andb_true_iff in Hr as [H0%Z.ltb_lt Hr].
    split; [done|]. apply decimal_sign.
    destruct (decimal_float false d' k'); [|done]. apply bool_decide_eq_true in Hr. by subst.
  - pose proof (strip_same_value (String.length (digits d)) d k m e Hd Hv) as Hs.
    destruct (strip_zeros _ _ _) as [d' k']. destruct Hs as [? ?]. split; [done|]. by apply decimal_exact.
Qed.

(** ** Text *)

(** [n] in at least [w] digits. *)
Definition zeros (n : nat) : string := String.concat "" (repeat "0" n).
Definition pad (w n : Z) : string := let s := digits n in zeros (Z.to_nat w - String.length s) ++ s.

(** The form [encoding/json] chooses: without an exponent unless the value is
    below [1e-6] or from [1e21] on; an exponent below [-9] is written with two digits,
    from [-9] to [-7] with one. *)
Definition format_decimal (d k : Z) : string :=
  let x := ndigits d + k - 1 in
  if (-6 <=? x) && (x <? 21) then
    if 0 <=? k then digits d ++ zeros (Z.to_nat k)
    else digits (d / 10 ^ (- k)) ++ "." ++ pad (- k) (d mod 10 ^ (- k))
  else
    let s := digits d in
    str_take 1 s ++ (if (String.length s =? 1)%nat then "" else "." ++ str_drop 1 s) ++
    "e" ++ (if x <? 0 then "-" else "+") ++ digits (Z.abs x).

(** [json.Marshal] of a float64: infinities and NaN are errors. *)
Definition format_float (f : spec_float) : option string :=
  match f with
  | S754_zero s => Some (if s then "-0" else "0")
  | S754_finite s m e =>
      let '(d, k) := shortest m e in
      Some ((if s then "-" else "") ++ format_decimal d k)
  | _ => None
  end.

(** A JSON number: sign, integer part, fraction, exponent. *)
Record number := mkNumber { n_neg : bool; n_int : string; n_frac : string; n_exp : option Z }.

Fixpoint take_digits (s : string) : string * string :=
  match s with
  | String c s' => if is_digit c then let '(a, b) := take_digits s' in (String c a, b) else ("", s)
  | EmptyString => ("", "")
  end.

(** The exponent part, if there is one. *)
Definition read_exponent (s : string) : option (option Z * string) :=
  match s with
  | String c s1 =>
      if Ascii.eqb c "e" || Ascii.eqb c "E" then
        let '(neg, s2) :=
          match s1 with
          | String c s2 => if Ascii.eqb c "-" then (true, s2) else if Ascii.eqb c "+" then (false, s2) else (false, s1)
          | EmptyString => (false, s1)
          end in
        let '(ds, r) := take_digits s2 in
        if bool_decide (ds = "") then None
        else n ← dec_value 0 ds; Some (Some (if neg then - n else n), r)
      else Some (None, s)
  | EmptyString => Some (None, s)
  end.

Definition read_fraction (s : string) : option (string * string) :=
  match s with
  | String c s1 =>
      if Ascii.eqb c "." then
        let '(ds, r) := take_digits s1 in if bool_decide (ds = "") then None else Some (ds, r)
      else Some ("", s)
  | EmptyString => Some ("", s)
  end.

(** A number at the head of a text: no superfluous leading zeros, digits on both
    sides of a point. *)
Definition read_number (s : string) : option (number * string) :=
  let '(neg, s0) :=
    match s with
    | String c s0 => if Ascii.eqb c "-" then (true, s0) else (false, s)
    | EmptyString => (false, s)
    end in
  let '(i, s1) := take_digits s0 in
  if bool_decide (i = "") || (HasPrefix i "0" && negb (bool_decide (i = "0"))) then None
  else
    '(fr, s2) ← read_fraction s1;
    '(x, s3) ← read_exponent s2;
    Some (mkNumber neg i fr x, s3).

(** [strconv.ParseFloat] on such a number. *)
Definition number_float (n : number) : option spec_float :=
  d ← dec_value 0 (n_int n ++ n_frac n);
  decimal_float (n_neg n) d (default 0 (n_exp n) - Z.of_nat (String.length (n_frac n))).

(** [strconv.ParseInt] on it: no fraction, no exponent, within 64 bits. *)
Definition number_int (n : number) : option Z :=
  if bool_decide (n_frac n = "") && bool_decide (n_exp n = None) then
    d ← dec_value 0 (n_int n);
    let z := if n_neg n then - d else d in
    if (min_int64 <=? z) && (z <=? max_int64) then Some z else None
  else None.

Example format_float_examples :
  format_float (S754_finite false 5629499534213120 (-49)) = Some "10" ∧
  format_float (S754_finite false 7205759403792794 (-56)) = Some "0.1" ∧
  format_float (S754_finite true 6755399441055744 (-52)) = Some "-1.5" ∧
  format_decimal 9765625 (-15) = "9.765625e-9" ∧ format_decimal 1 21 = "1e+21".
Proof. repeat split; vm_compute; reflexivity. Qed.

(** ** Reading what was written *)

(** What may follow a number. *)
Definition ends_number (s : string) : bool :=
  match s with
  | String c _ => negb (is_digit c || Ascii.eqb c "." || Ascii.eqb c "e" || Ascii.eqb c "E")
  | EmptyString => true
  end.

Lemma ends_number_cons c s : ends_number (String c s) = true →
  is_digit c = false ∧ c ≠ "."%char ∧ Ascii.eqb c "e" = false ∧ Ascii.eqb c "E" = false.
Proof.
  cbn. intros H%negb_true_iff. apply orb_false_iff in H as [[[H1 H2]%orb_false_iff H3]%orb_false_iff H4].
  split; [done|]. split; [by intros ->|done].
Qed.

Lemma take_digits_app a c b :
  all_digits a = true → is_digit c = false → take_digits (a ++ String c b) = (a, String c b).
Proof.
  intros Ha Hc. induction a as [|x a IH]; cbn; [by rewrite Hc|].
  cbn in Ha. apply andb_true_iff in Ha as [-> Ha]. by rewrite IH.
Qed.

Lemma take_digits_all a : all_digits a = true → take_digits a = (a, "").
Proof.
  intros Ha. induction a as [|x a IH]; cbn; [done|].
  cbn in Ha. apply andb_true_iff in Ha as [-> Ha]. by rewrite IH.
Qed.

Lemma take_digits_end a r : all_digits a = true → ends_number r = true → take_digits (a ++ r) = (a, r).
Proof.
  intros Ha Hr. destruct r as [|c r]; [by rewrite string_app_nil_r, take_digits_all|].
  apply ends_number_cons in Hr as (Hc & _). by apply take_digits_app.
Qed.

Lemma dec_value_shift acc s v :
  dec_value 0 s = Some v → dec_value acc s = Some (acc * 10 ^ Z.of_nat (String.length s) + v).
Proof.
  revert acc v. assert (Hg : ∀ a b acc v, dec_value a s = Some v → b = a + acc →
    dec_value b s = Some (acc * 10 ^ Z.of_nat (String.length s) + v)).
  { induction s as [|c s IH]; intros a b acc v; cbn [dec_value String.length].
    - intros [= <-] ->. f_equal. cbn. lia.
    - destruct (digit_val c) as [d|]; [|done]. cbn [mbind option_bind]. intros Hv ->.
      rewrite (IH (10 * a + d) _ (10 * acc) v Hv) by lia. f_equal.
      rewrite Nat2Z.inj_succ, Z.pow_succ_r by lia. lia. }
  intros acc v Hv. apply (Hg 0 acc acc v Hv). lia.
Qed.

Lemma zeros_digits n : all_digits (zeros n) = true ∧ String.length (zeros n) = n ∧ dec_value 0 (zeros n) = Some 0.
Proof.
  unfold zeros. induction n as [|n (H1 & H2 & H3)]; [done|].
  assert (He : String.concat "" (repeat "0" (S n)) = String "0" (String.concat "" (repeat "0" n))).
  { cbn. by destruct (repeat "0" n). }
  rewrite He. split; [cbn; exact H1|]. split; [cbn; by rewrite H2|exact H3].
Qed.

Lemma digits_acc_length fuel n acc w :
  0 <= n < 10 ^ Z.of_nat w → (0 < w)%nat → (String.length (digits_acc fuel n acc) <= w + String.length acc)%nat.
Proof.
  revert n acc w. induction fuel as [|fuel IH]; intros n acc w Hn Hw; cbn [digits_acc]; [lia|].
  destruct (Z.eqb_spec (n / 10) 0) as [|H0]; [cbn; lia|].
  destruct w as [|w]; [lia|]. rewrite Nat2Z.inj_succ, Z.pow_succ_r in Hn by lia.
  assert (0 <= n / 10 < 10 ^ Z.of_nat w) as Hn'.
  { split; [apply Z.div_pos; lia|]. apply Z.div_lt_upper_bound; lia. }
  specialize (IH (n / 10) (String (digit (n mod 10)) acc) w Hn').
  destruct w as [|w]; [cbn in Hn'; lia|]. cbn [String.length] in IH. specialize (IH ltac:(lia)). lia.
Qed.

Lemma pad_spec w n :
  0 < w → 0 <= n < 10 ^ w →
  all_digits (pad w n) = true ∧ Z.of_nat (String.length (pad w n)) = w ∧ dec_value 0 (pad w n) = Some n.
Proof.
  intros Hw Hn. unfold pad. destruct (zeros_digits (Z.to_nat w - String.length (digits n))) as (H1 & H2 & H3).
  assert (Hl : (String.length (digits n) <= Z.to_nat w)%nat).
  { unfold digits. pose proof (digits_acc_length (S (Z.to_nat (Z.log2 n))) n "" (Z.to_nat w)) as H.
    rewrite Z2Nat.id in H by lia. specialize (H Hn ltac:(lia)). cbn [String.length] in H. lia. }
  split; [by rewrite all_digits_app, H1, digits_all|]. split; [rewrite string_length_app, H2; lia|].
  rewrite dec_value_app, H3. cbn [mbind option_bind]. apply digits_value; lia.
Qed.

(** Writing an integer part that a number may have. *)
Lemma digits_int n : 0 <= n →
  bool_decide (digits n = "") || (HasPrefix (digits n) "0" && negb (bool_decide (digits n = "0"))) = false.
Proof.
  intros Hn. destruct (Z.eq_dec n 0) as [->|]; [reflexivity|].
  destruct (digits_head n ltac:(lia)) as (d & s & -> & Hd).
  assert (Hc : d = 1 ∨ d = 2 ∨ d = 3 ∨ d = 4 ∨ d = 5 ∨ d = 6 ∨ d = 7 ∨ d = 8 ∨ d = 9) by lia.
  repeat destruct Hc as [->|Hc]; subst; reflexivity.
Qed.

Lemma head_int d s t : 0 < d < 10 →
  bool_decide (String (digit d) s ++ t = "") ||
  (HasPrefix (String (digit d) s ++ t) "0" && negb (bool_decide (String (digit d) s ++ t = "0"))) = false.
Proof.
  intros Hd. assert (Hc : d = 1 ∨ d = 2 ∨ d = 3 ∨ d = 4 ∨ d = 5 ∨ d = 6 ∨ d = 7 ∨ d = 8 ∨ d = 9) by lia.
  repeat destruct Hc as [->|Hc]; subst; reflexivity.
Qed.

(** The sign of a number. *)
Definition sign_text (neg : bool) : string := if neg then "-" else "".

Definition bad_int (i : string) : bool :=
  bool_decide (i = "") || (HasPrefix i "0" && negb (bool_decide (i = "0"))).

(** A number in parts. *)
Lemma read_number_parts neg i tail fr mid x rest :
  all_digits i = true → bad_int i = false → take_digits (i ++ tail) = (i, tail) →
  read_fraction tail = Some (fr, mid) → read_exponent mid = Some (x, rest) →
  read_number (sign_text neg ++ i ++ tail) = Some (mkNumber neg i fr x, rest).
Proof.
  intros Hi Hb Ht Hf Hx. unfold read_number.
  assert (Hs : match sign_text neg ++ i ++ tail with
               | String c s0 => if Ascii.eqb c "-" then (true, s0) else (false, sign_text neg ++ i ++ tail)
               | EmptyString => (false, sign_text neg ++ i ++ tail)
               end = (neg, i ++ tail)).
  { destruct neg; [done|]. cbn [sign_text String.append]. destruct i as [|c i]; [done|].
    cbn [String.append]. cbn in Hi. apply andb_true_iff in Hi as [Hc _].
    destruct (Ascii.eqb_spec c "-") as [->|]; [done|done]. }
  rewrite Hs, Ht. fold (bad_int i). rewrite Hb, Hf. cbn [mbind option_bind]. by rewrite Hx.
Qed.

Lemma ends_fraction r : ends_number r = true → read_fraction r = Some ("", r).
Proof.
  destruct r as [|c r]; [done|]. intros (_ & Hc & _)%ends_number_cons. cbn.
  by destruct (Ascii.eqb_spec c ".").
Qed.

Lemma ends_exponent r : ends_number r = true → read_exponent r = Some (None, r).
Proof. destruct r as [|c r]; [done|]. intros (_ & _ & H1 & H2)%ends_number_cons. cbn. by rewrite H1, H2. Qed.

Lemma nonempty_digits n : bool_decide (digits n = "") = false.
Proof. destruct (digits_nonempty n) as (c & s & -> & _). done. Qed.

(** An integer. *)
Lemma read_number_int neg n rest :
  0 <= n → ends_number rest = true →
  read_number (sign_text neg ++ digits n ++ rest) = Some (mkNumber neg (digits n) "" None, rest).
Proof.
  intros Hn Hr. apply (read_number_parts neg (digits n) rest "" rest None rest).
  - apply digits_all.
  - by apply digits_int.
  - apply take_digits_end; [apply digits_all|done].
  - by apply ends_fraction.
  - by apply ends_exponent.
Qed.

Lemma decimal_shift sign d k : 0 < d → 0 <= k → decimal_float sign (d * 10 ^ k) 0 = decimal_float sign d k.
Proof.
  intros Hd Hk. assert (0 < 10 ^ k) by (by apply Z.pow_pos_nonneg). unfold decimal_float.
  destruct (Z.eqb_spec (d * 10 ^ k) 0); [nia|]. destruct (Z.eqb_spec d 0); [lia|].
  destruct (Z.leb_spec 0 k); [|lia]. cbn [Z.leb Z.compare]. by rewrite Z.pow_0_r, Z.mul_1_r.
Qed.

(** The three forms, read back. *)
Lemma read_whole neg d k rest :
  0 < d → 0 <= k → ends_number rest = true →
  ∃ n, read_number (sign_text neg ++ (digits d ++ zeros (Z.to_nat k)) ++ rest) = Some (n, rest) ∧
       number_float n = decimal_float neg d k.
Proof.
  intros Hd Hk Hr. destruct (zeros_digits (Z.to_nat k)) as (Hz & Hl & Hv).
  assert (Hall : all_digits (digits d ++ zeros (Z.to_nat k)) = true) by (by rewrite all_digits_app, digits_all, Hz).
  eexists. split.
  - apply (read_number_parts neg _ rest "" rest None rest); [done| |by apply take_digits_end|by apply ends_fraction|by apply ends_exponent].
    destruct (digits_head d Hd) as (x & s & -> & Hx). by apply head_int.
  - unfold number_float. cbn [n_int n_frac n_neg n_exp default String.length Z.of_nat].
    rewrite string_app_nil_r, dec_value_app, digits_value by lia. cbn [mbind option_bind].
    rewrite (dec_value_shift d _ 0 Hv), Hl, Z2Nat.id, Z.add_0_r by lia. cbn [mbind option_bind].
    by rewrite decimal_shift.
Qed.

Lemma read_point neg d k rest :
  0 < d → k < 0 → ends_number rest = true →
  ∃ n, read_number (sign_text neg ++ (digits (d / 10 ^ (- k)) ++ "." ++ pad (- k) (d mod 10 ^ (- k))) ++ rest)
         = Some (n, rest) ∧ number_float n = decimal_float neg d k.
Proof.
  intros Hd Hk Hr. assert (Hp : 0 < 10 ^ (- k)) by (apply Z.pow_pos_nonneg; lia).
  assert (Hq : 0 <= d / 10 ^ (- k)) by (apply Z.div_pos; lia).
  destruct (pad_spec (- k) (d mod 10 ^ (- k))) as (Ha & Hl & Hv); [lia|by apply Z.mod_pos_bound|].
  set (i := digits (d / 10 ^ (- k))) in *. set (fr := pad (- k) (d mod 10 ^ (- k))) in *.
  eexists. split.
  - rewrite string_app_assoc. apply (read_number_parts neg i ("." ++ fr ++ rest) fr rest None rest).
    + apply digits_all.
    + by apply digits_int.
    + apply take_digits_app; [apply digits_all|done].
    + change (read_fraction ("." ++ fr ++ rest)) with
        (let '(ds, r) := take_digits (fr ++ rest) in if bool_decide (ds = "") then None else Some (ds, r)).
      rewrite take_digits_end by done. rewrite bool_decide_eq_false_2; [done|].
      intros He. rewrite He in Hl. cbn in Hl. lia.
    + by apply ends_exponent.
  - unfold number_float. cbn [n_int n_frac n_neg n_exp default]. rewrite Hl.
    unfold i. rewrite dec_value_app, digits_value by done. cbn [mbind option_bind].
    rewrite (dec_value_shift _ _ _ Hv), Hl. cbn [mbind option_bind]. f_equal; [|lia].
    pose proof (Z.div_mod d (10 ^ (- k)) ltac:(lia)). lia.
Qed.

Lemma read_exponent_text x rest :
  ends_number rest = true →
  read_exponent ("e" ++ (if x <? 0 then "-" else "+") ++ digits (Z.abs x) ++ rest) = Some (Some x, rest).
Proof.
  intros Hr. cbn [String.append read_exponent]. cbn [Ascii.eqb orb].
  destruct (Z.ltb_spec x 0).
  - change (match _ with String c s2 => _ | EmptyString => _ end) with (true, digits (Z.abs x) ++ rest).
    cbv beta iota. rewrite take_digits_end by (apply digits_all || done).
    rewrite nonempty_digits, digits_value by lia. cbn. do 3 f_equal. lia.
  - change (match _ with String c s2 => _ | EmptyString => _ end) with (false, digits (Z.abs x) ++ rest).
    cbv beta iota. rewrite take_digits_end by (apply digits_all || done).
    rewrite nonempty_digits, digits_value by lia. cbn. do 3 f_equal. lia.
Qed.

Lemma read_scientific neg d k rest :
  0 < d → ends_number rest = true →
  let s := digits d in
  let x := ndigits d + k - 1 in
  ∃ n, read_number (sign_text neg ++ (str_take 1 s ++ (if (String.length s =? 1)%nat then "" else "." ++ str_drop 1 s) ++
         "e" ++ (if x <? 0 then "-" else "+") ++ digits (Z.abs x)) ++ rest) = Some (n, rest) ∧
       number_float n = decimal_float neg d k.
Proof.
  intros Hd Hr s x. pose proof (digits_all d) as Hall. pose proof (digits_value d ltac:(lia)) as Hval.
  destruct (digits_head d Hd) as (h & t & Hs & Hh). assert (Hx : x = Z.of_nat (String.length t) + k).
  { unfold x, ndigits. rewrite Hs. cbn [String.length]. lia. }
  unfold s. rewrite Hs in *. cbn [String.length Nat.eqb str_take str_drop].
  replace (match t with EmptyString => "" | String _ _ => "" end) with "" by (by destruct t).
  set (et := "e" ++ _) in *. assert (Het : read_exponent (et ++ rest) = Some (Some x, rest)).
  { unfold et. rewrite !string_app_assoc. by apply read_exponent_text. }
  cbn in Hall. apply andb_true_iff in Hall as [_ Ht].
  assert (Hi : all_digits (String (digit h) "") = true) by (cbn; by rewrite is_digit_digit by lia).
  assert (Hb : bad_int (String (digit h) "") = false) by (apply (head_int h "" ""); lia).
  destruct t as [|c t].
  - eexists. split.
    + rewrite string_app_assoc. apply (read_number_parts neg (String (digit h) "") (("" ++ et) ++ rest) "" (et ++ rest) (Some x) rest);
        [done|done|by apply take_digits_app|done|done].
    + unfold number_float. cbn [n_int n_frac n_neg n_exp default String.length Z.of_nat]. rewrite string_app_nil_r, Hval.
      cbn [mbind option_bind]. f_equal. rewrite Hx. cbn. lia.
  - eexists. split.
    + rewrite string_app_assoc.
      apply (read_number_parts neg (String (digit h) "") ((("." ++ String c t) ++ et) ++ rest) (String c t) (et ++ rest) (Some x) rest);
        [done|done|by apply take_digits_app| |done].
      rewrite !string_app_assoc. change (read_fraction ("." ++ String c t ++ et ++ rest)) with
        (let '(ds, r) := take_digits (String c t ++ et ++ rest) in if bool_decide (ds = "") then None else Some (ds, r)).
      replace (take_digits (String c t ++ et ++ rest)) with (String c t, et ++ rest); [done|].
      symmetry. by apply take_digits_app.
    + unfold number_float. cbn [n_int n_frac n_neg n_exp default]. rewrite Hx.
      change (String (digit h) "" ++ String c t) with (String (digit h) (String c t)). rewrite Hval.
      cbn [mbind option_bind]. f_equal. cbn. lia.
Qed.

(** A double is written so that it reads back. *)
Lemma read_format_float f s rest :
  valid_float f = true → format_float f = Some s → ends_number rest = true →
  ∃ n, read_number (s ++ rest) = Some (n, rest) ∧ number_float n = Some f.
Proof.
  intros Hv Hs Hr. destruct f as [[]| | |neg m e]; cbn in Hs; try done.
  - injection Hs as <-. eexists. split; [by apply (read_number_int true 0)|done].
  - injection Hs as <-. eexists. split; [by apply (read_number_int false 0)|done].
  - pose proof (shortest_reads neg m e Hv) as Hsh. destruct (shortest m e) as [d k]. destruct Hsh as [Hd Hf].
    injection Hs as <-. fold (sign_text neg). rewrite string_app_assoc, <- Hf. unfold format_decimal.
    destruct (_ && _); [destruct (Z.leb_spec 0 k)|].
    + by apply read_whole.
    + by apply read_point.
    + by apply (read_scientific neg d k rest).
Qed.
