(* ===== verification/Json.v ===== *)
(** * JSON text ([encoding/json])

    The syntax of JSON as Go's scanner accepts it and its encoder writes it.
    Strings and numbers of a value are kept as their literals; [unquote] and
    [GoFloat.read_number] interpret them.  The limit of Go's scanner on nesting
    (ten thousand levels) is not part of the model. *)
From Stdlib Require Import Ascii ZArith Lia.
From S2P Require Import Prelude GoTime GoStrings GoNumbers GoFloat.

Local Open Scope string_scope.

Definition quote_char : ascii := ascii_of_N 34.
Definition backslash : ascii := ascii_of_N 92.

(** ** UTF-8 *)

(** What [utf8.DecodeRuneInString] finds at the head of a text: a sequence of one
    to four bytes, or one byte that begins none. *)
Inductive rune :=
  | R1 (a : ascii)
  | R2 (a b : ascii)
  | R3 (a b c : ascii)
  | R4 (a b c d : ascii)
  | RBad.

#[export] Instance rune_eq_dec : EqDecision rune.
Proof. solve_decision. Defined.

Definition within (lo hi : N) (c : ascii) : bool := ((lo <=? N_of_ascii c) && (N_of_ascii c <=? hi))%N.
Definition tail_byte : ascii → bool := within 128 191.

Definition two (a b : ascii) : bool := within 194 223 a && tail_byte b.
Definition three (a b c : ascii) : bool :=
  tail_byte c &&
  (within 224 224 a && within 160 191 b || within 225 236 a && tail_byte b ||
   within 237 237 a && within 128 159 b || within 238 239 a && tail_byte b).
Definition four (a b c d : ascii) : bool :=
  tail_byte c && tail_byte d &&
  (within 240 240 a && within 144 191 b || within 241 243 a && tail_byte b || within 244 244 a && within 128 143 b).

(** The first rune and what follows it. *)
Definition decode_rune (a : ascii) (s : string) : rune * string :=
  if (N_of_ascii a <? 128)%N then (R1 a, s)
  else match s with
  | String b s2 =>
      if two a b then (R2 a b, s2)
      else match s2 with
      | String c s3 =>
          if three a b c then (R3 a b c, s3)
          else match s3 with
          | String d s4 => if four a b c d then (R4 a b c d, s4) else (RBad, s)
          | EmptyString => (RBad, s)
          end
      | EmptyString => (RBad, s)
      end
  | EmptyString => (RBad, s)
  end.

(** The runes of a text; [fuel] at least its length. *)
Fixpoint runes_go (fuel : nat) (s : string) : list rune :=
  match fuel, s with
  | S fuel', String a s' => let '(r, rest) := decode_rune a s' in r :: runes_go fuel' rest
  | _, _ => []
  end.

Definition runes (s : string) : list rune := runes_go (String.length s) s.

Fixpoint str (l : list N) : string :=
  match l with [] => "" | n :: l' => String (ascii_of_N n) (str l') end.

(** U+FFFD. *)
Definition replacement : string := str [239; 191; 189]%N.

Definition rune_bytes (r : rune) : string :=
  match r with
  | R1 a => String a ""
  | R2 a b => String a (String b "")
  | R3 a b c => String a (String b (String c ""))
  | R4 a b c d => String a (String b (String c (String d "")))
  | RBad => replacement
  end.

Fixpoint concat_map (f : rune → string) (l : list rune) : string :=
  match l with [] => "" | r :: l' => f r ++ concat_map f l' end.

(** The text with every bad byte replaced: what [strings.ToValidUTF8] with U+FFFD
    per byte gives. *)
Definition to_valid (s : string) : string := concat_map rune_bytes (runes s).

Definition valid_utf8 (s : string) : bool := bool_decide (RBad ∉ runes s).

(** ** String literals *)

Definition hex_digit (n : N) : ascii := ascii_of_N (if (n <? 10)%N then 48 + n else 87 + n).

(** [appendString] with HTML escaping. *)
Definition escape_byte (c : ascii) : string :=
  let n := N_of_ascii c in
  if (n =? 34)%N || (n =? 92)%N then String backslash (String c "")
  else if (n =? 8)%N then String backslash "b"
  else if (n =? 12)%N then String backslash "f"
  else if (n =? 10)%N then String backslash "n"
  else if (n =? 13)%N then String backslash "r"
  else if (n =? 9)%N then String backslash "t"
  else if (n <? 32)%N || (n =? 60)%N || (n =? 62)%N || (n =? 38)%N
  then String backslash ("u00" ++ String (hex_digit (n / 16)) (String (hex_digit (n mod 16)) ""))
  else String c "".

(** U+2028 and U+2029 are escaped, other runes above ASCII are written as they are. *)
Definition quote_rune (r : rune) : string :=
  match r with
  | R1 a => escape_byte a
  | R3 a b c =>
      if ((N_of_ascii a =? 226) && (N_of_ascii b =? 128) && ((N_of_ascii c =? 168) || (N_of_ascii c =? 169)))%N
      then String backslash ("u202" ++ String (hex_digit (N_of_ascii c - 160)) "")
      else rune_bytes r
  | RBad => String backslash "ufffd"
  | _ => rune_bytes r
  end.

(** The literal of a string, between its quotes. *)
Definition quote_body (s : string) : string := concat_map quote_rune (runes s).

(** ** Reading literals *)

Definition hex_value (c : ascii) : option N :=
  let n := N_of_ascii c in
  if ((48 <=? n) && (n <=? 57))%N then Some (n - 48)%N
  else if ((97 <=? n) && (n <=? 102))%N then Some (n - 87)%N
  else if ((65 <=? n) && (n <=? 70))%N then Some (n - 55)%N
  else None.

Definition hex4 (a b c d : ascii) : option N :=
  wa ← hex_value a; wb ← hex_value b; wc ← hex_value c; wd ← hex_value d;
  Some (((wa * 16 + wb) * 16 + wc) * 16 + wd)%N.

(** The bytes of a code point. *)
Definition encode_utf8 (n : N) : string :=
  (if n <? 128 then str [n]
   else if n <? 2048 then str [192 + n / 64; 128 + n mod 64]
   else if n <? 65536 then str [224 + n / 4096; 128 + n / 64 mod 64; 128 + n mod 64]
   else str [240 + n / 262144; 128 + n / 4096 mod 64; 128 + n / 64 mod 64; 128 + n mod 64])%N.

(** [\uXXXX] at the head of a text. *)
Definition getu4 (s : string) : option (N * string) :=
  match s with
  | String x (String u (String a (String b (String c (String d rest))))) =>
      if Ascii.eqb x backslash && Ascii.eqb u "u" then n ← hex4 a b c d; Some (n, rest) else None
  | _ => None
  end.

Definition high_surrogate (n : N) : bool := ((55296 <=? n) && (n <? 56320))%N.
Definition low_surrogate (n : N) : bool := ((56320 <=? n) && (n <? 57344))%N.

(** A [\u] escape, with the second half of a surrogate pair; a lone half is
    replaced. *)
Definition unquote_u (n : N) (rest : string) : string * string :=
  if high_surrogate n then
    match getu4 rest with
    | Some (n2, rest2) =>
        if low_surrogate n2 then (encode_utf8 (65536 + (n - 55296) * 1024 + (n2 - 56320))%N, rest2)
        else (replacement, rest)
    | None => (replacement, rest)
    end
  else if low_surrogate n then (replacement, rest)
  else (encode_utf8 n, rest).

Definition unquote_escape (c : ascii) : option ascii :=
  let n := N_of_ascii c in
  (if (n =? 34) || (n =? 92) || (n =? 47) then Some c
   else if n =? 98 then Some (ascii_of_N 8)
   else if n =? 102 then Some (ascii_of_N 12)
   else if n =? 110 then Some (ascii_of_N 10)
   else if n =? 114 then Some (ascii_of_N 13)
   else if n =? 116 then Some (ascii_of_N 9)
   else None)%N.

(** One element of a literal: the text it stands for, and the rest; [None] for
    what the scanner refuses. *)
Definition unquote_step (c : ascii) (s : string) : option (string * string) :=
  if Ascii.eqb c backslash then
    match s with
    | String e s' =>
        match unquote_escape e with
        | Some b => Some (String b "", s')
        | None => '(n, rest) ← getu4 (String c s); Some (unquote_u n rest)
        end
    | EmptyString => None
    end
  else if (N_of_ascii c <? 32)%N || Ascii.eqb c quote_char then None
  else let '(r, rest) := decode_rune c s in Some (rune_bytes r, rest).

Fixpoint unquote_go (fuel : nat) (s : string) : option string :=
  match s, fuel with
  | EmptyString, _ => Some ""
  | String c s', S fuel' =>
      '(t, rest) ← unquote_step c s';
      u ← unquote_go fuel' rest;
      Some (t ++ u)
  | String _ _, O => None
  end.

(** The string a literal denotes. *)
Definition unquote (s : string) : option string := unquote_go (String.length s) s.

(** ** Runes in literals *)

(** The runes [decode_rune] yields. *)
Definition rune_ok (r : rune) : Prop :=
  match r with
  | R1 a => (N_of_ascii a < 128)%N
  | R2 a b => two a b = true
  | R3 a b c => three a b c = true
  | R4 a b c d => four a b c d = true
  | RBad => True
  end.

Lemma decode_rune_spec a s :
  let '(r, rest) := decode_rune a s in
  rune_ok r ∧ (String.length rest <= String.length s)%nat ∧ (r ≠ RBad → String a s = rune_bytes r ++ rest).
Proof.
  unfold decode_rune. destruct (N.ltb_spec (N_of_ascii a) 128); [done|].
  destruct s as [|b s2]; [done|]. destruct (two a b) eqn:H2; [cbn; auto with lia|].
  destruct s2 as [|c s3]; [done|]. destruct (three a b c) eqn:H3; [cbn; auto with lia|].
  destruct s3 as [|d s4]; [done|]. destruct (four a b c d) eqn:H4; [cbn; auto with lia|done].
Qed.

Lemma runes_go_ok fuel s : Forall rune_ok (runes_go fuel s).
Proof.
  revert s. induction fuel as [|fuel IH]; intros [|a s]; cbn; try constructor.
  pose proof (decode_rune_spec a s) as H. destruct (decode_rune a s) as [r rest].
  constructor; [apply H|apply IH].
Qed.

Lemma runes_ok s : Forall rune_ok (runes s).
Proof. apply runes_go_ok. Qed.

Lemma runes_go_valid fuel s :
  (String.length s <= fuel)%nat → RBad ∉ runes_go fuel s → concat_map rune_bytes (runes_go fuel s) = s.
Proof.
  revert s. induction fuel as [|fuel IH]; intros [|a s] Hl Hb; cbn in *; [done|lia|done|].
  pose proof (decode_rune_spec a s) as H. destruct (decode_rune a s) as [r rest].
  destruct H as (_ & Hlen & Heq). cbn. apply not_elem_of_cons in Hb as [Hr Hb].
  rewrite IH by (done || lia). by rewrite Heq.
Qed.

Lemma to_valid_id s : valid_utf8 s = true → to_valid s = s.
Proof. unfold valid_utf8. intros Hb%bool_decide_eq_true. by apply runes_go_valid. Qed.

(** Text of bytes below 128. *)
Fixpoint ascii_only (s : string) : bool :=
  match s with String c s' => (N_of_ascii c <? 128)%N && ascii_only s' | EmptyString => true end.

Lemma ascii_digits s : all_digits s = true → ascii_only s = true.
Proof.
  induction s as [|c s IH]; cbn; [done|]. intros [Hc Hs]%andb_true_iff. rewrite (IH Hs), andb_true_r.
  destruct c as [[] [] [] [] [] [] [] []]; done.
Qed.

Lemma ascii_valid s : ascii_only s = true → valid_utf8 s = true.
Proof.
  intros Ha. unfold valid_utf8, runes. apply bool_decide_eq_true.
  assert (Hg : ∀ n, (String.length s <= n)%nat → RBad ∉ runes_go n s); [|by apply Hg].
  induction s as [|c s IH]; intros n Hn; [by destruct n; apply not_elem_of_nil|].
  destruct n as [|n]; [cbn in Hn; lia|]. cbn in *. apply andb_true_iff in Ha as [Hc Ha].
  unfold decode_rune. rewrite Hc. apply not_elem_of_cons. split; [done|]. apply IH; [done|lia].
Qed.

(** A boolean combination of comparisons, as a proposition. *)
Ltac bool_prop H :=
  repeat first [rewrite andb_true_iff in H | rewrite orb_true_iff in H | rewrite N.leb_le in H].

(** A byte above ASCII. *)
Definition high (c : ascii) : Prop := (128 <= N_of_ascii c)%N.

Lemma within_high lo hi c : (128 <= lo)%N → within lo hi c = true → high c.
Proof. unfold within, high. intros ? [?%N.leb_le ?%N.leb_le]%andb_true_iff. lia. Qed.

Lemma rune_bytes_high r : rune_ok r →
  match r with R1 _ => True | R2 a b => high a ∧ high b | R3 a b c => high a ∧ high b ∧ high c
  | R4 a b c d => high a ∧ high b ∧ high c ∧ high d | RBad => True end.
Proof.
  destruct r as [a|a b|a b c|a b c d|]; cbn; [done|..|done]; unfold two, three, four, tail_byte;
    rewrite ?andb_true_iff, ?orb_true_iff, ?andb_true_iff; intros H; destruct_and?; destruct_or?; destruct_and?;
    repeat split; eapply within_high; try eassumption; lia.
Qed.

Lemma high_not c d : high c → (N_of_ascii d < 128)%N → Ascii.eqb c d = false.
Proof. unfold high. intros Hc Hd. destruct (Ascii.eqb_spec c d) as [->|]; [lia|done]. Qed.

Lemma decode_bytes r t : rune_ok r →
  match r with
  | RBad => True
  | _ => ∃ c s, rune_bytes r ++ t = String c s ∧ decode_rune c s = (r, t)
  end.
Proof.
  intros Hok. pose proof (rune_bytes_high r Hok) as Hh.
  destruct r as [a|a b|a b c|a b c d|]; cbn in *; [..|done]; eexists _, _; (split; [reflexivity|]);
    unfold decode_rune.
  - by rewrite (proj2 (N.ltb_lt _ _)).
  - rewrite (proj2 (N.ltb_ge _ _)) by apply Hh. by rewrite Hok.
  - rewrite (proj2 (N.ltb_ge _ _)) by apply Hh.
    assert (two a b = false) as ->; [|by rewrite Hok].
    unfold two. unfold three in Hok. unfold within in *.
    destruct ((194 <=? N_of_ascii a) && (N_of_ascii a <=? 223))%N eqn:E; [|done].
    apply andb_true_iff in E as [?%N.leb_le ?%N.leb_le]. exfalso.
    bool_prop Hok. lia.
  - rewrite (proj2 (N.ltb_ge _ _)) by apply Hh.
    assert (two a b = false) as ->.
    { unfold two, four, within in *. destruct ((194 <=? N_of_ascii a) && (N_of_ascii a <=? 223))%N eqn:E; [|done].
      apply andb_true_iff in E as [?%N.leb_le ?%N.leb_le]. exfalso.
      bool_prop Hok. lia. }
    assert (three a b c = false) as ->; [|by rewrite Hok].
    destruct (three a b c) eqn:E; [|done]. exfalso. unfold three, four, within in *.
    bool_prop Hok. bool_prop E. lia.
Qed.

(** What is written for a rune is one element, which stands for the rune. *)
Lemma unquote_quote_rune r t : rune_ok r →
  ∃ c s, quote_rune r ++ t = String c s ∧ unquote_step c s = Some (rune_bytes r, t).
Proof.
  intros Hok. pose proof (decode_bytes r t Hok) as Hd. pose proof (rune_bytes_high r Hok) as Hh.
  assert (Hplain : r ≠ RBad → quote_rune r = rune_bytes r → (∀ a, r ≠ R1 a) →
    ∃ c s, quote_rune r ++ t = String c s ∧ unquote_step c s = Some (rune_bytes r, t)).
  { intros Hb -> H1. destruct r as [a|a b|a b c|a b c d|]; try done; [by destruct (H1 a)|..];
      destruct Hd as (c0 & s0 & Hs & Hdec); exists c0, s0; (split; [done|]); cbn in Hs; injection Hs as <- <-;
      unfold unquote_step; rewrite !high_not by (done || apply Hh);
      (rewrite (proj2 (N.ltb_ge _ _)) by (destruct Hh as [Hh _]; unfold high in Hh; lia)); by rewrite Hdec. }
  destruct r as [a|a b|a b c|a b c d|].
  - clear Hplain Hd Hh. cbn in Hok. destruct a as [[] [] [] [] [] [] [] []];
      first [exfalso; vm_compute in Hok; discriminate Hok | eexists _, _; split; reflexivity].
  - by apply Hplain.
  - cbn [quote_rune] in *. destruct (_ && _)%N eqn:E; [|by apply Hplain].
    apply andb_true_iff in E as [[Ha%N.eqb_eq Hb%N.eqb_eq]%andb_true_iff Hc].
    apply (f_equal ascii_of_N) in Ha, Hb. rewrite ascii_N_embedding in Ha, Hb. subst a b.
    apply orb_true_iff in Hc as [Hc%N.eqb_eq|Hc%N.eqb_eq]; apply (f_equal ascii_of_N) in Hc;
      rewrite ascii_N_embedding in Hc; subst c; eexists _, _; split; reflexivity.
  - by apply Hplain.
  - eexists _, _. split; reflexivity.
Qed.

Lemma unquote_go_runes rs fuel :
  Forall rune_ok rs → (String.length (concat_map quote_rune rs) <= fuel)%nat →
  unquote_go fuel (concat_map quote_rune rs) = Some (concat_map rune_bytes rs).
Proof.
  intros HF. revert fuel. induction HF as [|r rs Hr _ IH]; intros fuel Hl; [by destruct fuel|].
  cbn [concat_map] in *. destruct (unquote_quote_rune r (concat_map quote_rune rs) Hr) as (c & s & Hs & Hstep).
  assert (Hlen : (String.length (concat_map quote_rune rs) < String.length (String c s))%nat).
  { rewrite <- Hs, string_length_app. destruct (unquote_quote_rune r "" Hr) as (c' & s' & Hs' & _).
    rewrite string_app_nil_r in Hs'. rewrite Hs'. cbn. lia. }
  rewrite Hs in *. destruct fuel as [|fuel]; [cbn in Hl; lia|]. cbn [unquote_go]. rewrite Hstep.
  cbn [mbind option_bind]. rewrite IH; [done|]. cbn in Hl, Hlen. lia.
Qed.

Lemma unquote_quote s : unquote (quote_body s) = Some (to_valid s).
Proof. apply unquote_go_runes; [apply runes_ok|done]. Qed.

(** ** Values *)

Inductive json :=
  | jnull
  | jbool (b : bool)
  | jnum (lit : string)
  | jstr (lit : string)
  | jarr (l : list json)
  | jobj (l : list (string * json)).

(** Induction through the lists. *)
Lemma json_nested_ind (P : json → Prop) :
  P jnull → (∀ b, P (jbool b)) → (∀ s, P (jnum s)) → (∀ s, P (jstr s)) →
  (∀ l, Forall P l → P (jarr l)) → (∀ l, Forall (λ kv, P kv.2) l → P (jobj l)) → ∀ v, P v.
Proof.
  intros Hnull Hbool Hnum Hstr Harr Hobj. fix IH 1. intros [|b|s|s|l|l]; [done..| |].
  - apply Harr. induction l as [|v l IHl]; constructor; [apply IH|exact IHl].
  - apply Hobj. induction l as [|[k v] l IHl]; constructor; [apply IH|exact IHl].
Qed.

Definition quoted (s : string) : string := String quote_char (s ++ String quote_char "").

(** The compact form [json.Marshal] writes. *)
Fixpoint print (v : json) : string :=
  match v with
  | jnull => "null"
  | jbool b => if b then "true" else "false"
  | jnum l => l
  | jstr l => quoted l
  | jarr l => "[" ++ String.concat "," (map print l) ++ "]"
  | jobj l => "{" ++ String.concat "," (map (λ '(k, v), quoted k ++ ":" ++ print v) l) ++ "}"
  end.

(** ** The parser *)

Definition is_ws (c : ascii) : bool :=
  let n := N_of_ascii c in ((n =? 32) || (n =? 9) || (n =? 10) || (n =? 13))%N.

Fixpoint skip_ws (s : string) : string :=
  match s with String c s' => if is_ws c then skip_ws s' else s | EmptyString => "" end.

Definition is_hex (c : ascii) : bool := bool_decide (is_Some (hex_value c)).

(** A literal up to its closing quote. *)
Fixpoint scan_str (s : string) : option (string * string) :=
  match s with
  | EmptyString => None
  | String c s1 =>
      if Ascii.eqb c quote_char then Some ("", s1)
      else if Ascii.eqb c backslash then
        match s1 with
        | String e s2 =>
            if bool_decide (is_Some (unquote_escape e))
            then '(t, r) ← scan_str s2; Some (String c (String e t), r)
            else if Ascii.eqb e "u" then
              match s2 with
              | String h1 (String h2 (String h3 (String h4 s6))) =>
                  if is_hex h1 && is_hex h2 && is_hex h3 && is_hex h4
                  then '(t, r) ← scan_str s6;
                       Some (String c (String e (String h1 (String h2 (String h3 (String h4 t))))), r)
                  else None
              | _ => None
              end
            else None
        | EmptyString => None
        end
      else if (N_of_ascii c <? 32)%N then None
      else '(t, r) ← scan_str s1; Some (String c t, r)
  end.

(** The next character after white space, with what follows it. *)
Definition next (s : string) : option (ascii * string) :=
  match skip_ws s with String c r => Some (c, r) | EmptyString => None end.

(** A value, the members of an object after its brace, the elements of an array
    after its bracket; the fuel bounds the number of values. *)
Fixpoint parse_value (fuel : nat) (s : string) : option (json * string) :=
  match fuel with
  | O => None
  | S fuel' =>
      '(c, r) ← next s;
      if Ascii.eqb c "{" then
        '(c1, r1) ← next r;
        if Ascii.eqb c1 "}" then Some (jobj [], r1)
        else '(ms, r2) ← parse_members fuel' r; Some (jobj ms, r2)
      else if Ascii.eqb c "[" then
        '(c1, r1) ← next r;
        if Ascii.eqb c1 "]" then Some (jarr [], r1)
        else '(vs, r2) ← parse_elements fuel' r; Some (jarr vs, r2)
      else if Ascii.eqb c quote_char then '(l, r1) ← scan_str r; Some (jstr l, r1)
      else if HasPrefix (String c r) "null" then Some (jnull, str_drop 3 r)
      else if HasPrefix (String c r) "true" then Some (jbool true, str_drop 3 r)
      else if HasPrefix (String c r) "false" then Some (jbool false, str_drop 4 r)
      else '(_, r1) ← read_number (String c r);
           Some (jnum (str_take (String.length (String c r) - String.length r1) (String c r)), r1)
  end
with parse_members (fuel : nat) (s : string) : option (list (string * json) * string) :=
  match fuel with
  | O => None
  | S fuel' =>
      '(c, r) ← next s;
      if Ascii.eqb c quote_char then
        '(k, r1) ← scan_str r;
        '(c1, r2) ← next r1;
        if Ascii.eqb c1 ":" then
          '(v, r3) ← parse_value fuel' r2;
          '(c2, r4) ← next r3;
          if Ascii.eqb c2 "," then '(ms, r5) ← parse_members fuel' r4; Some ((k, v) :: ms, r5)
          else if Ascii.eqb c2 "}" then Some ([(k, v)], r4)
          else None
        else None
      else None
  end
with parse_elements (fuel : nat) (s : string) : option (list json * string) :=
  match fuel with
  | O => None
  | S fuel' =>
      '(v, r) ← parse_value fuel' s;
      '(c, r1) ← next r;
      if Ascii.eqb c "," then '(vs, r2) ← parse_elements fuel' r1; Some (v :: vs, r2)
      else if Ascii.eqb c "]" then Some ([v], r1)
      else None
  end.

(** [Decoder.Decode]: the first value of the text; what follows it is not read. *)
Definition first_value (s : string) : option json := fst <$> parse_value (S (String.length s)) s.

(** [json.Unmarshal]: the value of the whole text. *)
Definition whole_value (s : string) : option json :=
  '(v, r) ← parse_value (S (String.length s)) s; if bool_decide (skip_ws r = "") then Some v else None.

Example parse_example :
  whole_value (" { " ++ quoted "a" ++ " : [1, -2.5e3 , true, null] } ") =
  Some (jobj [("a", jarr [jnum "1"; jnum "-2.5e3"; jbool true; jnull])]).
Proof. vm_compute. reflexivity. Qed.

(** ** Fuel

    A parse that succeeds with some fuel consumes at least one character per unit
    it needs, so the length of the text is enough fuel for every text. *)

Lemma take_digits_length s : (String.length (take_digits s).1 + String.length (take_digits s).2 = String.length s)%nat.
Proof.
  induction s as [|c s IH]; cbn [take_digits]; [done|]. destruct (is_digit c); [|done].
  destruct (take_digits s) as [d r]. cbn in *. lia.
Qed.

Lemma read_fraction_length s fr r : read_fraction s = Some (fr, r) → (String.length r <= String.length s)%nat.
Proof.
  unfold read_fraction. destruct s as [|c s1]; [by intros [= _ <-]|]. destruct (Ascii.eqb c "."); [|by intros [= _ <-]].
  pose proof (take_digits_length s1). destruct (take_digits s1) as [ds r1]. cbn in *.
  case_bool_decide; [done|]. intros [= _ <-]. lia.
Qed.

Lemma read_exponent_length s x r : read_exponent s = Some (x, r) → (String.length r <= String.length s)%nat.
Proof.
  unfold read_exponent. destruct s as [|c s1]; [by intros [= _ <-]|]. destruct (_ || _); [|by intros [= _ <-]].
  assert (H : ∀ neg s2, (String.length s2 <= String.length s1)%nat →
    (let '(ds, r) := take_digits s2 in
     if bool_decide (ds = "") then None else n ← dec_value 0 ds; Some (Some (if neg : bool then - n else n), r)) = Some (x, r) →
    (String.length r <= String.length (String c s1))%nat).
  { intros neg s2 Hs2. pose proof (take_digits_length s2). destruct (take_digits s2) as [ds r1]. cbn in *.
    case_bool_decide; [done|]. destruct (dec_value 0 ds); [|done]. intros [= _ <-]. lia. }
  destruct s1 as [|c1 s2]; [by apply (H false "")|]. destruct (Ascii.eqb c1 "-"); [apply (H true s2); cbn; lia|].
  destruct (Ascii.eqb c1 "+"); [apply (H false s2); cbn; lia|by apply (H false (String c1 s2))].
Qed.

Lemma read_number_length s n r : read_number s = Some (n, r) → (String.length r < String.length s)%nat.
Proof.
  unfold read_number. set (p := match s with String c s0 => _ | EmptyString => _ end).
  assert (Hp : (String.length p.2 <= String.length s)%nat) by (subst p; destruct s as [|c s0]; [done|]; destruct (Ascii.eqb c "-"); cbn; lia).
  destruct p as [neg s0]. cbn in Hp. pose proof (take_digits_length s0). destruct (take_digits s0) as [i s1]. cbn in *.
  destruct (bool_decide_reflect (i = "")) as [|Hi]; [done|]. cbn [orb]. destruct (_ && _); [done|].
  destruct (read_fraction s1) as [[fr s2]|] eqn:Hf; [|done]. apply read_fraction_length in Hf. cbn.
  destruct (read_exponent s2) as [[x s3]|] eqn:Hx; [|done]. apply read_exponent_length in Hx. cbn.
  intros [= _ <-]. destruct i; [done|]. cbn in *. lia.
Qed.

Lemma scan_str_length s l r : scan_str s = Some (l, r) → (String.length r < String.length s)%nat.
Proof.
  remember (String.length s) as n eqn:Hn. revert s Hn l r.
  induction (lt_wf n) as [n _ IH]. intros s -> l r. destruct s as [|c s1]; [done|]. cbn [scan_str].
  assert (Hrec : ∀ s' (f : string → string), (String.length s' < String.length (String c s1))%nat →
    ('(t, r) ← scan_str s'; Some (f t, r)) = Some (l, r) → (String.length r < String.length (String c s1))%nat).
  { intros s' f Hs'. destruct (scan_str s') as [[t r']|] eqn:Hsc; [|done]. cbn. intros [= _ <-].
    specialize (IH _ Hs' s' eq_refl t r' Hsc). cbn in *. lia. }
  destruct (Ascii.eqb c quote_char); [intros [= _ <-]; cbn; lia|].
  destruct (Ascii.eqb c backslash); [|destruct (_ <? _)%N; [done|apply (Hrec s1 (String c)); cbn; lia]].
  destruct s1 as [|e s2]; [done|]. destruct (bool_decide _); [apply (Hrec s2 (λ t, String c (String e t))); cbn; lia|].
  destruct (Ascii.eqb e "u"); [|done]. destruct s2 as [|h1 [|h2 [|h3 [|h4 s6]]]]; try done.
  destruct (_ && _); [|done]. apply (Hrec s6 (λ t, String c (String e (String h1 (String h2 (String h3 (String h4 t))))))). cbn. lia.
Qed.

Lemma skip_ws_length s : (String.length (skip_ws s) <= String.length s)%nat.
Proof. induction s as [|c s IH]; cbn; [done|]. destruct (is_ws c); cbn; lia. Qed.

Lemma next_length s c r : next s = Some (c, r) → (String.length r < String.length s)%nat.
Proof.
  unfold next. pose proof (skip_ws_length s). destruct (skip_ws s) as [|c' r'] eqn:Hs; [done|]. intros [= _ <-]. cbn in *. lia.
Qed.

Lemma str_drop_length n s : (String.length (str_drop n s) <= String.length s)%nat.
Proof. revert s. induction n as [|n IH]; intros [|c s]; cbn; try lia. specialize (IH s). lia. Qed.

(** What a parse with fuel [f] found is found with any fuel from the length of
    what it consumed on. *)
Definition fuel_enough {A} (p : nat → string → option (A * string)) (f : nat) : Prop :=
  ∀ s a r, p f s = Some (a, r) → (String.length r < String.length s)%nat ∧
    ∀ g, (String.length s - String.length r <= g)%nat → p g s = Some (a, r).

Section Fuel.
Context (f : nat) (IHv : fuel_enough parse_value f) (IHm : fuel_enough parse_members f) (IHe : fuel_enough parse_elements f).

Lemma parse_value_fuel : fuel_enough parse_value (S f).
Proof.
  intros s a r H.
  cbn [parse_value] in H. destruct (next s) as [[c r0]|] eqn:E0; cbn [mbind option_bind] in H; [|discriminate H].
  pose proof (next_length _ _ _ E0) as L0.
  destruct (Ascii.eqb c "{") eqn:B1.
  { destruct (next r0) as [[c1 r1]|] eqn:E1; cbn [mbind option_bind] in H; [|discriminate H]. pose proof (next_length _ _ _ E1).
    destruct (Ascii.eqb c1 "}") eqn:B2.
    + injection H as <- <-. split; [lia|]. intros [|g] Hg; [lia|]. cbn [parse_value]. rewrite E0. cbn. by rewrite B1, E1; cbn; rewrite B2.
    + destruct (parse_members f r0) as [[ms r2]|] eqn:E2; [|discriminate H]. injection H as <- <-.
      destruct (IHm _ _ _ E2) as [L2 G2]. split; [lia|]. intros [|g] Hg; [lia|].
      cbn [parse_value]. rewrite E0. cbn. rewrite B1, E1. cbn. rewrite B2, (G2 g) by lia. done. }
  destruct (Ascii.eqb c "[") eqn:B2.
  { destruct (next r0) as [[c1 r1]|] eqn:E1; cbn [mbind option_bind] in H; [|discriminate H]. pose proof (next_length _ _ _ E1).
    destruct (Ascii.eqb c1 "]") eqn:B3.
    + injection H as <- <-. split; [lia|]. intros [|g] Hg; [lia|]. cbn [parse_value]. rewrite E0. cbn. rewrite B1, B2, E1. cbn. by rewrite B3.
    + destruct (parse_elements f r0) as [[vs r2]|] eqn:E2; [|discriminate H]. injection H as <- <-.
      destruct (IHe _ _ _ E2) as [L2 G2]. split; [lia|]. intros [|g] Hg; [lia|].
      cbn [parse_value]. rewrite E0. cbn. rewrite B1, B2, E1. cbn. rewrite B3, (G2 g) by lia. done. }
  (* the other values do not use the fuel *)
  assert (Hr : (String.length r <= String.length r0)%nat).
  { destruct (Ascii.eqb c quote_char).
    - destruct (scan_str r0) as [[l r1]|] eqn:E1; [|discriminate H]. apply scan_str_length in E1. injection H as _ <-. lia.
    - destruct (HasPrefix _ "null"); [injection H as _ <-; exact (str_drop_length 3 r0)|].
      destruct (HasPrefix _ "true"); [injection H as _ <-; exact (str_drop_length 3 r0)|].
      destruct (HasPrefix _ "false"); [injection H as _ <-; exact (str_drop_length 4 r0)|].
      destruct (read_number _) as [[n r1]|] eqn:E1; [|discriminate H]. apply read_number_length in E1. injection H as _ <-. cbn in E1. lia. }
  split; [lia|]. intros [|g] Hg; [lia|]. cbn [parse_value]. rewrite E0. cbn [mbind option_bind]. by rewrite B1, B2.
Qed.

Lemma parse_members_fuel : fuel_enough parse_members (S f).
Proof.
  intros s a r H.
  cbn [parse_members] in H. destruct (next s) as [[c r0]|] eqn:E0; cbn [mbind option_bind] in H; [|discriminate H].
  destruct (Ascii.eqb c quote_char) eqn:B0; [|discriminate H].
  destruct (scan_str r0) as [[k r1]|] eqn:E1; cbn [mbind option_bind] in H; [|discriminate H].
  destruct (next r1) as [[c1 r2]|] eqn:E2; cbn [mbind option_bind] in H; [|discriminate H].
  destruct (Ascii.eqb c1 ":") eqn:B1; [|discriminate H].
  destruct (parse_value f r2) as [[v r3]|] eqn:E3; cbn [mbind option_bind] in H; [|discriminate H].
  destruct (next r3) as [[c2 r4]|] eqn:E4; cbn [mbind option_bind] in H; [|discriminate H].
  destruct (IHv _ _ _ E3) as [L3 G3].
  pose proof (next_length _ _ _ E0). pose proof (scan_str_length _ _ _ E1). pose proof (next_length _ _ _ E2). pose proof (next_length _ _ _ E4).
  destruct (Ascii.eqb c2 ",") eqn:B2.
  + destruct (parse_members f r4) as [[ms r5]|] eqn:E5; [|discriminate H]. injection H as <- <-. destruct (IHm _ _ _ E5) as [L5 G5].
    split; [lia|]. intros [|g] Hg; [lia|]. cbn [parse_members]. rewrite E0. cbn [mbind option_bind]. rewrite B0, E1. cbn [mbind option_bind]. rewrite E2. cbn [mbind option_bind]. rewrite B1, (G3 g) by lia.
    cbn [mbind option_bind]. rewrite E4. cbn [mbind option_bind]. rewrite B2, (G5 g) by lia. done.
  + destruct (Ascii.eqb c2 "}") eqn:B3; [|discriminate H]. injection H as <- <-.
    split; [lia|]. intros [|g] Hg; [lia|]. cbn [parse_members]. rewrite E0. cbn [mbind option_bind]. rewrite B0, E1. cbn [mbind option_bind]. rewrite E2. cbn [mbind option_bind]. rewrite B1, (G3 g) by lia.
    cbn [mbind option_bind]. rewrite E4. cbn [mbind option_bind]. by rewrite B2, B3.
Qed.

Lemma parse_elements_fuel : fuel_enough parse_elements (S f).
Proof.
  intros s a r H.
  cbn [parse_elements] in H. destruct (parse_value f s) as [[v r0]|] eqn:E0; cbn [mbind option_bind] in H; [|discriminate H].
  destruct (next r0) as [[c r1]|] eqn:E1; cbn [mbind option_bind] in H; [|discriminate H].
  destruct (IHv _ _ _ E0) as [L0 G0]. pose proof (next_length _ _ _ E1).
  destruct (Ascii.eqb c ",") eqn:B0.
  + destruct (parse_elements f r1) as [[vs r2]|] eqn:E2; [|discriminate H]. injection H as <- <-. destruct (IHe _ _ _ E2) as [L2 G2].
    split; [lia|]. intros [|g] Hg; [lia|]. cbn [parse_elements]. rewrite (G0 g) by lia. cbn [mbind option_bind]. rewrite E1. cbn [mbind option_bind]. rewrite B0, (G2 g) by lia. done.
  + destruct (Ascii.eqb c "]") eqn:B1; [|discriminate H]. injection H as <- <-.
    split; [lia|]. intros [|g] Hg; [lia|]. cbn [parse_elements]. rewrite (G0 g) by lia. cbn [mbind option_bind]. rewrite E1. cbn [mbind option_bind]. by rewrite B0, B1.
Qed.
End Fuel.

Lemma parse_fuel f : fuel_enough parse_value f ∧ fuel_enough parse_members f ∧ fuel_enough parse_elements f.
Proof.
  induction f as [|f (IHv & IHm & IHe)]; [by repeat split|].
  split; [|split]; [by apply parse_value_fuel|by apply parse_members_fuel|by apply parse_elements_fuel].
Qed.

(** The parser finds a value at the head of a text if any amount of fuel does. *)
Lemma first_value_complete s v r f : parse_value f s = Some (v, r) → parse_value (S (String.length s)) s = Some (v, r).
Proof. intros H. destruct (parse_fuel f) as [Hv _]. destruct (Hv _ _ _ H) as [_ Hg]. apply Hg. lia. Qed.

(** ** Written values are read back *)

(** A literal the scanner takes whole. *)
Definition literal_ok (l : string) : Prop :=
  ∀ rest, scan_str (l ++ String quote_char rest) = Some (l, rest).

Lemma scan_quote_rune r t : rune_ok r →
  scan_str (quote_rune r ++ t) = '(a, b) ← scan_str t; Some (quote_rune r ++ a, b).
Proof.
  assert (Hbyte : ∀ c t, high c → scan_str (String c t) = '(a, b) ← scan_str t; Some (String c a, b)).
  { intros c t' Hc. cbn [scan_str]. rewrite !high_not by (done || vm_compute; reflexivity).
    by rewrite (proj2 (N.ltb_ge _ _)) by (unfold high in Hc; lia). }
  intros Hok. pose proof (rune_bytes_high r Hok) as Hh.
  destruct r as [a|a b|a b c|a b c d|].
  - clear Hh Hbyte. destruct a as [[] [] [] [] [] [] [] []];
      first [exfalso; vm_compute in Hok; discriminate Hok | reflexivity].
  - cbn [quote_rune rune_bytes String.append]. destruct Hh as [Ha Hb]. rewrite !Hbyte by done.
    by destruct (scan_str t) as [[]|].
  - cbn [quote_rune]. destruct (_ && _)%N eqn:E.
    + apply andb_true_iff in E as [_ Hc].
      apply orb_true_iff in Hc as [Hc%N.eqb_eq|Hc%N.eqb_eq]; rewrite Hc; reflexivity.
    + cbn [rune_bytes String.append]. destruct Hh as (Ha & Hb & Hc). rewrite !Hbyte by done.
      by destruct (scan_str t) as [[]|].
  - cbn [quote_rune rune_bytes String.append]. destruct Hh as (Ha & Hb & Hc & Hd). rewrite !Hbyte by done.
    by destruct (scan_str t) as [[]|].
  - reflexivity.
Qed.

Lemma quote_body_ok s : literal_ok (quote_body s).
Proof.
  intros rest. unfold quote_body. pose proof (runes_ok s) as HF. induction HF as [|r rs Hr _ IH]; [done|].
  cbn [concat_map]. rewrite string_app_assoc, scan_quote_rune by done. rewrite IH. done.
Qed.

(** A literal that is one number, whatever ends it. *)
Definition number_ok (l : string) : Prop :=
  (∃ c s, l = String c s ∧ (is_digit c = true ∨ c = "-"%char)) ∧
  ∀ rest, ends_number rest = true → ∃ n, read_number (l ++ rest) = Some (n, rest).

Inductive wf_json : json → Prop :=
  | wf_null : wf_json jnull
  | wf_bool b : wf_json (jbool b)
  | wf_num l : number_ok l → wf_json (jnum l)
  | wf_str l : literal_ok l → wf_json (jstr l)
  | wf_arr l : Forall wf_json l → wf_json (jarr l)
  | wf_obj l : Forall (λ kv, literal_ok kv.1 ∧ wf_json kv.2) l → wf_json (jobj l).

(** The number of values in a value, with one more per element or member. *)
Fixpoint size (v : json) : nat :=
  match v with
  | jarr l => S (list_sum (map (λ v, S (size v)) l))
  | jobj l => S (list_sum (map (λ kv, S (size kv.2)) l))
  | _ => 1
  end.

(** The first character of a written value. *)
Definition starts_value (c : ascii) : Prop := is_ws c = false ∧ c ≠ "]"%char ∧ c ≠ "}"%char.

Lemma digit_starts c : is_digit c = true ∨ c = "-"%char → starts_value c.
Proof.
  intros [Hc | ->]; [|done].
  destruct c as [[] [] [] [] [] [] [] []]; first [discriminate Hc | by split_and!].
Qed.

Lemma print_starts v t : wf_json v → ∃ c s, print v ++ t = String c s ∧ starts_value c.
Proof.
  destruct 1 as [|[]|l [(c & s & -> & Hc) _]|l _|l _|l _]; cbn.
  4: { exists c, (s ++ t). split; [done|]. by apply digit_starts. }
  all: eexists _, _; split; [reflexivity|by split_and!].
Qed.

Lemma next_starts c s : is_ws c = false → next (String c s) = Some (c, s).
Proof. intros Hc. unfold next. cbn. by rewrite Hc. Qed.

Lemma concat_cons {A} (f : A → string) x y l :
  String.concat "," (map f (x :: y :: l)) = f x ++ "," ++ String.concat "," (map f (y :: l)).
Proof. done. Qed.

Lemma length_concat {A} (f : A → string) (g : A → nat) l :
  Forall (λ x, (g x <= String.length (f x))%nat) l →
  (list_sum (map (λ x, S (g x)) l) <= S (String.length (String.concat "," (map f l))))%nat.
Proof.
  induction 1 as [|x l Hx HF IH]; [cbn; lia|]. destruct l as [|y l]; [cbn; lia|].
  rewrite concat_cons, !string_length_app. cbn [String.length].
  change (list_sum (map ?h (x :: y :: l))) with (h x + list_sum (map h (y :: l)))%nat. cbv beta. lia.
Qed.

Lemma length_print v : wf_json v → (size v <= String.length (print v))%nat.
Proof.
  induction v as [|b|s|s|l IH|l IH] using json_nested_ind; intros Hwf; cbn [size print].
  - cbn. lia.
  - destruct b; cbn; lia.
  - inversion Hwf as [| |? [(c & s' & -> & _) _]| | |]; subst. cbn. lia.
  - unfold quoted. cbn. lia.
  - assert (HF : Forall wf_json l) by (by inversion Hwf). clear Hwf.
    pose proof (length_concat print size l) as Hl. rewrite !string_length_app. cbn [String.length].
    enough (Forall (λ x, (size x <= String.length (print x))%nat) l) by (specialize (Hl ltac:(done)); lia).
    eapply Forall_impl; [apply Forall_and; split; [exact IH|exact HF]|]. cbn. tauto.
  - assert (HF : Forall (λ kv, literal_ok kv.1 ∧ wf_json kv.2) l) by (by inversion Hwf). clear Hwf.
    pose proof (length_concat (λ '(k, v), quoted k ++ ":" ++ print v) (λ kv, size kv.2) l) as Hl.
    rewrite !string_length_app. cbn [String.length].
    enough (Forall (λ kv, (size kv.2 <= String.length (let '(k, v) := kv in quoted k ++ ":" ++ print v))%nat) l) as HA
      by (specialize (Hl HA); lia).
    eapply Forall_impl; [apply Forall_and; split; [exact IH|exact HF]|]. intros [k v]. cbn.
    intros [H [_ Hv]]. rewrite !string_length_app. specialize (H Hv). cbn. lia.
Qed.

(** What a parser of values does on the text of [v]. *)
Definition reads_back (v : json) : Prop :=
  ∀ fuel rest, (size v <= fuel)%nat → ends_number rest = true → parse_value fuel (print v ++ rest) = Some (v, rest).

Lemma parse_elements_print l v rest fuel :
  Forall (λ v, wf_json v ∧ reads_back v) (v :: l) →
  (list_sum (map (λ v, S (size v)) (v :: l)) <= fuel)%nat →
  parse_elements fuel (String.concat "," (map print (v :: l)) ++ "]" ++ rest) = Some (v :: l, rest).
Proof.
  revert v fuel. induction l as [|v' l IH]; intros v fuel HF Hl; apply Forall_cons in HF as [[_ Hv] HF].
  - cbn [map String.concat]. cbn in Hl. destruct fuel as [|fuel]; [lia|]. cbn [parse_elements].
    rewrite Hv by (done || lia). reflexivity.
  - rewrite concat_cons, !string_app_assoc.
    change (list_sum (map ?h (v :: v' :: l))) with (h v + list_sum (map h (v' :: l)))%nat in Hl. cbv beta in Hl.
    destruct fuel as [|fuel]; [lia|]. cbn [parse_elements]. rewrite Hv by (done || lia).
    cbn [mbind option_bind]. change (next ("," ++ ?s)) with (Some (","%char, s)). cbn [mbind option_bind]. change (Ascii.eqb "," ",") with true. cbv iota. rewrite IH by (done || lia). reflexivity.
Qed.

Definition member_text (kv : string * json) : string := let '(k, v) := kv in quoted k ++ ":" ++ print v.

Lemma quoted_app k t : quoted k ++ t = String quote_char (k ++ String quote_char t).
Proof. unfold quoted. cbn. by rewrite string_app_assoc. Qed.

Lemma parse_members_print l kv rest fuel :
  Forall (λ kv, literal_ok kv.1 ∧ wf_json kv.2 ∧ reads_back kv.2) (kv :: l) →
  (list_sum (map (λ kv, S (size kv.2)) (kv :: l)) <= fuel)%nat →
  parse_members fuel (String.concat "," (map member_text (kv :: l)) ++ "}" ++ rest) = Some (kv :: l, rest).
Proof.
  revert kv fuel. induction l as [|kv' l IH]; intros [k v] fuel HF Hl;
    apply Forall_cons in HF as [(Hk & _ & Hv) HF]; cbn [fst snd] in *.
  - cbn [map String.concat member_text]. cbn in Hl. destruct fuel as [|fuel]; [lia|].
    rewrite !string_app_assoc, quoted_app. cbn [parse_members].
    rewrite next_starts by done. cbn [mbind option_bind]. rewrite Ascii.eqb_refl, Hk. cbn [mbind option_bind]. change (next (":" ++ ?s)) with (Some (":"%char, s)). cbn [mbind option_bind].
    change (Ascii.eqb ":" ":") with true. cbv iota. rewrite Hv by (done || lia). reflexivity.
  - rewrite concat_cons, !string_app_assoc.
    change (list_sum (map ?h ((k, v) :: kv' :: l))) with (h (k, v) + list_sum (map h (kv' :: l)))%nat in Hl. cbn [snd] in Hl.
    destruct fuel as [|fuel]; [lia|]. cbn [member_text]. rewrite !string_app_assoc, quoted_app. cbn [parse_members].
    rewrite next_starts by done. cbn [mbind option_bind]. rewrite Ascii.eqb_refl, Hk. cbn [mbind option_bind]. change (next (":" ++ ?s)) with (Some (":"%char, s)). cbn [mbind option_bind].
    change (Ascii.eqb ":" ":") with true. cbv iota. rewrite Hv by (done || lia). cbn [mbind option_bind]. change (next ("," ++ ?s)) with (Some (","%char, s)). cbn [mbind option_bind].
    change (Ascii.eqb "," ",") with true. cbv iota. rewrite IH by (done || lia). reflexivity.
Qed.

Lemma read_back v : wf_json v → reads_back v.
Proof.
  induction v as [|b|s|s|l IH|l IH] using json_nested_ind; intros Hwf fuel rest Hf Hr;
    (destruct fuel as [|fuel]; [cbn in Hf; lia|]).
  - by destruct rest.
  - by destruct b, rest.
  - inversion Hwf as [| |? [(c & s' & -> & Hc) Hn]| | |]; subst. destruct (Hn rest Hr) as [n Hread].
    pose proof (digit_starts c Hc) as (Hws & _). cbn [print parse_value].
    change (String c s' ++ rest) with (String c (s' ++ rest)) in *. rewrite next_starts by done. cbn [mbind option_bind].
    assert (Hc' : Ascii.eqb c "{" = false ∧ Ascii.eqb c "[" = false ∧ Ascii.eqb c quote_char = false ∧
      HasPrefix (String c (s' ++ rest)) "null" = false ∧ HasPrefix (String c (s' ++ rest)) "true" = false ∧
      HasPrefix (String c (s' ++ rest)) "false" = false).
    { destruct Hc as [Hc | ->]; [|done].
      destruct c as [[] [] [] [] [] [] [] []]; first [discriminate Hc | by split_and!]. }
    destruct Hc' as (-> & -> & -> & -> & -> & ->). rewrite Hread. cbn [mbind option_bind].
    change (String c (s' ++ rest)) with (String c s' ++ rest). rewrite string_length_app.
    replace (String.length (String c s') + String.length rest - String.length rest)%nat with (String.length (String c s')) by lia.
    by rewrite str_take_app.
  - inversion Hwf as [| | |? Hl| |]; subst. cbn [print]. rewrite quoted_app. cbn [parse_value].
    rewrite next_starts by done. cbn [mbind option_bind]. change (Ascii.eqb quote_char "{") with false. cbv iota.
    change (Ascii.eqb quote_char "[") with false. cbv iota. rewrite Ascii.eqb_refl, Hl. reflexivity.
  - assert (HF : Forall wf_json l) by (by inversion Hwf). clear Hwf.
    assert (HA : Forall (λ v, wf_json v ∧ reads_back v) l).
    { eapply Forall_impl; [apply Forall_and; split; [exact HF|exact IH]|]. cbn. tauto. }
    destruct l as [|v l]; [reflexivity|]. cbn [print].
    destruct (print_starts v "" ltac:(by apply Forall_cons in HF as [? _])) as (c & s & Hs & Hws & Hb & _).
    rewrite string_app_nil_r in Hs.
    assert (Hn : ∃ s', String.concat "," (map print (v :: l)) ++ "]" ++ rest = String c s').
    { destruct l as [|v' l]; [cbn [map String.concat]; rewrite Hs; by eexists|].
      rewrite concat_cons, Hs. by eexists. }
    destruct Hn as [s' Hn]. rewrite !string_app_assoc. cbn [String.append]. cbn [parse_value].
    cbn [mbind option_bind]. change (next (String "[" ?s)) with (Some ("["%char, s)). cbn [mbind option_bind].
    change (Ascii.eqb "[" "{") with false. cbv iota. change (Ascii.eqb "[" "[") with true. cbv iota.
    change ("]" ++ rest) with ("]" ++ rest) in *. cbn [String.append] in Hn. rewrite Hn, next_starts by done.
    cbn [mbind option_bind]. destruct (Ascii.eqb_spec c "]") as [|_]; [done|].
    rewrite <- Hn. change (String "]" rest) with ("]" ++ rest).
    rewrite parse_elements_print by (done || (cbn in Hf |- *; lia)). reflexivity.
  - assert (HF : Forall (λ kv, literal_ok kv.1 ∧ wf_json kv.2) l) by (by inversion Hwf). clear Hwf.
    assert (HA : Forall (λ kv, literal_ok kv.1 ∧ wf_json kv.2 ∧ reads_back kv.2) l).
    { eapply Forall_impl; [apply Forall_and; split; [exact HF|exact IH]|]. cbn. tauto. }
    destruct l as [|[k v] l]; [reflexivity|]. cbn [print]. fold member_text.
    change (map (λ '(k0, v0), quoted k0 ++ ":" ++ print v0) ((k, v) :: l)) with (map member_text ((k, v) :: l)).
    assert (Hn : ∃ s', String.concat "," (map member_text ((k, v) :: l)) ++ "}" ++ rest = String quote_char s').
    { destruct l as [|v' l]; [by eexists|]. rewrite concat_cons. by eexists. }
    destruct Hn as [s' Hn]. rewrite !string_app_assoc. cbn [String.append] in *. cbn [parse_value].
    cbn [mbind option_bind]. change (next (String "{" ?s)) with (Some ("{"%char, s)). cbn [mbind option_bind].
    change (Ascii.eqb "{" "{") with true. cbv iota. rewrite Hn, next_starts by done. cbn [mbind option_bind].
    change (Ascii.eqb quote_char "}") with false. cbv iota. rewrite <- Hn.
    change (String "}" rest) with ("}" ++ rest).
    rewrite parse_members_print by (done || (cbn in Hf |- *; lia)). reflexivity.
Qed.

Lemma first_value_print v rest :
  wf_json v → ends_number rest = true → first_value (print v ++ rest) = Some v.
Proof.
  intros Hwf Hr. unfold first_value. rewrite (read_back v Hwf) by
    (try done; rewrite string_length_app; pose proof (length_print v Hwf); lia). done.
Qed.

Lemma whole_value_print v ws :
  wf_json v → ends_number ws = true → skip_ws ws = "" → whole_value (print v ++ ws) = Some v.
Proof.
  intros Hwf Hr Hws. unfold whole_value. rewrite (read_back v Hwf) by
    (try done; rewrite string_length_app; pose proof (length_print v Hwf); lia).
  cbn [mbind option_bind]. by rewrite Hws.
Qed.
