(* ===== verification/Html.v ===== *)
(** * Rendering HTML ([github.com/a-h/templ] as the generated code uses it)

    A generated component is a sequence of writes to one buffer, each followed
    by an early return on error; [Component] is that sequence, [Render] runs it
    against an environment whose context can end and whose writes can fail, and
    [html] is the text of a rendering that runs to its end.

    What a browser makes of the text is a tokenizer, [run]: the states of the
    HTML standard's tokenizer that the pages reach, one character per step.
    [templ.EscapeString] and the helpers for class attributes are third-party
    code: the class [Templ], with what the pages rely on in [TemplSpec]. *)
From Stdlib Require Import Ascii ZArith Lia.
From S2P Require Import Prelude GoStrings.

Local Open Scope string_scope.

(** ** Text *)

(** The double quote, and text in which a backquote stands for it. *)
Definition dquote : ascii := ascii_of_N 34.
Definition backquote : ascii := ascii_of_N 96.

Fixpoint lit (s : string) : string :=
  match s with
  | String c s' => String (if Ascii.eqb c backquote then dquote else c) (lit s')
  | EmptyString => ""
  end.

(** Go's [+] on strings. *)
Definition concat (a b : string) : string := a ++ b.
Infix "⊕" := concat (at level 60, right associativity) : string_scope.

(** A character that cannot end or begin markup. *)
Definition plain_char (c : ascii) : bool :=
  negb (Ascii.eqb c "<" || Ascii.eqb c ">" || Ascii.eqb c dquote || Ascii.eqb c "'").

Fixpoint plain (s : string) : bool :=
  match s with String c s' => plain_char c && plain s' | EmptyString => true end.

(** The character references of the five characters [html.EscapeString] writes,
    read back; any other ampersand stands for itself. *)
Fixpoint unescape (s : string) : string :=
  match s with
  | String "&" (String "a" (String "m" (String "p" (String ";" s')))) => String "&" (unescape s')
  | String "&" (String "l" (String "t" (String ";" s'))) => String "<" (unescape s')
  | String "&" (String "g" (String "t" (String ";" s'))) => String ">" (unescape s')
  | String "&" (String "#" (String "3" (String "4" (String ";" s')))) => String dquote (unescape s')
  | String "&" (String "#" (String "3" (String "9" (String ";" s')))) => String "'" (unescape s')
  | String c s' => String c (unescape s')
  | EmptyString => ""
  end.

(** ** The templ library *)

Class Templ := {
  EscapeString : string → string;
  (** what [RenderCSSItems] writes for a list of class names *)
  RenderCSSItems : list string → string;
  (** [CSSClasses(items).String()] *)
  CSSClasses_String : list string → string;
}.

(** Escaped text has no delimiter and reads back as the text, whatever follows;
    class names given as strings define no style of their own. *)
Class TemplSpec (T : Templ) : Prop := {
  escape_plain s : plain (EscapeString s) = true;
  escape_reads_back s t : unescape (EscapeString s ++ t) = s ++ unescape t;
  css_items_empty l : RenderCSSItems l = "";
}.

(** ** Components *)

(** One statement of a generated component. *)
Inductive op :=
  | CheckCtx                       (* return ctx.Err() if it is set *)
  | WriteString (s : string)       (* a literal of the template *)
  | WriteEscaped (s : string)      (* a value, through EscapeString *)
  | WriteCSSItems (l : list string).

Definition Component : Type := list op.

(** [templruntime.GeneratedTemplate]: the context is looked at first. *)
Definition GeneratedTemplate (body : list op) : Component := CheckCtx :: body.

(** [for _, x := range l] over components. *)
Definition for_each {A} (l : list A) (f : A → list op) : list op := flat_map f l.

Section Rendering.
Context {T : Templ}.

(** What an operation writes. *)
Definition chunk (o : op) : string :=
  match o with
  | CheckCtx => ""
  | WriteString s => s
  | WriteEscaped s => EscapeString s
  | WriteCSSItems l => RenderCSSItems l
  end.

Fixpoint html (c : list op) : string :=
  match c with [] => "" | o :: c' => chunk o ++ html c' end.

Context {E : Env}.

(** One write to the buffer: it fails, or the text goes out. *)
Definition write (s : string) : M string (option err) :=
  r ← stmt (λ _ out, Ok ((), out ++ s));
  mret (match r with Ok _ => None | Err e => Some e end).

(** Runs a component: the first error ends it. *)
Fixpoint render_ops (c : list op) : M string (option err) :=
  match c with
  | [] => mret None
  | o :: c' =>
      e ← match o with CheckCtx => ctxErr | _ => write (chunk o) end;
      match e with
      | Some e => mret (Some e)
      | None => render_ops c'
      end
  end.

(** [Component.Render] of the outermost component: when the run ends without an
    error, the error of flushing the buffer is returned. *)
Definition Render (c : Component) : M string (option err) :=
  e ← render_ops c;
  f ← write "";
  mret (match e with Some e => Some e | None => f end).
End Rendering.

Lemma html_app {T : Templ} a b : html (a ++ b)%list = html a ++ html b.
Proof. induction a as [|o a IH]; cbn; [done|]. by rewrite IH, string_app_assoc. Qed.

Section RenderFacts.
Context {T : Templ} {E : Env}.

Lemma write_cases s (w : world string) :
  (∃ e, write s w = (Some e, mkWorld (st w) (S (tick w)))) ∨
  (fault (tick w) = None ∧ write s w = (None, mkWorld (st w ++ s) (S (tick w)))).
Proof.
  unfold write, stmt. unfold_M. destruct (fault (tick w)) as [e|]; [left; by exists e|by right].
Qed.

(** What is out is a prefix of the page, all of it when no error came up. *)
Lemma render_ops_prefix c (w : world string) :
  let '(e, w') := render_ops c w in
  ∃ p rest, html c = p ++ rest ∧ st w' = st w ++ p ∧ (e = None → rest = "").
Proof.
  revert w. induction c as [|o c IH]; intros w; cbn [render_ops html].
  { cbn. exists "", "". by rewrite (string_app_nil_r (st w)). }
  set (m := match o with CheckCtx => ctxErr | _ => write (chunk o) end).
  assert (Hm : (∃ e, m w = (Some e, mkWorld (st w) (S (tick w)))) ∨
               m w = (None, mkWorld (st w ++ chunk o) (S (tick w)))).
  { unfold m. destruct o.
    { cbn. rewrite string_app_nil_r. unfold ctxErr. destruct (ctx_done (tick w)); [left; by eexists|by right]. }
    all: match goal with |- context [write ?s _] => destruct (write_cases s w) as [|[_ H]]; [by left|by right] end. }
  unfold mbind, M_bind. destruct Hm as [[e ->] | ->]; cbn.
  { exists "", (chunk o ++ html c). by rewrite string_app_nil_r. }
  specialize (IH (mkWorld (st w ++ chunk o) (S (tick w)))).
  destruct (render_ops c _) as [e w']. destruct IH as (p & rest & Hc & Hs & He). cbn in Hs.
  exists (chunk o ++ p), rest. by rewrite Hc, Hs, !string_app_assoc.
Qed.

Lemma render_ops_total c (w : world string) : fault_free E → (render_ops c w).1 = None.
Proof.
  intros [Hf Hd]. revert w. induction c as [|o c IH]; intros w; [done|]. cbn [render_ops].
  unfold mbind, M_bind. destruct o; cbn.
  - unfold ctxErr. rewrite Hd. apply IH.
  - unfold write, stmt. unfold_M. rewrite Hf. apply IH.
  - unfold write, stmt. unfold_M. rewrite Hf. apply IH.
  - unfold write, stmt. unfold_M. rewrite Hf. apply IH.
Qed.

Lemma Render_cases c (w : world string) :
  let '(e, w') := Render c w in
  (∃ p rest, html c = p ++ rest ∧ st w' = st w ++ p ∧ (e = None → rest = "")) ∧
  (fault_free E → e = None).
Proof.
  unfold Render. unfold_M. pose proof (render_ops_prefix c w) as H. pose proof (render_ops_total c w) as Ht.
  destruct (render_ops c w) as [e w1]. destruct H as (p & rest & Hc & Hs & He). cbn in Ht.
  destruct (write_cases "" w1) as [[f Hw] | [Hf Hw]]; rewrite Hw; cbn.
  - split; [exists p, rest; rewrite Hs; destruct e; split_and!; try done|].
    intros Hff. exfalso. unfold write, stmt in Hw. unfold_M. rewrite (proj1 Hff) in Hw. done.
  - rewrite string_app_nil_r. split; [exists p, rest; destruct e; by split_and!|].
    intros Hff. by rewrite (Ht Hff).
Qed.
End RenderFacts.

(** ** The tokenizer *)

Inductive token :=
  | Text (s : string)
  | StartTag (name : string) (attrs : list (string * string))
  | EndTag (name : string)
  | Declaration (s : string).

(** Tag names and attribute names grow character by character; the attributes of
    the tag being read are kept last first. *)
Inductive tstate :=
  | Data (text : string)
  | TagOpen
  | MarkupDeclaration (s : string)
  | EndTagName (name : string)
  | TagName (name : string)
  | BeforeAttrName (name : string) (attrs : list (string * string))
  | AttrName (name : string) (attrs : list (string * string)) (a : string)
  | BeforeAttrValue (name : string) (attrs : list (string * string)) (a : string)
  | AttrValue (name : string) (attrs : list (string * string)) (a v : string)
  | AfterAttrValue (name : string) (attrs : list (string * string))
  | RawText (name : string) (text pending : string)   (* inside script or title *)
  | Broken.                                           (* anything the pages never do *)

Definition snoc (s : string) (c : ascii) : string := s ++ String c "".

Definition text_token (s : string) : list token := if bool_decide (s = "") then [] else [Text s].

(** The state after a start tag: the content of [script] and [title] is text up
    to its end tag. *)
Definition after_tag (name : string) : tstate :=
  if bool_decide (name = "script") || bool_decide (name = "title") then RawText name "" "" else Data "".

Definition emit_tag (name : string) (attrs : list (string * string)) : tstate * list token :=
  (after_tag name, [StartTag name (rev attrs)]).

(** References are read in [title], not in [script]. *)
Definition raw_text (name text : string) : string :=
  if bool_decide (name = "script") then text else unescape text.

(** One character.  In [RawText] the text is scanned for the end tag; [pending]
    is the part of it that has been seen. *)
Definition step (s : tstate) (c : ascii) : tstate * list token :=
  match s with
  | Data t => if Ascii.eqb c "<" then (TagOpen, text_token (unescape t)) else (Data (snoc t c), [])
  | TagOpen =>
      if Ascii.eqb c "!" then (MarkupDeclaration "", [])
      else if Ascii.eqb c "/" then (EndTagName "", [])
      else (TagName (snoc "" c), [])
  | MarkupDeclaration t =>
      if Ascii.eqb c ">" then (Data "", [Declaration t]) else (MarkupDeclaration (snoc t c), [])
  | EndTagName n => if Ascii.eqb c ">" then (Data "", [EndTag n]) else (EndTagName (snoc n c), [])
  | TagName n =>
      if Ascii.eqb c ">" then emit_tag n []
      else if Ascii.eqb c " " then (BeforeAttrName n [], [])
      else (TagName (snoc n c), [])
  | BeforeAttrName n l =>
      if Ascii.eqb c ">" then emit_tag n l
      else if Ascii.eqb c " " then (s, [])
      else (AttrName n l (snoc "" c), [])
  | AttrName n l a =>
      if Ascii.eqb c ">" then emit_tag n ((a, "") :: l)
      else if Ascii.eqb c " " then (BeforeAttrName n ((a, "") :: l), [])
      else if Ascii.eqb c "=" then (BeforeAttrValue n l a, [])
      else (AttrName n l (snoc a c), [])
  | BeforeAttrValue n l a => if Ascii.eqb c dquote then (AttrValue n l a "", []) else (Broken, [])
  | AttrValue n l a v =>
      if Ascii.eqb c dquote then (AfterAttrValue n ((a, unescape v) :: l), [])
      else (AttrValue n l a (snoc v c), [])
  | AfterAttrValue n l =>
      if Ascii.eqb c ">" then emit_tag n l
      else if Ascii.eqb c " " then (BeforeAttrName n l, [])
      else (Broken, [])
  | RawText n t p =>
      let p' := snoc p c in
      let close := "</" ++ n ++ ">" in
      if bool_decide (p' = close) then (Data "", (text_token (raw_text n t) ++ [EndTag n])%list)
      else if String.prefix p' close then (RawText n t p', [])
      else if Ascii.eqb c "<" then (RawText n (t ++ p) "<", [])
      else (RawText n (t ++ p') "", [])
  | Broken => (Broken, [])
  end.

(** The tokens of a text, and the state it leaves the tokenizer in. *)
Fixpoint run (s : tstate) (text : string) : tstate * list token :=
  match text with
  | EmptyString => (s, [])
  | String c text' =>
      let '(s1, ts1) := step s c in
      let '(s2, ts2) := run s1 text' in
      (s2, (ts1 ++ ts2)%list)
  end.

(** The tokens of a whole document or fragment. *)
Definition tokenize (text : string) : option (list token) :=
  match run (Data "") text with
  | (Data t, ts) => Some (ts ++ text_token (unescape t))%list
  | _ => None
  end.

(** ** Running over pieces *)

Lemma run_app s a b :
  run s (a ++ b) = let '(s1, t1) := run s a in let '(s2, t2) := run s1 b in (s2, (t1 ++ t2)%list).
Proof.
  revert s. induction a as [|c a IH]; intros s; cbn; [by destruct (run s b)|].
  destruct (step s c) as [s1 t1]. rewrite IH. destruct (run s1 a) as [s2 t2], (run s2 b) as [s3 t3].
  by rewrite (assoc_L app).
Qed.

Lemma run_then s a b s1 t1 s2 t2 :
  run s a = (s1, t1) → run s1 b = (s2, t2) → run s (a ++ b) = (s2, (t1 ++ t2)%list).
Proof. intros Ha Hb. by rewrite run_app, Ha, Hb. Qed.

Lemma snoc_app t c v : snoc t c ++ v = t ++ String c v.
Proof. unfold snoc. by rewrite string_app_assoc. Qed.

Lemma plain_cons c v : plain (String c v) = true →
  Ascii.eqb c "<" = false ∧ Ascii.eqb c dquote = false ∧ plain v = true.
Proof.
  cbn [plain]. unfold plain_char. intros [Hc Hv]%andb_true_iff. apply negb_true_iff in Hc.
  apply orb_false_iff in Hc as [[[H1 _]%orb_false_iff H2]%orb_false_iff _]. done.
Qed.

Lemma run_data t v : plain v = true → run (Data t) v = (Data (t ++ v), []).
Proof.
  revert t. induction v as [|c v IH]; intros t Hv; [by rewrite string_app_nil_r|].
  apply plain_cons in Hv as (H1 & _ & Hv). cbn [run step]. by rewrite H1, IH, snoc_app.
Qed.

Lemma run_value n l a t v : plain v = true → run (AttrValue n l a t) v = (AttrValue n l a (t ++ v), []).
Proof.
  revert t. induction v as [|c v IH]; intros t Hv; [by rewrite string_app_nil_r|].
  apply plain_cons in Hv as (_ & H2 & Hv). cbn [run step]. by rewrite H2, IH, snoc_app.
Qed.

Lemma run_title t v : plain v = true → run (RawText "title" t "") v = (RawText "title" (t ++ v) "", []).
Proof.
  revert t. induction v as [|c v IH]; intros t Hv; [by rewrite string_app_nil_r|].
  apply plain_cons in Hv as (H1 & _ & Hv). cbn [run step]. cbn [snoc String.append].
  rewrite bool_decide_eq_false_2 by done. rewrite H1.
  assert (String.prefix (String c "") "</title>" = false) as ->.
  { cbn. destruct (ascii_dec c "<") as [->|]; done. }
  by rewrite IH, string_app_assoc.
Qed.

(** ** [html.EscapeString] of Go's standard library, which templ's function is *)

Definition escape_char (c : ascii) : string :=
  if Ascii.eqb c "&" then "&amp;"
  else if Ascii.eqb c "'" then "&#39;"
  else if Ascii.eqb c "<" then "&lt;"
  else if Ascii.eqb c ">" then "&gt;"
  else if Ascii.eqb c dquote then "&#34;"
  else String c "".

Fixpoint html_EscapeString (s : string) : string :=
  match s with String c s' => escape_char c ++ html_EscapeString s' | EmptyString => "" end.

Lemma plain_app a b : plain (a ++ b) = plain a && plain b.
Proof. induction a as [|c a IH]; cbn; [done|]. by rewrite IH, andb_assoc. Qed.

Lemma escape_char_plain c : plain (escape_char c) = true.
Proof. destruct c as [[] [] [] [] [] [] [] []]; vm_compute; reflexivity. Qed.

Lemma html_escape_plain s : plain (html_EscapeString s) = true.
Proof. induction s as [|c s IH]; cbn; [done|]. by rewrite plain_app, escape_char_plain, IH. Qed.

Lemma unescape_char c t : unescape (escape_char c ++ t) = String c (unescape t).
Proof. destruct c as [[] [] [] [] [] [] [] []]; reflexivity. Qed.

Lemma html_escape_reads_back s t : unescape (html_EscapeString s ++ t) = s ++ unescape t.
Proof.
  induction s as [|c s IH]; cbn [html_EscapeString String.append]; [done|].
  by rewrite string_app_assoc, unescape_char, IH.
Qed.

Definition go_templ : Templ :=
  {| EscapeString := html_EscapeString; RenderCSSItems := λ _, ""; CSSClasses_String := String.concat " " |}.

#[export] Instance go_templ_spec : TemplSpec go_templ.
Proof. split; [apply html_escape_plain|apply html_escape_reads_back|done]. Qed.
