(* ===== verification/Base64.v ===== *)
(** * [base64.RawURLEncoding] and [hex] ([encoding/base64], [encoding/hex])

    Bytes are integers from 0 to 255.  Tickets and minted node secrets are the
    unpadded URL-safe base64 of 32 random bytes; secret hashes are stored in
    hexadecimal.  Both encodings are shown injective through their decoders. *)
From Stdlib Require Import Ascii ZArith Lia.
From S2P Require Import Prelude GoTime GoStrings.

Local Open Scope string_scope.
Local Open Scope Z_scope.

Definition is_byte (b : Z) : Prop := 0 <= b < 256.

(** ** Base64 *)

Definition b64_char (n : Z) : ascii :=
  ascii_of_N (Z.to_N
    (if n <? 26 then 65 + n
     else if n <? 52 then 97 + (n - 26)
     else if n <? 62 then 48 + (n - 52)
     else if n =? 62 then 45 else 95)).

Definition b64_val (c : ascii) : option Z :=
  let n := Z.of_N (N_of_ascii c) in
  if (65 <=? n) && (n <=? 90) then Some (n - 65)
  else if (97 <=? n) && (n <=? 122) then Some (n - 97 + 26)
  else if (48 <=? n) && (n <=? 57) then Some (n - 48 + 52)
  else if n =? 45 then Some 62
  else if n =? 95 then Some 63
  else None.

Fixpoint b64_encode (l : list Z) : string :=
  match l with
  | [] => ""
  | [a] => String (b64_char (a / 4)) (String (b64_char (a mod 4 * 16)) "")
  | [a; b] =>
      String (b64_char (a / 4)) (String (b64_char (a mod 4 * 16 + b / 16))
        (String (b64_char (b mod 16 * 4)) ""))
  | a :: b :: c :: r =>
      String (b64_char (a / 4)) (String (b64_char (a mod 4 * 16 + b / 16))
        (String (b64_char (b mod 16 * 4 + c / 64)) (String (b64_char (c mod 64)) (b64_encode r))))
  end.

(** The decoder, on the six-bit groups. *)
Fixpoint b64_decode (s : string) : option (list Z) :=
  match s with
  | EmptyString => Some []
  | String _ EmptyString => None
  | String w (String x EmptyString) =>
      a ← b64_val w; b ← b64_val x; Some [a * 4 + b / 16]
  | String w (String x (String y EmptyString)) =>
      a ← b64_val w; b ← b64_val x; c ← b64_val y;
      Some [a * 4 + b / 16; b mod 16 * 16 + c / 4]
  | String w (String x (String y (String z r))) =>
      a ← b64_val w; b ← b64_val x; c ← b64_val y; d ← b64_val z; l ← b64_decode r;
      Some ((a * 4 + b / 16) :: (b mod 16 * 16 + c / 4) :: (c mod 4 * 64 + d) :: l)
  end.

Lemma b64_val_char n : 0 <= n < 64 → b64_val (b64_char n) = Some n.
Proof.
  intros H. unfold b64_val, b64_char.
  repeat case_match; rewrite N_ascii_embedding, ?Z2N.id in * by lia; f_equal; lia.
Qed.

Lemma list_ind3 {A} (P : list A → Prop) :
  P [] → (∀ a, P [a]) → (∀ a b, P [a; b]) → (∀ a b c l, P l → P (a :: b :: c :: l)) → ∀ l, P l.
Proof.
  intros H0 H1 H2 H3. fix IH 1. intros [|a [|b [|c l]]];
    [apply H0|apply H1|apply H2|apply H3, IH].
Qed.

Lemma b64_roundtrip l : Forall is_byte l → b64_decode (b64_encode l) = Some l.
Proof.
  unfold is_byte.
  induction l as [|a|a b|a b c l IH] using list_ind3; intros H; rewrite ?Forall_cons in H;
    destruct_and?; cbn [b64_encode b64_decode].
  - done.
  - rewrite !b64_val_char by div_lia. cbn. do 2 f_equal. div_lia.
  - rewrite !b64_val_char by div_lia. cbn. do 2 f_equal; [div_lia|]. f_equal. div_lia.
  - rewrite !b64_val_char, IH by (done || div_lia). cbn. f_equal.
    f_equal; [div_lia|]. f_equal; [div_lia|]. f_equal. div_lia.
Qed.

Lemma b64_encode_inj l1 l2 :
  Forall is_byte l1 → Forall is_byte l2 → b64_encode l1 = b64_encode l2 → l1 = l2.
Proof.
  intros H1 H2 He. apply (f_equal b64_decode) in He.
  rewrite !b64_roundtrip in He by done. by injection He.
Qed.

(** ** Hexadecimal *)

Definition hex_char (n : Z) : ascii :=
  ascii_of_N (Z.to_N (if n <? 10 then 48 + n else 97 + (n - 10))).

(** [hex.DecodeString] accepts both cases. *)
Definition hex_val (c : ascii) : option Z :=
  let n := Z.of_N (N_of_ascii c) in
  if (48 <=? n) && (n <=? 57) then Some (n - 48)
  else if (97 <=? n) && (n <=? 102) then Some (n - 97 + 10)
  else if (65 <=? n) && (n <=? 70) then Some (n - 65 + 10)
  else None.

Fixpoint hex_encode (l : list Z) : string :=
  match l with
  | [] => ""
  | b :: r => String (hex_char (b / 16)) (String (hex_char (b mod 16)) (hex_encode r))
  end.

Fixpoint hex_decode (s : string) : option (list Z) :=
  match s with
  | EmptyString => Some []
  | String _ EmptyString => None
  | String x (String y r) =>
      a ← hex_val x; b ← hex_val y; l ← hex_decode r; Some ((a * 16 + b) :: l)
  end.

Lemma hex_val_char n : 0 <= n < 16 → hex_val (hex_char n) = Some n.
Proof.
  intros H. unfold hex_val, hex_char.
  repeat case_match; rewrite N_ascii_embedding, ?Z2N.id in * by lia; f_equal; lia.
Qed.

Lemma hex_roundtrip l : Forall is_byte l → hex_decode (hex_encode l) = Some l.
Proof.
  unfold is_byte. induction 1 as [|b l Hb Hl IH]; cbn [hex_encode hex_decode]; [done|].
  rewrite !hex_val_char, IH by div_lia. cbn. do 2 f_equal. div_lia.
Qed.
