(* ===== verification/Backoff.v ===== *)
(** * The drain backoff window ([internal/spool/backoff.go]) *)
From Stdlib Require Import ZArith Lia.
From S2P Require Import Prelude GoTime.

(** The doubling loop: [n] iterations left, current window [w]. *)
Fixpoint backoff_loop (n : nat) (w max : Z) : Z :=
  match n with
  | O => if max <? w then max else w
  | S n' =>
      let w := wrap64 (w * 2) in
      if (max <=? w) || (w <=? 0) then max else backoff_loop n' w max
  end.

Definition Backoff (attempts base max : Z) : Z :=
  let attempts := if attempts <? 0 then 0 else attempts in
  backoff_loop (Z.to_nat attempts) base max.

Lemma backoff_loop_spec n w max :
  0 < w → in_int64 w → 0 < max → in_int64 max →
  backoff_loop n w max = Z.min (2 ^ Z.of_nat n * w) max.
Proof.
  revert w. induction n as [|n IH]; intros w Hw Hwr Hm Hmr; cbn [backoff_loop].
  { destruct (max <? w) eqn:E; lia. }
  replace (2 ^ Z.of_nat (S n)) with (2 * 2 ^ Z.of_nat n)
    by (rewrite Nat2Z.inj_succ, Z.pow_succ_r; lia).
  assert (1 <= 2 ^ Z.of_nat n) as Hp by (apply Z.pow_le_mono_r with (a := 2) (b := 0); lia).
  unfold in_int64, min_int64, max_int64 in *.
  destruct (decide (w * 2 < 2 ^ 63)) as [Hlt|Hge].
  - rewrite wrap64_id by (unfold in_int64, min_int64, max_int64; lia).
    destruct ((max <=? w * 2) || (w * 2 <=? 0)) eqn:E.
    + nia.
    + rewrite IH by lia. f_equal. lia.
  - rewrite wrap64_overflow by lia.
    replace ((max <=? w * 2 - 2 ^ 64) || (w * 2 - 2 ^ 64 <=? 0)) with true by lia. nia.
Qed.

(** C24.  [Backoff] computes the documented window exactly: for a positive base
    and cap it is [min(2^attempts * base, max)] over the unbounded integers, with
    negative attempt counts read as zero.  The doubling loop's early exit is what
    makes this hold in spite of the 64-bit wrap-around. *)
Theorem Backoff_spec attempts base max :
  0 < base → in_int64 base → 0 < max → in_int64 max →
  Backoff attempts base max = Z.min (2 ^ Z.max 0 attempts * base) max.
Proof.
  intros Hb Hbr Hm Hmr. unfold Backoff.
  destruct (attempts <? 0) eqn:E; rewrite backoff_loop_spec by done; do 3 f_equal; lia.
Qed.

Lemma Backoff_spec_witness :
  Backoff 62 (30 * Second) (3600 * Second) = 3600 * Second ∧
  Backoff 6 (30 * Second) (3600 * Second) = 1920 * Second.
Proof.
  split; rewrite Backoff_spec;
    first [reflexivity | unfold in_int64, min_int64, max_int64, Second; lia].
Defined.

Lemma Backoff_bounds attempts base max :
  0 < base → base <= max → in_int64 max → base <= Backoff attempts base max <= max.
Proof.
  intros Hb Hbm Hm.
  assert (in_int64 base) by (unfold in_int64, min_int64, max_int64 in *; lia).
  unfold Backoff. rewrite backoff_loop_spec by (done || lia).
  assert (1 <= 2 ^ Z.of_nat (Z.to_nat (if attempts <? 0 then 0 else attempts)))
    by (apply Z.pow_le_mono_r with (a := 2) (b := 0); lia).
  nia.
Qed.
