(* ===== verification/Spool.v ===== *)
(** * The agent's write-ahead spool ([internal/spool/spool.go])

    The SQLite tables [spool] and [spool_meta] as a state, every SQL statement
    of the file as a transition on it, and the methods of [Spool] as programs in
    the effect monad of the prelude: each statement may fail, the clock and the
    file sizes are read from the environment, and [Sender] is an interface the
    drain loop is proved against. *)
From Stdlib Require Import Ascii ZArith Lia.
From stdpp Require Import sorting pretty.
From S2P Require Import Prelude GoTime GoStrings Backoff.

Local Open Scope string_scope.
Local Open Scope Z_scope.

(** ** Data ([migrations/0001_init.up.sql], [0002_drain_snapshot.up.sql]) *)

(** One row of table [spool]. *)
Record row := Row {
  id : Z;
  enqueued_at : string;
  probe_run_id : string;
  payload : string;
  attempts : Z;
  last_attempt_at : option string;
  last_error : option string;
}.

(** The database file: the [spool] table in rowid order, the AUTOINCREMENT
    high-water mark, and the key/value table [spool_meta]. *)
Record spool_db := SpoolDB {
  rows : list row;
  autoinc : Z;
  meta : gmap string Z;
}.

(** The database after the migrations. *)
Definition migrated : spool_db :=
  SpoolDB [] 0 (list_to_map [("drops_total", 0); ("last_depth", 0);
                             ("last_oldest_age_secs", 0); ("last_drops_total", 0)]).

(** [Config] and [Spool]. *)
Record Config := mkConfig {
  DrainRows : Z;
  MaxAge : Z;
  MaxSize : Z;
  BackoffBase : Z;
  BackoffMax : Z;
}.

Record Spool := mkSpool { path : string; cfg : Config }.

Inductive SendOutcome :=
  | OutcomeAccepted
  | OutcomePermanentFail
  | OutcomeTransientFail
  | OutcomeOther (n : Z).

#[export] Instance SendOutcome_eq_dec : EqDecision SendOutcome.
Proof. solve_decision. Defined.

Record DrainStats := mkDrainStats {
  Considered : Z;
  Skipped : Z;
  Accepted : Z;
  Permanent : Z;
  Transient : Z;
  Dropped : Z;
}.

Record DrainSnapshot := mkDrainSnapshot {
  Depth_ : Z;
  OldestAgeSecs : Z;
  DropsTotal_ : Z;
}.

(** ** The outside world *)

(** [Sender]: ships one payload; [X] is whatever state the implementation and
    everything behind it (the network, the controller) has. *)
Class Sender (X : Type) := {
  Send : nat → string → string → X → (SendOutcome * option err) * X;
}.

Inductive stat_result := StatSize (n : Z) | StatNotExist | StatError (e : err).

(** [os.Stat], per step and file name. *)
Class FileSys := { os_Stat : nat → string → stat_result }.

(** What the code relies on in the SQLite driver: a UNIQUE violation is
    reported with SQLite's message, and a stored timestamp reaches Go as a text
    [parseSQLiteTime] reads back ([scan_datetime] for a DATETIME column,
    [scan_expr] for an expression such as MIN). *)
Definition parseSQLiteTime (s : string) : res Z :=
  let layouts := [Layout false false; Layout false false; Layout true true; Layout true true] in
  (fix go ls := match ls with
    | [] => Err (ErrMsg ("parsing time " ++ s))
    | l :: ls' => match parse_in_utc l s with Some t => Ok t | None => go ls' end
    end) layouts.

Definition isUniqueViolation (e : err) : bool :=
  Contains (ToLower (Error e)) "unique constraint failed".

Class SqlDriver := {
  unique_error : err;
  scan_datetime : string → string;
  scan_expr : string → string;
  unique_error_text : isUniqueViolation unique_error = true;
  scan_datetime_ok t : four_digit_year t →
    parseSQLiteTime (scan_datetime (format_datetime t)) = Ok (Unix t * Second);
  scan_expr_ok t : four_digit_year t →
    parseSQLiteTime (scan_expr (format_datetime t)) = Ok (Unix t * Second);
}.

(** ** The state of the methods *)

(** One call of [Send] made by a drain: a history variable. *)
Record send_event := SendEvent {
  ev_run : string;
  ev_payload : string;
  ev_outcome : SendOutcome;
}.

Record sp_state (X : Type) := SpState {
  sdb : spool_db;
  ext : X;
  sent : list send_event;
}.
Arguments SpState {X} sdb ext sent.
Arguments sdb {X} s.
Arguments ext {X} s.
Arguments sent {X} s.

(** ** SQL *)

(** [ORDER BY enqueued_at ASC]: the index [idx_spool_enqueued] holds
    (enqueued_at, rowid), so equal timestamps come out in rowid order. *)
Definition row_le (a b : row) : Prop :=
  match String.compare (enqueued_at a) (enqueued_at b) with
  | Lt => True
  | Eq => id a <= id b
  | Gt => False
  end.

#[export] Instance row_le_dec : RelDecision row_le.
Proof. intros a b. unfold row_le. destruct (String.compare _ _); apply _. Defined.

Definition by_age (db : spool_db) : list row := merge_sort row_le (rows db).

(** [LIMIT n]; a negative limit is no limit. *)
Definition limit {A} (n : Z) (l : list A) : list A :=
  if n <? 0 then l else take (Z.to_nat n) l.

Definition set_rows (rs : list row) (db : spool_db) : spool_db :=
  SpoolDB rs (autoinc db) (meta db).

Definition set_meta (m : gmap string Z) (db : spool_db) : spool_db :=
  SpoolDB (rows db) (autoinc db) m.

(** [INSERT INTO spool(probe_run_id, payload) VALUES (?, ?)] *)
Definition sql_insert `{SqlDriver} (run pl : string) (t : Z) (db : spool_db)
    : res (() * spool_db) :=
  if bool_decide (run ∈ probe_run_id <$> rows db) then Err unique_error
  else Ok ((), SpoolDB (rows db ++ [Row (autoinc db + 1) (format_datetime t) run pl 0 None None])
                       (autoinc db + 1) (meta db)).

Fixpoint min_text (l : list string) : option string :=
  match l with
  | [] => None
  | s :: l' => match min_text l' with
               | Some m => Some (if String.leb s m then s else m)
               | None => Some s
               end
  end.

(** [DELETE FROM spool WHERE id = ?] *)
Definition sql_delete (i : Z) (db : spool_db) : spool_db :=
  set_rows (filter (λ r, id r ≠ i) (rows db)) db.

Definition mark_row (i t : Z) (msg : string) (r : row) : row :=
  if bool_decide (id r = i)
  then Row (id r) (enqueued_at r) (probe_run_id r) (payload r) (attempts r + 1)
           (Some (format_datetime t)) (Some msg)
  else r.

(** [UPDATE spool SET attempts = attempts + 1, ... WHERE id = ?] *)
Definition sql_mark (i t : Z) (msg : string) (db : spool_db) : spool_db :=
  set_rows (mark_row i t msg <$> rows db) db.

(** [DELETE FROM spool WHERE id = (SELECT id FROM spool ORDER BY enqueued_at ASC
    LIMIT 1)], with the number of rows affected. *)
Definition sql_delete_oldest (db : spool_db) : Z * spool_db :=
  match by_age db with
  | [] => (0, db)
  | r :: _ => (Z.of_nat (length (filter (λ x, id x = id r) (rows db))), sql_delete (id r) db)
  end.

(** [UPDATE spool_meta SET value = f(value) WHERE key = ?] *)
Definition sql_update_meta (k : string) (f : Z → Z) (db : spool_db) : spool_db :=
  set_meta (alter f k (meta db)) db.

(** ** The methods *)

Section Methods.
Context {E : Env} {FS : FileSys} {D : SqlDriver} {X : Type} {SX : Sender X}.

Abbreviation MS := (M (sp_state X)).

(** A statement on the database part of the state. *)
Definition exec {A} (f : Z → spool_db → res (A * spool_db)) : MS (res A) :=
  stmt (λ t s, '(a, db') ← f t (sdb s); Ok (a, SpState db' (ext s) (sent s))).

Definition query {A} (f : spool_db → A) : MS (res A) :=
  exec (λ _ db, Ok (f db, db)).

Definition update (f : Z → spool_db → spool_db) : MS (res ()) :=
  exec (λ t db, Ok ((), f t db)).

(** [Enqueue] *)
Definition Enqueue (probeRunID pl : string) : MS (option err) :=
  if bool_decide (probeRunID = "") then mret (Some (ErrMsg "spool: probe_run_id required"))
  else if bool_decide (pl = "") then mret (Some (ErrMsg "spool: payload required"))
  else
    r ← exec (sql_insert probeRunID pl);
    mret (match r with
          | Ok _ => None
          | Err e => if isUniqueViolation e then Some ErrDuplicate
                     else Some (ErrWrap "spool: enqueue" e)
          end).

(** [Depth] *)
Definition Depth : MS (Z * option err) :=
  r ← query (λ db, Z.of_nat (length (rows db)));
  mret (match r with
        | Ok n => (n, None)
        | Err e => (0, Some (ErrWrap "spool: depth" e))
        end).

(** [OldestAge] *)
Definition OldestAge : MS (Z * option err) :=
  r ← query (λ db, min_text (enqueued_at <$> rows db));
  match r with
  | Err e => mret (0, Some (ErrWrap "spool: oldest age" e))
  | Ok None => mret (0, None)
  | Ok (Some ts) =>
      match parseSQLiteTime (scan_expr ts) with
      | Err e => mret (0, Some (ErrWrap "spool: parse oldest" e))
      | Ok t => n ← now; mret (TimeSub n t, None)
      end
  end.

(** [LastDrainSnapshot]: a missing key leaves the zero value. *)
Definition LastDrainSnapshot : MS (DrainSnapshot * option err) :=
  r ← query (λ db, (meta db !! "last_depth", meta db !! "last_oldest_age_secs",
                    meta db !! "last_drops_total"));
  mret (match r with
        | Ok (d, o, n) => (mkDrainSnapshot (default 0 d) (default 0 o) (default 0 n), None)
        | Err e => (mkDrainSnapshot 0 0 0, Some (ErrWrap "spool: last drain snapshot" e))
        end).

(** [SaveDrainSnapshot]: three statements, in this order, no transaction. *)
Definition SaveDrainSnapshot (depth oldestAgeSecs dropsTotal : Z) : MS (option err) :=
  r1 ← update (λ _, sql_update_meta "last_depth" (λ _, depth));
  match r1 with
  | Err e => mret (Some (ErrWrap "spool: save snapshot depth" e))
  | Ok _ =>
      r2 ← update (λ _, sql_update_meta "last_oldest_age_secs" (λ _, oldestAgeSecs));
      match r2 with
      | Err e => mret (Some (ErrWrap "spool: save snapshot oldest" e))
      | Ok _ =>
          r3 ← update (λ _, sql_update_meta "last_drops_total" (λ _, dropsTotal));
          mret (match r3 with
                | Err e => Some (ErrWrap "spool: save snapshot drops" e)
                | Ok _ => None
                end)
      end
  end.

(** [DropsTotal] *)
Definition DropsTotal : MS (Z * option err) :=
  r ← query (λ db, meta db !! "drops_total");
  mret (match r with
        | Ok (Some v) => (v, None)
        | Ok None => (0, Some (ErrWrap "spool: drops_total" ErrNoRows))
        | Err e => (0, Some (ErrWrap "spool: drops_total" e))
        end).

Definition os_stat (name : string) : MS stat_result := λ w,
  (os_Stat (tick w) name, mkWorld (st w) (Datatypes.S (tick w))).

(** [FootprintBytes]: the main file and its WAL and SHM companions. *)
Fixpoint footprint_go (p : string) (suffixes : list string) (total : Z)
    : MS (Z * option err) :=
  match suffixes with
  | [] => mret (total, None)
  | suffix :: rest =>
      r ← os_stat (p ++ suffix);
      match r with
      | StatNotExist => footprint_go p rest total
      | StatError e => mret (0, Some (ErrWrap ("spool: stat " ++ p ++ suffix) e))
      | StatSize n => footprint_go p rest (wrap64 (total + n))
      end
  end.

Definition FootprintBytes (s : Spool) : MS (Z * option err) :=
  footprint_go (path s) [""; "-wal"; "-shm"] 0.

(** [markFailure] *)
Definition markFailure (i : Z) (sendErr : option err) : MS (option err) :=
  let msg := match sendErr with Some e => Error e | None => "" end in
  r ← update (λ t, sql_mark i t msg);
  mret (match r with
        | Ok _ => None
        | Err e => Some (ErrWrap "spool: mark failure" e)
        end).

(** [enforceRetention]: the loop, with fuel; [None] is out of fuel. *)
Fixpoint retention_loop (fuel : nat) (s : Spool) (dropped : Z)
    : MS (option (Z * option err)) :=
  match fuel with
  | O => mret None
  | Datatypes.S fuel' =>
      '(size, e1) ← FootprintBytes s;
      match e1 with Some e => mret (Some (dropped, Some e)) | None =>
      '(age, e2) ← OldestAge;
      match e2 with Some e => mret (Some (dropped, Some e)) | None =>
      r3 ← query (λ db, Z.of_nat (length (rows db)));
      match r3 with
      | Err e => mret (Some (dropped, Some (ErrWrap "spool: retention depth" e)))
      | Ok depth =>
      if depth =? 0 then mret (Some (dropped, None))
      else if (size <=? MaxSize (cfg s)) && (age <=? MaxAge (cfg s))
      then mret (Some (dropped, None))
      else
      r4 ← exec (λ _ db, Ok (sql_delete_oldest db));
      match r4 with
      | Err e => mret (Some (dropped, Some (ErrWrap "spool: retention delete" e)))
      | Ok affected =>
      r5 ← RowsAffected affected;
      match r5 with
      | Err e => mret (Some (dropped, Some (ErrWrap "spool: retention rows affected" e)))
      | Ok n =>
      if n =? 0 then mret (Some (dropped, None))
      else
      r6 ← update (λ _, sql_update_meta "drops_total" (λ v, v + 1));
      match r6 with
      | Err e => mret (Some (dropped, Some (ErrWrap "spool: retention bump drops" e)))
      | Ok _ => retention_loop fuel' s (dropped + 1)
      end end end end end end
  end.

(** One iteration per row and one to find the table empty are enough. *)
Definition enforceRetention (s : Spool) : MS (option (Z * option err)) := λ w,
  retention_loop (Datatypes.S (length (rows (sdb (st w))))) s 0 w.

(** Calls [Send] and records the call. *)
Definition call_send (run pl : string) : MS (SendOutcome * option err) := λ w,
  let '((o, e), x') := Send (tick w) run pl (ext (st w)) in
  ((o, e), mkWorld (SpState (sdb (st w)) x' (sent (st w) ++ [SendEvent run pl o]))
                   (Datatypes.S (tick w))).

Definition bump_skipped (st : DrainStats) := mkDrainStats (Considered st) (Skipped st + 1)
  (Accepted st) (Permanent st) (Transient st) (Dropped st).
Definition bump_accepted (st : DrainStats) := mkDrainStats (Considered st) (Skipped st)
  (Accepted st + 1) (Permanent st) (Transient st) (Dropped st).
Definition bump_permanent (st : DrainStats) := mkDrainStats (Considered st) (Skipped st)
  (Accepted st) (Permanent st + 1) (Transient st) (Dropped st).
Definition bump_transient (st : DrainStats) := mkDrainStats (Considered st) (Skipped st)
  (Accepted st) (Permanent st) (Transient st + 1) (Dropped st).
Definition set_dropped (n : Z) (st : DrainStats) := mkDrainStats (Considered st) (Skipped st)
  (Accepted st) (Permanent st) (Transient st) n.

(** Whether the backoff window of a candidate is still open at [t]. *)
Definition in_backoff (s : Spool) (t : Z) (c : row) : res bool :=
  match last_attempt_at c with
  | None => Ok false
  | Some ts =>
      match parseSQLiteTime (scan_datetime ts) with
      | Err e => Err (ErrWrap "spool: parse last_attempt_at" e)
      | Ok last =>
          let window := Backoff (attempts c) (BackoffBase (cfg s)) (BackoffMax (cfg s)) in
          Ok (After (TimeAdd last window) t)
      end
  end.

(** The loop body of [Drain] for the candidates left, at the instant [t] read
    once before the loop. *)
Fixpoint drain_loop (s : Spool) (t : Z) (batch : list row) (stats : DrainStats)
    : MS (DrainStats * option err) :=
  match batch with
  | [] => mret (stats, None)
  | c :: batch' =>
      ce ← ctxErr;
      match ce with Some e => mret (stats, Some e) | None =>
      match in_backoff s t c with
      | Err e => mret (stats, Some e)
      | Ok true => drain_loop s t batch' (bump_skipped stats)
      | Ok false =>
      '(outcome, sendErr) ← call_send (probe_run_id c) (payload c);
      match outcome with
      | OutcomeAccepted =>
          r ← update (λ _, sql_delete (id c));
          match r with
          | Err e => mret (stats, Some (ErrWrap "spool: drain delete" e))
          | Ok _ => drain_loop s t batch' (bump_accepted stats)
          end
      | OutcomePermanentFail =>
          fe ← markFailure (id c) sendErr;
          match fe with
          | Some e => mret (stats, Some e)
          | None => drain_loop s t batch' (bump_permanent stats)
          end
      | OutcomeTransientFail =>
          fe ← markFailure (id c) sendErr;
          match fe with
          | Some e => mret (stats, Some e)
          | None => drain_loop s t batch' (bump_transient stats)
          end
      | OutcomeOther n => mret (stats, Some (ErrMsg ("spool: unknown outcome " ++ pretty n)))
      end end end
  end.

(** [Drain]; [None] is out of fuel in the retention loop. *)
Definition Drain (s : Spool) : MS (option (DrainStats * option err)) :=
  let stats0 := mkDrainStats 0 0 0 0 0 0 in
  r ← query (λ db, limit (DrainRows (cfg s)) (by_age db));
  match r with
  | Err e => mret (Some (stats0, Some (ErrWrap "spool: drain select" e)))
  | Ok batch =>
      let stats := mkDrainStats (Z.of_nat (length batch)) 0 0 0 0 0 in
      t ← now;
      '(stats, e) ← drain_loop s t batch stats;
      match e with
      | Some e => mret (Some (stats, Some e))
      | None =>
          r ← enforceRetention s;
          mret (match r with
                | None => None
                | Some (_, Some e) => Some (stats, Some e)
                | Some (dropped, None) => Some (set_dropped dropped stats, None)
                end)
      end
  end.
End Methods.
