(* ===== verification/SpoolFacts.v ===== *)
(** * Properties of the agent's spool

    The age order, the well-formedness invariant and its preservation, what a
    drain pass does to every row, the retention loop, and the round trip of the
    drain snapshot. *)
From Stdlib Require Import Ascii ZArith Lia.
From stdpp Require Import sorting.
From S2P Require Import Prelude GoTime GoStrings Backoff Spool.

Local Open Scope string_scope.
Local Open Scope Z_scope.

(** ** The age order *)

Lemma row_le_alt a b :
  row_le a b ↔
  String.le (enqueued_at a) (enqueued_at b) ∧ (enqueued_at a = enqueued_at b → id a <= id b).
Proof.
  unfold row_le, String.le, String.leb.
  destruct (String.compare (enqueued_at a) (enqueued_at b)) eqn:Hc; cbn.
  - apply String.compare_eq_iff in Hc. split; [done|]. intros [_ Hi]. by apply Hi.
  - split; [|done]. intros _. split; [done|]. intros He.
    by rewrite He, string_compare_refl in Hc.
  - split; [done|]. by intros [? _].
Qed.

#[export] Instance row_le_trans : Transitive row_le.
Proof.
  intros a b c. rewrite !row_le_alt. intros [H1 H2] [H3 H4]. split.
  - by etransitivity.
  - intros He. rewrite He in H1.
    assert (enqueued_at b = enqueued_at c) as Hbc by (by apply (anti_symm String.le)).
    rewrite Hbc in H2. specialize (H2 He). specialize (H4 Hbc). lia.
Qed.

#[export] Instance row_le_total : Total row_le.
Proof.
  intros a b. rewrite !row_le_alt.
  destruct (decide (enqueued_at a = enqueued_at b)) as [He|Hne].
  - rewrite He. destruct (decide (id a <= id b)); [left|right]; (split; [done|lia]).
  - destruct (total String.le (enqueued_at a) (enqueued_at b)); [left|right]; split; congruence.
Qed.

Lemma row_le_id a b : row_le a b → row_le b a → id a = id b.
Proof.
  rewrite !row_le_alt. intros [H1 H2] [H3 H4].
  assert (enqueued_at a = enqueued_at b) as He by (by apply (anti_symm String.le)).
  specialize (H2 He). symmetry in He. specialize (H4 He). lia.
Qed.

Lemma by_age_perm db : by_age db ≡ₚ rows db.
Proof. apply merge_sort_Permutation. Qed.

Lemma by_age_sorted db : StronglySorted row_le (by_age db).
Proof. apply StronglySorted_merge_sort; apply _. Qed.

Lemma elem_of_by_age r db : r ∈ by_age db ↔ r ∈ rows db.
Proof. by rewrite by_age_perm. Qed.

Lemma by_age_length db : length (by_age db) = length (rows db).
Proof. by rewrite by_age_perm. Qed.

(** A sorted list with the same rows is the age order. *)
Lemma by_age_unique db l :
  NoDup (id <$> rows db) → StronglySorted row_le l → l ≡ₚ rows db → by_age db = l.
Proof.
  intros Hnd Hs Hp.
  apply (StronglySorted_unique_strong row_le); [|apply by_age_sorted|done|].
  - intros x1 x2 Hx1 Hx2 H12 H21.
    apply (key_inj id (rows db)); [done| | |by apply row_le_id].
    + by apply elem_of_by_age.
    + by rewrite <- Hp.
  - by rewrite by_age_perm, Hp.
Qed.

Lemma StronglySorted_filter {A} (R : relation A) (P : A → Prop) `{∀ x, Decision (P x)} l :
  StronglySorted R l → StronglySorted R (filter P l).
Proof.
  induction 1 as [|x l Hl IH Hx]; [constructor|]. rewrite filter_cons. case_decide; [|done].
  constructor; [done|]. rewrite Forall_forall in *. intros y Hy.
  apply Hx. by apply list_elem_of_filter in Hy as [_ Hy].
Qed.

(** Deleting the first row of the age order leaves the tail of the order. *)
Lemma by_age_delete_head db r l :
  NoDup (id <$> rows db) → by_age db = r :: l → by_age (sql_delete (id r) db) = l.
Proof.
  intros Hnd Hba.
  assert (NoDup (id <$> r :: l)) as Hnd' by (rewrite <- Hba, by_age_perm; done).
  apply by_age_unique.
  - cbn. by apply NoDup_fmap_filter.
  - pose proof (by_age_sorted db) as Hs. rewrite Hba in Hs. by inversion Hs.
  - cbn. rewrite <- (by_age_perm db), Hba, filter_cons, decide_False by (intros ?; done).
    rewrite filter_all; [done|]. intros x Hx Heq.
    rewrite fmap_cons, NoDup_cons in Hnd'. destruct Hnd' as [Hr _]. apply Hr.
    rewrite <- Heq. by apply list_elem_of_fmap_2.
Qed.

(** ** The invariant *)

(** A text SQLite's clock wrote. *)
Definition is_timestamp (s : string) : Prop :=
  ∃ t, four_digit_year t ∧ s = format_datetime t.

Record wf_row (r : row) : Prop := {
  wf_run : probe_run_id r ≠ "";
  wf_payload : payload r ≠ "";
  wf_enqueued : is_timestamp (enqueued_at r);
  wf_last : ∀ ts, last_attempt_at r = Some ts → is_timestamp ts;
  wf_attempts : 0 <= attempts r ∧ (attempts r = 0 ↔ last_attempt_at r = None);
}.

Record wf_db (db : spool_db) : Prop := {
  wf_ids : NoDup (id <$> rows db);
  wf_runs : NoDup (probe_run_id <$> rows db);
  wf_fresh : Forall (λ r, 1 <= id r <= autoinc db) (rows db);
  wf_rows : Forall wf_row (rows db);
  wf_autoinc : 0 <= autoinc db;
  wf_meta : Forall (λ k, is_Some (meta db !! k))
              ["drops_total"; "last_depth"; "last_oldest_age_secs"; "last_drops_total"];
}.

(** The clock shows dates SQLite writes with a four-digit year. *)
Definition clock_in_range (E : Env) : Prop := ∀ n, four_digit_year (@clock E n).

Lemma migrated_wf : wf_db migrated.
Proof.
  split; cbn; [constructor..|done|]. repeat (constructor; [vm_compute; eauto|]). constructor.
Qed.

Lemma wf_mark_row i t msg r : four_digit_year t → wf_row r → wf_row (mark_row i t msg r).
Proof.
  intros Ht [H1 H2 H3 H4 [H5 H6]]. unfold mark_row. case_bool_decide; [|done].
  split; cbn; try done.
  - intros ts [= <-]. by exists t.
  - split; [lia|]. split; [lia|done].
Qed.

Lemma mark_row_id i t msg r : id (mark_row i t msg r) = id r.
Proof. unfold mark_row. by case_bool_decide. Qed.

Lemma mark_row_run i t msg r : probe_run_id (mark_row i t msg r) = probe_run_id r.
Proof. unfold mark_row. by case_bool_decide. Qed.

Lemma mark_ids i t msg (l : list row) : id <$> (mark_row i t msg <$> l) = id <$> l.
Proof. rewrite <- list_fmap_compose. apply list_fmap_ext. intros ? r _. apply mark_row_id. Qed.

Lemma mark_runs i t msg (l : list row) : probe_run_id <$> (mark_row i t msg <$> l) = probe_run_id <$> l.
Proof. rewrite <- list_fmap_compose. apply list_fmap_ext. intros ? r _. apply mark_row_run. Qed.

Lemma sql_mark_wf i t msg db : four_digit_year t → wf_db db → wf_db (sql_mark i t msg db).
Proof.
  intros Ht [H1 H2 H3 H4 H5 H6]. split; cbn; try done.
  - by rewrite mark_ids.
  - by rewrite mark_runs.
  - apply Forall_fmap. eapply Forall_impl; [exact H3|]. intros r Hr. cbn. by rewrite mark_row_id.
  - apply Forall_fmap. eapply Forall_impl; [exact H4|]. intros r Hr. by apply wf_mark_row.
Qed.

Lemma Forall_filter_list {A} (P Q : A → Prop) `{∀ x, Decision (Q x)} (l : list A) :
  Forall P l → Forall P (filter Q l).
Proof.
  rewrite !Forall_forall. intros H1 x Hx. apply H1. by apply list_elem_of_filter in Hx as [_ Hx].
Qed.

Lemma sql_delete_wf i db : wf_db db → wf_db (sql_delete i db).
Proof.
  intros [H1 H2 H3 H4 H5 H6]. split; cbn; try done;
    auto using NoDup_fmap_filter, Forall_filter_list.
Qed.

Lemma sql_delete_oldest_wf db : wf_db db → wf_db (sql_delete_oldest db).2.
Proof. intros H. unfold sql_delete_oldest. destruct (by_age db); [done|by apply sql_delete_wf]. Qed.

Lemma sql_update_meta_wf k f db : wf_db db → wf_db (sql_update_meta k f db).
Proof.
  intros [H1 H2 H3 H4 H5 H6]. split; try done. cbn. eapply Forall_impl; [exact H6|].
  intros k' [v Hv]. cbn. rewrite lookup_alter. case_decide; subst; rewrite Hv; cbn; eauto.
Qed.

Lemma sql_insert_wf `{SqlDriver} run pl t db db' :
  four_digit_year t → run ≠ "" → pl ≠ "" →
  sql_insert run pl t db = Ok ((), db') → wf_db db → wf_db db'.
Proof.
  intros Ht Hrun Hpl. unfold sql_insert. case_bool_decide as Hin; [done|]. intros [= <-] [H1 H2 H3 H4 H5 H6].
  split; cbn; try done; try lia.
  - rewrite fmap_app. apply NoDup_app. split; [done|]. split; [|apply NoDup_singleton].
    intros i Hi Hi'. apply list_elem_of_singleton in Hi'. cbn in Hi'. subst.
    apply list_elem_of_fmap in Hi as (r & Hr & Hr').
    rewrite Forall_forall in H3. specialize (H3 _ Hr'). lia.
  - rewrite fmap_app. apply NoDup_app. split; [done|]. split; [|apply NoDup_singleton].
    intros i Hi Hi'. apply list_elem_of_singleton in Hi'. by subst.
  - apply Forall_app. split; [|repeat constructor; cbn; lia].
    eapply Forall_impl; [exact H3|]. intros r Hr. cbn in *. lia.
  - apply Forall_app. split; [done|]. repeat constructor; cbn; try done. by exists t.
Qed.

#[export] Hint Resolve sql_delete_wf sql_delete_oldest_wf sql_update_meta_wf sql_mark_wf : nlm.

(** ** Every method preserves the invariant *)

Section Preservation.
Context {E : Env} {FS : FileSys} {D : SqlDriver} {X : Type} {SX : Sender X}.
Hypothesis Hclock : clock_in_range E.

Abbreviation keeps := (moves (λ s s' : sp_state X, wf_db (sdb s) → wf_db (sdb s'))).

Lemma keeps_exec {A} (f : Z → spool_db → res (A * spool_db)) :
  (∀ t db a db', four_digit_year t → f t db = Ok (a, db') → wf_db db → wf_db db') →
  keeps (exec f).
Proof.
  intros Hf. apply moves_stmt; [apply _|]. intros n s a s' Hs Hwf.
  unfold mbind, res_bind in Hs. destruct (f (clock n) (sdb s)) as [[a' db']|e] eqn:Ef; [|done].
  injection Hs as <- <-. cbn. by eapply Hf.
Qed.

Lemma keeps_query {A} (f : spool_db → A) : keeps (query f).
Proof. apply keeps_exec. by intros t db a db' _ [= _ <-]. Qed.

Lemma keeps_update (f : Z → spool_db → spool_db) :
  (∀ t db, four_digit_year t → wf_db db → wf_db (f t db)) → keeps (update f).
Proof. intros Hf. apply keeps_exec. intros t db a db' Ht [= _ <-]. by apply Hf. Qed.

Lemma keeps_stat name : keeps (os_stat name).
Proof. by intros w. Qed.

Lemma keeps_send run pl : keeps (call_send run pl).
Proof. intros w. unfold call_send. destruct (Send _ _ _ _) as [[o e] x']. done. Qed.

Ltac keeps_auto :=
  repeat first
    [ moves_step
    | apply keeps_query | apply keeps_stat | apply keeps_send
    | apply keeps_update; intros; auto with nlm ].

Lemma keeps_Enqueue run pl : keeps (Enqueue run pl).
Proof.
  unfold Enqueue. case_bool_decide; [keeps_auto|]. case_bool_decide; [keeps_auto|].
  apply moves_bind; [apply _| |keeps_auto].
  apply keeps_exec. intros t db [] db' Ht Hins. by apply (sql_insert_wf run pl t).
Qed.

Lemma keeps_OldestAge : keeps OldestAge.
Proof. unfold OldestAge. keeps_auto. Qed.

Lemma keeps_footprint p sfx tot : keeps (footprint_go p sfx tot).
Proof. revert tot. induction sfx; intros tot; cbn [footprint_go]; keeps_auto; auto. Qed.

Lemma keeps_SaveDrainSnapshot d o n : keeps (SaveDrainSnapshot d o n).
Proof. unfold SaveDrainSnapshot. keeps_auto. Qed.

Lemma keeps_markFailure i e : keeps (markFailure i e).
Proof. unfold markFailure. keeps_auto. Qed.

Lemma keeps_delete_oldest : keeps (exec (λ _ db, Ok (sql_delete_oldest db))).
Proof.
  apply keeps_exec. intros t db a db' Ht [= Hdb] Hwf.
  pose proof (sql_delete_oldest_wf db Hwf) as H. by rewrite Hdb in H.
Qed.

Lemma keeps_retention fuel s n : keeps (retention_loop fuel s n).
Proof.
  revert n. induction fuel as [|fuel IH]; intros n; cbn [retention_loop]; [keeps_auto|].
  repeat first [ apply keeps_footprint | apply keeps_OldestAge | apply IH
               | apply keeps_delete_oldest | progress keeps_auto ].
Qed.

Lemma keeps_drain_loop s t batch stats : keeps (drain_loop s t batch stats).
Proof.
  revert stats. induction batch as [|c batch IH]; intros stats; cbn [drain_loop];
    repeat first [ apply keeps_markFailure | apply IH | progress keeps_auto ].
Qed.

Lemma keeps_Drain s : keeps (Drain s).
Proof.
  unfold Drain. repeat first [ apply keeps_drain_loop | progress keeps_auto ].
  intros w. apply keeps_retention.
Qed.
End Preservation.

(** The state-changing methods of [Spool]. *)
Inductive spool_call :=
  | CallEnqueue (run pl : string)
  | CallDrain
  | CallSaveSnapshot (d o n : Z).

Section Calls.
Context {E : Env} {FS : FileSys} {D : SqlDriver} {X : Type} {SX : Sender X}.

Definition run_call (s : Spool) (c : spool_call) : M (sp_state X) () :=
  match c with
  | CallEnqueue run pl => _ ← Enqueue run pl; mret ()
  | CallDrain => _ ← Drain s; mret ()
  | CallSaveSnapshot d o n => _ ← SaveDrainSnapshot d o n; mret ()
  end.

Fixpoint run_calls (s : Spool) (cs : list spool_call) : M (sp_state X) () :=
  match cs with
  | [] => mret ()
  | c :: cs' => _ ← run_call s c; run_calls s cs'
  end.

(** C20.  Whatever the environment does (failing statements, a cancelled
    context, any sender, any file sizes, any clock with four-digit years),
    every sequence of [Enqueue], [Drain] and [SaveDrainSnapshot] calls takes a
    well-formed spool to a well-formed spool: row ids and probe_run_ids stay
    unique, ids stay below the AUTOINCREMENT mark, no empty run id or payload
    is stored, every stored timestamp is one the parser reads back, a row has
    a last attempt exactly when its attempt count is positive, and the four
    [spool_meta] keys exist. *)
Theorem spool_calls_wf (s : Spool) (cs : list spool_call) (w : world (sp_state X)) :
  clock_in_range E → wf_db (sdb (st w)) → wf_db (sdb (st (run_calls s cs w).2)).
Proof.
  intros Hc. revert w.
  assert (moves (λ s s' : sp_state X, wf_db (sdb s) → wf_db (sdb s')) (run_calls s cs)) as H;
    [|exact H].
  induction cs as [|c cs IH]; cbn [run_calls]; repeat moves_step; [|done].
  destruct c; cbn [run_call]; repeat moves_step;
    auto using keeps_Enqueue, keeps_Drain, keeps_SaveDrainSnapshot.
Qed.
End Calls.

(** ** A drain pass as a step relation

    [drain_run s t batch stats db evs stats' e db']: from the candidates left, the
    counters so far and the database, the loop makes the [Send] calls [evs] and
    ends with these counters, this error (if any) and this database. *)

Section DrainRun.
Context {E : Env} {FS : FileSys} {D : SqlDriver}.

Definition event_of (c : row) (o : SendOutcome) : send_event :=
  SendEvent (probe_run_id c) (payload c) o.

Inductive drain_run (s : Spool) (t : Z) :
    list row → DrainStats → spool_db → list send_event →
    DrainStats → option err → spool_db → Prop :=
  | run_done stats db :
      drain_run s t [] stats db [] stats None db
  | run_stop c batch stats db e :
      drain_run s t (c :: batch) stats db [] stats (Some e) db
  | run_skip c batch stats db evs stats' e db' :
      in_backoff s t c = Ok true →
      drain_run s t batch (bump_skipped stats) db evs stats' e db' →
      drain_run s t (c :: batch) stats db evs stats' e db'
  | run_send_stop c batch stats db o e :
      in_backoff s t c = Ok false →
      drain_run s t (c :: batch) stats db [event_of c o] stats (Some e) db
  | run_accept c batch stats db evs stats' e db' :
      in_backoff s t c = Ok false →
      drain_run s t batch (bump_accepted stats) (sql_delete (id c) db) evs stats' e db' →
      drain_run s t (c :: batch) stats db (event_of c OutcomeAccepted :: evs) stats' e db'
  | run_permanent c batch stats db n msg evs stats' e db' :
      in_backoff s t c = Ok false →
      drain_run s t batch (bump_permanent stats) (sql_mark (id c) (clock n) msg db)
        evs stats' e db' →
      drain_run s t (c :: batch) stats db (event_of c OutcomePermanentFail :: evs) stats' e db'
  | run_transient c batch stats db n msg evs stats' e db' :
      in_backoff s t c = Ok false →
      drain_run s t batch (bump_transient stats) (sql_mark (id c) (clock n) msg db)
        evs stats' e db' →
      drain_run s t (c :: batch) stats db (event_of c OutcomeTransientFail :: evs) stats' e db'.

Context {X : Type} {SX : Sender X}.

Lemma exec_run {A} (f : Z → spool_db → res (A * spool_db)) (w : world (sp_state X)) r w' :
  exec f w = (r, w') →
  sent (st w') = sent (st w) ∧ ext (st w') = ext (st w) ∧ tick w' = S (tick w) ∧
  match r with
  | Ok a => f (clock (tick w)) (sdb (st w)) = Ok (a, sdb (st w'))
  | Err e => sdb (st w') = sdb (st w) ∧
      (fault (tick w) = Some e ∨ (fault (tick w) = None ∧ f (clock (tick w)) (sdb (st w)) = Err e))
  end.
Proof.
  unfold exec, stmt, mbind, res_bind. destruct (fault (tick w)) as [e|] eqn:Ef.
  { intros [= <- <-]. cbn. auto 10. }
  destruct (f (clock (tick w)) (sdb (st w))) as [[a db']|e] eqn:Eg; intros [= <- <-]; cbn; auto 10.
Qed.

Lemma markFailure_run i se (w : world (sp_state X)) r w' :
  markFailure i se w = (r, w') →
  sent (st w') = sent (st w) ∧
  match r with
  | None => ∃ msg, sdb (st w') = sql_mark i (clock (tick w)) msg (sdb (st w))
  | Some _ => sdb (st w') = sdb (st w)
  end.
Proof.
  unfold markFailure, update. unfold_M.
  destruct (exec _ w) as [r1 w1] eqn:He. apply exec_run in He as (Hs & _ & _ & Hr).
  intros [= <- <-]. split; [done|]. destruct r1; cbn.
  - injection Hr as <- Hr. eexists. by symmetry.
  - by destruct Hr as [-> _].
Qed.

Lemma drain_loop_run s t batch stats (w : world (sp_state X)) stats' e w' :
  drain_loop s t batch stats w = ((stats', e), w') →
  ∃ evs, sent (st w') = (sent (st w) ++ evs)%list ∧
         drain_run s t batch stats (sdb (st w)) evs stats' e (sdb (st w')).
Proof.
  revert stats w. induction batch as [|c batch IH]; intros stats w; cbn [drain_loop]; unfold_M.
  { intros [= <- <- <-]. exists []. rewrite app_nil_r. split; [done|constructor]. }
  unfold ctxErr at 1. destruct (ctx_done (tick w)); cbn [st tick].
  { intros [= <- <- <-]. exists []. rewrite app_nil_r. split; [done|constructor]. }
  destruct (in_backoff s t c) as [[|]|e0] eqn:Eb.
  - intros H. apply IH in H as (evs & Hs & Hrun). exists evs. split; [done|by constructor].
  - unfold call_send at 1. cbn [st tick].
    destruct (Send _ _ _ _) as [[o se] x']. cbn [st tick].
    match goal with |- context [mkWorld ?s ?n] => set (w1 := mkWorld s n) end.
    assert (sent (st w1) = (sent (st w) ++ [event_of c o])%list ∧ sdb (st w1) = sdb (st w))
      as [Hs1 Hd1] by done. clearbody w1.
    assert (∀ e (w2 : world (sp_state X)), sent (st w2) = sent (st w1) → sdb (st w2) = sdb (st w1) →
      ∃ evs, sent (st w2) = (sent (st w) ++ evs)%list ∧
        drain_run s t (c :: batch) stats (sdb (st w)) evs stats (Some e) (sdb (st w2))) as Hstop.
    { intros e1 w2 -> ->. exists [event_of c o]. rewrite Hd1. split; [done|by constructor]. }
    destruct o.
    2, 3: destruct (markFailure (id c) se w1) as [[e1|] w2] eqn:He;
      apply markFailure_run in He as (Hs2 & Hr);
      [ intros [= <- <- <-]; by eapply Hstop
      | destruct Hr as [msg Hr]; intros H; apply IH in H as (evs & Hs & Hrun);
        eexists (event_of c _ :: evs); rewrite Hs, Hs2, Hs1, <- app_assoc;
        rewrite Hr, Hd1 in Hrun; split; [reflexivity|by econstructor] ].
    + unfold update. destruct (exec _ w1) as [r w2] eqn:He. apply exec_run in He as (Hs2 & _ & _ & Hr).
      destruct r as [[]|e1].
      * injection Hr as Hr. intros H. apply IH in H as (evs & Hs & Hrun).
        exists (event_of c OutcomeAccepted :: evs). rewrite Hs, Hs2, Hs1, <- app_assoc.
        split; [done|]. constructor; [done|]. by rewrite <- Hr, Hd1 in Hrun.
      * intros [= <- <- <-]. destruct Hr as [Hr _]. by eapply Hstop.
    + intros [= <- <- <-]. by eapply Hstop.
  - intros [= <- <- <-]. exists []. rewrite app_nil_r. split; [done|constructor].
Qed.
End DrainRun.

(** ** What a drain pass does to the rows *)

(** The same spooled item, possibly attempted more often. *)
Definition same_item (r r' : row) : Prop :=
  id r = id r' ∧ enqueued_at r = enqueued_at r' ∧ probe_run_id r = probe_run_id r' ∧
  payload r = payload r' ∧ attempts r <= attempts r'.

#[export] Instance same_item_preorder : PreOrder same_item.
Proof.
  split; [intros r; unfold same_item; repeat split; lia|].
  intros a b c (?&?&?&?&?) (?&?&?&?&?). unfold same_item. repeat split; congruence || lia.
Qed.

Lemma same_item_mark i t msg r : same_item r (mark_row i t msg r).
Proof. unfold mark_row. case_bool_decide; [|done]. repeat split; cbn; lia. Qed.

(** [n] rows are gone from [db] to [db'], each of them accepted in [evs]; every
    other row is the same item as before. *)
Record drained (db db' : spool_db) (evs : list send_event) (n : Z) : Prop := {
  dr_meta : meta db' = meta db;
  dr_autoinc : autoinc db' = autoinc db;
  dr_kept : ∀ r, r ∈ rows db →
    (∃ r', r' ∈ rows db' ∧ same_item r r') ∨ event_of r OutcomeAccepted ∈ evs;
  dr_from : ∀ r', r' ∈ rows db' → ∃ r, r ∈ rows db ∧ same_item r r';
  dr_count : Z.of_nat (length (rows db')) + n = Z.of_nat (length (rows db));
}.

Lemma drained_refl db evs : drained db db evs 0.
Proof. split; try done; [intros r Hr; left; by exists r|intros r Hr; by exists r|lia]. Qed.

Lemma drained_trans db1 db2 db3 evs1 evs2 n1 n2 :
  drained db1 db2 evs1 n1 → drained db2 db3 evs2 n2 → drained db1 db3 (evs1 ++ evs2) (n1 + n2).
Proof.
  intros [M1 A1 K1 F1 C1] [M2 A2 K2 F2 C2]. split; [congruence|congruence| | |lia].
  - intros r Hr. destruct (K1 r Hr) as [(r2 & Hr2 & Hs)|Hev]; [|right; set_solver].
    destruct (K2 r2 Hr2) as [(r3 & Hr3 & Hs')|Hev].
    + left. exists r3. split; [done|by etransitivity].
    + right. apply elem_of_app. right.
      destruct Hs as (_ & _ & H1 & H2 & _). unfold event_of. by rewrite H1, H2.
  - intros r3 Hr3. destruct (F2 r3 Hr3) as (r2 & Hr2 & Hs).
    destruct (F1 r2 Hr2) as (r1 & Hr1 & Hs'). exists r1. split; [done|by etransitivity].
Qed.

Lemma drained_delete db c :
  NoDup (id <$> rows db) → c ∈ rows db →
  drained db (sql_delete (id c) db) [event_of c OutcomeAccepted] 1.
Proof.
  intros Hnd Hc. split; try done; cbn.
  - intros r Hr. destruct (decide (id r = id c)) as [He|Hne].
    + right. apply list_elem_of_singleton. by rewrite (key_inj id (rows db) r c).
    + left. exists r. split; [|done]. by apply list_elem_of_filter.
  - intros r Hr. apply list_elem_of_filter in Hr as [_ Hr]. by exists r.
  - pose proof (length_filter_ne id (rows db) c Hnd Hc). lia.
Qed.

Lemma drained_mark db i t msg evs : drained db (sql_mark i t msg db) evs 0.
Proof.
  split; try done; cbn.
  - intros r Hr. left. exists (mark_row i t msg r).
    split; [by apply list_elem_of_fmap_2|apply same_item_mark].
  - intros r' Hr'. apply list_elem_of_fmap in Hr' as (r & -> & Hr).
    exists r. split; [done|apply same_item_mark].
  - rewrite length_fmap. lia.
Qed.

(** A candidate other than the one deleted or marked is still in the table. *)
Lemma elem_of_delete_ne db c d : d ∈ rows db → id d ≠ id c → d ∈ rows (sql_delete (id c) db).
Proof. intros Hd Hne. by apply list_elem_of_filter. Qed.

Lemma elem_of_mark_ne db i t msg d : d ∈ rows db → id d ≠ i → d ∈ rows (sql_mark i t msg db).
Proof.
  intros Hd Hne. cbn. apply list_elem_of_fmap. exists d. split; [|done].
  unfold mark_row. by rewrite bool_decide_eq_false_2.
Qed.

Definition outcomes (st : DrainStats) : Z :=
  Skipped st + Accepted st + Permanent st + Transient st.

Section DrainRunFacts.
Context {E : Env} {FS : FileSys} {D : SqlDriver}.

(** Rows only leave through acceptance, and are counted. *)
Lemma drain_run_drained s t batch stats db evs stats' e db' :
  drain_run s t batch stats db evs stats' e db' →
  NoDup (id <$> rows db) → NoDup (id <$> batch) → (∀ c, c ∈ batch → c ∈ rows db) →
  drained db db' evs (Accepted stats' - Accepted stats).
Proof.
  induction 1 as [| | |c batch stats db o e Hb|c batch stats db evs stats' e db' Hb Hr IH
    |c batch stats db n msg evs stats' e db' Hb Hr IH
    |c batch stats db n msg evs stats' e db' Hb Hr IH]; intros Hnd Hndb Hin.
  all: rewrite ?Z.sub_diag; try apply drained_refl.
  all: rewrite ?fmap_cons, ?NoDup_cons in Hndb; destruct Hndb as [Hc Hndb].
  all: assert (∀ d, d ∈ batch → d ∈ rows db ∧ id d ≠ id c) as Hin'
    by (intros d Hd; split; [apply Hin; by right
        |intros Heq; apply Hc; rewrite <- Heq; by apply list_elem_of_fmap_2]).
  - apply IHdrain_run; try done. intros d Hd. by apply Hin'.
  - replace (Accepted stats' - Accepted stats)
      with (1 + (Accepted stats' - Accepted (bump_accepted stats))) by (cbn; lia).
    apply (drained_trans _ (sql_delete (id c) db) _ [event_of c OutcomeAccepted] evs).
    + apply drained_delete; [done|apply Hin; by left].
    + apply IH; cbn; [by apply NoDup_fmap_filter|done|].
      intros d Hd. by apply elem_of_delete_ne; apply Hin'.
  - apply (drained_trans _ (sql_mark (id c) (clock n) msg db) _ [_] evs 0); [apply drained_mark|].
    apply IH; cbn; [by rewrite mark_ids|done|].
    intros d Hd. by apply elem_of_mark_ne; apply Hin'.
  - apply (drained_trans _ (sql_mark (id c) (clock n) msg db) _ [_] evs 0); [apply drained_mark|].
    apply IH; cbn; [by rewrite mark_ids|done|].
    intros d Hd. by apply elem_of_mark_ne; apply Hin'.
Qed.

(** A pass that ends without error has looked at every candidate. *)
Lemma drain_run_stats s t batch stats db evs stats' e db' :
  drain_run s t batch stats db evs stats' e db' →
  Considered stats' = Considered stats ∧ Dropped stats' = Dropped stats ∧
  (e = None → outcomes stats' = outcomes stats + Z.of_nat (length batch) ∧
              Z.of_nat (length evs) = outcomes stats' - Skipped stats' - (outcomes stats - Skipped stats)).
Proof.
  induction 1 as [| | |c batch stats db o e Hb| | |];
    cbn [length] in *; unfold outcomes in *; cbn in *; try (repeat split; done || lia).
  all: destruct IHdrain_run as (H1 & H2 & H3); (split; [done|split; [done|]]);
    intros He; specialize (H3 He); lia.
Qed.

(** The calls of [Send] follow the order of the candidates, at most one each,
    and only for candidates whose backoff window has elapsed. *)
Lemma drain_run_order s t batch stats db evs stats' e db' :
  drain_run s t batch stats db evs stats' e db' →
  ∃ cs, sublist cs batch ∧ Forall (λ c, in_backoff s t c = Ok false) cs ∧
        ((λ c, (probe_run_id c, payload c)) <$> cs) = ((λ ev, (ev_run ev, ev_payload ev)) <$> evs).
Proof.
  induction 1 as [| |c batch stats db evs stats' e db' Hb Hr (cs & Hs & Hf & Hm)| |
    c batch stats db evs stats' e db' Hb Hr (cs & Hs & Hf & Hm)|
    c batch stats db n msg evs stats' e db' Hb Hr (cs & Hs & Hf & Hm)|
    c batch stats db n msg evs stats' e db' Hb Hr (cs & Hs & Hf & Hm)].
  - by exists [].
  - exists []. split; [apply sublist_nil_l|done].
  - exists cs. split; [by apply sublist_cons|done].
  - exists [c]. split; [apply sublist_skip, sublist_nil_l|]. by repeat constructor.
  - exists (c :: cs). rewrite !fmap_cons, Hm. by repeat constructor.
  - exists (c :: cs). rewrite !fmap_cons, Hm. by repeat constructor.
  - exists (c :: cs). rewrite !fmap_cons, Hm. by repeat constructor.
Qed.
End DrainRunFacts.

(** ** Steps *)

Section SpoolTicks.
Context {E : Env} {FS : FileSys} {D : SqlDriver} {X : Type} {SX : Sender X}.

Ltac go := unfold update, query, exec, markFailure, os_stat; repeat ticks_step.

Lemma ticks_Enqueue run pl : ticks (Enqueue (X := X) run pl).
Proof. unfold Enqueue. case_bool_decide; [go|]. case_bool_decide; go. Qed.

Lemma ticks_Depth : ticks (Depth (X := X)).
Proof. unfold Depth. go. Qed.

Lemma ticks_OldestAge : ticks (OldestAge (X := X)).
Proof. unfold OldestAge. go. Qed.

Lemma ticks_DropsTotal : ticks (DropsTotal (X := X)).
Proof. unfold DropsTotal. go. Qed.

Lemma ticks_LastDrainSnapshot : ticks (LastDrainSnapshot (X := X)).
Proof. unfold LastDrainSnapshot. go. Qed.

Lemma ticks_SaveDrainSnapshot d o n : ticks (SaveDrainSnapshot (X := X) d o n).
Proof. unfold SaveDrainSnapshot. go. Qed.

Lemma ticks_footprint p sfx tot : ticks (footprint_go (X := X) p sfx tot).
Proof.
  revert tot. induction sfx as [|s sfx IH]; intros tot; cbn [footprint_go]; [go|].
  apply ticks_bind; [intros w; cbn; lia|]. intros []; [apply IH|apply IH|go].
Qed.

Lemma ticks_send run pl : ticks (call_send (X := X) run pl).
Proof. intros w. unfold call_send. destruct (Send _ _ _ _) as [[o e] x']. cbn. lia. Qed.

Lemma ticks_retention fuel s n : ticks (retention_loop (X := X) fuel s n).
Proof.
  revert n. induction fuel as [|fuel IH]; intros n; cbn [retention_loop]; [go|].
  unfold FootprintBytes. repeat first [apply ticks_footprint | apply ticks_OldestAge | apply IH | progress go].
Qed.

Lemma ticks_drain_loop s t batch stats : ticks (drain_loop (X := X) s t batch stats).
Proof.
  revert stats. induction batch as [|c batch IH]; intros stats; cbn [drain_loop]; [go|].
  repeat first [apply ticks_send | apply IH | progress go].
Qed.

Lemma ticks_Drain s : ticks (Drain (X := X) s).
Proof.
  unfold Drain. repeat first [apply ticks_drain_loop | progress go]. intros w. apply ticks_retention.
Qed.
End SpoolTicks.

(** ** Retention *)

Section Retention.
Context {E : Env} {FS : FileSys} {D : SqlDriver} {X : Type} {SX : Sender X}.

Abbreviation reads := (moves (@eq (sp_state X))).

Lemma reads_exec {A} (f : Z → spool_db → res (A * spool_db)) :
  (∀ t db a db', f t db = Ok (a, db') → db = db') → reads (exec f).
Proof.
  intros Hf. apply moves_stmt; [apply _|]. intros n s a s' Hs.
  unfold mbind, res_bind in Hs. destruct (f (clock n) (sdb s)) as [[a' db']|e] eqn:Ef; [|done].
  injection Hs as <- <-. apply Hf in Ef as <-. by destruct s.
Qed.

Lemma reads_query {A} (f : spool_db → A) : reads (query f).
Proof. apply reads_exec. by intros t db a db' [= _ <-]. Qed.

Lemma reads_OldestAge : reads OldestAge.
Proof. unfold OldestAge. repeat first [apply reads_query | moves_step]. Qed.

Lemma reads_footprint p sfx tot : reads (footprint_go p sfx tot).
Proof.
  revert tot. induction sfx; intros tot; cbn [footprint_go];
    repeat first [done | apply IHsfx | moves_step].
Qed.

(** A read leaves the state as it was. *)
Lemma reads_run {A} (m : M (sp_state X) A) w a w' : reads m → m w = (a, w') → st w' = st w.
Proof. intros Hm Heq. specialize (Hm w). by rewrite Heq in Hm. Qed.

(** Deleting the oldest of a non-empty, well-formed table affects one row. *)
Lemma sql_delete_oldest_cons db r l :
  wf_db db → by_age db = r :: l → sql_delete_oldest db = (1, sql_delete (id r) db).
Proof.
  intros Hwf Hba. unfold sql_delete_oldest. rewrite Hba.
  rewrite (filter_key_unique id (rows db) r); [done|by apply wf_ids|].
  apply elem_of_by_age. rewrite Hba. by left.
Qed.

(** [k] rows were dropped and counted; [u] is 1 when a row was deleted but the
    statement that counts it failed. *)
Record retained (db db' : spool_db) (k u : nat) : Prop := {
  rt_rows : by_age db' = drop (k + u) (by_age db);
  rt_len : (k + u <= length (rows db))%nat;
  rt_meta : meta db' = alter (λ v, v + Z.of_nat k) "drops_total" (meta db);
  rt_wf : wf_db db';
}.

Lemma retained_refl db : wf_db db → retained db db 0 0.
Proof.
  intros Hwf. split; [done|lia| |done].
  apply map_eq. intros i. rewrite lookup_alter. case_decide; [|done].
  subst. destruct (meta db !! _); cbn; [|done]. by rewrite Z.add_0_r.
Qed.

Lemma retained_step db r l db' k u :
  wf_db db → by_age db = r :: l →
  retained (sql_update_meta "drops_total" (λ v, v + 1) (sql_delete (id r) db)) db' k u →
  retained db db' (S k) u.
Proof.
  intros Hwf Hba [H1 H2 H3 H4].
  assert (by_age (sql_update_meta "drops_total" (λ v, v + 1) (sql_delete (id r) db)) = l) as Hl
    by (apply (by_age_delete_head db r l); [apply Hwf|done]).
  split; [| | |done].
  - by rewrite Hba, H1, Hl.
  - pose proof (by_age_length db) as Hlen. rewrite <- by_age_length, Hl in H2.
    rewrite Hba in Hlen. cbn in Hlen. lia.
  - rewrite H3. cbn. apply map_eq. intros i.
    rewrite !lookup_alter. repeat case_decide; subst; try done.
    destruct (meta db !! _); cbn; [|done]. f_equal. lia.
Qed.

Lemma retained_uncounted db r l :
  wf_db db → by_age db = r :: l → retained db (sql_delete (id r) db) 0 1.
Proof.
  intros Hwf Hba. destruct (retained_refl db Hwf) as [_ _ H3 _].
  pose proof (by_age_length db) as Hlen. rewrite Hba in Hlen. cbn in Hlen.
  split; [|lia|done|by apply sql_delete_wf]. rewrite Hba. apply by_age_delete_head; [apply Hwf|done].
Qed.

(** What an error says of the count: a pass that stopped between a deletion and
    its count has left one row uncounted. *)
Definition uncounted (e : option err) : nat :=
  match e with
  | Some (ErrWrap m _) =>
      if bool_decide (m = "spool: retention rows affected") || bool_decide (m = "spool: retention bump drops") then 1 else 0
  | _ => 0
  end.

Lemma footprint_error p sfx tot (w : world (sp_state X)) n e w' :
  footprint_go p sfx tot w = ((n, Some e), w') → uncounted (Some e) = 0%nat.
Proof.
  revert tot w. induction sfx as [|x sfx IH]; intros tot w; cbn [footprint_go]; [done|].
  unfold_M. unfold os_stat at 1. destruct (os_Stat (tick w) (p ++ x)); [by apply IH..|]. by intros [= _ <- _].
Qed.

Lemma OldestAge_error (w : world (sp_state X)) n e w' :
  OldestAge w = ((n, Some e), w') → uncounted (Some e) = 0%nat.
Proof.
  unfold OldestAge. unfold_M. destruct (query _ w) as [[[ts|]|e0] w1]; [|done|by intros [= _ <- _]].
  destruct (parseSQLiteTime _); [done|by intros [= _ <- _]].
Qed.

(** The loop returns, having dropped and counted a prefix of the age order, but
    for the row its error speaks of. *)
Definition retention_result (w : world (sp_state X)) (d : Z)
    (r : option (Z * option err) * world (sp_state X)) : Prop :=
  ∃ k e w', r = (Some (d + Z.of_nat k, e), w') ∧
    sent (st w') = sent (st w) ∧ ext (st w') = ext (st w) ∧
    retained (sdb (st w)) (sdb (st w')) k (uncounted e) ∧ (tick w <= tick w')%nat ∧
    (uncounted e <= onsets (tick w) (tick w'))%nat.

Lemma retention_stop w d e w' :
  wf_db (sdb (st w)) → st w' = st w → uncounted e = 0%nat → (tick w <= tick w')%nat →
  retention_result w d (Some (d, e), w').
Proof.
  intros Hwf Heq He Ht. exists 0%nat, e, w'. rewrite Z.add_0_r, Heq, He.
  split; [done|]. split; [done|]. split; [done|]. split; [by apply retained_refl|]. split; [done|lia].
Qed.

Lemma retention_step w d r l w5 res :
  wf_db (sdb (st w)) → by_age (sdb (st w)) = r :: l →
  sent (st w5) = sent (st w) → ext (st w5) = ext (st w) → (tick w <= tick w5)%nat →
  sdb (st w5) = sql_update_meta "drops_total" (λ v, v + 1) (sql_delete (id r) (sdb (st w))) →
  retention_result w5 (d + 1) res → retention_result w d res.
Proof.
  intros Hwf Hba Hs5 Hx5 Ht5 Hd5 (k & e & w' & -> & Hs & Hx & Hret & Ht & Hu).
  exists (S k), e, w'. split; [do 3 f_equal; lia|]. split; [congruence|]. split; [congruence|].
  split; [rewrite Hd5 in Hret; by eapply retained_step|]. split; [lia|].
  rewrite (onsets_split (tick w) (tick w5)) by lia. lia.
Qed.

(** A row deleted by the statement at [i], the pass cut short at one of the next
    two. *)
Lemma retention_cut w d r l w' i e :
  wf_db (sdb (st w)) → by_age (sdb (st w)) = r :: l → uncounted (Some e) = 1%nat →
  sent (st w') = sent (st w) → ext (st w') = ext (st w) → sdb (st w') = sql_delete (id r) (sdb (st w)) →
  (tick w <= i < tick w')%nat → onset i → retention_result w d (Some (d, Some e), w').
Proof.
  intros Hwf Hba He Hs Hx Hd Hi Ho. exists 0%nat, (Some e), w'. rewrite Z.add_0_r, He, Hd.
  split; [done|]. split; [done|]. split; [done|]. split; [by eapply retained_uncounted|]. split; [lia|].
  by eapply onsets_one.
Qed.

(** What one statement of the loop body leaves in the world. *)
Lemma exec_same {A} (f : Z → spool_db → res (A * spool_db)) (w : world (sp_state X)) e w' :
  exec f w = (Err e, w') → st w' = st w.
Proof.
  intros H. apply exec_run in H as (H1 & H2 & _ & H3 & _).
  destruct (st w'), (st w); cbn in *; congruence.
Qed.

Lemma exec_went {A} (f : Z → spool_db → res (A * spool_db)) (w : world (sp_state X)) a w' :
  exec f w = (Ok a, w') → fault (tick w) = None.
Proof. unfold exec, stmt. by destruct (fault (tick w)). Qed.

(** The end of an iteration: the oldest row goes and is counted, or the pass is cut
    short. *)
Lemma retention_drop fuel s d w w3 r l :
  wf_db (sdb (st w)) → by_age (sdb (st w)) = r :: l → st w3 = st w → (tick w <= tick w3)%nat →
  (∀ w5, wf_db (sdb (st w5)) → (length (rows (sdb (st w5))) < fuel)%nat →
     retention_result w5 (d + 1) (retention_loop fuel s (d + 1) w5)) →
  (length (rows (sdb (st w))) < S fuel)%nat →
  retention_result w d
    ((r4 ← exec (λ _ db, Ok (sql_delete_oldest db));
      match r4 with
      | Err e => mret (Some (d, Some (ErrWrap "spool: retention delete" e)))
      | Ok affected =>
      r5 ← RowsAffected affected;
      match r5 with
      | Err e => mret (Some (d, Some (ErrWrap "spool: retention rows affected" e)))
      | Ok n =>
      if n =? 0 then mret (Some (d, None))
      else
      r6 ← update (λ _, sql_update_meta "drops_total" (λ v, v + 1));
      match r6 with
      | Err e => mret (Some (d, Some (ErrWrap "spool: retention bump drops" e)))
      | Ok _ => retention_loop fuel s (d + 1)
      end end end) w3).
Proof.
  intros Hwf Hba Hw3 Ht3 IH Hlen. unfold_M.
  destruct (exec _ w3) as [[n|e4] w4] eqn:E4.
  2: { pose proof (exec_same _ _ _ _ E4) as H4. apply exec_run in E4 as (_ & _ & Ht & _).
       apply retention_stop; [done|congruence|done|lia]. }
  pose proof (exec_went _ _ _ _ E4) as Hf3.
  apply exec_run in E4 as (Hs4 & Hx4 & Ht4 & Hr4). rewrite Hw3 in *. injection Hr4 as Hr4.
  rewrite (sql_delete_oldest_cons _ r l Hwf Hba) in Hr4. injection Hr4 as <- Hdb.
  rewrite RowsAffected_run. destruct (fault (tick w4)) as [e5|] eqn:Hf4.
  { eapply (retention_cut w d r l _ (tick w3)); try done; [cbn; lia|]. split; [done|]. rewrite <- Ht4, Hf4. by eexists. }
  cbn [Z.eqb]. unfold update. destruct (exec _ _) as [[[]|e6] w6] eqn:E6;
    apply exec_run in E6 as (Hs6 & Hx6 & Ht6 & Hr6); cbn [st tick] in *.
  - injection Hr6 as Hr6. rewrite <- Hdb in Hr6.
    eapply (retention_step w _ r l w6); [done|done|congruence|congruence|lia|done|].
    apply IH; rewrite <- Hr6; [auto with nlm|]. cbn.
    pose proof (length_filter_ne id (rows (sdb (st w))) r (wf_ids _ Hwf)) as Hl.
    specialize (Hl ltac:(apply elem_of_by_age; rewrite Hba; by left)). lia.
  - destruct Hr6 as [Hr6 [Hf6|[_ Hf6]]]; [|done].
    eapply (retention_cut w d r l _ (tick w4)); try done; try congruence; try lia.
Qed.

Lemma retention_loop_spec fuel s d (w : world (sp_state X)) :
  wf_db (sdb (st w)) → (length (rows (sdb (st w))) < fuel)%nat →
  retention_result w d (retention_loop fuel s d w).
Proof.
  revert d w. induction fuel as [|fuel IH]; intros d w Hwf Hlen; [lia|].
  cbn [retention_loop]. unfold FootprintBytes. unfold mbind at 1. unfold M_bind at 1.
  pose proof (ticks_footprint (path s) [""; "-wal"; "-shm"] 0 w) as T1.
  destruct (footprint_go _ _ _ w) as [[size e1] w1] eqn:E1. cbn [snd] in T1.
  pose proof (reads_run _ w _ _ (reads_footprint _ _ _) E1) as H1.
  destruct e1; [apply retention_stop; [done..|by eapply footprint_error|done]|].
  unfold mbind at 1. unfold M_bind at 1. pose proof (ticks_OldestAge w1) as T2.
  destruct (OldestAge w1) as [[age e2] w2] eqn:E2. cbn [snd] in T2.
  pose proof (reads_run _ w1 _ _ reads_OldestAge E2) as H2. rewrite H1 in H2.
  destruct e2; [apply retention_stop; [done..|by eapply OldestAge_error|lia]|].
  unfold mbind at 1. unfold M_bind at 1. destruct (query _ w2) as [r3 w3] eqn:E3.
  pose proof (reads_run _ w2 _ _ (reads_query _) E3) as Hw3. rewrite H2 in Hw3.
  apply exec_run in E3 as (_ & _ & T3 & Hr3).
  destruct r3 as [depth|e3]; [|apply retention_stop; [done..|lia]].
  injection Hr3 as <- _. rewrite H2.
  destruct (Z.eqb_spec (Z.of_nat (length (rows (sdb (st w))))) 0); [apply retention_stop; [done..|lia]|].
  destruct ((size <=? MaxSize (cfg s)) && (age <=? MaxAge (cfg s))); [apply retention_stop; [done..|lia]|].
  destruct (by_age (sdb (st w))) as [|r l] eqn:Hba; [pose proof (by_age_length (sdb (st w))) as H0; rewrite Hba in H0; cbn in H0; lia|].
  eapply (retention_drop fuel s d w w3 r l); try done; [lia|]. intros w5. apply IH.
Qed.
End Retention.

(** ** [Drain] as a whole *)

Lemma limit_sublist {A} n (l : list A) : sublist (limit n l) l.
Proof. unfold limit. destruct (n <? 0); [done|]. apply sublist_take. Qed.

Section Drain.
Context {E : Env} {FS : FileSys} {D : SqlDriver} {X : Type} {SX : Sender X}.
Implicit Types w : world (sp_state X).

Definition batch_of (s : Spool) (db : spool_db) : list row :=
  limit (DrainRows (cfg s)) (by_age db).

Definition zero_stats : DrainStats := mkDrainStats 0 0 0 0 0 0.

(** The instant [Drain] reads before its loop. *)
Definition drain_instant w : Z := clock (S (tick w)).

Lemma batch_ids s db : NoDup (id <$> rows db) → NoDup (id <$> batch_of s db).
Proof.
  intros H. apply (sublist_NoDup _ (id <$> by_age db)); [by rewrite by_age_perm|].
  apply fmap_sublist, limit_sublist.
Qed.

Lemma batch_rows s db c : c ∈ batch_of s db → c ∈ rows db.
Proof.
  intros Hc. apply elem_of_by_age. eapply elem_of_sublist; [exact Hc|apply limit_sublist].
Qed.

(** The errors of the loop do not speak of the count. *)
Lemma drain_loop_error s t batch stats w stats' e w' :
  drain_loop s t batch stats w = ((stats', e), w') → uncounted e = 0%nat.
Proof.
  revert stats w. induction batch as [|c batch IH]; intros stats w; cbn [drain_loop]; unfold_M; [by intros [= _ <- _]|].
  unfold ctxErr at 1. destruct (ctx_done (tick w)); cbn [st tick]; [by intros [= _ <- _]|].
  destruct (in_backoff s t c) as [[]|e0] eqn:Hb; [by apply IH| |].
  2: { unfold in_backoff in Hb. destruct (last_attempt_at c); [|done].
       destruct (parseSQLiteTime _); [done|]. injection Hb as <-. by intros [= _ <- _]. }
  destruct (call_send _ _ _) as [[o se] w1]. unfold markFailure, update. unfold_M. destruct o; [..|by intros [= _ <- _]].
  all: destruct (exec _ w1) as [[[]|e1] w2]; [by apply IH|by intros [= _ <- _]].
Qed.

(** Every run of [Drain] is a failed select, a loop that stopped with an
    error, or a complete loop followed by retention. *)
Lemma Drain_cases s w :
  clock_in_range E → wf_db (sdb (st w)) →
  ∃ stats e w', Drain s w = (Some (stats, e), w') ∧
    (tick w <= tick w')%nat ∧ (uncounted e <= onsets (tick w) (tick w'))%nat ∧
    ((st w' = st w ∧ stats = zero_stats ∧ is_Some e ∧ uncounted e = 0%nat) ∨
     ∃ evs stats1 e1 db1,
       sent (st w') = (sent (st w) ++ evs)%list ∧
       drain_run s (drain_instant w) (batch_of s (sdb (st w)))
         (mkDrainStats (Z.of_nat (length (batch_of s (sdb (st w))))) 0 0 0 0 0)
         (sdb (st w)) evs stats1 e1 db1 ∧ wf_db db1 ∧
       ((is_Some e ∧ e1 = e ∧ stats = stats1 ∧ sdb (st w') = db1 ∧ uncounted e = 0%nat) ∨
        ∃ k, e1 = None ∧ retained db1 (sdb (st w')) k (uncounted e) ∧
          match e with
          | None => stats = set_dropped (Z.of_nat k) stats1
          | Some _ => stats = stats1
          end)).
Proof.
  intros Hclk Hwf. pose proof (ticks_Drain s w) as Ht. revert Ht. unfold Drain. unfold_M.
  destruct (query _ w) as [r w1] eqn:E1.
  pose proof (reads_run _ w _ _ (reads_query _) E1) as Hw1.
  apply exec_run in E1 as (_ & _ & Ht1 & Hr1).
  destruct r as [batch|e0]; [|intros Ht; do 3 eexists; split; [done|]; split; [done|]; split; [apply Nat.le_0_l|]; by left].
  injection Hr1 as <- Hr1. fold (batch_of s (sdb (st w))).
  unfold now at 1 2. cbv beta iota.
  match goal with |- context [drain_loop s _ _ _ ?w2] => set (w2' := w2) end.
  rewrite Ht1. fold (drain_instant w).
  pose proof (ticks_drain_loop s (drain_instant w) (batch_of s (sdb (st w)))
    (mkDrainStats (Z.of_nat (length (batch_of s (sdb (st w))))) 0 0 0 0 0) w2') as T3.
  destruct (drain_loop s _ _ _ w2') as [[stats1 e1] w3] eqn:E2. cbn [snd] in T3. change (tick w2') with (S (tick w1)) in T3.
  assert (wf_db (sdb (st w3))) as Hwf3.
  { pose proof (keeps_drain_loop Hclk s (drain_instant w) (batch_of s (sdb (st w)))
      (mkDrainStats (Z.of_nat (length (batch_of s (sdb (st w))))) 0 0 0 0 0) w2') as Hk.
    rewrite E2 in Hk. apply Hk. cbn. by rewrite Hw1. }
  pose proof (drain_loop_error _ _ _ _ _ _ _ _ E2) as Hu1.
  apply drain_loop_run in E2 as (evs & Hs & Hrun). cbn [w2' st] in Hs, Hrun. rewrite Hw1 in Hs, Hrun.
  destruct e1 as [e1|].
  { intros Ht. do 3 eexists. split; [done|]. split; [done|]. split; [lia|]. right. exists evs, stats1, (Some e1), (sdb (st w3)).
    split; [done|]. split; [done|]. split; [done|]. left. eauto 10. }
  destruct (retention_loop_spec (S (length (rows (sdb (st w3))))) s 0 w3 Hwf3 ltac:(lia))
    as (k & e & w' & Hret & Hs' & _ & Hr & Ht' & Ho).
  unfold enforceRetention. rewrite Hret. rewrite Hs in Hs'. intros Ht.
  assert (Ho' : (uncounted e <= onsets (tick w) (tick w'))%nat) by (rewrite (onsets_split _ (tick w3)) by lia; lia).
  destruct e as [e|]; do 3 eexists; (split; [reflexivity|]); (split; [lia|]); (split; [done|]); right;
    exists evs, stats1, None, (sdb (st w3)); (split; [done|]);
    (split; [done|]); (split; [done|]); right; exists k; repeat (split; [done|]); auto.
Qed.
End Drain.

Section DrainTheorems.
Context {E : Env} {FS : FileSys} {D : SqlDriver} {X : Type} {SX : Sender X}.
Implicit Types w : world (sp_state X).

Lemma drops_after db db' k u v :
  retained db db' k u → meta db !! "drops_total" = Some v →
  meta db' !! "drops_total" = Some (v + Z.of_nat k).
Proof. intros [_ _ -> _] Hv. by rewrite lookup_alter, decide_True, Hv. Qed.

(** The rows a retention pass removes are older than the rows it keeps. *)
Lemma retained_split db db' k u :
  retained db db' k u →
  (∀ r, r ∈ rows db ↔ r ∈ take (k + u) (by_age db) ∨ r ∈ rows db') ∧
  length (take (k + u) (by_age db)) = (k + u)%nat ∧
  (∀ x r, x ∈ take (k + u) (by_age db) → r ∈ rows db' → row_le x r).
Proof.
  intros [H1 H2 _ _]. rewrite <- (by_age_length db) in H2.
  split; [|split].
  - intros r. rewrite <- (elem_of_by_age r db), <- (elem_of_by_age r db'), H1.
    rewrite <- elem_of_app. by rewrite take_drop.
  - rewrite length_take. lia.
  - intros x r Hx Hr. rewrite <- elem_of_by_age, H1 in Hr.
    pose proof (by_age_sorted db) as Hs. rewrite <- (take_drop (k + u) (by_age db)) in Hs.
    by eapply StronglySorted_app_1_elem_of.
Qed.

(** Where the rows of a drain pass go. *)
Lemma Drain_accounts s w v :
  clock_in_range E → wf_db (sdb (st w)) → meta (sdb (st w)) !! "drops_total" = Some v →
  ∃ stats e w' evs lost k,
    Drain s w = (Some (stats, e), w') ∧ sent (st w') = (sent (st w) ++ evs)%list ∧
    (∀ r, r ∈ rows (sdb (st w)) →
       (∃ r', r' ∈ rows (sdb (st w')) ∧ same_item r r') ∨
       event_of r OutcomeAccepted ∈ evs ∨
       (∃ r', r' ∈ lost ∧ same_item r r')) ∧
    (∀ r', r' ∈ rows (sdb (st w')) → ∃ r, r ∈ rows (sdb (st w)) ∧ same_item r r') ∧
    (∀ x r', x ∈ lost → r' ∈ rows (sdb (st w')) → row_le x r') ∧
    meta (sdb (st w')) !! "drops_total" = Some (v + Z.of_nat k) ∧
    length lost = (k + uncounted e)%nat ∧ (uncounted e <= onsets (tick w) (tick w'))%nat.
Proof.
  intros Hclk Hwf Hv.
  destruct (Drain_cases s w Hclk Hwf) as (stats & e & w' & Hd & _ & Ho & [(Hst & _ & _ & He)|H]).
  { exists stats, e, w', [], [], 0%nat. rewrite Hst, app_nil_r, Z.add_0_r.
    split_and!; try done; [intros r Hr; left; by exists r|intros r Hr; by exists r|
      intros x r' Hx; by apply not_elem_of_nil in Hx]. }
  destruct H as (evs & stats1 & e1 & db1 & Hs & Hrun & Hwf1 & Hend).
  apply drain_run_drained in Hrun as [Hm _ Hkept Hfrom _];
    [|apply Hwf|apply batch_ids, Hwf|apply batch_rows].
  destruct Hend as [(_ & -> & -> & Hdb & He)|(k & -> & Hret & Hfin)].
  { exists stats1, e, w', evs, [], 0%nat. rewrite Hdb, Z.add_0_r, Hm.
    split_and!; try done; [|intros x r' Hx; by apply not_elem_of_nil in Hx].
    intros r Hr. destruct (Hkept r Hr); auto. }
  destruct (retained_split _ _ _ _ Hret) as (Hsplit & Hlen & Hold).
  exists stats, e, w', evs, (take (k + uncounted e) (by_age db1)), k.
  split; [done|]. split; [done|]. split; [|split; [|split; [done|split; [|split; [done|done]]]]].
  - intros r Hr. destruct (Hkept r Hr) as [(r1 & Hr1 & Hsame)|]; [|auto].
    apply Hsplit in Hr1 as [?|?]; eauto.
  - intros r' Hr'. apply Hfrom, Hsplit. by right.
  - eapply drops_after; [done|]. by rewrite Hm.
Qed.


(** C19.  The counters of a drain pass that reports success are exact:
    [Considered] rows were selected, each of them was skipped, accepted, or
    failed permanently or transiently; one [Send] was made per row not
    skipped; the spool shrank by exactly [Accepted + Dropped] rows; and
    [drops_total] grew by exactly [Dropped]. *)
Theorem Drain_stats_exact s w stats w' v :
  clock_in_range E → wf_db (sdb (st w)) → meta (sdb (st w)) !! "drops_total" = Some v →
  Drain s w = (Some (stats, None), w') →
  Considered stats = Z.of_nat (length (limit (DrainRows (cfg s)) (by_age (sdb (st w))))) ∧
  Considered stats = Skipped stats + Accepted stats + Permanent stats + Transient stats ∧
  Z.of_nat (length (sent (st w'))) =
    Z.of_nat (length (sent (st w))) + Accepted stats + Permanent stats + Transient stats ∧
  Z.of_nat (length (rows (sdb (st w')))) + Accepted stats + Dropped stats =
    Z.of_nat (length (rows (sdb (st w)))) ∧
  meta (sdb (st w')) !! "drops_total" = Some (v + Dropped stats).
Proof.
  intros Hclk Hwf Hv Hd.
  destruct (Drain_cases s w Hclk Hwf) as (stats0 & e & w0 & Hd' & _ & _ & H).
  rewrite Hd in Hd'. injection Hd' as <- <- <-.
  destruct H as [(_ & _ & [? ?] & _)|(evs & stats1 & e1 & db1 & Hs & Hrun & Hwf1 & Hend)]; [done|].
  destruct Hend as [([? ?] & _)|(k & -> & Hret & ->)]; [done|]. cbn in Hret.
  destruct (drain_run_stats _ _ _ _ _ _ _ _ _ Hrun) as (Hc & _ & Ho).
  specialize (Ho eq_refl) as [Ho Hevs]. unfold outcomes in *. cbn in *.
  apply drain_run_drained in Hrun as [Hm _ _ _ Hn];
    [|apply Hwf|apply batch_ids, Hwf|apply batch_rows]. cbn in Hn.
  fold (batch_of s (sdb (st w))).
  split; [done|]. split; [lia|]. split; [rewrite Hs, length_app; lia|]. split.
  - pose proof (rt_rows _ _ _ _ Hret) as Hr. apply (f_equal length) in Hr.
    pose proof (rt_len _ _ _ _ Hret).
    rewrite length_drop, !by_age_length in Hr. lia.
  - eapply drops_after; [exact Hret|]. by rewrite Hm.
Qed.

(** C23.  A drain pass is fair to the backoff and first-in first-out: the
    payloads it sends are those of a subsequence of the spool in age order
    (so older rows are sent before newer ones, and none is sent twice), and
    each of them either was never attempted or has a last attempt at least
    [Backoff(attempts)] before the instant the pass started. *)
Theorem Drain_fifo_backoff s w stats e w' :
  clock_in_range E → wf_db (sdb (st w)) →
  Drain s w = (Some (stats, e), w') →
  ∃ evs cs, sent (st w') = (sent (st w) ++ evs)%list ∧
    sublist cs (by_age (sdb (st w))) ∧
    ((λ c, (probe_run_id c, payload c)) <$> cs) = ((λ ev, (ev_run ev, ev_payload ev)) <$> evs) ∧
    Forall (λ c, ∀ t, last_attempt_at c = Some (format_datetime t) → four_digit_year t →
      Unix t * Second + Backoff (attempts c) (BackoffBase (cfg s)) (BackoffMax (cfg s))
        <= clock (S (tick w))) cs.
Proof.
  intros Hclk Hwf Hd.
  destruct (Drain_cases s w Hclk Hwf) as (stats0 & e0 & w0 & Hd' & _ & _ & H).
  rewrite Hd in Hd'. injection Hd' as <- <- <-.
  destruct H as [(Hst & _)|(evs & stats1 & e1 & db1 & Hs & Hrun & _)].
  { exists [], []. rewrite Hst, app_nil_r. repeat split; try done. apply sublist_nil_l. }
  apply drain_run_order in Hrun as (cs & Hsub & Hf & Hm).
  exists evs, cs. split; [done|]. split; [etransitivity; [exact Hsub|apply limit_sublist]|].
  split; [done|]. eapply Forall_impl; [exact Hf|]. intros c Hc t Ht Hy.
  unfold in_backoff in Hc. rewrite Ht, (scan_datetime_ok t Hy) in Hc.
  injection Hc as Hc. unfold After, TimeAdd, drain_instant in Hc. lia.
Qed.
End DrainTheorems.

(** ** Retention in a fault-free environment *)

Lemma min_text_spec l m :
  min_text l = Some m ↔ m ∈ l ∧ ∀ x, x ∈ l → String.le m x.
Proof.
  revert m. induction l as [|s l IH]; intros m; cbn [min_text].
  { split; [done|]. intros [H _]. by apply not_elem_of_nil in H. }
  destruct (min_text l) as [m'|] eqn:Hm.
  - destruct (proj1 (IH m') eq_refl) as [Hin Hle]. split.
    + intros [= <-]. destruct (String.leb s m') eqn:Hc.
      * split; [by left|]. intros x Hx. apply elem_of_cons in Hx as [->|Hx]; [done|].
        transitivity m'; [unfold String.le; by rewrite Hc|by apply Hle].
      * split; [by right|]. intros x Hx. apply elem_of_cons in Hx as [->|Hx]; [|by apply Hle].
        destruct (String.leb_total s m') as [H|H]; [congruence|unfold String.le; by rewrite H].
    + intros [Hm1 Hm2]. f_equal. destruct (String.leb s m') eqn:Hc.
      * apply elem_of_cons in Hm1 as [->|Hm1]; [done|]. apply (anti_symm String.le).
        -- transitivity m'; [unfold String.le; by rewrite Hc|by apply Hle].
        -- apply Hm2. by left.
      * assert (¬ String.le s m') as Hn by (unfold String.le; rewrite Hc; auto).
        apply elem_of_cons in Hm1 as [->|Hm1]; [exfalso; apply Hn, Hm2; by right|].
        apply (anti_symm String.le); [by apply Hle|]. apply Hm2. by right.
  - assert (l = []) as ->.
    { destruct l as [|y l]; [done|]. cbn in Hm. by destruct (min_text l). }
    split.
    + intros [= <-]. split; [by left|]. intros x Hx. by apply list_elem_of_singleton in Hx as ->.
    + intros [Hin _]. by apply list_elem_of_singleton in Hin as ->.
Qed.

Lemma min_text_by_age db r l :
  by_age db = r :: l → min_text (enqueued_at <$> rows db) = Some (enqueued_at r).
Proof.
  intros Hba. apply min_text_spec. split.
  - apply list_elem_of_fmap_2. apply elem_of_by_age. rewrite Hba. by left.
  - intros x Hx. apply list_elem_of_fmap in Hx as (r' & -> & Hr').
    apply elem_of_by_age in Hr'. rewrite Hba in Hr'.
    apply elem_of_cons in Hr' as [->|Hr']; [done|].
    pose proof (by_age_sorted db) as Hs. rewrite Hba in Hs. inversion Hs as [|? ? _ Hall]; subst.
    rewrite Forall_forall in Hall. by apply Hall, row_le_alt in Hr' as [? _].
Qed.

(** The instant a row was enqueued, to the second. *)
Definition enqueued_time (r : row) (t : Z) : Prop :=
  four_digit_year t ∧ enqueued_at r = format_datetime t.

(** Older in the table is earlier on the clock. *)
Lemma row_le_time a b ta tb :
  enqueued_time a ta → enqueued_time b tb → row_le a b → Unix ta <= Unix tb.
Proof.
  intros [Ha Ea] [Hb Eb] Hle. apply row_le_alt in Hle as [Hle _].
  rewrite Ea, Eb in Hle. unfold String.le, String.leb in Hle.
  rewrite format_datetime_compare in Hle by done.
  destruct (Z.compare_spec (Unix ta) (Unix tb)); [lia|lia|done].
Qed.

Section FaultFree.
Context {E : Env} {FS : FileSys} {D : SqlDriver} {X : Type} {SX : Sender X}.
Implicit Types w : world (sp_state X).
Hypothesis Hff : fault_free E.

Lemma exec_ff {A} (f : Z → spool_db → res (A * spool_db)) w a db' :
  f (clock (tick w)) (sdb (st w)) = Ok (a, db') →
  exec f w = (Ok a, mkWorld (SpState db' (ext (st w)) (sent (st w))) (S (tick w))).
Proof. intros Hf. unfold exec, stmt. by rewrite (proj1 Hff), Hf. Qed.

Lemma query_ff {A} (f : spool_db → A) w :
  query f w = (Ok (f (sdb (st w))), mkWorld (st w) (S (tick w))).
Proof. unfold query. rewrite (exec_ff _ w (f (sdb (st w))) (sdb (st w))) by done. by destruct (st w). Qed.

Lemma update_ff (f : Z → spool_db → spool_db) w :
  update f w = (Ok (), mkWorld (SpState (f (clock (tick w)) (sdb (st w))) (ext (st w)) (sent (st w)))
                               (S (tick w))).
Proof. unfold update. by rewrite (exec_ff _ w () (f (clock (tick w)) (sdb (st w)))). Qed.

Lemma OldestAge_ff w r l t :
  by_age (sdb (st w)) = r :: l → enqueued_time r t →
  OldestAge w = ((TimeSub (clock (S (tick w))) (Unix t * Second), None),
                 mkWorld (st w) (S (S (tick w)))).
Proof.
  intros Hba [Ht He]. unfold OldestAge. unfold_M.
  rewrite query_ff, (min_text_by_age _ r l Hba), He, (scan_expr_ok t Ht). done.
Qed.

Lemma footprint_tick p sfx tot w : (tick w <= tick (footprint_go p sfx tot w).2)%nat.
Proof.
  revert tot w. induction sfx as [|x sfx IH]; intros tot w; cbn [footprint_go]; [done|].
  unfold_M. unfold os_stat at 1. destruct (os_Stat (tick w) (p ++ x)); cbn; [|..|lia];
    (etransitivity; [|apply IH]); cbn; lia.
Qed.

(** One iteration of the retention loop on a non-empty table: it either stops,
    because both bounds hold, or drops and counts the oldest row. *)
Lemma retention_iter fuel s d w r l t size :
  wf_db (sdb (st w)) → by_age (sdb (st w)) = r :: l → enqueued_time r t →
  (FootprintBytes s w).1 = (size, None) →
  ∃ n w', (tick w <= n < tick w')%nat ∧
    let ok := (size <=? MaxSize (cfg s)) &&
              (TimeSub (clock n) (Unix t * Second) <=? MaxAge (cfg s)) in
    retention_loop (S fuel) s d w
    = (if ok then (Some (d, None), w') else retention_loop fuel s (d + 1) w') ∧
    (if ok then st w' = st w
     else sdb (st w') = sql_update_meta "drops_total" (λ v, v + 1) (sql_delete (id r) (sdb (st w)))).
Proof.
  intros Hwf Hba Ht Hsize. cbn [retention_loop]. unfold_M.
  pose proof (footprint_tick (path s) [""; "-wal"; "-shm"] 0 w) as Htick.
  unfold FootprintBytes in *.
  destruct (footprint_go (path s) _ 0 w) as [[size' e] w1] eqn:E1. cbn [fst snd] in *.
  injection Hsize as -> ->.
  apply (reads_run _ w) in E1; [|apply reads_footprint].
  rewrite (OldestAge_ff w1 r l t) by (done || by rewrite E1).
  rewrite query_ff. cbn [st tick]. rewrite E1.
  pose proof (by_age_length (sdb (st w))) as Hlen. rewrite Hba in Hlen. cbn [length] in Hlen.
  replace (Z.of_nat (length (rows (sdb (st w)))) =? 0) with false by lia.
  exists (S (tick w1)).
  destruct ((size <=? MaxSize (cfg s)) && _) eqn:Hok.
  - eexists. split; [|split; [reflexivity|done]]. cbn. lia.
  - rewrite (exec_ff _ _ 1 (sql_delete (id r) (sdb (st w))))
      by (cbn; by rewrite (sql_delete_oldest_cons _ r l)).
    rewrite RowsAffected_run, (proj1 Hff). cbn [st tick sdb Z.eqb]. rewrite update_ff. cbn [st tick sdb ext sent].
    eexists. split; [|split; [reflexivity|done]]. cbn. lia.
Qed.
End FaultFree.

Section RetentionBounds.
Context {E : Env} {FS : FileSys} {D : SqlDriver} {X : Type} {SX : Sender X}.
Implicit Types w : world (sp_state X).
Hypothesis Hff : fault_free E.

(** Every footprint the file system reports satisfies [P]. *)
Definition footprint_always (s : Spool) (P : Z → Prop) : Prop :=
  ∀ w, ∃ n, (FootprintBytes s w).1 = (n, None) ∧ P n.

Lemma head_enqueued db r l : wf_db db → by_age db = r :: l → ∃ t, enqueued_time r t.
Proof.
  intros Hwf Hba. pose proof (wf_rows _ Hwf) as H. rewrite Forall_forall in H.
  destruct (wf_enqueued r) as (t & Ht & He); [|by exists t].
  apply H, elem_of_by_age. rewrite Hba. by left.
Qed.

Lemma by_age_after_step db r l :
  wf_db db → by_age db = r :: l →
  by_age (sql_update_meta "drops_total" (λ v, v + 1) (sql_delete (id r) db)) = l ∧
  wf_db (sql_update_meta "drops_total" (λ v, v + 1) (sql_delete (id r) db)).
Proof.
  intros Hwf Hba. split; [|auto with nlm].
  apply (by_age_delete_head db r l); [apply Hwf|done].
Qed.

Lemma retention_empty fuel s d w n :
  by_age (sdb (st w)) = [] → (FootprintBytes s w).1 = (n, None) →
  ∃ w', retention_loop (S fuel) s d w = (Some (d, None), w') ∧ st w' = st w ∧
        (tick w <= tick w')%nat.
Proof.
  intros Hba Hn.
  assert (rows (sdb (st w)) = []) as Hnil.
  { apply Permutation_nil_r. by rewrite <- by_age_perm, Hba. }
  cbn [retention_loop]. unfold_M.
  pose proof (footprint_tick (path s) [""; "-wal"; "-shm"] 0 w) as Htick.
  unfold FootprintBytes in *.
  destruct (footprint_go (path s) _ 0 w) as [[size' e] w1] eqn:E1. cbn [fst snd] in *.
  injection Hn as -> ->. apply (reads_run _ w) in E1; [|apply reads_footprint].
  unfold OldestAge. unfold_M. rewrite query_ff, E1, Hnil by done. cbn [fmap list_fmap min_text].
  rewrite query_ff by done. cbn [st tick]. rewrite Hnil. cbn [length Z.of_nat Z.eqb].
  eexists. split; [done|]. cbn. split; [done|lia].
Qed.

(** With the file always over its bound, every row goes. *)
Lemma retention_oversize fuel s d w :
  footprint_always s (λ n, MaxSize (cfg s) < n) →
  wf_db (sdb (st w)) → (length (by_age (sdb (st w))) < fuel)%nat →
  ∃ w', retention_loop fuel s d w
        = (Some (d + Z.of_nat (length (by_age (sdb (st w)))), None), w') ∧ rows (sdb (st w')) = [].
Proof.
  intros Hsz. revert d w. induction fuel as [|fuel IH]; intros d w Hwf Hlen; [lia|].
  destruct (by_age (sdb (st w))) as [|r l] eqn:Hba.
  - destruct (Hsz w) as (n & Hn & _).
    destruct (retention_empty fuel s d w n Hba Hn) as (w' & Hrun & Hst & _).
    exists w'. rewrite Hrun, Hst, Z.add_0_r. split; [done|].
    apply Permutation_nil_r. by rewrite <- by_age_perm, Hba.
  - destruct (head_enqueued _ r l Hwf Hba) as [t Ht]. destruct (Hsz w) as (n & Hn & Hbig).
    destruct (retention_iter Hff fuel s d w r l t n Hwf Hba Ht Hn) as (i & w' & _ & Hrun & Hst).
    replace (n <=? MaxSize (cfg s)) with false in * by lia. cbn [andb] in *.
    destruct (by_age_after_step _ r l Hwf Hba) as [Hl Hwf']. rewrite <- Hst in Hl, Hwf'.
    destruct (IH (d + 1) w' Hwf') as (w'' & Hrun' & Hnil).
    { rewrite Hl. cbn in Hlen. lia. }
    exists w''. split; [|done]. rewrite Hrun, Hrun', Hl. cbn [length]. do 3 f_equal. lia.
Qed.

(** With the file always within its bound, the age bound decides. *)
Lemma retention_aged fuel s d w :
  clock_mono E → in_int64 (MaxAge (cfg s)) → MaxAge (cfg s) < max_int64 →
  footprint_always s (λ n, n <= MaxSize (cfg s)) →
  wf_db (sdb (st w)) → (length (by_age (sdb (st w))) < fuel)%nat →
  ∃ k w', retention_loop fuel s d w = (Some (d + Z.of_nat k, None), w') ∧
    (tick w <= tick w')%nat ∧ by_age (sdb (st w')) = drop k (by_age (sdb (st w))) ∧
    (∀ r t, head (by_age (sdb (st w'))) = Some r → enqueued_time r t →
       clock (tick w) - Unix t * Second <= MaxAge (cfg s)) ∧
    (∀ x t, x ∈ take k (by_age (sdb (st w))) → enqueued_time x t →
       MaxAge (cfg s) < clock (tick w') - Unix t * Second).
Proof.
  intros Hmono Hint Hmax Hsz. revert d w.
  induction fuel as [|fuel IH]; intros d w Hwf Hlen; [lia|].
  destruct (by_age (sdb (st w))) as [|r l] eqn:Hba.
  - destruct (Hsz w) as (n & Hn & _).
    destruct (retention_empty fuel s d w n Hba Hn) as (w' & Hrun & Hst & Htk).
    exists 0%nat, w'. rewrite Hrun, Hst, Hba, Z.add_0_r. split_and!; try done.
    intros x t Hx. by apply not_elem_of_nil in Hx.
  - destruct (head_enqueued _ r l Hwf Hba) as [t Ht]. destruct (Hsz w) as (n & Hn & Hok).
    destruct (retention_iter Hff fuel s d w r l t n Hwf Hba Ht Hn) as (i & w' & Hi & Hrun & Hst).
    replace (n <=? MaxSize (cfg s)) with true in * by lia. cbn [andb] in *.
    pose proof (Hmono (tick w) i ltac:(lia)) as Hci.
    assert (∀ t', enqueued_time r t' → Unix t' = Unix t) as Huniq.
    { intros t' Ht'. pose proof (row_le_time r r t t' Ht Ht' ltac:(apply row_le_alt; done)).
      pose proof (row_le_time r r t' t Ht' Ht ltac:(apply row_le_alt; done)). lia. }
    destruct (TimeSub (clock i) (Unix t * Second) <=? MaxAge (cfg s)) eqn:Hage.
    + exists 0%nat, w'. rewrite Hrun, Z.add_0_r, Hst, Hba. split_and!; try done; [lia| |].
      * intros r' t' [= <-] Ht'. rewrite (Huniq t' Ht').
        apply Z.leb_le in Hage. apply sat64_le in Hage; [|done]. lia.
      * intros x t' Hx. by apply not_elem_of_nil in Hx.
    + destruct (by_age_after_step _ r l Hwf Hba) as [Hl Hwf']. rewrite <- Hst in Hl, Hwf'.
      destruct (IH (d + 1) w' Hwf') as (k & w'' & Hrun' & Htk & Hdrop & Hkeep & Hgone).
      { rewrite Hl. cbn in Hlen. lia. }
      rewrite Hl in *. exists (S k), w''. rewrite Hrun, Hrun'.
      split_and!; [do 3 f_equal; lia|lia|by rewrite Hdrop| |].
      * intros r' t' Hr' Ht'. specialize (Hkeep r' t' Hr' Ht').
        pose proof (Hmono (tick w) (tick w') ltac:(lia)). lia.
      * intros x t' Hx Ht'. apply elem_of_cons in Hx as [->|Hx]; [|by eapply Hgone].
        rewrite (Huniq t' Ht'). pose proof (Hmono i (tick w'') ltac:(lia)).
        apply Z.leb_gt in Hage. unfold TimeSub in Hage.
        assert (¬ sat64 (clock i - Unix t * Second) <= MaxAge (cfg s)) as Hn' by lia.
        rewrite sat64_le in Hn' by done. lia.
Qed.
End RetentionBounds.
