(* ===== verification/SpoolClaims.v ===== *)
(** * The spool's contract: retention bounds, [Enqueue], the drain snapshot, and
    concrete instances of the interfaces it is proved against. *)
From Stdlib Require Import Ascii ZArith Lia.
From stdpp Require Import sorting.
From S2P Require Import Prelude GoTime GoStrings Backoff Spool SpoolFacts.

Local Open Scope string_scope.
Local Open Scope Z_scope.

(** ** Concrete environments *)

(** Nothing fails and the clock stands at [t]. *)
Definition quiet_env (t : Z) : Env := {|
  fault _ := None; clock _ := t; ctx_done _ := false |}.

(** The main file has [n] bytes; there is no WAL or SHM file. *)
Definition one_file (p : string) (n : Z) : FileSys := {|
  os_Stat _ name := if bool_decide (name = p) then StatSize n else StatNotExist |}.

(** A sender that always answers the same. *)
Definition const_sender (o : SendOutcome) (e : option err) : Sender () := {|
  Send _ _ _ x := ((o, e), x) |}.

Definition sqlite_unique : err :=
  ErrDriver "constraint failed: UNIQUE constraint failed: spool.probe_run_id (2067)".

Lemma parseSQLiteTime_datetime t :
  four_digit_year t → parseSQLiteTime (format_datetime t) = Ok (Unix t * Second).
Proof. intros Ht. unfold parseSQLiteTime. by rewrite parse_format_datetime. Qed.

Lemma parseSQLiteTime_rfc3339 t :
  four_digit_year t → parseSQLiteTime (format_rfc3339 t) = Ok (Unix t * Second).
Proof.
  intros Ht. unfold parseSQLiteTime.
  by rewrite parse_space_rfc3339, parse_format_rfc3339.
Qed.

(** A driver that hands stored text over as it is. *)
#[refine] Definition text_driver : SqlDriver := {|
  unique_error := sqlite_unique; scan_datetime s := s; scan_expr s := s |}.
Proof. all: [> reflexivity | apply parseSQLiteTime_datetime .. ]. Defined.

(** A driver that turns a DATETIME column into a [time.Time], which reaches the
    scanned string as RFC 3339, and leaves expressions as text. *)
#[refine] Definition time_driver : SqlDriver := {|
  unique_error := sqlite_unique;
  scan_datetime s := match parse_in_utc (Layout false false) s with
                     | Some t => format_rfc3339 t | None => s end;
  scan_expr s := s |}.
Proof.
  - reflexivity.
  - intros t Ht. rewrite parse_format_datetime by done.
    assert (Unix (Unix t * Second) = Unix t) as Hu
      by (unfold Unix; apply Z.div_mul; unfold Second; lia).
    rewrite parseSQLiteTime_rfc3339 by (unfold four_digit_year; by rewrite Hu).
    by rewrite Hu.
  - apply parseSQLiteTime_datetime.
Defined.

(** Stored timestamps survive the round trip through the database driver:
    both for a driver that hands the text over and for one that renders the
    column as RFC 3339, [parseSQLiteTime] reads back exactly the second
    [CURRENT_TIMESTAMP] wrote, for every date with a four-digit year. *)
Theorem parseSQLiteTime_roundtrip t :
  four_digit_year t →
  parseSQLiteTime (format_datetime t) = Ok (Unix t * Second) ∧
  parseSQLiteTime (format_rfc3339 t) = Ok (Unix t * Second).
Proof. split; [by apply parseSQLiteTime_datetime|by apply parseSQLiteTime_rfc3339]. Qed.

Lemma parseSQLiteTime_roundtrip_witness :
  parseSQLiteTime "2025-04-06 12:34:56" = Ok 1743942896000000000 ∧
  parseSQLiteTime "2025-04-06T12:34:56Z" = Ok 1743942896000000000.
Proof.
  apply (parseSQLiteTime_roundtrip 1743942896000000000).
  by_compute.
Defined.

(** The textual [ORDER BY enqueued_at] is chronological: comparing two
    stored timestamps as strings compares the seconds they stand for. *)
Theorem timestamp_order_chronological t u :
  four_digit_year t → four_digit_year u →
  String.compare (format_datetime t) (format_datetime u) = (Unix t ?= Unix u).
Proof. apply format_datetime_compare. Qed.

Lemma timestamp_order_chronological_witness :
  String.compare "2025-04-06 12:34:56" "2025-10-06 00:00:00" = Lt.
Proof.
  apply (timestamp_order_chronological 1743942896000000000 1759708800000000000); by_compute.
Defined.

(** ** [Enqueue] *)

Section Enqueue.
Context {E : Env} {FS : FileSys} {D : SqlDriver} {X : Type} {SX : Sender X}.
Implicit Types w : world (sp_state X).

(** [Enqueue] is all or nothing on every path.  When it returns nil it
    has appended exactly one row, with a fresh id, zero attempts, the caller's
    run id and payload and the current timestamp, and the run id was not
    spooled before; when it returns an error the spool is unchanged.  An
    already spooled run id always yields an error, and [ErrDuplicate] whenever
    the INSERT itself is reached and refused. *)
Theorem Enqueue_all_or_nothing run pl w :
  let '(e, w') := Enqueue run pl w in
  sent (st w') = sent (st w) ∧ ext (st w') = ext (st w) ∧
  match e with
  | None =>
      run ≠ "" ∧ pl ≠ "" ∧ (run ∉ probe_run_id <$> rows (sdb (st w))) ∧
      sdb (st w') = SpoolDB
        (rows (sdb (st w)) ++ [Row (autoinc (sdb (st w)) + 1) (format_datetime (clock (tick w)))
                                 run pl 0 None None])
        (autoinc (sdb (st w)) + 1) (meta (sdb (st w)))
  | Some e =>
      st w' = st w ∧
      (run ≠ "" → pl ≠ "" → fault (tick w) = None →
         run ∈ (probe_run_id <$> rows (sdb (st w))) ∧ e = ErrDuplicate)
  end.
Proof.
  unfold Enqueue. unfold_M.
  case_bool_decide as Hrun; [split_and!; by try intros|].
  case_bool_decide as Hpl; [split_and!; by try intros|].
  destruct (exec _ w) as [r w'] eqn:He. destruct r as [[]|e].
  - apply exec_run in He as (Hs & Hx & _ & Hr). split_and!; try done;
      unfold sql_insert in Hr; case_bool_decide as Hin; try done. by injection Hr as <-.
  - pose proof (exec_same _ _ _ _ He) as Hst. apply exec_run in He as (_ & _ & _ & _ & Hr).
    rewrite Hst. destruct (isUniqueViolation e) eqn:Hu; split_and!; try done; intros _ _ Hf;
      (destruct Hr as [Hr|[_ Hr]]; [congruence|]); unfold sql_insert in Hr;
      case_bool_decide as Hin; try done.
    injection Hr as <-. by rewrite unique_error_text in Hu.
Qed.

(** A drain snapshot saved at the end of a cycle is what the next cycle
    reads: with statements that succeed, [LastDrainSnapshot] after
    [SaveDrainSnapshot d o n] returns exactly [d], [o], [n], whatever was
    stored before, and [drops_total] and the rows are untouched. *)
Theorem snapshot_roundtrip d o n w :
  fault_free E → wf_db (sdb (st w)) →
  let w1 := (SaveDrainSnapshot d o n w).2 in
  (SaveDrainSnapshot d o n w).1 = None ∧
  (LastDrainSnapshot w1).1 = (mkDrainSnapshot d o n, None) ∧
  meta (sdb (st w1)) !! "drops_total" = meta (sdb (st w)) !! "drops_total" ∧
  rows (sdb (st w1)) = rows (sdb (st w)).
Proof.
  intros Hff Hwf. unfold SaveDrainSnapshot. unfold_M.
  rewrite (update_ff Hff). cbn [st tick sdb]. rewrite (update_ff Hff). cbn [st tick sdb].
  rewrite (update_ff Hff). cbn [fst snd]. split; [done|].
  pose proof (wf_meta _ Hwf) as Hm. rewrite !Forall_cons in Hm.
  destruct Hm as (_ & [v1 H2] & [v2 H3] & [v3 H4] & _).
  unfold LastDrainSnapshot. unfold_M. rewrite (query_ff Hff). cbn.
  rewrite !lookup_alter. cbn. rewrite H2, H3, H4. done.
Qed.
End Enqueue.

(** ** Retention *)

Section RetentionClaims.
Context {E : Env} {FS : FileSys} {D : SqlDriver} {X : Type} {SX : Sender X}.
Implicit Types w : world (sp_state X).

Lemma filter_id_length (r : row) l : r ∈ l → (length (filter (λ x, id x ≠ id r) l) < length l)%nat.
Proof.
  intros (l1 & l2 & ->)%list_elem_of_split. rewrite filter_app, filter_cons_False by (intros H; by apply H).
  rewrite !length_app. cbn. pose proof (length_filter (λ x, id x ≠ id r) l1). pose proof (length_filter (λ x, id x ≠ id r) l2). lia.
Qed.

Lemma sql_delete_oldest_shrinks db n db' :
  sql_delete_oldest db = (n, db') → n ≠ 0 → (length (rows db') < length (rows db))%nat.
Proof.
  unfold sql_delete_oldest. destruct (by_age db) as [|r l] eqn:Hba; intros [= <- <-]; [done|]. intros _.
  apply filter_id_length, elem_of_by_age. rewrite Hba. by left.
Qed.

(** The loop came to an end, with [n - d] more rows counted and at least as many gone. *)
Definition comes_to_end w (d : Z) (r : option (Z * option err) * world (sp_state X)) : Prop :=
  ∃ n e w', r = (Some (n, e), w') ∧ d <= n ∧
    n - d + Z.of_nat (length (rows (sdb (st w')))) <= Z.of_nat (length (rows (sdb (st w)))).

Lemma ends_here w d e w' : st w' = st w → comes_to_end w d (Some (d, e), w').
Proof. intros Hst. exists d, e, w'. split; [done|]. rewrite Hst. lia. Qed.

(** Fuel beyond the number of rows is never used up and makes no difference. *)
Lemma retention_fuel f1 f2 s d w :
  (length (rows (sdb (st w))) < f1)%nat → (length (rows (sdb (st w))) < f2)%nat →
  retention_loop f1 s d w = retention_loop f2 s d w ∧ comes_to_end w d (retention_loop f1 s d w).
Proof.
  revert f2 d w. induction f1 as [|f1 IH]; intros [|f2] d w H1 H2; [lia..|].
  cbn [retention_loop]. unfold FootprintBytes. unfold_M.
  destruct (footprint_go _ _ _ w) as [[size e1] w1] eqn:E1. apply (reads_run _ w) in E1; [|apply reads_footprint].
  destruct e1; [by split; [|apply ends_here]|].
  destruct (OldestAge w1) as [[age e2] w2] eqn:E2. apply (reads_run _ w1) in E2; [|apply reads_OldestAge]. rewrite E1 in E2.
  destruct e2; [by split; [|apply ends_here]|].
  destruct (query _ w2) as [r3 w3] eqn:E3. pose proof (reads_run _ w2 _ _ (reads_query _) E3) as Hw3. rewrite E2 in Hw3.
  destruct r3 as [depth|e3]; [|by split; [|apply ends_here]].
  destruct (depth =? 0); [by split; [|apply ends_here]|].
  destruct ((size <=? MaxSize (cfg s)) && (age <=? MaxAge (cfg s))); [by split; [|apply ends_here]|].
  destruct (exec _ w3) as [[n|e4] w4] eqn:E4; [|apply exec_same in E4; split; [done|apply ends_here; congruence]].
  apply exec_run in E4 as (_ & _ & _ & Hr4). rewrite Hw3 in *. injection Hr4 as Hr4.
  rewrite RowsAffected_run. destruct (fault (tick w4)).
  { split; [done|]. eexists d, _, (mkWorld (st w4) (S (tick w4))). split; [done|]. cbn [st]. unfold sql_delete_oldest in Hr4.
    destruct (by_age _) as [|r l]; injection Hr4; intros <- _; [lia|]. cbn.
    pose proof (length_filter (λ x, id x ≠ id r) (rows (sdb (st w)))). lia. }
  set (w4' := mkWorld (st w4) (S (tick w4))).
  destruct (Z.eqb_spec n 0) as [->|Hn].
  { split; [done|]. exists d, None, w4'. split; [done|]. cbn [w4' st]. unfold sql_delete_oldest in Hr4.
    destruct (by_age _) as [|r l]; injection Hr4; intros <-; [lia|]. cbn. 
    pose proof (length_filter (λ x, id x ≠ id r) (rows (sdb (st w)))). lia. }
  apply sql_delete_oldest_shrinks in Hr4; [|done].
  unfold update. destruct (exec _ w4') as [[[]|e5] w5] eqn:E5; apply exec_run in E5 as (_ & _ & _ & Hr5); cbn [w4' st tick] in Hr5.
  - injection Hr5 as Hr5. assert (Hrows : rows (sdb (st w5)) = rows (sdb (st w4))) by (by rewrite <- Hr5).
    destruct (IH f2 (d + 1) w5) as [Heq (n' & e & w' & Hrun & Hle & Hn')]; [rewrite Hrows; lia..|].
    split; [done|]. exists n', e, w'. rewrite Hrows in Hn'. split; [done|]. lia.
  - destruct Hr5 as [Hr5 _]. split; [done|]. eexists d, _, w5. split; [done|]. rewrite Hr5. lia.
Qed.

(** C21.  Retention terminates.  Whatever the clock, the file sizes and the
    failures, and whatever the table holds, the unbounded [for] of
    [enforceRetention] comes to an end after at most one iteration per row and one
    more: any larger bound on the iterations gives the same result, and what it
    returns is at most the number of rows that are gone. *)
Theorem retention_terminates s w fuel :
  (length (rows (sdb (st w))) < fuel)%nat →
  retention_loop fuel s 0 w = enforceRetention s w ∧
  ∃ n e w', enforceRetention s w = (Some (n, e), w') ∧
    0 <= n <= Z.of_nat (length (rows (sdb (st w)))) - Z.of_nat (length (rows (sdb (st w')))).
Proof.
  intros Hf. unfold enforceRetention.
  destruct (retention_fuel (S (length (rows (sdb (st w))))) fuel s 0 w ltac:(lia) Hf) as [-> (n & e & w' & -> & Hn & Hle)].
  split; [done|]. exists n, e, w'. split; [done|]. lia.
Qed.

(** C25.  The age bound is enforced exactly.  When statements succeed, the
    clock does not run backwards and the footprint is within its bound, one
    retention pass returns nil after dropping a prefix of the age order: every
    row it dropped was older than [MaxAge] by the end of the pass, no row it
    kept was older than [MaxAge] when the pass began, and [drops_total] grew by
    exactly the number returned. *)
Theorem enforceRetention_age_exact s w v :
  fault_free E → clock_mono E →
  in_int64 (MaxAge (cfg s)) → MaxAge (cfg s) < max_int64 →
  footprint_always (X := X) s (λ n, n <= MaxSize (cfg s)) →
  wf_db (sdb (st w)) → meta (sdb (st w)) !! "drops_total" = Some v →
  ∃ k w', enforceRetention s w = (Some (Z.of_nat k, None), w') ∧
    by_age (sdb (st w')) = drop k (by_age (sdb (st w))) ∧
    meta (sdb (st w')) !! "drops_total" = Some (v + Z.of_nat k) ∧
    (∀ r t, r ∈ rows (sdb (st w')) → enqueued_time r t →
       clock (tick w) - Unix t * Second <= MaxAge (cfg s)) ∧
    (∀ x t, x ∈ take k (by_age (sdb (st w))) → enqueued_time x t →
       MaxAge (cfg s) < clock (tick w') - Unix t * Second).
Proof.
  intros Hff Hmono Hint Hmax Hsz Hwf Hv. unfold enforceRetention.
  set (fuel := S (length (rows (sdb (st w))))).
  assert (length (by_age (sdb (st w))) < fuel)%nat as Hfuel by (rewrite by_age_length; lia).
  destruct (retention_aged Hff fuel s 0 w Hmono Hint Hmax Hsz Hwf Hfuel)
    as (k & w' & Hrun & Htk & Hdrop & Hkeep & Hgone).
  destruct (retention_loop_spec fuel s 0 w Hwf ltac:(lia))
    as (k' & e & w'' & Hrun' & _ & _ & Hret & _ & _).
  rewrite Hrun in Hrun'. injection Hrun' as Hk <- <-. assert (k' = k) as -> by lia.
  exists k, w'. split; [by rewrite Hrun|]. split; [done|].
  split; [by eapply drops_after|]. split; [|done].
  intros r t Hr Ht. apply elem_of_by_age in Hr.
  pose proof (by_age_sorted (sdb (st w'))) as Hsrt.
  destruct (by_age (sdb (st w'))) as [|h l] eqn:Hba; [by apply not_elem_of_nil in Hr|].
  destruct (head_enqueued _ h l (rt_wf _ _ _ _ Hret) Hba) as [th Hth].
  specialize (Hkeep h th eq_refl Hth).
  apply elem_of_cons in Hr as [->|Hr].
  - pose proof (row_le_time h h th t Hth Ht ltac:(apply row_le_alt; done)).
    unfold Second in *. lia.
  - inversion Hsrt as [|? ? _ Hall]; subst. rewrite Forall_forall in Hall.
    pose proof (row_le_time h r th t Hth Ht (Hall r Hr)). unfold Second in *. lia.
Qed.

(** C26.  Once the database file is over [MaxSize] and deleting rows does not
    shrink it below the bound (SQLite keeps freed pages in the file), one
    retention pass drops the whole spool: it returns the number of rows there
    were, and none is left. *)
Theorem enforceRetention_oversize_empties s w :
  fault_free E → footprint_always (X := X) s (λ n, MaxSize (cfg s) < n) →
  wf_db (sdb (st w)) →
  ∃ w', enforceRetention s w = (Some (Z.of_nat (length (rows (sdb (st w)))), None), w') ∧
        rows (sdb (st w')) = [].
Proof.
  intros Hff Hsz Hwf. unfold enforceRetention.
  destruct (retention_oversize Hff (S (length (rows (sdb (st w))))) s 0 w Hsz Hwf)
    as (w' & Hrun & Hnil); [rewrite by_age_length; lia|].
  exists w'. by rewrite Hrun, by_age_length.
Qed.

Lemma drain_run_blocked s t batch stats db evs stats' e db' :
  drain_run s t batch stats db evs stats' e db' →
  Forall (λ c, in_backoff s t c = Ok true) batch → Accepted stats = 0 →
  evs = [] ∧ Accepted stats' = 0.
Proof. induction 1; intros Hall Hzero; inversion Hall; subst; try congruence; auto. Qed.

(** C27.  Rows waiting in backoff block the rows behind them: when every one of
    the [DrainRows] oldest rows is still inside its backoff window, a drain pass
    sends nothing at all, however many rows beyond the limit are ready. *)
Theorem Drain_head_of_line s w stats e w' :
  clock_in_range E → wf_db (sdb (st w)) →
  Forall (λ c, in_backoff s (clock (S (tick w))) c = Ok true)
         (limit (DrainRows (cfg s)) (by_age (sdb (st w)))) →
  Drain s w = (Some (stats, e), w') →
  sent (st w') = sent (st w) ∧ Accepted stats = 0.
Proof.
  intros Hclk Hwf Hall Hd.
  destruct (Drain_cases s w Hclk Hwf) as (stats0 & e0 & w0 & Hd' & _ & _ & H).
  rewrite Hd in Hd'. injection Hd' as <- <- <-.
  destruct H as [(-> & -> & _)|(evs & stats1 & e1 & db1 & Hs & Hrun & _ & Hend)]; [done|].
  assert (evs = [] ∧ Accepted stats1 = 0) as [-> Hacc].
  { by eapply drain_run_blocked in Hrun. }
  rewrite app_nil_r in Hs. split; [done|].
  destruct Hend as [(_ & _ & -> & _)|(k & _ & _ & Hf)]; [done|].
  destruct e; by subst.
Qed.
End RetentionClaims.

(** ** Witnesses *)

Definition T0 : Z := 1743942896000000000.   (* 2025-04-06 12:34:56 *)

Definition ex_spool : Spool :=
  mkSpool "/var/lib/nlm/spool.db"
    (mkConfig 2 (24 * Hour) (100 * 1024 * 1024) (30 * Second) (3600 * Second)).

(** Three rows: the first two failed a second ago, the third is fresh. *)
Definition ex_db : spool_db := SpoolDB
  [Row 1 (format_datetime (T0 - 50 * Hour)) "run-1" "{}" 3 (Some (format_datetime (T0 - Second))) (Some "x");
   Row 2 (format_datetime (T0 - 2 * Hour)) "run-2" "{}" 1 (Some (format_datetime (T0 - Second))) (Some "x");
   Row 3 (format_datetime (T0 - Hour)) "run-3" "{}" 0 None None]
  3 (meta migrated).

Definition ex_world : world (sp_state ()) := mkWorld (SpState ex_db () []) 0.

Lemma four_digit_T0 k : 0 <= k <= 100 * Hour → four_digit_year (T0 - k).
Proof.
  intros Hk. unfold four_digit_year, Unix, T0, min_unix, max_unix, Hour, Minute, Second in *. div_lia.
Qed.

Lemma ex_timestamp k : 0 <= k <= 100 * Hour → is_timestamp (format_datetime (T0 - k)).
Proof. intros Hk. exists (T0 - k). split; [by apply four_digit_T0|done]. Qed.

Lemma ex_fresh_row i k run :
  run ≠ "" → 0 <= k <= 100 * Hour →
  wf_row (Row i (format_datetime (T0 - k)) run "{}" 0 None None).
Proof. intros Hrun Hk. split; cbn [probe_run_id payload enqueued_at last_attempt_at attempts];
  try done. by apply ex_timestamp. Qed.

Lemma ex_tried_row i k k' run n msg :
  run ≠ "" → 0 <= k <= 100 * Hour → 0 <= k' <= 100 * Hour → 0 < n →
  wf_row (Row i (format_datetime (T0 - k)) run "{}" n (Some (format_datetime (T0 - k'))) msg).
Proof.
  intros Hrun Hk Hk' Hn.
  split; cbn [probe_run_id payload enqueued_at last_attempt_at attempts]; try done.
  - by apply ex_timestamp.
  - intros ts [= <-]. by apply ex_timestamp.
  - split; [lia|]. split; [lia|done].
Qed.

Lemma ex_db_wf : wf_db ex_db.
Proof.
  split; cbn [ex_db rows autoinc meta]; [by_decide..| |done|apply migrated_wf].
  repeat (apply Forall_cons; split; [first [apply ex_tried_row | apply ex_fresh_row]; by_compute || done|]).
  apply Forall_nil_2.
Qed.

Lemma quiet_env_ok k : 0 <= k <= 100 * Hour →
  fault_free (quiet_env (T0 - k)) ∧ clock_mono (quiet_env (T0 - k)) ∧ clock_in_range (quiet_env (T0 - k)).
Proof. intros Hk. split_and!; [done|intros i j _; cbn; lia|]. intros n. cbn. by apply four_digit_T0. Qed.

Lemma quiet_T0 : fault_free (quiet_env T0) ∧ clock_mono (quiet_env T0) ∧ clock_in_range (quiet_env T0).
Proof.
  destruct (quiet_env_ok 0) as (H1 & H2 & H3); [by_compute|]. by rewrite Z.sub_0_r in *.
Qed.

Lemma one_file_footprint X n (P : Z → Prop) :
  in_int64 n → P n →
  @footprint_always (one_file "/var/lib/nlm/spool.db" n) X ex_spool P.
Proof.
  intros Hn HP w. exists n. split; [|done].
  unfold FootprintBytes. lazy -[wrap64 Z.add]. by rewrite Z.add_0_l, wrap64_id.
Qed.

#[local] Instance ex_env : Env := quiet_env T0.
#[local] Instance ex_fs : FileSys := one_file "/var/lib/nlm/spool.db" 4096.
#[local] Instance ex_driver : SqlDriver := text_driver.
#[local] Instance ex_sender : Sender () := const_sender OutcomeAccepted None.

(** The pass on [ex_world]: both selected rows are inside their backoff windows,
    the third is never looked at, and the 50-hour-old row is dropped. *)
Example ex_drain :
  (Drain ex_spool ex_world).1 = Some (mkDrainStats 2 2 0 0 0 1, None).
Proof. vm_compute. reflexivity. Qed.

Lemma spool_calls_wf_witness :
  wf_db (sdb (st (run_calls ex_spool
    [CallEnqueue "run-4" "{}"; CallEnqueue "run-4" "{}"; CallDrain; CallSaveSnapshot 1 2 3] ex_world).2)).
Proof. apply spool_calls_wf; [apply quiet_T0|apply ex_db_wf]. Defined.


(** The one way to lose a row uncounted: the statement that counts it fails after
    the one that deleted it went through. *)
Definition bump_fails : Env := {|
  fault n := if (n =? 12)%nat then Some (ErrDriver "disk I/O error") else None;
  clock _ := T0; ctx_done _ := false |}.

Example ex_uncounted :
  let '(r, w) := @Drain bump_fails _ _ _ _ ex_spool ex_world in
  (snd <$> r) = Some (Some (ErrWrap "spool: retention bump drops" (ErrDriver "disk I/O error"))) ∧
  (probe_run_id <$> rows (sdb (st w))) = ["run-2"; "run-3"] ∧ meta (sdb (st w)) !! "drops_total" = Some 0.
Proof. vm_compute. done. Qed.

Lemma Drain_stats_exact_witness :
  meta (sdb (st (Drain ex_spool ex_world).2)) !! "drops_total" = Some (0 + 1).
Proof.
  apply (Drain_stats_exact ex_spool ex_world (mkDrainStats 2 2 0 0 0 1)
           (Drain ex_spool ex_world).2 0).
  - apply quiet_T0.
  - apply ex_db_wf.
  - reflexivity.
  - rewrite <- ex_drain. apply surjective_pairing.
Defined.

Lemma Drain_fifo_backoff_witness :
  ∃ evs cs, sent (st (Drain ex_spool ex_world).2) = ([] ++ evs)%list ∧ sublist cs (by_age ex_db).
Proof.
  destruct (Drain_fifo_backoff ex_spool ex_world (mkDrainStats 2 2 0 0 0 1) None
              (Drain ex_spool ex_world).2) as (evs & cs & H1 & H2 & _).
  - apply quiet_T0.
  - apply ex_db_wf.
  - rewrite <- ex_drain. apply surjective_pairing.
  - exists evs, cs. auto.
Defined.

Lemma snapshot_roundtrip_witness :
  (LastDrainSnapshot (SaveDrainSnapshot 5 60 7 ex_world).2).1 = (mkDrainSnapshot 5 60 7, None).
Proof. apply (snapshot_roundtrip 5 60 7 ex_world); [apply quiet_T0|apply ex_db_wf]. Defined.

Lemma enforceRetention_age_exact_witness :
  ∃ k w', enforceRetention ex_spool ex_world = (Some (Z.of_nat k, None), w') ∧
          by_age (sdb (st w')) = drop k (by_age ex_db).
Proof.
  destruct (enforceRetention_age_exact ex_spool ex_world 0) as (k & w' & H1 & H2 & _).
  - apply quiet_T0.
  - apply quiet_T0.
  - by_compute.
  - by_compute.
  - apply one_file_footprint; by_compute.
  - apply ex_db_wf.
  - reflexivity.
  - eauto.
Defined.

Lemma retention_terminates_witness :
  retention_loop 10 ex_spool 0 ex_world = enforceRetention ex_spool ex_world.
Proof. apply (retention_terminates ex_spool ex_world 10). cbn; lia. Defined.

Definition tiny_spool : Spool :=
  mkSpool (path ex_spool) (mkConfig 2 (24 * Hour) 1 (30 * Second) (3600 * Second)).

Lemma enforceRetention_oversize_empties_witness :
  ∃ w', enforceRetention tiny_spool ex_world = (Some (3, None), w') ∧ rows (sdb (st w')) = [].
Proof.
  apply (enforceRetention_oversize_empties tiny_spool ex_world).
  - apply quiet_T0.
  - intros w. exists 4096. split; [|by_compute].
    unfold FootprintBytes. lazy -[wrap64 Z.add]. by rewrite Z.add_0_l, wrap64_id by by_compute.
  - apply ex_db_wf.
Defined.

Lemma Drain_head_of_line_witness : sent (st (Drain ex_spool ex_world).2) = [].
Proof.
  apply (Drain_head_of_line ex_spool ex_world (mkDrainStats 2 2 0 0 0 1) None).
  - apply quiet_T0.
  - apply ex_db_wf.
  - by_decide.
  - rewrite <- ex_drain. apply surjective_pairing.
Defined.
