(* ===== verification/Ticket.v ===== *)
(** * Single-use WebSocket tickets ([internal/ticket/store.go])

    The store is a map guarded by one mutex, so concurrent callers are a
    sequence of whole operations; each operation carries the wall-clock instant
    it read (callers read the clock before taking the lock, so instants need not
    be ordered) and the outcome of [rand.Read]. *)
From Stdlib Require Import Ascii ZArith Lia.
From stdpp Require Import sorting.
From S2P Require Import Prelude GoTime GoStrings Base64.

Local Open Scope string_scope.
Local Open Scope Z_scope.

(** ** Data *)

Definition DefaultTTL : Z := 60 * Second.
Definition DefaultPruneInterval : Z := 30 * Second.

Record Ticket := mkTicket {
  Value : string;
  NodeID : string;
  IssuedAt : Z;
  ExpiresAt : Z;
}.

Record entry := Entry { nodeID : string; expiresAt : Z }.

Record Store := mkStore { tickets : gmap string entry; ttl : Z }.

#[export] Instance Ticket_eq_dec : EqDecision Ticket.
Proof. solve_decision. Defined.

#[export] Instance entry_eq_dec : EqDecision entry.
Proof. solve_decision. Defined.

(** ** Operations *)

Definition NewStore (ttl : Z) : Store :=
  mkStore ∅ (if ttl <=? 0 then DefaultTTL else ttl).

(** [rnd] is what [rand.Read] did: 32 bytes, or its error. *)
Definition newTicketValue (rnd : res (list Z)) : res string :=
  buf ← rnd; Ok (b64_encode buf).

Definition Issue (rnd : res (list Z)) (now : Z) (node : string) (s : Store)
    : res Ticket * Store :=
  if bool_decide (node = "") then (Err (ErrMsg "ticket: nodeID required"), s)
  else
    match newTicketValue rnd with
    | Err e => (Err e, s)
    | Ok val =>
        let expires := TimeAdd now (ttl s) in
        (Ok (mkTicket val node now expires),
         mkStore (<[val := Entry node expires]> (tickets s)) (ttl s))
    end.

Definition Validate (now : Z) (value : string) (s : Store) : res string * Store :=
  match tickets s !! value with
  | None => (Err ErrUnknownTicket, s)
  | Some e =>
      let s' := mkStore (delete value (tickets s)) (ttl s) in
      if After now (expiresAt e) then (Err ErrExpiredTicket, s')
      else (Ok (nodeID e), s')
  end.

(** The range loop of [Prune], over the entries in the order visited. *)
Fixpoint prune_loop (now : Z) (visit : list (string * entry)) (n : Z) (s : Store) : Z * Store :=
  match visit with
  | [] => (n, s)
  | (k, e) :: visit' =>
      if After now (expiresAt e)
      then prune_loop now visit' (n + 1) (mkStore (delete k (tickets s)) (ttl s))
      else prune_loop now visit' n s
  end.

Definition Prune (now : Z) (s : Store) : Z * Store :=
  prune_loop now (map_to_list (tickets s)) 0 s.

Definition Len (s : Store) : Z := Z.of_nat (size (tickets s)).

(** [RunPruner]: what the [select] receives, in order. *)
Inductive select_event := TickC (now : Z) | CtxDone.

Definition pruner_interval (interval : Z) : Z :=
  if interval <=? 0 then DefaultPruneInterval else interval.

Fixpoint RunPruner (evs : list select_event) (s : Store) : Store :=
  match evs with
  | [] => s
  | CtxDone :: _ => s
  | TickC now :: evs' => RunPruner evs' (Prune now s).2
  end.

(** ** Pruning *)

Definition live (now : Z) (m : gmap string entry) : gmap string entry :=
  filter (λ kv, ¬ expiresAt kv.2 < now) m.

Lemma lookup_live now m k :
  live now m !! k = e ← m !! k; if bool_decide (expiresAt e < now) then None else Some e.
Proof.
  unfold live. destruct (m !! k) as [e|] eqn:Hk; cbn.
  - case_bool_decide.
    + apply map_lookup_filter_None. right. intros e' He' Hn. simplify_eq. by apply Hn.
    + by apply map_lookup_filter_Some.
  - apply map_lookup_filter_None. by left.
Qed.

(** Whatever order the range loop visits the entries in, [Prune] keeps exactly
    the live ones and counts the others. *)
Lemma prune_loop_spec now visit n s :
  NoDup visit.*1 →
  (∀ k e, (k, e) ∈ visit → tickets s !! k = Some e) →
  (∀ k e, tickets s !! k = Some e → expiresAt e < now → (k, e) ∈ visit) →
  prune_loop now visit n s =
    (n + Z.of_nat (size (tickets s)) - Z.of_nat (size (live now (tickets s))),
     mkStore (live now (tickets s)) (ttl s)).
Proof.
  revert n s. induction visit as [|[k e] visit IH]; intros n s Hnd Hin Hall; cbn [prune_loop].
  - assert (Hl : live now (tickets s) = tickets s).
    { apply map_eq. intros k. rewrite lookup_live. destruct (tickets s !! k) as [e|] eqn:Hk; cbn; [|done].
      case_bool_decide; [|done]. exfalso. by apply (not_elem_of_nil (k, e)), Hall. }
    rewrite Hl. destruct s; cbn. f_equal. lia.
  - rewrite fmap_cons, NoDup_cons in Hnd. destruct Hnd as [Hk Hnd]. cbn in Hk.
    assert (Hke : tickets s !! k = Some e) by (apply Hin; left).
    unfold After. destruct (Z.ltb_spec (expiresAt e) now) as [Hlt|Hge].
    + rewrite IH; cbn [tickets ttl]; [|done| |].
      * assert (Hl : live now (delete k (tickets s)) = live now (tickets s)).
        { apply map_eq. intros k'. rewrite !lookup_live.
          destruct (decide (k = k')) as [<-|Hne].
          - rewrite lookup_delete_eq, Hke. cbn. by rewrite bool_decide_eq_true_2.
          - by rewrite lookup_delete_ne. }
        rewrite Hl. f_equal. rewrite map_size_delete_Some by eauto.
        assert (size (tickets s) ≠ 0%nat) by (apply map_size_non_empty_iff; intros H; by rewrite H in Hke).
        lia.
      * intros k' e' H. rewrite lookup_delete_ne; [apply Hin; by right|].
        intros ->. apply Hk. apply list_elem_of_fmap. by exists (k', e').
      * intros k' e' H Hlt'. apply lookup_delete_Some in H as [Hne H].
        specialize (Hall _ _ H Hlt'). apply elem_of_cons in Hall as [|]; [congruence|done].
    + apply IH; [done| |].
      * intros k' e' H. apply Hin. by right.
      * intros k' e' H Hlt'. specialize (Hall _ _ H Hlt').
        apply elem_of_cons in Hall as [Heq|]; [|done]. simplify_eq. lia.
Qed.

Lemma prune_any_order now visit s :
  visit ≡ₚ map_to_list (tickets s) →
  prune_loop now visit 0 s =
    (Len s - Len (mkStore (live now (tickets s)) (ttl s)), mkStore (live now (tickets s)) (ttl s)).
Proof.
  intros Hp. rewrite prune_loop_spec; [done| | |].
  - rewrite Hp. apply NoDup_fst_map_to_list.
  - intros k e. rewrite Hp. by rewrite elem_of_map_to_list.
  - intros k e H _. rewrite Hp. by rewrite elem_of_map_to_list.
Qed.

Lemma Prune_eq now s :
  Prune now s =
    (Len s - Len (mkStore (live now (tickets s)) (ttl s)), mkStore (live now (tickets s)) (ttl s)).
Proof. by apply prune_any_order. Qed.

(** ** Interleavings

    One event of the store: an operation with its arguments, what the
    environment supplied, and its result. *)
Inductive event :=
  | EvIssue (rnd : res (list Z)) (now : Z) (node : string) (r : res Ticket)
  | EvValidate (now : Z) (value : string) (r : res string)
  | EvPrune (now : Z) (n : Z).

Inductive ticket_step : Store → event → Store → Prop :=
  | step_issue rnd now node s r s' :
      Issue rnd now node s = (r, s') → ticket_step s (EvIssue rnd now node r) s'
  | step_validate now v s r s' :
      Validate now v s = (r, s') → ticket_step s (EvValidate now v r) s'
  | step_prune now s n s' :
      Prune now s = (n, s') → ticket_step s (EvPrune now n) s'.

(** Histories of a store created with TTL [t], latest event first. *)
Inductive history (t : Z) : list event → Store → Prop :=
  | hist_new : history t [] (NewStore t)
  | hist_step h s ev s' : history t h s → ticket_step s ev s' → history t (ev :: h) s'.

Definition validates (v : string) (ev : event) : Prop :=
  match ev with EvValidate _ v' _ => v' = v | _ => False end.

Definition accepts (v : string) (ev : event) : Prop :=
  match ev with EvValidate _ v' (Ok _) => v' = v | _ => False end.

Definition issues (v : string) (ev : event) : Prop :=
  match ev with EvIssue _ _ _ (Ok tk) => Value tk = v | _ => False end.

#[export] Instance validates_dec v ev : Decision (validates v ev).
Proof. destruct ev; cbn; apply _. Defined.
#[export] Instance accepts_dec v ev : Decision (accepts v ev).
Proof. destruct ev as [| ? ? []|]; cbn; apply _. Defined.
#[export] Instance issues_dec v ev : Decision (issues v ev).
Proof. destruct ev as [? ? ? []| |]; cbn; apply _. Defined.

Definition count (P : event → Prop) `{∀ e, Decision (P e)} (h : list event) : nat :=
  length (filter P h).

Lemma count_cons (P : event → Prop) `{∀ e, Decision (P e)} ev h :
  count P (ev :: h) = ((if decide (P ev) then 1 else 0) + count P h)%nat.
Proof. unfold count. rewrite filter_cons. by destruct (decide (P ev)). Qed.

Lemma Issue_Ok rnd now node s tk s' :
  Issue rnd now node s = (Ok tk, s') →
  NodeID tk = node ∧ node ≠ "" ∧ IssuedAt tk = now ∧ ExpiresAt tk = now + ttl s ∧
  (∃ buf, rnd = Ok buf ∧ Value tk = b64_encode buf) ∧
  s' = mkStore (<[Value tk := Entry node (now + ttl s)]> (tickets s)) (ttl s).
Proof.
  unfold Issue, newTicketValue, TimeAdd. intros H. case_bool_decide; [done|].
  destruct rnd as [buf|]; cbn in H; simplify_eq/=. naive_solver.
Qed.

Lemma Issue_Err rnd now node s e s' : Issue rnd now node s = (Err e, s') → s' = s.
Proof.
  unfold Issue. intros H. case_bool_decide; [by simplify_eq|].
  destruct (newTicketValue rnd); by simplify_eq.
Qed.

Lemma Validate_cases now v s r s' :
  Validate now v s = (r, s') →
  (tickets s !! v = None ∧ r = Err ErrUnknownTicket ∧ s' = s) ∨
  (∃ e, tickets s !! v = Some e ∧ s' = mkStore (delete v (tickets s)) (ttl s) ∧
        ((expiresAt e < now ∧ r = Err ErrExpiredTicket) ∨
         (now <= expiresAt e ∧ r = Ok (nodeID e)))).
Proof.
  unfold Validate, After. destruct (tickets s !! v) as [e|]; intros H; [|naive_solver].
  right. exists e. destruct (Z.ltb_spec (expiresAt e) now); naive_solver.
Qed.

Lemma step_ttl s ev s' : ticket_step s ev s' → ttl s' = ttl s.
Proof.
  destruct 1 as [rnd now node s r s' H|now v s r s' H|now s n s' H].
  - destruct r; [apply Issue_Ok in H; naive_solver|by apply Issue_Err in H as ->].
  - apply Validate_cases in H. naive_solver.
  - rewrite Prune_eq in H. by simplify_eq.
Qed.

Lemma history_ttl t h s : history t h s → ttl s = ttl (NewStore t).
Proof. induction 1 as [|h s ev s' _ IH Hs]; [done|]. by rewrite (step_ttl _ _ _ Hs). Qed.

(** An entry of the store after an event was there before, and the event did
    not validate it, or the event is the issue that created it. *)
Lemma step_entry s ev s' v e :
  ticket_step s ev s' → tickets s' !! v = Some e →
  (tickets s !! v = Some e ∧ ¬ validates v ev) ∨
  (∃ rnd now, ev = EvIssue rnd now (nodeID e) (Ok (mkTicket v (nodeID e) now (expiresAt e))) ∧
              expiresAt e = now + ttl s).
Proof.
  destruct 1 as [rnd now node s r s' H|now v' s r s' H|now s n s' H]; intros Hv; cbn.
  - destruct r as [tk|]; [|apply Issue_Err in H as ->; auto].
    apply Issue_Ok in H as (Hn & _ & Ht & Hx & _ & ->). cbn in Hv.
    apply lookup_insert_Some in Hv as [[Hv <-]|[Hne Hv]]; [|auto].
    right. exists rnd, now. destruct tk; cbn in *. naive_solver.
  - apply Validate_cases in H as [(?&?&->)|(e'&He'&->&_)].
    + left. split; [done|]. naive_solver.
    + cbn in Hv. apply lookup_delete_Some in Hv. naive_solver.
  - rewrite Prune_eq in H. simplify_eq. cbn in Hv. rewrite lookup_live in Hv.
    destruct (tickets s !! v) as [e0|]; cbn in Hv; [|done]. case_bool_decide; naive_solver.
Qed.

(** Provenance: a ticket in the store comes from an issue event after which it
    was never validated. *)
Lemma history_provenance t h s v e :
  history t h s → tickets s !! v = Some e →
  ∃ h2 h1 rnd at_,
    h = (h2 ++ EvIssue rnd at_ (nodeID e) (Ok (mkTicket v (nodeID e) at_ (expiresAt e))) :: h1)%list ∧
    expiresAt e = at_ + ttl (NewStore t) ∧ Forall (λ ev, ¬ validates v ev) h2.
Proof.
  intros Hh. revert e. induction Hh as [|h s ev s' Hh IH Hs]; intros e He; [done|].
  destruct (step_entry _ _ _ _ _ Hs He) as [[He' Hv]|(rnd & now & -> & Hx)].
  - destruct (IH _ He') as (h2 & h1 & rnd & at_ & -> & Hx & HF).
    exists (ev :: h2), h1, rnd, at_. split; [done|]. split; [done|]. by constructor.
  - exists [], h, rnd, now. rewrite (history_ttl _ _ _ Hh) in Hx. split; [done|]. split; [done|]. constructor.
Qed.

(** C14. Authenticity of a ticket: in every interleaving of issues, validations
    and prunes from a new store, a validation that succeeds for value [v] and
    returns node [n] was preceded by the issue of [v] to [n], at an instant no
    earlier than the TTL before it, and [v] was not presented in between: a
    second presentation, a forged value or an expired ticket never passes. *)
Theorem Validate_authentic t now v n h' s' :
  history t (EvValidate now v (Ok n) :: h') s' →
  ∃ h2 h1 rnd at_,
    h' = (h2 ++ EvIssue rnd at_ n (Ok (mkTicket v n at_ (at_ + ttl (NewStore t)))) :: h1)%list ∧
    now <= at_ + ttl (NewStore t) ∧ Forall (λ ev, ¬ validates v ev) h2 ∧
    tickets s' !! v = None.
Proof.
  intros Hh. inversion Hh as [|? s0 ? ? Hh0 Hs]; subst.
  inversion Hs as [|? ? ? ? ? HV|]; subst.
  apply Validate_cases in HV as [(?&?&?)|(e & He & -> & [[? ?]|[Hle HO]])]; simplify_eq.
  destruct (history_provenance _ _ _ _ _ Hh0 He) as (h2 & h1 & rnd & at_ & -> & Hx & HF).
  exists h2, h1, rnd, at_. rewrite <- Hx. split; [done|]. split; [done|]. split; [done|].
  cbn. apply lookup_delete_eq.
Qed.

Lemma accepts_le_issues t h s v :
  history t h s →
  (count (accepts v) h + (if decide (is_Some (tickets s !! v)) then 1 else 0) <= count (issues v) h)%nat.
Proof.
  induction 1 as [|h s ev s' Hh IH Hs]; [by rewrite decide_False by (intros [? ?]; done)|]. rewrite !count_cons.
  destruct Hs as [rnd now node s r s' H|now v' s r s' H|now s n s' H].
  - destruct r as [tk|].
    + apply Issue_Ok in H as (_ & _ & _ & _ & _ & ->). cbn [tickets] in *.
      rewrite (decide_False (P := accepts _ _)) by (cbn; tauto).
      destruct (decide (Value tk = v)) as [<-|Hne].
      * rewrite (decide_True (P := issues _ _)) by done.
        repeat destruct (decide _); lia.
      * rewrite (decide_False (P := issues _ _)) by done. rewrite lookup_insert_ne by done. lia.
    + apply Issue_Err in H as ->.
      rewrite (decide_False (P := accepts _ _)), (decide_False (P := issues _ _)) by (cbn; tauto). lia.
  - rewrite (decide_False (P := issues _ _)) by (cbn; tauto).
    apply Validate_cases in H as [(Hn & -> & ->)|(e & He & -> & Hr)]; cbn [tickets].
    + rewrite (decide_False (P := accepts _ _)) by (cbn; tauto). lia.
    + destruct (decide (v' = v)) as [->|Hne].
      * rewrite lookup_delete_eq. rewrite (decide_True (P := is_Some (tickets s !! v))) in IH by eauto.
        rewrite (decide_False (P := is_Some None)) by (intros [? ?]; done).
        repeat destruct (decide _); lia.
      * rewrite lookup_delete_ne by done. rewrite (decide_False (P := accepts _ _)); [lia|].
        destruct Hr as [[_ ->]|[_ ->]]; cbn; naive_solver.
  - rewrite (decide_False (P := issues _ _)), (decide_False (P := accepts _ _)) by (cbn; tauto).
    rewrite Prune_eq in H. simplify_eq. cbn [tickets]. rewrite lookup_live.
    destruct (tickets s !! v) as [e|]; cbn [mbind option_bind]; [|lia].
    rewrite (decide_True (P := is_Some (Some e))) in IH by eauto. repeat destruct (decide _); lia.
Qed.

(** The buffer an issue event drew. *)
Definition drawn (ev : event) : option (list Z) :=
  match ev with EvIssue (Ok buf) _ _ _ => Some buf | _ => None end.

Lemma issues_drawn s ev s' v :
  ticket_step s ev s' → issues v ev → ∃ buf, drawn ev = Some buf ∧ v = b64_encode buf.
Proof.
  destruct 1 as [rnd now node s r s' H| |]; cbn; [|done|done].
  destruct r as [tk|]; [|done]. intros <-.
  apply Issue_Ok in H as (_ & _ & _ & _ & (buf & -> & Hv) & _). by exists buf.
Qed.

Lemma issues_all_drawn t h s v :
  history t h s → count (issues v) h ≠ 0%nat → ∃ buf, buf ∈ omap drawn h ∧ v = b64_encode buf.
Proof.
  induction 1 as [|h s ev s' Hh IH Hs]; [done|]. rewrite count_cons. cbn [omap list_omap].
  destruct (decide (issues v ev)) as [Hi|Hi]; intros Hc.
  - destruct (issues_drawn _ _ _ _ Hs Hi) as (buf & -> & ->). exists buf. split; [by left|done].
  - destruct IH as (buf & Hb & ->); [lia|]. exists buf. split; [|done].
    destruct (drawn ev); [by right|done].
Qed.

Lemma issues_once t h s v :
  history t h s → NoDup (omap drawn h) → Forall (Forall is_byte) (omap drawn h) →
  (count (issues v) h <= 1)%nat.
Proof.
  induction 1 as [|h s ev s' Hh IH Hs]; intros Hnd HF; [cbn; lia|].
  rewrite count_cons. cbn [omap list_omap] in *.
  destruct (decide (issues v ev)) as [Hi|Hi].
  - destruct (issues_drawn _ _ _ _ Hs Hi) as (buf & Hb & ->). rewrite Hb in *.
    apply NoDup_cons in Hnd as [Hn _]. apply Forall_cons in HF as [Hby HF].
    destruct (decide (count (issues (b64_encode buf)) h = 0%nat)) as [|Hc]; [lia|].
    destruct (issues_all_drawn _ _ _ _ Hh Hc) as (buf' & Hb' & He).
    apply b64_encode_inj in He as ->; [done|done|]. rewrite Forall_forall in HF. by apply HF.
  - destruct (drawn ev); [apply NoDup_cons in Hnd as [_ Hnd]; apply Forall_cons in HF as [_ HF]|];
      by apply IH.
Qed.

(** C15. Single use: as long as the random buffers drawn are distinct, no ticket
    value is ever accepted twice, whatever operations are interleaved and
    whatever instants they read. *)
Theorem ticket_single_use t h s v :
  history t h s → NoDup (omap drawn h) → Forall (Forall is_byte) (omap drawn h) →
  (count (accepts v) h <= 1)%nat.
Proof.
  intros Hh Hnd HF. pose proof (accepts_le_issues _ _ _ v Hh).
  pose proof (issues_once _ _ _ v Hh Hnd HF). repeat destruct (decide _); lia.
Qed.

(** ** Pruning is invisible to clients

    A schedule of requests and sweeps, each with the instant it reads. *)
Inductive action :=
  | DoIssue (rnd : res (list Z)) (now : Z) (node : string)
  | DoValidate (now : Z) (value : string)
  | Sweep (now : Z).

Inductive answer := AIssue (r : res Ticket) | AValidate (r : res string).

Definition instant (a : action) : Z :=
  match a with DoIssue _ t _ | DoValidate t _ | Sweep t => t end.

Definition is_request (a : action) : Prop := match a with Sweep _ => False | _ => True end.

#[export] Instance is_request_dec a : Decision (is_request a).
Proof. destruct a; cbn; apply _. Defined.

Fixpoint serve (acts : list action) (s : Store) : list answer :=
  match acts with
  | [] => []
  | DoIssue rnd t n :: acts' => let '(r, s') := Issue rnd t n s in AIssue r :: serve acts' s'
  | DoValidate t v :: acts' => let '(r, s') := Validate t v s in AValidate r :: serve acts' s'
  | Sweep t :: acts' => serve acts' (Prune t s).2
  end.

(** What a client of a swept store may see instead. *)
Definition answer_le (a b : answer) : Prop :=
  a = b ∨ (a = AValidate (Err ErrUnknownTicket) ∧ b = AValidate (Err ErrExpiredTicket)).

(** [s1] is [s2] less some tickets that expired before [T]. *)
Definition swept (T : Z) (s1 s2 : Store) : Prop :=
  ttl s1 = ttl s2 ∧
  ∀ k, tickets s1 !! k = tickets s2 !! k ∨
       (tickets s1 !! k = None ∧ ∃ e, tickets s2 !! k = Some e ∧ expiresAt e < T).

Lemma swept_weaken T T' s1 s2 : T <= T' → swept T s1 s2 → swept T' s1 s2.
Proof. intros HT [Ht Hk]. split; [done|]. intros k. destruct (Hk k) as [|(?&e&?&?)]; [by left|]. right. naive_solver lia. Qed.

Lemma swept_Prune T s1 s2 : swept T s1 s2 → swept T (Prune T s1).2 s2.
Proof.
  intros [Ht Hk]. rewrite Prune_eq. split; [done|]. intros k. cbn. rewrite lookup_live.
  destruct (Hk k) as [->|(->&e&->&?)]; cbn.
  - destruct (tickets s2 !! k) as [e|]; cbn; [|by left].
    case_bool_decide; [right; naive_solver|by left].
  - right. naive_solver.
Qed.

Lemma swept_Issue T s1 s2 rnd now node r1 s1' r2 s2' :
  swept T s1 s2 → Issue rnd now node s1 = (r1, s1') → Issue rnd now node s2 = (r2, s2') →
  r1 = r2 ∧ swept T s1' s2'.
Proof.
  intros [Ht Hk]. unfold Issue. rewrite Ht. case_bool_decide; [intros; by simplify_eq|].
  destruct (newTicketValue rnd) as [val|]; intros; simplify_eq; [|done].
  split; [done|]. split; [done|]. intros k. cbn.
  destruct (decide (val = k)) as [->|]; [rewrite !lookup_insert_eq; by left|].
  by rewrite !lookup_insert_ne.
Qed.

Lemma swept_Validate T s1 s2 now v r1 s1' r2 s2' :
  T <= now → swept T s1 s2 → Validate now v s1 = (r1, s1') → Validate now v s2 = (r2, s2') →
  answer_le (AValidate r1) (AValidate r2) ∧ swept T s1' s2'.
Proof.
  intros HT [Ht Hk] H1%Validate_cases H2%Validate_cases.
  assert (Hd : ∀ k, delete v (tickets s1) !! k = delete v (tickets s2) !! k ∨
      delete v (tickets s1) !! k = None ∧ ∃ e, delete v (tickets s2) !! k = Some e ∧ expiresAt e < T).
  { intros k. destruct (decide (v = k)) as [->|]; [rewrite !lookup_delete_eq; by left|].
    rewrite !lookup_delete_ne by done. apply Hk. }
  destruct H1 as [(H1&->&->)|(e1&H1&->&Hr1)], H2 as [(H2&->&->)|(e2&H2&->&Hr2)].
  - split; [by left|by split].
  - destruct (Hk v) as [He|(_&e&He&Hx)]; [congruence|]. assert (e = e2) as -> by congruence.
    split; [|split; [done|]].
    + right. naive_solver lia.
    + intros k. rewrite <- (delete_id (tickets s1) v) by done. apply Hd.
  - destruct (Hk v) as [He|(He&_)]; congruence.
  - destruct (Hk v) as [He|(He&_)]; [|congruence]. assert (e1 = e2) as -> by congruence.
    split; [|by split]. left. f_equal. destruct Hr1 as [[? ->]|[? ->]], Hr2 as [[? ->]|[? ->]]; lia || done.
Qed.

Lemma serve_swept T acts s1 s2 :
  swept T s1 s2 → StronglySorted Z.le (T :: (instant <$> acts)) →
  Forall2 answer_le (serve acts s1) (serve (filter is_request acts) s2).
Proof.
  revert T s1 s2. induction acts as [|a acts IH]; intros T s1 s2 Hsw Hs; [constructor|].
  rewrite fmap_cons in Hs. apply StronglySorted_inv in Hs as [Hs [HT _]%Forall_cons].
  apply (swept_weaken _ _ _ _ HT) in Hsw.
  destruct a as [rnd t n|t v|t]; cbn [instant] in *; rewrite filter_cons; cbn [is_request].
  - rewrite decide_True by done. cbn [serve].
    destruct (Issue rnd t n s1) as [r1 s1'] eqn:E1, (Issue rnd t n s2) as [r2 s2'] eqn:E2.
    destruct (swept_Issue _ _ _ _ _ _ _ _ _ _ Hsw E1 E2) as [-> Hsw'].
    constructor; [by left|by eapply IH].
  - rewrite decide_True by done. cbn [serve].
    destruct (Validate t v s1) as [r1 s1'] eqn:E1, (Validate t v s2) as [r2 s2'] eqn:E2.
    destruct (swept_Validate _ _ _ _ _ _ _ _ _ (Z.le_refl _) Hsw E1 E2) as [Ha Hsw'].
    constructor; [done|by eapply IH].
  - rewrite decide_False by tauto. cbn [serve]. eapply IH; [|done]. by apply swept_Prune.
Qed.

(** Pruning is unobservable: on a clock that does not run backwards, a
    schedule of requests with any sweeps in between answers every request as the
    same schedule without the sweeps, except that an expired ticket may be
    reported unknown instead of expired; acceptance and the bound node never
    change. *)
Theorem Prune_unobservable acts s :
  StronglySorted Z.le (instant <$> acts) →
  Forall2 answer_le (serve acts s) (serve (filter is_request acts) s).
Proof.
  intros Hs. destruct acts as [|a acts]; [constructor|].
  apply (serve_swept (instant a)).
  - split; [done|]. by left.
  - rewrite fmap_cons in *. constructor; [done|]. apply StronglySorted_inv in Hs as [_ HF].
    constructor; [lia|done].
Qed.

(** ** Witnesses *)

Definition example_buf : list Z := repeat 7 32.

Definition example_value : string := Eval vm_compute in b64_encode example_buf.

Definition example_ticket : Ticket :=
  mkTicket example_value "spoke-1" 3 (3 + 60 * Second).

Definition example_events : list event :=
  [EvValidate 5 example_value (Ok "spoke-1");
   EvIssue (Ok example_buf) 3 "spoke-1" (Ok example_ticket)].

Lemma example_history : ∃ s, history 0 example_events s.
Proof.
  pose (s1 := (Issue (Ok example_buf) 3 "spoke-1" (NewStore 0)).2).
  exists (Validate 5 example_value s1).2. unfold example_events.
  apply (hist_step _ _ s1); [apply (hist_step _ _ (NewStore 0)); [apply hist_new|]|].
  - apply step_issue. vm_compute. reflexivity.
  - apply step_validate. vm_compute. reflexivity.
Qed.

Lemma Validate_authentic_witness :
  ∃ h2 h1 rnd at_,
    [EvIssue (Ok example_buf) 3 "spoke-1" (Ok example_ticket)] =
    (h2 ++ EvIssue rnd at_ "spoke-1" (Ok (mkTicket example_value "spoke-1" at_ (at_ + ttl (NewStore 0)))) :: h1)%list ∧
    5 <= at_ + ttl (NewStore 0) ∧ Forall (λ ev, ¬ validates example_value ev) h2.
Proof.
  destruct example_history as [s Hs].
  destruct (Validate_authentic _ _ _ _ _ _ Hs) as (h2 & h1 & rnd & at_ & H1 & H2 & H3 & _).
  exists h2, h1, rnd, at_. auto.
Defined.

Lemma ticket_single_use_witness : (count (accepts example_value) example_events <= 1)%nat.
Proof.
  destruct example_history as [s Hs]. apply (ticket_single_use _ _ _ _ Hs).
  - apply NoDup_singleton.
  - cbn. repeat constructor; cbv; congruence.
Defined.

Definition example_schedule : list action :=
  [DoIssue (Ok example_buf) 0 "n"; Sweep (61 * Second); DoValidate (61 * Second) example_value].

Lemma Prune_unobservable_witness :
  Forall2 answer_le (serve example_schedule (NewStore 0))
    (serve (filter is_request example_schedule) (NewStore 0)).
Proof.
  apply (Prune_unobservable example_schedule (NewStore 0)).
  repeat constructor; cbv; congruence.
Defined.
