(* ===== verification/RateLimit.v ===== *)
(** * The per-IP failure limiter ([internal/ticket/ratelimit.go])

    A map of per-IP counters under one mutex.  Every operation carries the
    instant it reads.  The limiter counts failures in fixed windows that start
    at the first failure, and blocks an address for a fixed time. *)
From Stdlib Require Import Ascii ZArith Lia.
From stdpp Require Import sorting.
From S2P Require Import Prelude GoTime.

Local Open Scope string_scope.
Local Open Scope Z_scope.

(** ** Data *)

Definition DefaultBlockDuration : Z := 60 * Second.
Definition DefaultWindow : Z := 60 * Second.

Record ipState := mkIpState {
  count : Z;
  windowStart : Z;
  blockedUntil : Z;
}.

Record RateLimiter := mkRateLimiter {
  failures : gmap string ipState;
  limit : Z;
  window : Z;
  block : Z;
}.

(** ** Operations *)

Definition NewRateLimiter (limit window block : Z) : RateLimiter :=
  mkRateLimiter ∅
    (if limit <=? 0 then 10 else limit)
    (if window <=? 0 then DefaultWindow else window)
    (if block <=? 0 then DefaultBlockDuration else block).

Definition Blocked (now : Z) (ip : string) (r : RateLimiter) : bool :=
  match failures r !! ip with
  | None => false
  | Some st => Before now (blockedUntil st)
  end.

(** The body of [RecordFailure] on the counters of the address. *)
Definition bump_state (r : RateLimiter) (now : Z) (st : ipState) : bool * ipState :=
  if Before now (blockedUntil st) then (false, st)
  else
    let st := if window r <? TimeSub now (windowStart st)
              then mkIpState 0 now (blockedUntil st) else st in
    let st := mkIpState (wrap64 (count st + 1)) (windowStart st) (blockedUntil st) in
    if limit r <=? count st
    then (true, mkIpState (count st) (windowStart st) (TimeAdd now (block r)))
    else (false, st).

Definition set_ip (ip : string) (st : ipState) (r : RateLimiter) : RateLimiter :=
  mkRateLimiter (<[ip := st]> (failures r)) (limit r) (window r) (block r).

Definition fresh_state (now : Z) : ipState := mkIpState 0 now zero_time.

Definition RecordFailure (now : Z) (ip : string) (r : RateLimiter) : bool * RateLimiter :=
  let st := default (fresh_state now) (failures r !! ip) in
  let '(b, st') := bump_state r now st in
  (b, set_ip ip st' r).

Definition prunable (r : RateLimiter) (now : Z) (st : ipState) : bool :=
  After now (blockedUntil st) && (window r <? TimeSub now (windowStart st)).

(** The range loop of [PruneExpired], over the entries in the order visited. *)
Fixpoint prune_loop (now : Z) (visit : list (string * ipState)) (n : Z) (r : RateLimiter)
    : Z * RateLimiter :=
  match visit with
  | [] => (n, r)
  | (ip, st) :: visit' =>
      if prunable r now st
      then prune_loop now visit' (n + 1)
             (mkRateLimiter (delete ip (failures r)) (limit r) (window r) (block r))
      else prune_loop now visit' n r
  end.

Definition PruneExpired (now : Z) (r : RateLimiter) : Z * RateLimiter :=
  prune_loop now (map_to_list (failures r)) 0 r.

(** ** Pruning *)

Definition same_limits (r r' : RateLimiter) : Prop :=
  limit r = limit r' ∧ window r = window r' ∧ block r = block r'.

#[export] Instance same_limits_equiv : Equivalence same_limits.
Proof. unfold same_limits. split; repeat intro; intuition congruence. Qed.

Lemma bump_state_limits r r' now st : same_limits r r' → bump_state r now st = bump_state r' now st.
Proof. intros (Hl & Hw & Hb). unfold bump_state. by rewrite Hl, Hw, Hb. Qed.

Lemma prune_loop_lookup now visit n r ip :
  same_limits (prune_loop now visit n r).2 r ∧
  (failures (prune_loop now visit n r).2 !! ip = failures r !! ip ∨
   failures (prune_loop now visit n r).2 !! ip = None ∧
   ∃ st, (ip, st) ∈ visit ∧ prunable r now st = true).
Proof.
  revert n r. induction visit as [|[k st] visit IH]; intros n r; cbn [prune_loop]; [split; [done|by left]|].
  destruct (prunable r now st) eqn:Hp.
  - destruct (IH (n + 1) (mkRateLimiter (delete k (failures r)) (limit r) (window r) (block r)))
      as [Hl Hk]. split; [done|]. cbn [failures] in Hk.
    destruct Hk as [Hk|(Hk & st' & Hin & Hp')].
    + rewrite Hk. destruct (decide (k = ip)) as [->|Hne].
      * right. split; [apply lookup_delete_eq|]. exists st. split; [by left|done].
      * left. by rewrite lookup_delete_ne.
    + right. split; [done|]. exists st'. split; [by right|done].
  - destruct (IH n r) as [Hl Hk]. split; [done|].
    destruct Hk as [Hk|(Hk & st' & Hin & Hp')]; [by left|].
    right. split; [done|]. exists st'. split; [by right|done].
Qed.

(** [PruneExpired] only forgets addresses that are neither blocked nor inside
    their window. *)
Lemma PruneExpired_lookup now r ip :
  same_limits (PruneExpired now r).2 r ∧
  (failures (PruneExpired now r).2 !! ip = failures r !! ip ∨
   failures (PruneExpired now r).2 !! ip = None ∧
   ∃ st, failures r !! ip = Some st ∧ prunable r now st = true).
Proof.
  destruct (prune_loop_lookup now (map_to_list (failures r)) 0 r ip) as [Hl Hk].
  split; [done|]. destruct Hk as [|(? & st & Hin%elem_of_map_to_list & Hp)]; [by left|].
  right. eauto.
Qed.

(** ** Schedules *)

Inductive action :=
  | DoFailure (now : Z) (ip : string)
  | DoBlocked (now : Z) (ip : string)
  | DoPrune (now : Z).

Definition instant (a : action) : Z :=
  match a with DoFailure t _ | DoBlocked t _ | DoPrune t => t end.

Definition about (ip : string) (a : action) : Prop :=
  match a with DoFailure _ ip' | DoBlocked _ ip' => ip' = ip | DoPrune _ => False end.

#[export] Instance about_dec ip a : Decision (about ip a).
Proof. destruct a; cbn; apply _. Defined.

(** The answers given about address [ip]. *)
Fixpoint answers (ip : string) (acts : list action) (r : RateLimiter) : list bool :=
  match acts with
  | [] => []
  | DoFailure t ip' :: acts' =>
      let '(b, r') := RecordFailure t ip' r in
      if decide (ip' = ip) then b :: answers ip acts' r' else answers ip acts' r'
  | DoBlocked t ip' :: acts' =>
      if decide (ip' = ip) then Blocked t ip' r :: answers ip acts' r else answers ip acts' r
  | DoPrune t :: acts' => answers ip acts' (PruneExpired t r).2
  end.

(** ** What a client can see

    The abstract state of an address at instant [T]: the end of the block it is
    in, if any, and the count and start of its window, if it has not rolled. *)
Definition visible : Type := option Z * option (Z * Z).

Definition view (w T : Z) (o : option ipState) : visible :=
  match o with
  | None => (None, None)
  | Some st =>
      (if T <? blockedUntil st then Some (blockedUntil st) else None,
       if w <? TimeSub T (windowStart st) then None else Some (count st, windowStart st))
  end.

(** Recording a failure, on the abstract state. *)
Definition visible_bump (r : RateLimiter) (now : Z) (v : visible) : bool * visible :=
  match v with
  | (Some b, win) => (false, (Some b, win))
  | (None, win) =>
      let '(c, s) := default (0, now) win in
      let c := wrap64 (c + 1) in
      if limit r <=? c
      then (true, (if now <? now + block r then Some (now + block r) else None, Some (c, s)))
      else (false, (None, Some (c, s)))
  end.

Lemma TimeSub_mono T T' u : T <= T' → TimeSub T u <= TimeSub T' u.
Proof. unfold TimeSub, sat64, min_int64, max_int64. lia. Qed.

Lemma TimeSub_same t : TimeSub t t = 0.
Proof. unfold TimeSub. by rewrite Z.sub_diag. Qed.

(** Time only makes states more alike. *)
Lemma view_later w T T' o1 o2 :
  T <= T' → view w T o1 = view w T o2 → view w T' o1 = view w T' o2.
Proof.
  intros HT Hv. destruct o1 as [[c1 s1 u1]|], o2 as [[c2 s2 u2]|]; cbn in *; [| | |done];
  try pose proof (TimeSub_mono T T' s1 HT); try pose proof (TimeSub_mono T T' s2 HT);
  repeat match goal with
  | |- context [?a <? ?b] => destruct (Z.ltb_spec a b)
  | H : context [?a <? ?b] |- _ => destruct (Z.ltb_spec a b)
  end; simplify_eq/=; try lia; try congruence.
Qed.

(** Decides every integer comparison of the goal. *)
Ltac cmp_cases :=
  repeat (cbn -[TimeSub wrap64 zero_time]; match goal with
  | |- context [?a <? ?b] => destruct (Z.ltb_spec a b)
  | |- context [?a <=? ?b] => destruct (Z.leb_spec a b)
  end).

(** [RecordFailure] implements the abstract operation. *)
Lemma bump_state_view r now o b st' :
  zero_time <= now → 0 <= window r →
  bump_state r now (default (fresh_state now) o) = (b, st') →
  visible_bump r now (view (window r) now o) = (b, view (window r) now (Some st')).
Proof.
  intros Hz Hw He. change (b, view (window r) now (Some st'))
    with ((b, st').1, view (window r) now (Some (b, st').2)). rewrite <- He. clear He.
  pose proof (TimeSub_same now) as H0.
  unfold bump_state, Before, TimeAdd.
  destruct o as [[c s u]|]; cmp_cases; cbn -[TimeSub wrap64 zero_time] in *; rewrite ?H0 in *; done || lia.
Qed.

(** Two limiters no client can tell apart at [ip] from [T] on. *)
Definition alike (T : Z) (ip : string) (r1 r2 : RateLimiter) : Prop :=
  same_limits r1 r2 ∧
  view (window r1) T (failures r1 !! ip) = view (window r2) T (failures r2 !! ip).

#[export] Instance alike_equiv T ip : Equivalence (alike T ip).
Proof.
  unfold alike. split; [done| |].
  - intros r1 r2 [Hl Hv]. by split; symmetry.
  - intros r1 r2 r3 [Hl Hv] [Hl' Hv']. split; by etransitivity.
Qed.

Lemma alike_later T T' ip r1 r2 : T <= T' → alike T ip r1 r2 → alike T' ip r1 r2.
Proof.
  intros HT [Hl Hv]. split; [done|]. destruct Hl as (_ & Hw & _). rewrite <- Hw in *.
  by eapply view_later.
Qed.

#[export] Instance Blocked_proper T ip : Proper (alike T ip ==> eq) (Blocked T ip).
Proof.
  intros r1 r2 [_ Hv]. unfold Blocked, Before.
  destruct (failures r1 !! ip) as [[]|], (failures r2 !! ip) as [[]|]; cbn in *;
    repeat case_match; simplify_eq; congruence.
Qed.

Lemma alike_other T ip ip' st r : ip ≠ ip' → alike T ip (set_ip ip' st r) r.
Proof. intros Hne. split; [done|]. cbn. by rewrite lookup_insert_ne. Qed.

(** Pruning is invisible at the instant it runs. *)
Lemma alike_prune T ip r : alike T ip (PruneExpired T r).2 r.
Proof.
  destruct (PruneExpired_lookup T r ip) as [Hl Hk]. split; [done|].
  destruct Hl as (_ & -> & _). destruct Hk as [->|(-> & st & -> & Hp)]; [done|].
  unfold prunable, After in Hp. apply andb_prop in Hp as [Hb%Z.ltb_lt Hw]. cbn.
  rewrite Hw. by rewrite (proj2 (Z.ltb_ge _ _)) by lia.
Qed.

Lemma RecordFailure_alike T ip r1 r2 :
  zero_time <= T → 0 <= window r1 → alike T ip r1 r2 →
  (RecordFailure T ip r1).1 = (RecordFailure T ip r2).1 ∧
  alike T ip (RecordFailure T ip r1).2 (RecordFailure T ip r2).2.
Proof.
  intros Hz Hw [Hl Hv]. unfold RecordFailure.
  destruct (bump_state r1 T _) as [b1 st1] eqn:E1, (bump_state r2 T _) as [b2 st2] eqn:E2.
  rewrite (bump_state_limits _ _ _ _ Hl) in E1.
  assert (Hw2 : window r1 = window r2) by apply Hl. rewrite Hw2 in *.
  apply bump_state_view in E1, E2; [|done..]. rewrite Hv, E2 in E1.
  split; [cbn; congruence|]. split; [done|]. cbn. rewrite !lookup_insert_eq. congruence.
Qed.

Lemma RecordFailure_window T ip r : window (RecordFailure T ip r).2 = window r.
Proof. unfold RecordFailure. by destruct (bump_state _ _ _). Qed.

Lemma answers_alike T ip acts r1 r2 :
  zero_time <= T → 0 <= window r1 → alike T ip r1 r2 →
  StronglySorted Z.le (T :: (instant <$> acts)) →
  answers ip acts r1 = answers ip (filter (about ip) acts) r2.
Proof.
  revert T r1 r2. induction acts as [|a acts IH]; intros T r1 r2 Hz Hw Ha Hs; [done|].
  rewrite fmap_cons in Hs. apply StronglySorted_inv in Hs as [Hs [HT _]%Forall_cons].
  apply (alike_later _ _ _ _ _ HT) in Ha. assert (Hz' : zero_time <= instant a) by lia.
  destruct a as [t ip'|t ip'|t]; cbn [instant] in *; rewrite filter_cons; cbn [about answers].
  - destruct (decide (ip' = ip)) as [->|Hne].
    + destruct (RecordFailure_alike t ip r1 r2) as [Hb Ha']; [done..|].
      pose proof (RecordFailure_window t ip r1) as Hw'. cbn [answers].
      destruct (RecordFailure t ip r1) as [b1 r1'], (RecordFailure t ip r2) as [b2 r2'].
      cbn in *. subst b1. rewrite decide_True by done. f_equal. eapply IH; eauto; lia.
    + pose proof (RecordFailure_window t ip' r1) as Hw'. unfold RecordFailure in *.
      destruct (bump_state _ _ _) as [b st']. cbn in Hw'.
      eapply IH; [done| |etransitivity; [by apply alike_other|done]|done]. cbn. lia.
  - destruct (decide (ip' = ip)) as [->|Hne].
    + cbn [answers]. rewrite decide_True by done. f_equal; [by rewrite Ha|]. by eapply IH.
    + by eapply IH.
  - rewrite decide_False by tauto. eapply IH; [done| |etransitivity; [apply alike_prune|done]|done].
    destruct (PruneExpired_lookup t r1 ip) as [(_ & -> & _) _]. done.
Qed.

(** Isolation and garbage collection: on a clock that does not run
    backwards, what the limiter answers about an address depends only on the
    requests about that address: failures and queries of other addresses and any
    number of [PruneExpired] sweeps in between change no answer. *)
Theorem limiter_isolated ip acts l w b :
  StronglySorted Z.le (instant <$> acts) → Forall (λ a, zero_time <= instant a) acts →
  answers ip acts (NewRateLimiter l w b) = answers ip (filter (about ip) acts) (NewRateLimiter l w b).
Proof.
  intros Hs HF. destruct acts as [|a acts]; [done|]. apply Forall_cons in HF as [Hz _].
  apply (answers_alike (instant a)); [done| |done|].
  - cbn. unfold DefaultWindow. case_match; unfold Second; lia.
  - rewrite fmap_cons in *. constructor; [done|]. apply StronglySorted_inv in Hs as [_ HF].
    constructor; [lia|done].
Qed.

(** ** How many failures it takes *)

Fixpoint record_all (ip : string) (ts : list Z) (r : RateLimiter) : list bool * RateLimiter :=
  match ts with
  | [] => ([], r)
  | t :: ts' =>
      let '(b, r1) := RecordFailure t ip r in
      let '(bs, r2) := record_all ip ts' r1 in (b :: bs, r2)
  end.

Lemma record_all_app ip ts us r :
  record_all ip (ts ++ us) r =
    let '(bs, r1) := record_all ip ts r in
    let '(cs, r2) := record_all ip us r1 in ((bs ++ cs)%list, r2).
Proof.
  revert r. induction ts as [|t ts IH]; intros r; cbn; [by destruct (record_all ip us r)|].
  destruct (RecordFailure t ip r) as [b r1]. rewrite IH.
  destruct (record_all ip ts r1) as [bs r2]. by destruct (record_all ip us r2).
Qed.

(** The configuration fields hold machine integers, as Go has them. *)
Definition wf_limits (r : RateLimiter) : Prop :=
  1 <= limit r <= max_int64 ∧ 0 <= window r <= max_int64 ∧ 0 < block r.

Lemma NewRateLimiter_wf l w b :
  in_int64 l → in_int64 w → wf_limits (NewRateLimiter l w b).
Proof.
  unfold in_int64, wf_limits, NewRateLimiter, DefaultWindow, DefaultBlockDuration, Second, max_int64.
  intros Hl Hw. cbn. repeat case_match; lia.
Qed.

Lemma TimeSub_window w t s : 0 <= w <= max_int64 → t - s <= w → (w <? TimeSub t s) = false.
Proof. intros Hw Ht. apply Z.ltb_ge. apply sat64_le; [unfold in_int64, min_int64; lia|]. by left. Qed.

(** A failure outside a block and inside the window. *)
Lemma RecordFailure_count r ip t c s u :
  wf_limits r → failures r !! ip = Some (mkIpState c s u) → u <= t → t - s <= window r →
  0 <= c < limit r →
  RecordFailure t ip r =
    if limit r <=? c + 1 then (true, set_ip ip (mkIpState (c + 1) s (t + block r)) r)
    else (false, set_ip ip (mkIpState (c + 1) s u) r).
Proof.
  intros (Hl & Hw & _) Hf Hu Ht Hc. unfold RecordFailure, bump_state, Before, TimeAdd. rewrite Hf.
  cbn -[TimeSub wrap64]. rewrite (proj2 (Z.ltb_ge t u)) by done. rewrite TimeSub_window by done.
  cbn -[wrap64]. rewrite wrap64_id by (unfold in_int64, min_int64; lia).
  by destruct (limit r <=? c + 1).
Qed.

(** The first failure of a window: of a new address, or after the window of an
    old one rolled. *)
Lemma RecordFailure_first r ip t :
  wf_limits r → zero_time <= t →
  match failures r !! ip with
  | None => True
  | Some st => blockedUntil st <= t ∧ window r < TimeSub t (windowStart st)
  end →
  ∃ u, u <= t ∧
  RecordFailure t ip r =
    if limit r <=? 1 then (true, set_ip ip (mkIpState 1 t (t + block r)) r)
    else (false, set_ip ip (mkIpState 1 t u) r).
Proof.
  intros (Hl & Hw & _) Hz Hf. unfold RecordFailure, bump_state, Before, TimeAdd.
  destruct (failures r !! ip) as [[c s u]|]; cbn -[TimeSub wrap64 zero_time] in *.
  - exists u. split; [lia|]. rewrite (proj2 (Z.ltb_ge t u)) by lia.
    rewrite (proj2 (Z.ltb_lt _ _)) by lia. cbn -[wrap64]. change (wrap64 (0 + 1)) with 1.
    by destruct (limit r <=? 1).
  - exists zero_time. split; [done|]. rewrite (proj2 (Z.ltb_ge t zero_time)) by done.
    rewrite TimeSub_same, (proj2 (Z.ltb_ge _ _)) by lia. cbn -[wrap64 zero_time].
    change (wrap64 (0 + 1)) with 1. by destruct (limit r <=? 1).
Qed.

Lemma set_ip_wf ip st r : wf_limits r → wf_limits (set_ip ip st r).
Proof. done. Qed.

(** Failures that stay below the limit within one window. *)
Lemma record_below r ip ts c s u :
  wf_limits r → failures r !! ip = Some (mkIpState c s u) → 0 <= c →
  c + Z.of_nat (length ts) < limit r → Forall (λ t, u <= t ∧ t - s <= window r) ts →
  ∃ r', record_all ip ts r = (replicate (length ts) false, r') ∧ same_limits r' r ∧
        failures r' !! ip = Some (mkIpState (c + Z.of_nat (length ts)) s u).
Proof.
  revert r c. induction ts as [|t ts IH]; intros r c Hwf Hf Hc Hlen HF; cbn [length record_all replicate].
  - exists r. rewrite Hf. cbn [Z.of_nat]. by rewrite Z.add_0_r.
  - apply Forall_cons in HF as [[Hu Ht] HF]. cbn [length] in Hlen.
    rewrite (RecordFailure_count _ _ _ c s u) by (done || lia).
    rewrite (proj2 (Z.leb_gt _ _)) by lia.
    destruct (IH (set_ip ip (mkIpState (c + 1) s u) r) (c + 1)) as (r' & -> & Hl & Hf');
      [by apply set_ip_wf|cbn; apply lookup_insert_eq|lia|cbn; lia|done|].
    exists r'. split; [done|]. split; [by etransitivity|]. rewrite Hf'. do 2 f_equal. lia.
Qed.

(** Failures during a block change nothing. *)
Lemma record_blocked r ip ts st :
  failures r !! ip = Some st → Forall (λ t, t < blockedUntil st) ts →
  ∃ r', record_all ip ts r = (replicate (length ts) false, r') ∧ same_limits r' r ∧
        failures r' !! ip = Some st.
Proof.
  revert r. induction ts as [|t ts IH]; intros r Hf HF; cbn; [by exists r|].
  apply Forall_cons in HF as [Ht HF]. unfold RecordFailure, bump_state, Before. rewrite Hf. cbn.
  rewrite (proj2 (Z.ltb_lt _ _)) by done.
  destruct (IH (set_ip ip st r)) as (r' & -> & Hl & Hf'); [apply lookup_insert_eq|done|].
  exists r'. split; [done|]. split; [by etransitivity|done].
Qed.

Lemma same_limits_wf r r' : same_limits r' r → wf_limits r → wf_limits r'.
Proof. unfold wf_limits. intros (-> & -> & ->). done. Qed.

(** C30. The limit and the block: for an address without history, the first
    [limit - 1] failures within one window report no block and the [limit]-th
    reports it; from then on [Blocked] holds exactly until that failure's instant
    plus the block duration, and failures recorded during the block neither
    report again nor extend it. *)
Theorem RecordFailure_blocks r ip t0 ts tl us t :
  wf_limits r → failures r !! ip = None → zero_time <= t0 →
  Forall (λ x, t0 <= x <= t0 + window r) (ts ++ [tl]) →
  Z.of_nat (length ts) = limit r - 2 →
  Forall (λ x, x < tl + block r) us →
  let '(bs, r1) := record_all ip (t0 :: ts ++ [tl]) r in
  let '(cs, r2) := record_all ip us r1 in
  bs = (replicate (length ts + 1) false ++ [true])%list ∧ cs = replicate (length us) false ∧
  Blocked t ip r2 = (t <? tl + block r).
Proof.
  intros Hwf Hf Hz HF Hlen Hus.
  destruct (RecordFailure_first r ip t0) as (u & Hu & H0); [done|done|by rewrite Hf|].
  rewrite (proj2 (Z.leb_gt _ _)) in H0 by lia.
  cbn [record_all]. rewrite H0, record_all_app. apply Forall_app in HF as [HF [Htl _]%Forall_cons].
  destruct (record_below (set_ip ip (mkIpState 1 t0 u) r) ip ts 1 t0 u) as (r1 & -> & Hl & Hf1);
    [done|cbn; apply lookup_insert_eq|lia|cbn; lia| |].
  { eapply Forall_impl; [exact HF|]. cbn. lia. }
  cbn [record_all]. rewrite (RecordFailure_count r1 ip tl (1 + Z.of_nat (length ts)) t0 u);
    [|by eapply same_limits_wf|done|lia| |].
  2: { destruct Hl as (_ & -> & _). cbn. lia. }
  2: { destruct Hl as (-> & _). cbn. lia. }
  rewrite (proj2 (Z.leb_le _ _)) by (destruct Hl as (-> & _); cbn; lia).
  destruct (record_blocked (set_ip ip (mkIpState (1 + Z.of_nat (length ts) + 1) t0 (tl + block r1)) r1) ip us
    (mkIpState (1 + Z.of_nat (length ts) + 1) t0 (tl + block r1))) as (r2 & -> & _ & Hf2);
    [cbn; apply lookup_insert_eq|destruct Hl as (_ & _ & ->); done|].
  split; [by rewrite Nat.add_comm|]. split; [done|].
  unfold Blocked. rewrite Hf2. cbn. by destruct Hl as (_ & _ & ->).
Qed.

(** One more failure within the window that reports nothing. *)
Lemma RecordFailure_silent r ip t c s u :
  wf_limits r → failures r !! ip = Some (mkIpState c s u) → u <= t → TimeSub t s <= window r →
  0 <= c < max_int64 → (RecordFailure t ip r).1 = false →
  c + 1 < limit r ∧ (RecordFailure t ip r).2 = set_ip ip (mkIpState (c + 1) s u) r.
Proof.
  intros (Hl & Hw & _) Hf Hu Ht Hc. unfold RecordFailure, bump_state, Before, TimeAdd. rewrite Hf.
  cbn -[TimeSub wrap64]. rewrite (proj2 (Z.ltb_ge t u)) by done. rewrite (proj2 (Z.ltb_ge (window r) _)) by done.
  cbn -[wrap64]. rewrite wrap64_id by (unfold in_int64, min_int64; lia).
  by destruct (Z.leb_spec (limit r) (c + 1)).
Qed.

Lemma record_all_cons ip t ts r :
  (record_all ip (t :: ts) r).1 =
    (RecordFailure t ip r).1 :: (record_all ip ts (RecordFailure t ip r).2).1.
Proof. cbn. destruct (RecordFailure t ip r) as [b r1]. cbn. by destruct (record_all ip ts r1). Qed.

(** Failures that report nothing stay below the limit of their window. *)
Lemma record_silent_window r ip ts c s u :
  wf_limits r → failures r !! ip = Some (mkIpState c s u) → 0 <= c < max_int64 →
  Forall (λ t, u <= t ∧ TimeSub t s <= window r) ts → Forall (eq false) (record_all ip ts r).1 →
  ts = [] ∨ c + Z.of_nat (length ts) < limit r.
Proof.
  revert r c. induction ts as [|t ts IH]; intros r c Hwf Hf Hc HF Hb; [by left|]. right.
  apply Forall_cons in HF as [[Hu Ht] HF]. rewrite record_all_cons in Hb.
  apply Forall_cons in Hb as [Hb Hbs]. symmetry in Hb. cbn [length].
  destruct (RecordFailure_silent r ip t c s u) as [Hlt He]; [done..|]. rewrite He in Hbs.
  destruct (IH (set_ip ip (mkIpState (c + 1) s u) r) (c + 1)) as [->|];
    [by apply set_ip_wf|cbn; apply lookup_insert_eq| |done|done|cbn; lia|cbn in *; lia].
  unfold wf_limits in Hwf. lia.
Qed.

(** The same from any counters, when the failures fit in one window length: the
    window rolls at most once. *)
Lemma record_silent_span r ip ts c s u T :
  wf_limits r → failures r !! ip = Some (mkIpState c s u) → 0 <= c < max_int64 →
  StronglySorted Z.le ts → Forall (λ t, zero_time <= t ∧ u <= t ∧ T <= t <= T + window r) ts →
  Forall (eq false) (record_all ip ts r).1 →
  Z.of_nat (length ts) <= Z.max 0 (limit r - 1 - c) + (limit r - 1).
Proof.
  revert r c. induction ts as [|t ts IH]; intros r c Hwf Hf Hc Hs HF Hb.
  { unfold wf_limits in Hwf. cbn. lia. }
  apply StronglySorted_inv in Hs as [Hs Hle]. apply Forall_cons in HF as [(Hz & Hu & HT) HF].
  rewrite record_all_cons in Hb. apply Forall_cons in Hb as [Hb Hbs]. symmetry in Hb. cbn [length].
  destruct (Z.le_gt_cases (TimeSub t s) (window r)) as [Hin|Hroll].
  - destruct (RecordFailure_silent r ip t c s u) as [Hlt He]; [done..|]. rewrite He in Hbs.
    assert (0 <= c + 1 < max_int64) by (unfold wf_limits in Hwf; lia).
    pose proof (IH _ (c + 1) (set_ip_wf ip (mkIpState (c + 1) s u) r Hwf) (lookup_insert_eq _ _ _)
      ltac:(done) Hs HF Hbs). cbn in *. lia.
  - destruct (RecordFailure_first r ip t) as (u' & Hu' & He); [done|done|rewrite Hf; cbn; lia|].
    rewrite He in Hb, Hbs. destruct (Z.leb_spec (limit r) 1); [done|].
    destruct (record_silent_window (set_ip ip (mkIpState 1 t u') r) ip ts 1 t u') as [->|];
      [done|apply lookup_insert_eq|by_compute| |done|cbn; lia|cbn in *; lia].
    rewrite Forall_forall in *. intros x Hx. specialize (HF x Hx). specialize (Hle x Hx). split; [lia|].
    apply Z.ltb_ge, TimeSub_window; [apply Hwf|]. cbn. lia.
Qed.

(** C31. Bound on a burst: from any counters an address can have, outside a
    block, any [2 * limit - 1] of its failures that fall within one window
    length, in order, trip the limiter. *)
Theorem burst_bound r ip ts T :
  wf_limits r →
  match failures r !! ip with
  | None => True
  | Some st => 0 <= count st < max_int64 ∧ blockedUntil st <= T
  end →
  StronglySorted Z.le ts → Forall (λ t, zero_time <= t ∧ T <= t <= T + window r) ts →
  2 * limit r - 1 <= Z.of_nat (length ts) →
  true ∈ (record_all ip ts r).1.
Proof.
  intros Hwf Hst Hs HF Hlen.
  destruct (decide (true ∈ (record_all ip ts r).1)) as [|Hn]; [done|exfalso].
  assert (Hb : Forall (eq false) (record_all ip ts r).1).
  { apply Forall_forall. intros [] Hx; [done|done]. }
  destruct (failures r !! ip) as [[c s u]|] eqn:Hf; cbn in Hst.
  - assert (HF' : Forall (λ t, zero_time <= t ∧ u <= t ∧ T <= t <= T + window r) ts)
      by (eapply Forall_impl; [exact HF|]; cbn; lia).
    pose proof (record_silent_span r ip ts c s u T Hwf Hf (proj1 Hst) Hs HF' Hb).
    unfold wf_limits in Hwf. lia.
  - destruct ts as [|t ts]; [unfold wf_limits in Hwf; cbn in Hlen; lia|].
    apply StronglySorted_inv in Hs as [Hs Hle]. apply Forall_cons in HF as [(Hz & HT) HF].
    rewrite record_all_cons in Hb. apply Forall_cons in Hb as [Hb Hbs]. cbn [length] in Hlen.
    destruct (RecordFailure_first r ip t) as (u' & Hu' & He); [done|done|by rewrite Hf|].
    rewrite He in Hb, Hbs. destruct (Z.leb_spec (limit r) 1); [done|].
    assert (HF' : Forall (λ t, zero_time <= t ∧ u' <= t ∧ T <= t <= T + window r) ts).
    { rewrite Forall_forall in *. intros x Hx. specialize (HF x Hx). specialize (Hle x Hx). cbn. lia. }
    pose proof (record_silent_span _ ip ts 1 t u' T (set_ip_wf ip (mkIpState 1 t u') r Hwf)
      (lookup_insert_eq _ _ _) ltac:(by_compute) Hs HF' Hbs). cbn in *. lia.
Qed.

(** The window is fixed, not rolling: one failure, [limit - 2] failures a
    full window later and [limit - 1] failures one nanosecond after those report
    no block, although the last [2 * limit - 3] of them lie one nanosecond
    apart. *)
Theorem window_not_rolling r ip t :
  wf_limits r → failures r !! ip = None → zero_time <= t → 2 <= limit r → window r < max_int64 →
  (record_all ip (t :: replicate (Z.to_nat (limit r - 2)) (t + window r) ++
                  replicate (Z.to_nat (limit r - 1)) (t + window r + 1)) r).1 =
  replicate (Z.to_nat (2 * limit r - 2)) false.
Proof.
  intros Hwf Hf Hz Hl Hw. set (k := Z.to_nat (limit r - 2)).
  replace (Z.to_nat (limit r - 1)) with (S k) by lia.
  replace (Z.to_nat (2 * limit r - 2)) with (S (k + S k)) by lia.
  assert (Hwf' := Hwf). destruct Hwf' as (Hl' & Hw' & _).
  destruct (RecordFailure_first r ip t) as (u & Hu & He); [done|done|by rewrite Hf|].
  rewrite (proj2 (Z.leb_gt _ _)) in He by lia.
  rewrite record_all_cons, He, record_all_app. cbn [fst snd].
  destruct (record_below (set_ip ip (mkIpState 1 t u) r) ip (replicate k (t + window r)) 1 t u)
    as (r1 & -> & Hl1 & Hf1);
    [done|apply lookup_insert_eq|lia|rewrite length_replicate; cbn; lia| |].
  { apply Forall_replicate. cbn. lia. }
  rewrite length_replicate in *. assert (Hl1' := Hl1). destruct Hl1' as (Hlim & Hwin & _). cbn in Hlim, Hwin.
  destruct (RecordFailure_first r1 ip (t + window r + 1)) as (u1 & Hu1 & He1);
    [by eapply same_limits_wf|lia| |].
  { rewrite Hf1. cbn [blockedUntil windowStart]. split; [lia|]. rewrite Hwin. unfold TimeSub.
    rewrite sat64_id; [lia|unfold in_int64, min_int64; lia]. }
  rewrite Hlim, (proj2 (Z.leb_gt _ _)) in He1 by lia. cbn [replicate record_all]. rewrite He1.
  destruct (record_below (set_ip ip (mkIpState 1 (t + window r + 1) u1) r1) ip
    (replicate k (t + window r + 1)) 1 (t + window r + 1) u1) as (r2 & -> & _ & _);
    [by apply (same_limits_wf _ _ Hl1)|apply lookup_insert_eq|lia|rewrite length_replicate; cbn; lia| |].
  { apply Forall_replicate. cbn. lia. }
  rewrite length_replicate. cbn [fst replicate]. f_equal.
  by rewrite replicate_add.
Qed.

(** ** Witnesses *)

Lemma limiter_isolated_witness :
  answers "a" [DoFailure 0 "a"; DoFailure 1 "b"; DoFailure 2 "a"; DoPrune (61 * Second);
               DoBlocked (61 * Second) "a"] (NewRateLimiter 2 0 0) =
  answers "a" [DoFailure 0 "a"; DoFailure 2 "a"; DoBlocked (61 * Second) "a"] (NewRateLimiter 2 0 0).
Proof.
  apply (limiter_isolated "a" [DoFailure 0 "a"; DoFailure 1 "b"; DoFailure 2 "a";
    DoPrune (61 * Second); DoBlocked (61 * Second) "a"] 2 0 0).
  - repeat constructor; cbv; congruence.
  - repeat constructor; cbv; congruence.
Defined.

Lemma RecordFailure_blocks_witness :
  let '(bs, r1) := record_all "a" [0; 5; 10] (NewRateLimiter 3 0 0) in
  let '(cs, r2) := record_all "a" [20; 30] r1 in
  bs = [false; false; true] ∧ cs = [false; false] ∧
  Blocked 40 "a" r2 = (40 <? 10 + 60 * Second).
Proof.
  refine (RecordFailure_blocks (NewRateLimiter 3 0 0) "a" 0 [5] 10 [20; 30] 40 _ _ _ _ _ _).
  - apply NewRateLimiter_wf; by_decide.
  - reflexivity.
  - by_decide.
  - by_decide.
  - reflexivity.
  - by_decide.
Defined.

Lemma burst_bound_witness : true ∈ (record_all "a" [0; 1; 1; 2; 9] (NewRateLimiter 3 0 0)).1.
Proof.
  apply (burst_bound (NewRateLimiter 3 0 0) "a" [0; 1; 1; 2; 9] 0).
  - apply NewRateLimiter_wf; by_decide.
  - exact I.
  - repeat constructor; cbv; congruence.
  - by_decide.
  - by_decide.
Defined.

Lemma window_not_rolling_witness :
  (record_all "a" [0; 60 * Second; 60 * Second + 1; 60 * Second + 1] (NewRateLimiter 3 0 0)).1 =
  [false; false; false; false].
Proof.
  apply (window_not_rolling (NewRateLimiter 3 0 0) "a" 0).
  - apply NewRateLimiter_wf; by_decide.
  - reflexivity.
  - by_decide.
  - by_decide.
  - by_decide.
Defined.
