(* ===== verification/Litestream.v ===== *)
(** * Replication health ([internal/litestream/litestream.go], [watcher.go])

    [Tracker] holds what the controller knows about Litestream; [Watcher] feeds
    it by asking systemd whether the unit runs and by scanning the journal.  The
    command runner is the source's [Querier] interface; the clock is read from
    the environment at each step. *)
From Stdlib Require Import Ascii ZArith Lia.
From S2P Require Import Prelude GoTime GoStrings.

Local Open Scope string_scope.
Local Open Scope Z_scope.

(** ** Tracker *)

Record Status := mkStatus {
  LastSyncAt : Z;
  ServiceActive : bool;
  Errors : Z;
  LagMax : Z;
}.

Record Tracker := mkTracker { status : Status }.

#[export] Instance Status_eq_dec : EqDecision Status.
Proof. solve_decision. Defined.

Definition NewTracker (maxLag : Z) : Tracker := mkTracker (mkStatus zero_time false 0 maxLag).

(** [now] is what [t.now()] returns; it is used only when [at_] is zero. *)
Definition RecordSync (now at_ : Z) (t : Tracker) : Tracker :=
  let at_ := if IsZero at_ then now else at_ in
  let s := status t in
  if After at_ (LastSyncAt s)
  then mkTracker (mkStatus at_ (ServiceActive s) (Errors s) (LagMax s))
  else t.

(** [Errors] is a [uint64]. *)
Definition RecordError (t : Tracker) : Tracker :=
  let s := status t in
  mkTracker (mkStatus (LastSyncAt s) (ServiceActive s) ((Errors s + 1) mod 2 ^ 64) (LagMax s)).

Definition SetServiceActive (active : bool) (t : Tracker) : Tracker :=
  let s := status t in
  mkTracker (mkStatus (LastSyncAt s) active (Errors s) (LagMax s)).

Definition Status_ (t : Tracker) : Status := status t.

Definition no_sync_lag : Z := Z.shiftl 1 62 - 1.

Definition Lag (now : Z) (t : Tracker) : Z :=
  if IsZero (LastSyncAt (status t)) then no_sync_lag
  else TimeSub now (LastSyncAt (status t)).

Definition Healthy (now maxLag : Z) (t : Tracker) : bool :=
  if negb (ServiceActive (status t)) then false
  else if IsZero (LastSyncAt (status t)) then false
  else TimeSub now (LastSyncAt (status t)) <=? maxLag.

(** ** Watcher *)

(** [Querier]: the output and whether the command failed, per step.  [None] in
    the configuration stands for the nil interface. *)
Class Querier := { Query : nat → list string → string * option err }.

(** The host's time zone: seconds east of UTC at an instant. *)
Class Zone := { zone_offset : Z → Z }.

Record WatcherConfig := mkWatcherConfig {
  Service : string;
  PollInterval : Z;
  InitialLookback : Z;
}.

Record Watcher := mkWatcher {
  tracker : Tracker;
  service : string;
  pollInterval : Z;
  initialLookback : Z;
  lastPoll : Z;
}.

Definition NewWatcher (t : Tracker) (cfg : WatcherConfig) : Watcher :=
  let svc := if bool_decide (Service cfg = "") then "nlm-litestream.service" else Service cfg in
  let poll := if PollInterval cfg <=? 0 then 30 * Second else PollInterval cfg in
  let look := if InitialLookback cfg <=? 0 then poll else InitialLookback cfg in
  mkWatcher t svc poll look zero_time.

Definition ServiceName (w : Watcher) : string := service w.

Definition set_tracker (t : Tracker) (w : Watcher) : Watcher :=
  mkWatcher t (service w) (pollInterval w) (initialLookback w) (lastPoll w).

Definition set_lastPoll (p : Z) (w : Watcher) : Watcher :=
  mkWatcher (tracker w) (service w) (pollInterval w) (initialLookback w) p.

(** [FormatSince]: local time. *)
Definition FormatSince `{Zone} (t : Z) : string := format_datetime (t + zone_offset t * Second).

(** [bufio.Scanner] with [ScanLines]: lines without their end marker, an empty
    last line dropped; a line that does not fit the 64 KiB buffer ends the scan. *)
Definition drop_cr (s : string) : string :=
  match String.get (String.length s - 1) s with
  | Some c => if bool_decide (c = ascii_of_N 13) then str_take (String.length s - 1) s else s
  | None => s
  end.

Definition MaxScanTokenSize : Z := 65536.

Fixpoint scan_go (ls : list string) : list string :=
  match ls with
  | [] => []
  | [l] => if bool_decide (l = "") then []
           else if MaxScanTokenSize <=? Z.of_nat (String.length l) then [] else [drop_cr l]
  | l :: ls' => if MaxScanTokenSize <=? Z.of_nat (String.length l) then [] else drop_cr l :: scan_go ls'
  end.

Definition scan_lines (out : string) : list string := scan_go (Split out (ascii_of_N 10)).

(** The keywords of [parseLine]. *)
Definition isErr (line : string) : bool :=
  let lower := ToLower line in
  Contains lower "error" || Contains lower "failed" || Contains lower "fatal".

Definition isSync (line : string) : bool :=
  let lower := ToLower line in
  negb (isErr line) &&
  (Contains lower "snapshot" || Contains lower "wal segment" ||
   Contains lower "replicated" || Contains lower "synced").

Section Watch.
Context {E : Env} {Q : Querier} {Zn : Zone}.

Abbreviation MW := (M Watcher).

Definition modify (f : Watcher → Watcher) : MW () := λ w, ((), mkWorld (f (st w)) (tick w)).

Definition run_query (args : list string) : MW (string * option err) := λ w,
  (Query (tick w) args, mkWorld (st w) (S (tick w))).

Definition parseLine (line : string) : MW () :=
  if isErr line then modify (λ w, set_tracker (RecordError (tracker w)) w)
  else if isSync line then
    n ← now; modify (λ w, set_tracker (RecordSync n zero_time (tracker w)) w)
  else mret ().

Fixpoint parse_lines (ls : list string) : MW () :=
  match ls with
  | [] => mret ()
  | l :: ls' => _ ← parseLine l; parse_lines ls'
  end.

Definition poll : MW () :=
  w ← get;
  '(_, e) ← run_query ["systemctl"; "is-active"; "--quiet"; service w];
  _ ← modify (λ w, set_tracker (SetServiceActive (bool_decide (e = None)) (tracker w)) w);
  let since := lastPoll w in
  n ← now;
  _ ← modify (set_lastPoll n);
  let since := if IsZero since then TimeAdd n (- initialLookback w) else since in
  '(out, e) ← run_query ["journalctl"; "-u"; service w; "--since"; FormatSince since;
                         "--no-pager"; "-o"; "short-iso"];
  if match e with Some _ => true | None => false end || bool_decide (out = "") then mret ()
  else parse_lines (scan_lines out).

(** [Run]: one poll at once, then one per tick until the context is done. *)
Fixpoint Run_ticks (n : nat) : MW () :=
  match n with O => mret () | S n' => _ ← poll; Run_ticks n' end.

Definition Run (ticks : nat) : MW () := _ ← poll; Run_ticks ticks.
End Watch.

(** ** Properties of the tracker *)

(** The readiness gate and the exported lag agree: for a gate below the
    no-sync sentinel, [Healthy] holds exactly when the unit is active and [Lag]
    is within the gate, so a tracker that never saw a sync fails it. *)
Theorem Healthy_iff_lag now maxLag t :
  maxLag < no_sync_lag →
  Healthy now maxLag t = ServiceActive (status t) && (Lag now t <=? maxLag).
Proof.
  intros Hm. unfold Healthy, Lag. destruct (ServiceActive (status t)); cbn; [|done].
  destruct (IsZero _); [|done]. symmetry. apply Z.leb_gt. lia.
Qed.

Definition sync_lines (ls : list string) : list string := filter (λ l, isSync l = true) ls.
Definition error_lines (ls : list string) : list string := filter (λ l, isErr l = true) ls.

#[global] Arguments sync_lines : simpl never.
#[global] Arguments error_lines : simpl never.

Lemma error_lines_cons l ls :
  error_lines (l :: ls) = if isErr l then l :: error_lines ls else error_lines ls.
Proof. unfold error_lines. rewrite filter_cons. by destruct (isErr l). Qed.

Lemma sync_lines_cons l ls :
  sync_lines (l :: ls) = if isSync l then l :: sync_lines ls else sync_lines ls.
Proof. unfold sync_lines. rewrite filter_cons. by destruct (isSync l). Qed.

Lemma isSync_not_isErr l : isErr l = true → isSync l = false.
Proof. unfold isSync. by intros ->. Qed.

Lemma RecordSync_now n t :
  status (RecordSync n zero_time t) =
    mkStatus (Z.max (LastSyncAt (status t)) n) (ServiceActive (status t)) (Errors (status t)) (LagMax (status t)).
Proof.
  unfold RecordSync, IsZero, After. rewrite Z.eqb_refl.
  destruct (Z.ltb_spec (LastSyncAt (status t)) n); cbn.
  - f_equal. lia.
  - destruct (status t); cbn in *. f_equal. lia.
Qed.

(** What scanning lines does to a status: every error line counts once, and a
    sync line moves the last sync to an instant the scan read. *)
Record scanned `{Env} (ls : list string) (from to : nat) (s s' : Status) : Prop := {
  sc_errors : Errors s' = (Errors s + Z.of_nat (length (error_lines ls))) mod 2 ^ 64;
  sc_active : ServiceActive s' = ServiceActive s;
  sc_lagmax : LagMax s' = LagMax s;
  sc_quiet : sync_lines ls = [] → LastSyncAt s' = LastSyncAt s;
  sc_sync : sync_lines ls ≠ [] →
    ∃ k, (from <= k < to)%nat ∧ LastSyncAt s' = Z.max (LastSyncAt s) (clock k);
}.

Lemma scanned_nil `{Env} a b s : 0 <= Errors s < 2 ^ 64 → scanned [] a b s s.
Proof.
  intros He. split; try done. change (error_lines []) with (@nil string). cbn [length Z.of_nat].
  rewrite Z.add_0_r, Z.mod_small; done.
Qed.

Section WatchFacts.
Context {E : Env} {Q : Querier} {Zn : Zone}.

Lemma parse_lines_scanned ls (w w' : world Watcher) :
  clock_mono E → 0 <= Errors (status (tracker (st w))) < 2 ^ 64 → parse_lines ls w = ((), w') →
  (tick w <= tick w')%nat ∧ lastPoll (st w') = lastPoll (st w) ∧ service (st w') = service (st w) ∧
  scanned ls (tick w) (tick w') (status (tracker (st w))) (status (tracker (st w'))).
Proof.
  intros Hm. revert w. induction ls as [|l ls IH]; intros w He; cbn [parse_lines]; unfold_M.
  { intros [= <-]. repeat (split; [done|]). by apply scanned_nil. }
  unfold parseLine. unfold_M. destruct (isErr l) eqn:Hl; [|destruct (isSync l) eqn:Hs]; cbn -[RecordSync];
    intros (Ht & Hp & Hv & [H1 H2 H3 H4 H5])%IH; cbn -[RecordSync] in *;
    rewrite ?RecordSync_now in *; cbn in *; try done; try (by apply Z.mod_pos_bound);
    (split; [lia|]); do 2 (split; [done|]);
    (split; [rewrite H1, error_lines_cons, Hl| done | done | rewrite sync_lines_cons | rewrite sync_lines_cons]);
    rewrite ?(isSync_not_isErr l), ?Hs by done; try done.
  - cbn [length]. rewrite Zplus_mod_idemp_l. f_equal. lia.
  - intros _. destruct (decide (sync_lines ls = [])) as [Hn|Hn].
    + exists (tick w). split; [lia|]. by rewrite H4.
    + destruct (H5 Hn) as (k & Hk & ->). exists k. split; [lia|].
      pose proof (Hm (tick w) k ltac:(lia)). lia.
Qed.

(** The journal lines a poll starting in [w] sees. *)
Definition since_of (w : world Watcher) : Z :=
  if IsZero (lastPoll (st w)) then TimeAdd (clock (S (tick w))) (- initialLookback (st w)) else lastPoll (st w).

Definition journal (w : world Watcher) : string * option err :=
  Query (S (S (tick w)))
    ["journalctl"; "-u"; service (st w); "--since"; FormatSince (since_of w); "--no-pager"; "-o"; "short-iso"].

Definition journal_lines (w : world Watcher) : list string :=
  match journal w with
  | (out, None) => scan_lines out
  | (_, Some _) => []
  end.

Definition unit_active (w : world Watcher) : bool :=
  bool_decide ((Query (tick w) ["systemctl"; "is-active"; "--quiet"; service (st w)]).2 = None).

(** One poll, on every path: the active flag is what systemd answers; every
    journal line since the previous poll with an error keyword counts as one
    error; a line with a sync keyword and no error keyword moves the last sync to
    the instant of the scan, never back; nothing else changes.  The next poll
    starts from this one's instant, also when the journal could not be read. *)
Lemma poll_spec (w : world Watcher) :
  clock_mono E → 0 <= Errors (status (tracker (st w))) < 2 ^ 64 →
  ∃ w', poll w = ((), w') ∧ (S (S (S (tick w))) <= tick w')%nat ∧
    lastPoll (st w') = clock (S (tick w)) ∧ service (st w') = service (st w) ∧
    scanned (journal_lines w) (S (S (S (tick w)))) (tick w')
      (status (SetServiceActive (unit_active w) (tracker (st w)))) (status (tracker (st w'))).
Proof.
  intros Hm He. destruct (poll w) as [[] w'] eqn:Hp. exists w'. split; [done|].
  revert Hp. unfold poll, get, run_query, modify, now. unfold_M. cbn -[FormatSince bool_decide TimeAdd].
  unfold journal_lines, unit_active. destruct (Query (tick w) _) as [o1 e1]. cbn [snd].
  destruct (journal w) as [out oe] eqn:Hj. unfold journal, since_of in Hj.
  cbn -[FormatSince bool_decide TimeAdd]. rewrite Hj. destruct oe as [e|]; cbn -[bool_decide]; intros Hp.
  { simplify_eq/=. repeat (split; [done|]). by apply scanned_nil. }
  case_bool_decide as Hout.
  - simplify_eq/=. repeat (split; [done|]). by apply scanned_nil.
  - apply parse_lines_scanned in Hp as (Ht & Hl & Hs & HS); [|done|done]. by cbn in *.
Qed.
End WatchFacts.

Lemma poll_health_aux now maxLag t :
  Healthy now maxLag t = true ↔
  ServiceActive (status t) = true ∧ LastSyncAt (status t) ≠ zero_time ∧
  TimeSub now (LastSyncAt (status t)) <= maxLag.
Proof.
  unfold Healthy, IsZero. destruct (ServiceActive (status t)); cbn; [|naive_solver].
  destruct (Z.eqb_spec (LastSyncAt (status t)) zero_time); [naive_solver|].
  rewrite Z.leb_le. naive_solver.
Qed.

(** C33. What a poll means for readiness: after a poll of an active unit whose
    journal shows a sync, the tracker is healthy for [maxLag] counted from the
    poll (not from the sync, whose own time stamp is not read); after a poll whose
    journal shows none, health is what the previously recorded sync gives.  Every
    line with an error keyword counts as one error, and the next poll starts from
    this one's instant, also when the journal could not be read. *)
Theorem poll_health `{E : Env, Q : Querier, Zn : Zone} (w w' : world Watcher) t maxLag :
  clock_mono E → 0 <= Errors (status (tracker (st w))) < 2 ^ 64 →
  zero_time < clock 0 → zero_time <= LastSyncAt (status (tracker (st w))) →
  in_int64 maxLag →
  poll w = ((), w') →
  (unit_active w = true → sync_lines (journal_lines w) ≠ [] → t - clock (S (tick w)) <= maxLag →
     Healthy t maxLag (tracker (st w')) = true) ∧
  (sync_lines (journal_lines w) = [] →
     Healthy t maxLag (tracker (st w')) =
     Healthy t maxLag (SetServiceActive (unit_active w) (tracker (st w)))) ∧
  Errors (status (tracker (st w'))) =
    (Errors (status (tracker (st w))) + Z.of_nat (length (error_lines (journal_lines w)))) mod 2 ^ 64 ∧
  lastPoll (st w') = clock (S (tick w)).
Proof.
  intros Hm He Hz Hl Hmax Hp. destruct (poll_spec w Hm He) as (w'' & Hp' & Ht & Hlp & _ & HS).
  rewrite Hp in Hp'. simplify_eq. destruct HS as [Her Ha _ Hq Hs]. split; [|split].
  - intros Hu Hne Hage. destruct (Hs Hne) as (k & Hk & Hlast). apply poll_health_aux.
    rewrite Ha. split; [done|]. rewrite Hlast. cbn.
    pose proof (Hm 0%nat k ltac:(lia)). pose proof (Hm (S (tick w)) k ltac:(lia)).
    split; [lia|]. apply sat64_le; [done|]. left. lia.
  - intros Hne. specialize (Hq Hne). unfold Healthy. by rewrite Hq, Ha.
  - by split.
Qed.

(** ** Witnesses *)

Definition ticking : Env := {|
  fault := λ _, None;
  clock := λ n, 1700000000 * Second + Z.of_nat n * Second;
  ctx_done := λ _, false;
|}.

Definition one_sync : Querier := {|
  Query := λ _ args, match args with
                     | "journalctl" :: _ => ("12:00 litestream: WAL Segment written", None)
                     | _ => ("", None)
                     end;
|}.

Definition utc : Zone := {| zone_offset := λ _, 0 |}.

Definition start_world : world Watcher :=
  mkWorld (NewWatcher (NewTracker 0) (mkWatcherConfig "" 0 0)) 0.

Lemma Healthy_iff_lag_witness :
  Healthy (5 * Second) (10 * Second) (SetServiceActive true (RecordSync 0 (2 * Second) (NewTracker 0))) =
  true && (Lag (5 * Second) (SetServiceActive true (RecordSync 0 (2 * Second) (NewTracker 0))) <=? 10 * Second).
Proof.
  apply (Healthy_iff_lag (5 * Second) (10 * Second)
    (SetServiceActive true (RecordSync 0 (2 * Second) (NewTracker 0)))). by_decide.
Defined.

Lemma poll_health_witness :
  Healthy (clock (Env := ticking) 9) (60 * Second)
    (tracker (st (poll (E := ticking) (Q := one_sync) (Zn := utc) start_world).2)) = true.
Proof.
  destruct (poll (E := ticking) (Q := one_sync) (Zn := utc) start_world) as [[] w'] eqn:Hp.
  apply (@poll_health ticking one_sync utc start_world w' (clock (Env := ticking) 9) (60 * Second)); try done.
  intros i j Hij. cbn. unfold Second. lia.
Defined.
