(* ===== verification/Sha256.v ===== *)
(** * SHA-256 ([crypto/sha256])

    The digest the controller stores for a node's secret, as FIPS 180-4 defines
    it, on 32-bit words kept in [Z].  The development uses that a digest is 32
    bytes; the constants and rounds are there so that hashes evaluate. *)
From Stdlib Require Import Ascii ZArith Lia.
From S2P Require Import Prelude GoStrings Base64.

Local Open Scope Z_scope.

Definition add32 (a b : Z) : Z := (a + b) mod 2 ^ 32.
Definition rotr (n x : Z) : Z := Z.lor (Z.shiftr x n) (Z.shiftl x (32 - n) mod 2 ^ 32).
Definition not32 (x : Z) : Z := Z.lxor x (2 ^ 32 - 1).

Definition Ch (x y z : Z) : Z := Z.lxor (Z.land x y) (Z.land (not32 x) z).
Definition Maj (x y z : Z) : Z := Z.lxor (Z.lxor (Z.land x y) (Z.land x z)) (Z.land y z).
Definition Sigma0 (x : Z) : Z := Z.lxor (Z.lxor (rotr 2 x) (rotr 13 x)) (rotr 22 x).
Definition Sigma1 (x : Z) : Z := Z.lxor (Z.lxor (rotr 6 x) (rotr 11 x)) (rotr 25 x).
Definition sigma0 (x : Z) : Z := Z.lxor (Z.lxor (rotr 7 x) (rotr 18 x)) (Z.shiftr x 3).
Definition sigma1 (x : Z) : Z := Z.lxor (Z.lxor (rotr 17 x) (rotr 19 x)) (Z.shiftr x 10).

(** The round constants: the first 32 bits of the fractional parts of the cube
    roots of the first 64 primes; the initial words use square roots of the first
    eight. *)
Definition is_prime_b (n : Z) : bool :=
  forallb (λ d, negb (n mod (Z.of_nat d + 2) =? 0)) (seq 0 (Z.to_nat (Z.sqrt n) - 1)).

Definition primes64 : list Z :=
  Eval vm_compute in List.filter is_prime_b ((λ k, Z.of_nat k + 2) <$> seq 0 310).

(** The integer cube root of [n], by bits from [2^i] down. *)
Fixpoint cbrt_bits (i : nat) (r n : Z) : Z :=
  let r' := r + 2 ^ Z.of_nat i in
  let r := if r' * r' * r' <=? n then r' else r in
  match i with O => r | S i' => cbrt_bits i' r n end.

Definition K256 : list Z :=
  Eval vm_compute in (λ p, cbrt_bits 36 0 (p * 2 ^ 96) mod 2 ^ 32) <$> primes64.

Record digest := Digest { hA : Z; hB : Z; hC : Z; hD : Z; hE : Z; hF : Z; hG : Z; hH : Z }.

Definition init256 : digest :=
  Eval vm_compute in
  match (λ p, Z.sqrt (p * 2 ^ 64) mod 2 ^ 32) <$> take 8 primes64 with
  | [a; b; c; d; e; f; g; h] => Digest a b c d e f g h
  | _ => Digest 0 0 0 0 0 0 0 0
  end.

(** The message schedule: the sixteen words of the block, then each word from
    the sixteen before it, newest first. *)
Fixpoint schedule (n : nat) (ws : list Z) : list Z :=
  match n with
  | O => ws
  | S n' =>
      let w i := nth i ws 0 in
      schedule n' (add32 (add32 (sigma1 (w 1%nat)) (w 6%nat)) (add32 (sigma0 (w 14%nat)) (w 15%nat)) :: ws)
  end.

Definition round (d : digest) (kw : Z * Z) : digest :=
  let t1 := add32 (add32 (hH d) (Sigma1 (hE d)))
                  (add32 (Ch (hE d) (hF d) (hG d)) (add32 kw.1 kw.2)) in
  let t2 := add32 (Sigma0 (hA d)) (Maj (hA d) (hB d) (hC d)) in
  Digest (add32 t1 t2) (hA d) (hB d) (hC d) (add32 (hD d) t1) (hE d) (hF d) (hG d).

Definition block_words (bs : list Z) : list Z :=
  (fix go bs := match bs with
    | a :: b :: c :: d :: r => (a * 2 ^ 24 + b * 2 ^ 16 + c * 2 ^ 8 + d) :: go r
    | _ => []
    end) bs.

Definition compress (d : digest) (block : list Z) : digest :=
  let ws := rev (schedule 48 (rev (block_words block))) in
  let r := fold_left round (zip K256 ws) d in
  Digest (add32 (hA d) (hA r)) (add32 (hB d) (hB r)) (add32 (hC d) (hC r)) (add32 (hD d) (hD r))
         (add32 (hE d) (hE r)) (add32 (hF d) (hF r)) (add32 (hG d) (hG r)) (add32 (hH d) (hH r)).

Definition be_bytes (n : nat) (x : Z) : list Z :=
  (λ i, Z.shiftr x (8 * Z.of_nat i) mod 256) <$> rev (seq 0 n).

Definition pad (msg : list Z) : list Z :=
  let len := length msg in
  (msg ++ [128] ++ replicate ((64 - (len + 9) mod 64) mod 64) 0 ++ be_bytes 8 (8 * Z.of_nat len))%list.

Fixpoint blocks (n : nat) (d : digest) (bs : list Z) : digest :=
  match n with
  | O => d
  | S n' => blocks n' (compress d (take 64 bs)) (drop 64 bs)
  end.

Definition digest_bytes (d : digest) : list Z :=
  ([hA d; hB d; hC d; hD d; hE d; hF d; hG d; hH d] ≫= be_bytes 4)%list.

Definition Sum256 (msg : list Z) : list Z :=
  let p := pad msg in digest_bytes (blocks (length p / 64) init256 p).

(** [[]byte(s)]. *)
Definition bytes_of (s : string) : list Z := Z.of_N ∘ N_of_ascii <$> String.list_ascii_of_string s.

(** The example of FIPS 180-4, appendix B.1. *)
Example sha256_abc :
  hex_encode (Sum256 (bytes_of "abc")) =
  "ba7816bf8f01cfea414140de5dae2223b00361a396177a9cb410ff61f20015ad"%string.
Proof. vm_compute. reflexivity. Qed.

Lemma be_bytes_byte n x : Forall is_byte (be_bytes n x).
Proof.
  apply Forall_fmap, Forall_true. intros i. cbn. unfold is_byte. apply Z.mod_pos_bound. lia.
Qed.

Lemma Sum256_byte msg : Forall is_byte (Sum256 msg).
Proof.
  apply Forall_forall. intros x (w & Hx & _)%list_elem_of_bind.
  by eapply Forall_forall in Hx; [|apply be_bytes_byte].
Qed.

Lemma Sum256_length msg : length (Sum256 msg) = 32%nat.
Proof. unfold Sum256, digest_bytes. reflexivity. Qed.
