(* ===== verification/ControllerDB.v ===== *)
(** * The controller database ([internal/controller/migrations], [db.go])

    Tables [nodes], [probe_results] and [controller_meta] as a state, with the
    constraints the schema declares.  The connection pool has one connection
    ([SetMaxOpenConns(1)]), so statements, and whole transactions, never overlap;
    what interleaves is the order of statements of different requests. *)
From Stdlib Require Import Ascii ZArith Lia.
From Stdlib Require Import SpecFloat.
From stdpp Require Import sorting.
From S2P Require Import Prelude GoTime GoStrings GoNumbers.

Local Open Scope string_scope.
Local Open Scope Z_scope.

(** ** Tables *)

Record node_row := NodeRow {
  n_role : string;
  n_secret_hash : string;
  n_created_at : string;
  n_last_seen_at : option string;
  n_spool_depth : Z;
  n_spool_oldest_ts : option string;
  n_spool_drops_total : Z;
  n_spool_updated_at : option string;
  n_address : option string;
  n_disabled : Z;
}.

Record result_row := ResultRow {
  r_id : Z;
  r_source_id : string;
  r_probe_run_id : string;
  r_target_id : string;
  r_observed_at : string;
  r_latency_ms : option spec_float;
  r_error : option string;
  r_received_at : string;
}.

(** [controller_meta] holds the one key [targets_version]. *)
Record cdb := CDB {
  nodes : gmap string node_row;
  results : list result_row;
  r_autoinc : Z;
  targets_version : option Z;
}.

#[export] Instance node_row_eq_dec : EqDecision node_row.
Proof. solve_decision. Defined.
#[export] Instance result_row_eq_dec : EqDecision result_row.
Proof. solve_decision. Defined.

(** The database after the migrations. *)
Definition migrated : cdb := CDB ∅ [] 0 (Some 1).

Definition set_nodes (m : gmap string node_row) (db : cdb) : cdb :=
  CDB m (results db) (r_autoinc db) (targets_version db).

(** ** The driver *)

Definition isUniqueViolation (e : err) : bool :=
  Contains (ToLower (Error e)) "unique constraint failed".

(** SQLite's texts for the constraints the schema declares. *)
Class CtlDriver := {
  unique_error : err;
  fk_error : err;
  check_error : err;
  unique_error_text : isUniqueViolation unique_error = true;
  fk_error_text : isUniqueViolation fk_error = false;
  check_error_text : isUniqueViolation check_error = false;
}.

(** The messages of SQLite 3. *)
Definition sqlite_driver : CtlDriver.
Proof.
  refine {|
    unique_error := ErrDriver "constraint failed: UNIQUE constraint failed: probe_results.source_id, probe_results.probe_run_id, probe_results.target_id (2067)";
    fk_error := ErrDriver "constraint failed: FOREIGN KEY constraint failed (787)";
    check_error := ErrDriver "constraint failed: CHECK constraint failed: role IN ('spoke', 'hub', 'listener') (275)";
  |}; vm_compute; reflexivity.
Defined.

(** ** Components that hold the database

    A component's state [S] contains the database; its statements see and change
    only that part. *)
Class HasDB (S : Type) := {
  the_db : S → cdb;
  with_db : cdb → S → S;
  the_with d s : the_db (with_db d s) = d;
}.

#[export] Instance cdb_HasDB : HasDB cdb := {| the_db := λ d, d; with_db := λ d _, d; the_with := λ d _, eq_refl |}.

Section Statements.
Context {E : Env} {S : Type} {HD : HasDB S}.

Definition exec {A} (f : Z → cdb → res (A * cdb)) : M S (res A) :=
  stmt (λ t s, '(a, d) ← f t (the_db s); Ok (a, with_db d s)).

Definition query {A} (f : cdb → A) : M S (res A) := exec (λ _ d, Ok (f d, d)).

(** [rows.Err()] after the iteration: the cursor may fail where the query did not. *)
Definition rows_Err : M S (option err) := λ w,
  (fault (tick w), mkWorld (st w) (Datatypes.S (tick w))).

(** A successful statement, when nothing fails. *)
Lemma db_exec_ff {A} (f : Z → cdb → res (A * cdb)) (w : world S) a d :
  fault_free E → f (clock (tick w)) (the_db (st w)) = Ok (a, d) →
  exec f w = (Ok a, mkWorld (with_db d (st w)) (Datatypes.S (tick w))).
Proof. intros [Hf _] He. unfold exec, stmt. rewrite Hf, He. done. Qed.

Lemma db_exec_ff_err {A} (f : Z → cdb → res (A * cdb)) (w : world S) e :
  fault_free E → f (clock (tick w)) (the_db (st w)) = Err e →
  exec f w = (Err e, mkWorld (st w) (Datatypes.S (tick w))).
Proof. intros [Hf _] He. unfold exec, stmt. rewrite Hf, He. done. Qed.

Lemma db_query_ff {A} (f : cdb → A) (w : world S) :
  fault_free E →
  query f w = (Ok (f (the_db (st w))), mkWorld (with_db (the_db (st w)) (st w)) (Datatypes.S (tick w))).
Proof. intros H. by apply db_exec_ff. Qed.

(** A statement in any environment. *)
Lemma db_exec_run {A} (f : Z → cdb → res (A * cdb)) (w w' : world S) r :
  exec f w = (r, w') →
  tick w' = Datatypes.S (tick w) ∧
  match r with
  | Ok a => fault (tick w) = None ∧ f (clock (tick w)) (the_db (st w)) = Ok (a, the_db (st w'))
  | Err e => st w' = st w ∧
      (fault (tick w) = Some e ∨ (fault (tick w) = None ∧ f (clock (tick w)) (the_db (st w)) = Err e))
  end.
Proof.
  unfold exec, stmt. destruct (fault (tick w)) as [e|] eqn:Hf; [intros [= <- <-]; cbn; auto|].
  destruct (f (clock (tick w)) (the_db (st w))) as [[a d]|e] eqn:He; cbn; intros [= <- <-]; cbn; rewrite ?the_with; auto.
Qed.

(** A statement relates the database before and after it. *)
Definition db_moves {A} (R : relation cdb) (m : M S A) : Prop :=
  moves (λ s s', R (the_db s) (the_db s')) m.

Lemma db_moves_exec {A} (R : relation cdb) `{!PreOrder R} (f : Z → cdb → res (A * cdb)) :
  (∀ n d a d', f (clock n) d = Ok (a, d') → R d d') → db_moves R (exec f).
Proof.
  intros Hf. apply moves_stmt.
  - split; [intros s; reflexivity|intros s1 s2 s3 H1 H2; by etransitivity].
  - intros n s a s'. destruct (f (clock n) (the_db s)) as [[b d]|] eqn:He; cbn; [|done].
    intros [= -> <-]. rewrite the_with. by eapply Hf.
Qed.

Lemma db_moves_query {A} (R : relation cdb) `{!PreOrder R} (f : cdb → A) : db_moves R (query f).
Proof. apply db_moves_exec; [done|]. intros n d a d' [= _ <-]. reflexivity. Qed.

Lemma db_moves_rows_Err (R : relation cdb) `{!PreOrder R} : db_moves R rows_Err.
Proof. intros w. reflexivity. Qed.
End Statements.

#[export] Instance db_preorder {S} `{HasDB S} (R : relation cdb) `{!PreOrder R} :
  PreOrder (λ s s' : S, R (the_db s) (the_db s')).
Proof. split; [intros s; reflexivity|intros s1 s2 s3 H1 H2; by etransitivity]. Qed.

(** ** Ordering by id ([ORDER BY id ASC], binary collation) *)

Definition string_le (a b : string) : Prop := String.leb a b = true.

#[export] Instance string_le_dec : RelDecision string_le.
Proof. intros a b. unfold string_le. apply _. Defined.

Definition key_le {A} (p q : string * A) : Prop := string_le p.1 q.1.

#[export] Instance key_le_dec {A} : RelDecision (@key_le A).
Proof. intros p q. unfold key_le. apply _. Defined.

Definition by_id {A} (m : gmap string A) : list (string * A) := merge_sort key_le (map_to_list m).

Lemma elem_of_by_id {A} (m : gmap string A) k x : (k, x) ∈ by_id m ↔ m !! k = Some x.
Proof. unfold by_id. rewrite merge_sort_Permutation. apply elem_of_map_to_list. Qed.

(** ** A concrete environment *)

Definition calm : Env := {|
  fault := λ _, None;
  clock := λ n, 1700000000 * Second + Z.of_nat n * Second;
  ctx_done := λ _, false;
|}.

Lemma calm_ff : fault_free calm.
Proof. done. Qed.

Lemma calm_mono : clock_mono calm.
Proof. intros i j Hij. cbn. unfold Second. lia. Qed.

(** One hub and one spoke. *)
Definition example_hub : node_row :=
  NodeRow "hub" "00" "2026-01-01 00:00:00" None 0 None 0 None (Some "10.0.0.1:9000") 0.
Definition example_spoke : node_row :=
  NodeRow "spoke" "00" "2026-01-01 00:00:00" None 3 None 7 None None 0.

Definition example_db : cdb :=
  CDB (list_to_map [("hub-1", example_hub); ("spoke-1", example_spoke)]) [] 0 (Some 4).
