(* ===== verification/Migrate.v ===== *)
(** * Migrations and opening the databases

    [dbmigrate.go: Up], the scripts under [spool/migrations] and
    [controller/migrations], [spool.go: Open, Close, runMigrations] and
    [db.go: OpenDB].

    golang-migrate and the SQLite driver are parameters.  What is used of
    golang-migrate is what its documentation says: the number of the last
    migration and a dirty mark are kept in the file, [Up] applies the pending
    scripts in order, each in a transaction of its own, refuses a dirty file, and
    says [ErrNoChange] when there is nothing to apply. *)
From Stdlib Require Import ZArith Lia.
From S2P Require Import Prelude GoTime GoStrings Spool SpoolFacts ControllerDB.

Local Open Scope string_scope.
Local Open Scope Z_scope.

(** ** Database files *)

(** The tables, the number of the last migration (0: none) and the dirty mark. *)
Record dbfile (T : Type) := DbFile { f_version : nat; f_dirty : bool; f_tables : T }.
Arguments DbFile {T} f_version f_dirty f_tables.
Arguments f_version {T} _.
Arguments f_dirty {T} _.
Arguments f_tables {T} _.

(** A file and the number of handles ([sql.DB]) open on it. *)
Record disk (T : Type) := Disk { d_file : dbfile T; d_handles : nat }.
Arguments Disk {T} d_file d_handles.
Arguments d_file {T} _.
Arguments d_handles {T} _.

(** An up script. *)
Definition migration (T : Type) : Type := T → res T.

Fixpoint apply_all {T} (ms : list (migration T)) (t : T) : res T :=
  match ms with
  | [] => Ok t
  | m :: ms' => t' ← m t; apply_all ms' t'
  end.

Lemma apply_all_app {T} (a b : list (migration T)) t : apply_all (a ++ b) t = t' ← apply_all a t; apply_all b t'.
Proof. revert t. induction a as [|m a IH]; intros t; cbn; [done|]. destruct (m t); cbn; [apply IH|done]. Qed.

(** ** Parameters *)

(** What opening the driver reports at a step: of [sql.Open], [db.Ping], [fs.Sub]
    on the embedded scripts and [db.Close]. *)
Class SqlOpen := {
  sql_Open : nat → string → option err;
  Ping : nat → option err;
  fs_Sub : nat → option err;
  db_Close : nat → option err;
}.

(** golang-migrate: the source, the driver and the instance, and [m.Up]. *)
Class Migrator (T : Type) := {
  iofs_New : nat → option err;
  WithInstance : nat → option err;
  NewWithInstance : nat → string → option err;
  m_Up : nat → list (migration T) → dbfile T → option err * dbfile T;
  driver_fault : nat → option err;
}.

Class MigratorSpec (T : Type) {Mg : Migrator T} : Prop := {
  up_done n ms f f' : m_Up n ms f = (None, f') →
    f_dirty f = false ∧ (f_version f <= length ms)%nat ∧ f_dirty f' = false ∧ f_version f' = length ms ∧
    apply_all (drop (f_version f) ms) (f_tables f) = Ok (f_tables f');
  up_no_change n ms f e f' : m_Up n ms f = (Some e, f') → errors_Is e ErrNoChange = true →
    f' = f ∧ f_dirty f = false ∧ f_version f = length ms;
  up_failed n ms f e f' : m_Up n ms f = (Some e, f') → errors_Is e ErrNoChange = false →
    ∃ k, apply_all (take k (drop (f_version f) ms)) (f_tables f) = Ok (f_tables f') ∧
      (f_dirty f' = false → f_dirty f = false ∧ f_version f' = (f_version f + k)%nat ∧ (k <= length ms - f_version f)%nat);
  up_reason n ms f e f' : m_Up n ms f = (Some e, f') → errors_Is e ErrNoChange = false → driver_fault n = None →
    f_dirty f = false → (f_version f <= length ms)%nat → is_Ok (apply_all (drop (f_version f) ms) (f_tables f)) = false;
}.

(** ** [dbmigrate.Up] and opening *)

Section Open.
Context {T : Type} {SO : SqlOpen} {Mg : Migrator T}.
Abbreviation MD := (M (disk T)).

(** A call of the libraries. *)
Definition lib (f : nat → option err) : MD (option err) := λ w, (f (tick w), mkWorld (st w) (Datatypes.S (tick w))).

Definition call_Up (ms : list (migration T)) : MD (option err) := λ w,
  let '(e, f') := m_Up (tick w) ms (d_file (st w)) in
  (e, mkWorld (Disk f' (d_handles (st w))) (Datatypes.S (tick w))).

Definition acquire : MD () := λ w, ((), mkWorld (Disk (d_file (st w)) (Datatypes.S (d_handles (st w)))) (tick w)).

(** [db.Close] *)
Definition close_db : MD (option err) := λ w,
  (db_Close (tick w), mkWorld (Disk (d_file (st w)) (pred (d_handles (st w)))) (Datatypes.S (tick w))).

Definition Up (ms : list (migration T)) (dbName : string) : MD (option err) :=
  e1 ← lib iofs_New;
  match e1 with Some e => mret (Some (ErrWrap "dbmigrate: open source" e)) | None =>
  e2 ← lib WithInstance;
  match e2 with Some e => mret (Some (ErrWrap "dbmigrate: driver" e)) | None =>
  e3 ← lib (λ n, NewWithInstance n dbName);
  match e3 with Some e => mret (Some (ErrWrap "dbmigrate: new" e)) | None =>
  e4 ← call_Up ms;
  match e4 with
  | Some e => if negb (errors_Is e ErrNoChange) then mret (Some (ErrWrap "dbmigrate: up" e)) else mret None
  | None => mret None
  end end end end.
End Open.

(** ** The scripts of the spool *)

(** [INSERT OR IGNORE INTO spool_meta] *)
Definition insert_or_ignore (k : string) (v : Z) (m : gmap string Z) : gmap string Z :=
  match m !! k with Some _ => m | None => <[k := v]> m end.

(** [0001_init.up.sql]: the tables must not exist. *)
Definition spool_0001 : migration (option spool_db) := λ t,
  match t with
  | Some _ => Err (ErrDriver "table spool already exists")
  | None => Ok (Some (SpoolDB [] 0 (insert_or_ignore "drops_total" 0 ∅)))
  end.

(** [0002_drain_snapshot.up.sql] *)
Definition add_snapshot (db : spool_db) : spool_db :=
  SpoolDB (rows db) (autoinc db)
    (insert_or_ignore "last_drops_total" 0 (insert_or_ignore "last_oldest_age_secs" 0 (insert_or_ignore "last_depth" 0 (meta db)))).

Definition spool_0002 : migration (option spool_db) := λ t,
  match t with
  | Some db => Ok (Some (add_snapshot db))
  | None => Err (ErrDriver "no such table: spool_meta")
  end.

Definition spool_migrations : list (migration (option spool_db)) := [spool_0001; spool_0002].

(** ** The scripts of the controller *)

(** Rows of [nodes] before [address] and [disabled]. *)
Record node_v1 := NodeV1 {
  v1_role : string;
  v1_secret_hash : string;
  v1_created_at : string;
  v1_last_seen_at : option string;
  v1_spool_depth : Z;
  v1_spool_oldest_ts : option string;
  v1_spool_drops_total : Z;
  v1_spool_updated_at : option string;
}.

Inductive ctl_tables :=
  | NoTables
  | V1 (nodes : gmap string node_v1) (results : list result_row) (autoinc : Z)
  | V2 (db : cdb).

(** [0001_init.up.sql] *)
Definition ctl_0001 : migration ctl_tables := λ t,
  match t with NoTables => Ok (V1 ∅ [] 0) | _ => Err (ErrDriver "table nodes already exists") end.

(** The columns of [0002_targets.up.sql]: no address, not disabled. *)
Definition add_columns (n : node_v1) : node_row :=
  NodeRow (v1_role n) (v1_secret_hash n) (v1_created_at n) (v1_last_seen_at n) (v1_spool_depth n) (v1_spool_oldest_ts n)
    (v1_spool_drops_total n) (v1_spool_updated_at n) None 0.

(** [0002_targets.up.sql] *)
Definition ctl_0002 : migration ctl_tables := λ t,
  match t with
  | NoTables => Err (ErrDriver "no such table: nodes")
  | V1 ns rs seq => Ok (V2 (CDB (add_columns <$> ns) rs seq (Some 1)))
  | V2 _ => Err (ErrDriver "duplicate column name: address")
  end.

Definition ctl_migrations : list (migration ctl_tables) := [ctl_0001; ctl_0002].

(** ** [spool.Open], [OpenDB] *)

Section OpenSpool.
Context {SO : SqlOpen} {Mg : Migrator (option spool_db)}.
Abbreviation MD := (M (disk (option spool_db))).

Definition runMigrations : MD (option err) :=
  e ← lib fs_Sub;
  match e with
  | Some e => mret (Some (ErrWrap "spool: migrations sub" e))
  | None => Up spool_migrations "spool"
  end.

Definition spool_dsn (path : string) : string :=
  "file:" ++ path ++
  "?_pragma=journal_mode(WAL)&_pragma=synchronous(NORMAL)&_pragma=busy_timeout(5000)&_pragma=foreign_keys(1)".

Definition Open (path : string) (cfg : Spool.Config) : MD (res Spool) :=
  if bool_decide (path = "") then mret (Err (ErrMsg "spool: path required")) else
  e1 ← lib (λ n, sql_Open n (spool_dsn path));
  match e1 with Some e => mret (Err (ErrWrap "spool: open db" e)) | None =>
  _ ← acquire;
  e2 ← lib Ping;
  match e2 with Some e => _ ← close_db; mret (Err (ErrWrap "spool: ping" e)) | None =>
  e3 ← runMigrations;
  match e3 with
  | Some e => _ ← close_db; mret (Err e)
  | None => mret (Ok (mkSpool path cfg))
  end end end.

(** [Spool.Close] *)
Definition Close : MD (option err) := close_db.
End OpenSpool.

Section OpenController.
Context {SO : SqlOpen} {Mg : Migrator ctl_tables}.
Abbreviation MD := (M (disk ctl_tables)).

Definition controller_dsn (path : string) : string :=
  "file:" ++ path ++
  "?_pragma=journal_mode(WAL)&_pragma=synchronous(FULL)&_pragma=busy_timeout(5000)&_pragma=foreign_keys(1)".

Definition OpenDB (path : string) : MD (option err) :=
  if bool_decide (path = "") then mret (Some (ErrMsg "controller: db path required")) else
  e1 ← lib (λ n, sql_Open n (controller_dsn path));
  match e1 with Some e => mret (Some (ErrWrap "controller: open db" e)) | None =>
  _ ← acquire;
  e2 ← lib Ping;
  match e2 with Some e => _ ← close_db; mret (Some (ErrWrap "controller: ping" e)) | None =>
  e3 ← lib fs_Sub;
  match e3 with Some e => _ ← close_db; mret (Some (ErrWrap "controller: migrations sub" e)) | None =>
  e4 ← Up ctl_migrations "controller";
  match e4 with
  | Some e => _ ← close_db; mret (Some e)
  | None => mret None
  end end end end.
End OpenController.

(** ** What [Up] does *)

(** All pending scripts are applied, or some of them and the file may be dirty. *)
Definition up_result {T} (ms : list (migration T)) (e : option err) (f f' : dbfile T) : Prop :=
  match e with
  | None => f_dirty f = false ∧ (f_version f <= length ms)%nat ∧ f_dirty f' = false ∧ f_version f' = length ms ∧
            apply_all (drop (f_version f) ms) (f_tables f) = Ok (f_tables f')
  | Some _ => ∃ k, apply_all (take k (drop (f_version f) ms)) (f_tables f) = Ok (f_tables f') ∧
      (f_dirty f' = false → f_dirty f = false ∧ f_version f' = (f_version f + k)%nat ∧ (k <= length ms - f_version f)%nat)
  end.

Lemma up_unchanged {T} (ms : list (migration T)) e f : up_result ms (Some e) f f.
Proof. exists 0%nat. split; [done|]. intros Hd. split; [done|]. lia. Qed.

(** No library call fails. *)
Definition library_works {T} {SO : SqlOpen} {Mg : Migrator T} : Prop :=
  ∀ n, (∀ dsn, sql_Open n dsn = None) ∧ Ping n = None ∧ fs_Sub n = None ∧ iofs_New n = None ∧ WithInstance n = None ∧
    (∀ name, NewWithInstance n name = None) ∧ driver_fault n = None.

Lemma library_lookup {T} {SO : SqlOpen} {Mg : Migrator T} :
  library_works → (∀ n dsn, sql_Open n dsn = None) ∧ (∀ n, Ping n = None) ∧ (∀ n, fs_Sub n = None) ∧ (∀ n, iofs_New n = None) ∧
  (∀ n, WithInstance n = None) ∧ (∀ n name, NewWithInstance n name = None) ∧ (∀ n, driver_fault n = None).
Proof. intros H. split_and!; intros n; apply (H n). Qed.

(** The file can be brought up to date. *)
Definition upgradable {T} (ms : list (migration T)) (f : dbfile T) : Prop :=
  f_dirty f = false ∧ (f_version f <= length ms)%nat ∧ is_Ok (apply_all (drop (f_version f) ms) (f_tables f)) = true.

Section UpFacts.
Context {T : Type} {SO : SqlOpen} {Mg : Migrator T} {MgS : MigratorSpec T}.

Lemma Up_cases ms name (w : world (disk T)) :
  let '(e, w') := Up ms name w in
  up_result ms e (d_file (st w)) (d_file (st w')) ∧ d_handles (st w') = d_handles (st w) ∧
  (library_works → upgradable ms (d_file (st w)) → e = None).
Proof.
  unfold Up, lib, call_Up. unfold_M. cbn [st tick].
  destruct (iofs_New _) eqn:E1; [split; [apply up_unchanged|split; [done|]]; intros (_&_&_&H&_)%library_lookup; by rewrite H in E1|].
  destruct (WithInstance _) eqn:E2; [split; [apply up_unchanged|split; [done|]]; intros (_&_&_&_&H&_)%library_lookup; by rewrite H in E2|].
  destruct (NewWithInstance _ _) eqn:E3; [split; [apply up_unchanged|split; [done|]]; intros (_&_&_&_&_&H&_)%library_lookup; by rewrite H in E3|].
  destruct (m_Up _ _ _) as [[e|] f'] eqn:E4; cbn [st tick d_file] in *.
  - destruct (errors_Is e ErrNoChange) eqn:Hn; cbn [negb].
    + destruct (up_no_change _ _ _ _ _ E4 Hn) as (-> & Hd & Hv). split; [|done].
      unfold up_result. cbn [st d_file]. rewrite Hv. split; [done|]. split; [done|]. split; [done|]. split; [done|]. by rewrite drop_all.
    + split; [by apply (up_failed _ _ _ _ _ E4 Hn)|]. split; [done|]. intros (_&_&_&_&_&_&Hf)%library_lookup (Hd & Hv & Hok).
      by rewrite (up_reason _ _ _ _ _ E4 Hn (Hf _) Hd Hv) in Hok.
  - split; [by apply (up_done _ _ _ _ E4)|done].
Qed.
End UpFacts.

(** ** The file of the spool *)

(** The database the file holds once it is up to date. *)
Definition file_db (f : dbfile (option spool_db)) : spool_db :=
  match f_tables f with None => Spool.migrated | Some db => add_snapshot db end.

(** A file that is not dirty has the tables of its version. *)
Definition file_ok (f : dbfile (option spool_db)) : Prop :=
  f_dirty f = false →
  match f_version f with
  | 0%nat => f_tables f = None
  | 1%nat => is_Some (f_tables f)
  | 2%nat => ∃ db, f_tables f = Some db ∧ add_snapshot db = db
  | _ => True
  end.

Lemma insert_or_ignore_id k v m : is_Some (m !! k) → insert_or_ignore k v m = m.
Proof. intros [x Hx]. unfold insert_or_ignore. by rewrite Hx. Qed.

Lemma insert_or_ignore_here k v m : is_Some (insert_or_ignore k v m !! k).
Proof. unfold insert_or_ignore. destruct (m !! k) eqn:Hk; [rewrite Hk; by eexists|]. rewrite lookup_insert_eq. by eexists. Qed.

Lemma insert_or_ignore_mono k v m k' : is_Some (m !! k') → is_Some (insert_or_ignore k v m !! k').
Proof.
  intros Hk'. unfold insert_or_ignore. destruct (m !! k); [done|].
  destruct (decide (k = k')) as [<-|]; [rewrite lookup_insert_eq; by eexists|by rewrite lookup_insert_ne].
Qed.

#[local] Hint Resolve insert_or_ignore_here insert_or_ignore_mono : nlm.

(** A database that has the keys is left alone. *)
Lemma add_snapshot_id db :
  Forall (λ k, is_Some (meta db !! k)) ["last_depth"; "last_oldest_age_secs"; "last_drops_total"] → add_snapshot db = db.
Proof.
  rewrite !Forall_cons. intros (H1 & H2 & H3 & _). unfold add_snapshot. rewrite !(insert_or_ignore_id _ _ (meta db)) by done. by destruct db.
Qed.

Lemma add_snapshot_wf db : wf_db db → add_snapshot db = db.
Proof. intros [_ _ _ _ _ Hm]. apply add_snapshot_id. by apply Forall_cons in Hm as [_ ?]. Qed.

Lemma add_snapshot_idemp db : add_snapshot (add_snapshot db) = add_snapshot db.
Proof. apply add_snapshot_id. rewrite !Forall_cons, Forall_nil. cbn. auto with nlm. Qed.

Lemma init_snapshot : add_snapshot (SpoolDB [] 0 (insert_or_ignore "drops_total" 0 ∅)) = Spool.migrated.
Proof. vm_compute. reflexivity. Qed.

Lemma migrated_snapshot : add_snapshot Spool.migrated = Spool.migrated.
Proof. apply add_snapshot_wf, migrated_wf. Qed.

Lemma spool_up_ok f f' :
  file_ok f → up_result spool_migrations None f f' → f' = DbFile 2 false (Some (file_db f)).
Proof.
  intros Hok (Hd & Hv & Hd' & Hv' & Ha). specialize (Hok Hd). destruct f as [v d t], f' as [v' d' t']. cbn in *. subst. f_equal.
  destruct v as [|[|[|v]]]; [| | |lia]; cbn in *.
  - subst t. cbn in Ha. injection Ha as <-. by rewrite init_snapshot.
  - destruct Hok as [db ->]. cbn in Ha. by injection Ha as <-.
  - destruct Hok as (db & -> & Hs). injection Ha as <-. cbn. by rewrite Hs.
Qed.

Lemma spool_up_failed e f f' :
  file_ok f → up_result spool_migrations (Some e) f f' → file_ok f' ∧ file_db f' = file_db f.
Proof.
  intros Hok (k & Ha & Hd). destruct f as [v d t], f' as [v' d' t']. unfold file_ok, file_db in *. cbn in *.
  assert (H : (t' = t ∧ (k = 0%nat ∨ (2 <= v)%nat)) ∨ ∃ db, t' = Some db ∧ add_snapshot db = match t with None => Spool.migrated | Some db => add_snapshot db end ∧
                ((2 <= v + k)%nat → add_snapshot db = db)).
  { destruct v as [|[|v]]; [| |unfold spool_migrations in Ha; cbn [drop] in Ha; rewrite drop_nil, take_nil in Ha; left; split; [cbn in Ha; congruence|lia]];
      (destruct k as [|[|k]]; cbn [drop take spool_migrations] in Ha; [left; split; [cbn in Ha; congruence|lia]|..]);
      rewrite ?take_nil in Ha; destruct t as [db|]; cbn in Ha; try discriminate; injection Ha as <-;
      right; eexists; (split; [reflexivity|]);
      rewrite ?add_snapshot_idemp, ?init_snapshot, ?migrated_snapshot; split; try done; lia. }
  destruct H as [[-> Hk]|(db & -> & Hdb & H2)].
  - split; [|done]. intros Hd'. destruct (Hd Hd') as (Hd0 & -> & Hk'). specialize (Hok Hd0).
    destruct Hk as [->|Hv]; [by rewrite Nat.add_0_r|]. assert (k = 0%nat) as -> by lia. by rewrite Nat.add_0_r.
  - rewrite Hdb. split; [|done]. intros Hd'. destruct (Hd Hd') as (_ & -> & Hk'). specialize (Hok (proj1 (Hd Hd'))).
    destruct (v + k)%nat as [|[|[|?]]] eqn:Hvk; [|by eexists|exists db; split; [done|apply H2; lia]|done].
    assert (v = 0%nat ∧ k = 0%nat) as [-> ->] by lia. cbn in Ha. subst t. discriminate.
Qed.

(** ** Opening the spool *)

Lemma spool_upgradable f : file_ok f → f_dirty f = false → (f_version f <= 2)%nat → upgradable spool_migrations f.
Proof.
  intros Hok Hd Hv. specialize (Hok Hd). split; [done|]. split; [done|]. destruct f as [v d t]. cbn in *.
  destruct v as [|[|[|v]]]; cbn in *; [by subst t|by destruct Hok as [db ->]|done|lia].
Qed.

Section OpenFacts.
Context {SO : SqlOpen} {Mg : Migrator (option spool_db)} {MgS : MigratorSpec (option spool_db)}.

Lemma Open_spec path cfg (w : world (disk (option spool_db))) :
  file_ok (d_file (st w)) →
  let '(r, w') := Open path cfg w in
  let f := d_file (st w) in let f' := d_file (st w') in
  file_ok f' ∧
  match r with
  | Ok sp => sp = mkSpool path cfg ∧ d_handles (st w') = S (d_handles (st w)) ∧ f' = DbFile 2 false (Some (file_db f))
  | Err _ => d_handles (st w') = d_handles (st w) ∧ file_db f' = file_db f
  end ∧
  (library_works → path ≠ "" → f_dirty f = false → (f_version f <= 2)%nat → is_Ok r = true).
Proof.
  intros Hok. unfold Open. case_bool_decide as Hp; [by split|]. unfold lib, acquire, close_db. unfold_M. cbn [st tick d_file d_handles].
  destruct (sql_Open _ _) eqn:E1; [split; [done|split; [done|]]; intros (H&_)%library_lookup; by rewrite H in E1|].
  destruct (Ping _) eqn:E2; [split; [done|split; [done|]]; intros (_&H&_)%library_lookup; by rewrite H in E2|].
  unfold runMigrations, lib. unfold_M. cbn [st tick].
  destruct (fs_Sub _) eqn:E3; [split; [done|split; [done|]]; intros (_&_&H&_)%library_lookup; by rewrite H in E3|].
  match goal with |- context [Up ?ms ?name ?w0] => pose proof (Up_cases ms name w0) as HU; destruct (Up ms name w0) as [e w1] end.
  cbn [st d_file d_handles] in HU. destruct HU as (Hu & Hh & Hw). destruct e as [e|]; cbn [st tick d_file d_handles].
  - destruct (spool_up_failed _ _ _ Hok Hu) as [Hok' Hdb]. split; [done|]. rewrite Hh. split; [done|].
    intros HL _ Hd Hv. by discriminate (Hw HL (spool_upgradable _ Hok Hd Hv)).
  - rewrite (spool_up_ok _ _ Hok Hu), Hh. split; [|done]. intros _. cbn. exists (file_db (d_file (st w))). split; [done|].
    unfold file_db. destruct (f_tables _); [apply add_snapshot_idemp|apply migrated_snapshot].
Qed.

(** C22. Opening the spool.  Whatever the libraries report, the file keeps its
    consistency between schema version and tables.  On success the handle is open
    and the file holds exactly the reports it held, under the newest schema; on any
    error no handle is leaked and the reports are still those; and an error needs
    a reason: with the libraries working, any clean file of a known version
    opens. *)
Theorem Open_contract path cfg (w : world (disk (option spool_db))) :
  file_ok (d_file (st w)) →
  let '(r, w') := Open path cfg w in
  let f := d_file (st w) in let f' := d_file (st w') in
  file_ok f' ∧
  match r with
  | Ok sp => sp = mkSpool path cfg ∧ d_handles (st w') = S (d_handles (st w)) ∧ f' = DbFile 2 false (Some (file_db f))
  | Err _ => d_handles (st w') = d_handles (st w) ∧ file_db f' = file_db f
  end ∧
  (library_works → path ≠ "" → f_dirty f = false → (f_version f <= 2)%nat → is_Ok r = true).
Proof. apply Open_spec. Qed.
End OpenFacts.

(** ** Opening the controller's database *)

Definition ctl_db (f : dbfile ctl_tables) : cdb :=
  match f_tables f with
  | NoTables => migrated
  | V1 ns rs seq => CDB (add_columns <$> ns) rs seq (Some 1)
  | V2 db => db
  end.

Definition ctl_file_ok (f : dbfile ctl_tables) : Prop :=
  f_dirty f = false →
  match f_version f, f_tables f with
  | 0%nat, NoTables | 1%nat, V1 _ _ _ | 2%nat, V2 _ => True
  | 0%nat, _ | 1%nat, _ | 2%nat, _ => False
  | _, _ => True
  end.

Lemma ctl_up_ok f f' : ctl_file_ok f → up_result ctl_migrations None f f' → f' = DbFile 2 false (V2 (ctl_db f)).
Proof.
  intros Hok (Hd & Hv & Hd' & Hv' & Ha). specialize (Hok Hd). destruct f as [v d t], f' as [v' d' t']. cbn in *. subst. f_equal.
  destruct v as [|[|[|v]]]; [| | |lia]; destruct t; cbn in *; try done; by injection Ha as <-.
Qed.

Lemma ctl_up_failed e f f' :
  ctl_file_ok f → up_result ctl_migrations (Some e) f f' → ctl_file_ok f' ∧ ctl_db f' = ctl_db f.
Proof.
  intros Hok (k & Ha & Hd). destruct f as [v d t], f' as [v' d' t']. unfold ctl_file_ok, ctl_db in *. cbn [f_tables f_version f_dirty] in *.
  assert (Hcase : (t' = t ∧ (k = 0%nat ∨ (2 <= v)%nat)) ∨
    (v = 0%nat ∧ k = 1%nat ∧ t = NoTables ∧ t' = V1 ∅ [] 0) ∨
    ((v = 0%nat ∧ (2 <= k)%nat ∧ t = NoTables ∨ v = 1%nat ∧ (1 <= k)%nat ∧ (∃ ns rs seq, t = V1 ns rs seq)) ∧
     t' = V2 match t with NoTables => migrated | V1 ns rs seq => CDB (add_columns <$> ns) rs seq (Some 1) | V2 db => db end)).
  { destruct v as [|[|v]]; [| |unfold ctl_migrations in Ha; cbn [drop] in Ha; rewrite drop_nil, take_nil in Ha; left; split; [cbn in Ha; congruence|lia]];
      (destruct k as [|[|k]]; cbn [drop take ctl_migrations] in Ha; [left; split; [cbn in Ha; congruence|lia]|..]);
      rewrite ?take_nil in Ha; destruct t; cbn in Ha; try discriminate; injection Ha as <-; right; [by left|right..];
      (split; [|done]); [left; split; [done|]; split; [lia|done]|right; split; [done|]; split; [lia|eauto]..]. }
  destruct Hcase as [[-> Hk]|[(-> & -> & -> & ->)|[Hc ->]]].
  - split; [|done]. intros Hd'. destruct (Hd Hd') as (Hd0 & -> & Hk'). specialize (Hok Hd0).
    destruct Hk as [->|Hv]; [by rewrite Nat.add_0_r|]. cbn in Hk'. assert (k = 0%nat) as -> by lia. by rewrite Nat.add_0_r.
  - split; [|unfold migrated; by rewrite fmap_empty]. intros Hd'. destruct (Hd Hd') as (_ & -> & _). done.
  - split; [|done]. intros Hd'. destruct (Hd Hd') as (_ & -> & Hk). cbn in Hk.
    assert (v + k = 2)%nat as -> by (destruct Hc as [(-> & ? & _)|(-> & ? & _)]; lia). done.
Qed.

Lemma ctl_upgradable f : ctl_file_ok f → f_dirty f = false → (f_version f <= 2)%nat → upgradable ctl_migrations f.
Proof.
  intros Hok Hd Hv. specialize (Hok Hd). split; [done|]. split; [done|]. destruct f as [v d t]. cbn in *.
  destruct v as [|[|[|v]]], t; cbn in *; try done; lia.
Qed.

Section OpenDBFacts.
Context {SO : SqlOpen} {Mg : Migrator ctl_tables} {MgS : MigratorSpec ctl_tables}.

(** Opening the controller's database.  A new file gets the empty registry at
    targets version 1; a file of the previous schema keeps every node with its
    role, secret and statistics and every result, its nodes enabled and without an
    address; a current file is not touched.  An error leaks no handle and loses no
    data, and needs a reason. *)
Lemma OpenDB_spec path (w : world (disk ctl_tables)) :
  ctl_file_ok (d_file (st w)) →
  let '(e, w') := OpenDB path w in
  let f := d_file (st w) in let f' := d_file (st w') in
  ctl_file_ok f' ∧
  match e with
  | None => d_handles (st w') = S (d_handles (st w)) ∧ f' = DbFile 2 false (V2 (ctl_db f))
  | Some _ => d_handles (st w') = d_handles (st w) ∧ ctl_db f' = ctl_db f
  end ∧
  (library_works → path ≠ "" → f_dirty f = false → (f_version f <= 2)%nat → e = None).
Proof.
  intros Hok. unfold OpenDB. case_bool_decide as Hp; [by split|]. unfold lib, acquire, close_db. unfold_M. cbn [st tick d_file d_handles].
  destruct (sql_Open _ _) eqn:E1; [split; [done|split; [done|]]; intros (H&_)%library_lookup; by rewrite H in E1|].
  destruct (Ping _) eqn:E2; [split; [done|split; [done|]]; intros (_&H&_)%library_lookup; by rewrite H in E2|].
  destruct (fs_Sub _) eqn:E3; [split; [done|split; [done|]]; intros (_&_&H&_)%library_lookup; by rewrite H in E3|].
  match goal with |- context [Up ?ms ?name ?w0] => pose proof (Up_cases ms name w0) as HU; destruct (Up ms name w0) as [e w1] end.
  cbn [st d_file d_handles] in HU. destruct HU as (Hu & Hh & Hw). destruct e as [e|]; cbn [st tick d_file d_handles].
  - destruct (ctl_up_failed _ _ _ Hok Hu) as [Hok' Hdb]. split; [done|]. rewrite Hh. split; [done|].
    intros HL _ Hd Hv. by discriminate (Hw HL (ctl_upgradable _ Hok Hd Hv)).
  - rewrite (ctl_up_ok _ _ Hok Hu), Hh. by split.
Qed.
End OpenDBFacts.

(** ** A migrator *)

(** Applies the scripts from [v] on; a failing one leaves the mark. *)
Fixpoint plain_run {T} (v : nat) (ms : list (migration T)) (t : T) : option err * dbfile T :=
  match ms with
  | [] => (None, DbFile v false t)
  | m :: ms' =>
      match m t with
      | Ok t' => plain_run (S v) ms' t'
      | Err e => (Some (ErrMsg (Error e)), DbFile (S v) true t)
      end
  end.

Definition plain_Up {T} (ms : list (migration T)) (f : dbfile T) : option err * dbfile T :=
  if f_dirty f then (Some (ErrMsg "Dirty database version"), f)
  else if bool_decide (f_version f = length ms) then (Some ErrNoChange, f)
  else if bool_decide (length ms < f_version f)%nat then (Some (ErrMsg "no migration found for version"), f)
  else plain_run (f_version f) (drop (f_version f) ms) (f_tables f).

Definition plain_migrator (T : Type) : Migrator T := {|
  iofs_New _ := None; WithInstance _ := None; NewWithInstance _ _ := None; m_Up _ := plain_Up; driver_fault _ := None |}.

Lemma plain_run_spec {T} v (ms : list (migration T)) t :
  let '(e, f') := plain_run v ms t in
  match e with
  | None => f_dirty f' = false ∧ f_version f' = (v + length ms)%nat ∧ apply_all ms t = Ok (f_tables f')
  | Some e => errors_Is e ErrNoChange = false ∧ f_dirty f' = true ∧ is_Ok (apply_all ms t) = false ∧
      ∃ k, apply_all (take k ms) t = Ok (f_tables f')
  end.
Proof.
  revert v t. induction ms as [|m ms IH]; intros v t; cbn [plain_run].
  { split; [done|]. split; [cbn; lia|done]. }
  destruct (m t) as [t'|e] eqn:Hm; cbn [apply_all]; rewrite Hm; cbn [mbind res_bind].
  - specialize (IH (S v) t'). destruct (plain_run _ _ _) as [[e|] f'].
    + destruct IH as (H1 & H2 & H3 & k & Hk). split; [done|]. split; [done|]. split; [done|]. exists (S k). cbn. by rewrite Hm.
    + destruct IH as (H1 & H2 & H3). split; [done|]. split; [cbn; lia|done].
  - split; [done|]. split; [done|]. split; [done|]. by exists 0%nat.
Qed.

Lemma plain_migrator_spec T : @MigratorSpec T (plain_migrator T).
Proof.
  assert (H : ∀ ms f, let '(e, f') := plain_Up ms f in
    match e with
    | None => @up_result T ms None f f'
    | Some e => (errors_Is e ErrNoChange = true ∧ f' = f ∧ f_dirty f = false ∧ f_version f = length ms) ∨
        (errors_Is e ErrNoChange = false ∧ up_result ms (Some e) f f' ∧
         (f_dirty f = false → (f_version f <= length ms)%nat → is_Ok (apply_all (drop (f_version f) ms) (f_tables f)) = false))
    end).
  { intros ms [v d t]. unfold plain_Up. cbn [f_dirty f_version f_tables]. destruct d; [right; split; [done|split; [apply up_unchanged|done]]|].
    case_bool_decide as H1; [by left|]. case_bool_decide as H2; [right; split; [done|split; [apply up_unchanged|lia]]|].
    pose proof (plain_run_spec v (drop v ms) t) as Hr. destruct (plain_run _ _ _) as [[e|] f'].
    - destruct Hr as (Hn & Hd & Ha & k & Hk). right. split; [done|]. split; [|done]. exists k. split; [done|]. congruence.
    - destruct Hr as (Hd & Hv & Ha). rewrite length_drop in Hv. cbn. split; [done|]. split; [lia|]. split; [done|]. split; [lia|done]. }
  split; cbn [m_Up plain_migrator driver_fault]; intros n ms f.
  - intros f' He. specialize (H ms f). rewrite He in H. done.
  - intros e f' He Hn. specialize (H ms f). rewrite He in H. destruct H as [(_ & ?)|(? & _)]; [done|congruence].
  - intros e f' He Hn. specialize (H ms f). rewrite He in H. destruct H as [(? & _)|(_ & ? & _)]; [congruence|done].
  - intros e f' He Hn _. specialize (H ms f). rewrite He in H. destruct H as [(? & _)|(_ & _ & ?)]; [congruence|done].
Qed.

Definition working_sql : SqlOpen := {| sql_Open _ _ := None; Ping _ := None; fs_Sub _ := None; db_Close _ := None |}.

(** A spool of the first schema with two drops. *)
Definition old_spool : dbfile (option spool_db) :=
  DbFile 1 false (Some (SpoolDB [Row 3 "2026-01-01 00:00:00" "run-3" "{}" 0 None None] 3 {["drops_total" := 2]})).

Lemma Open_contract_witness :
  let '(r, w') := @Open working_sql (plain_migrator _) "/var/lib/nlm/spool.db" (mkConfig 1 1 1 1 1) (mkWorld (Disk old_spool 0) 0) in
  r = Ok (mkSpool "/var/lib/nlm/spool.db" (mkConfig 1 1 1 1 1)) ∧ st w' = Disk (DbFile 2 false (Some (file_db old_spool))) 1 ∧
  rows (file_db old_spool) = [Row 3 "2026-01-01 00:00:00" "run-3" "{}" 0 None None].
Proof.
  pose proof (@Open_contract working_sql (plain_migrator _) (plain_migrator_spec _) "/var/lib/nlm/spool.db" (mkConfig 1 1 1 1 1)
    (mkWorld (Disk old_spool 0) 0)) as H.
  assert (H0 : file_ok old_spool) by (intros _; cbn; by eexists). specialize (H H0).
  destruct (Open _ _ _) as [r w']. destruct H as (_ & Hc & Hw). cbn [st d_file d_handles] in *.
  assert (HL : @library_works _ working_sql (plain_migrator (option spool_db))) by done.
  specialize (Hw HL ltac:(done) eq_refl ltac:(cbn; lia)). destruct r as [sp|]; [|done]. destruct Hc as (-> & Hh & Hf).
  split; [done|]. split; [|done]. destruct (st w') as [f h]. cbn in *. by subst.
Defined.
