(* ===== verification/Nodes.v ===== *)
(** * The node registry ([internal/controller/nodes.go])

    [NodeStore]'s methods as programs over any state that holds the controller
    database; a write that takes several statements is a program of several
    steps, so that requests can be interleaved between them. *)
From Stdlib Require Import Ascii ZArith Lia.
From stdpp Require Import sorting.
From S2P Require Import Prelude GoTime GoStrings Base64 Sha256 ControllerDB.

Local Open Scope string_scope.
Local Open Scope Z_scope.

(** ** Data *)

Definition RoleSpoke : string := "spoke".
Definition RoleHub : string := "hub".
Definition RoleListener : string := "listener".

Record Node := mkNode {
  ID : string;
  Role : string;
  SecretHash : string;
  Address : string;
  Disabled : bool;
}.

#[export] Instance Node_eq_dec : EqDecision Node.
Proof. solve_decision. Defined.

Definition zero_node : Node := mkNode "" "" "" "" false.

Record SpoolStats := mkSpoolStats {
  Depth : Z;
  OldestAgeSecs : Z;
  DropsTotal : Z;
  ObservedAt : Z;
  HasOldest : bool;
}.

(** ** Secrets *)

Definition HashSecret (secret : string) : string := hex_encode (Sum256 (bytes_of secret)).

(** [subtle.ConstantTimeCompare(a, b) == 1]: the accumulated difference of the
    bytes of two slices of equal length is zero. *)
Definition ConstantTimeCompare (a b : list Z) : bool :=
  if (length a =? length b)%nat
  then foldl (λ v xy, Z.lor v (Z.lxor xy.1 xy.2)) 0 (zip a b) =? 0
  else false.

Definition VerifySecret (n : Node) (presented : string) : bool :=
  match hex_decode (SecretHash n) with
  | None => false
  | Some want => ConstantTimeCompare want (Sum256 (bytes_of presented))
  end.

(** ** SQL *)

Definition node_of (id : string) (r : node_row) : Node :=
  mkNode id (n_role r) (n_secret_hash r) (default "" (n_address r)) (negb (n_disabled r =? 0)).

Definition valid_role (r : string) : bool :=
  bool_decide (r = RoleSpoke) || bool_decide (r = RoleHub) || bool_decide (r = RoleListener).

(** [INSERT ... ON CONFLICT(id) DO UPDATE]: the CHECK constraint on [role], then
    a new row with the column defaults or the four columns of the old one. *)
Definition sql_upsert `{CtlDriver} (id role hash : string) (addr : option string) (disabled : Z)
    (t : Z) (db : cdb) : res (() * cdb) :=
  if negb (valid_role role) then Err check_error
  else
    let row := match nodes db !! id with
               | None => NodeRow role hash (format_datetime t) None 0 None 0 None addr disabled
               | Some r => NodeRow role hash (n_created_at r) (n_last_seen_at r) (n_spool_depth r)
                             (n_spool_oldest_ts r) (n_spool_drops_total r) (n_spool_updated_at r) addr disabled
               end in
    Ok ((), set_nodes (<[id := row]> (nodes db)) db).

(** [DELETE FROM nodes WHERE id = ?]: refused while results refer to the node;
    returns the rows affected. *)
Definition sql_delete_node `{CtlDriver} (id : string) (db : cdb) : res (Z * cdb) :=
  match nodes db !! id with
  | None => Ok (0, db)
  | Some _ =>
      if bool_decide (id ∈ (r_source_id <$> results db)) then Err fk_error
      else Ok (1, set_nodes (delete id (nodes db)) db)
  end.

(** [UPDATE controller_meta SET value = value + 1 WHERE key = 'targets_version'] *)
Definition sql_bump (db : cdb) : cdb :=
  CDB (nodes db) (results db) (r_autoinc db) (Z.succ <$> targets_version db).

(** A hub that is probed: the WHERE clause of [HubTargetsFor] without the
    self-exclusion, giving its address. *)
Definition active_addr (r : node_row) : option string :=
  if bool_decide (n_role r = RoleHub) && (n_disabled r =? 0)
  then a ← n_address r; if bool_decide (a = "") then None else Some a
  else None.

Definition active_hubs (db : cdb) : gmap string string := omap active_addr (nodes db).

Definition sql_hub_targets (nodeID : string) (db : cdb) : list Node :=
  (λ '(id, a), mkNode id RoleHub "" a false) <$> by_id (delete nodeID (active_hubs db)).

Definition sql_spool_stats (id : string) (stats : SpoolStats) (oldest : option string) (db : cdb)
    : Z * cdb :=
  match nodes db !! id with
  | None => (0, db)
  | Some r =>
      let ts := format_datetime (ObservedAt stats) in
      (1, set_nodes (<[id := NodeRow (n_role r) (n_secret_hash r) (n_created_at r) (Some ts)
            (Depth stats) oldest (DropsTotal stats) (Some ts) (n_address r) (n_disabled r)]> (nodes db)) db)
  end.

(** ** The methods *)

Section Methods.
Context {E : Env} {D : CtlDriver} {S : Type} {HD : HasDB S}.

Definition Get (id : string) : M S (res Node) :=
  r ← query (λ db, nodes db !! id);
  mret (match r with
        | Ok (Some row) => Ok (node_of id row)
        | Ok None => Err ErrUnknownNode
        | Err e => if errors_Is e ErrNoRows then Err ErrUnknownNode
                   else Err (ErrWrap "controller: get node" e)
        end).

Definition List_ : M S (list Node * option err) :=
  r ← query (λ db, (λ '(id, row), node_of id row) <$> by_id (nodes db));
  match r with
  | Err e => mret ([], Some (ErrWrap "controller: list nodes" e))
  | Ok out => e ← rows_Err; mret (out, e)
  end.

Definition bumpTargetsVersion : M S (option err) :=
  r ← exec (λ _ db, Ok ((), sql_bump db));
  mret (match r with
        | Ok _ => None
        | Err e => Some (ErrWrap "controller: bump targets_version" e)
        end).

(** [Delete]: the error of the bump is dropped. *)
Definition Delete (id : string) : M S (option err) :=
  r ← Get id;
  match r with
  | Err e => mret (Some e)
  | Ok prior =>
      r ← exec (λ _, sql_delete_node id);
      match r with
      | Err e => mret (Some (ErrWrap "controller: delete node" e))
      | Ok affected =>
          r ← RowsAffected affected;
          match r with
          | Err e => mret (Some (ErrWrap "controller: delete rows" e))
          | Ok n =>
              if n =? 0 then mret (Some ErrNoRows)
              else if bool_decide (Role prior = RoleHub) && negb (Disabled prior)
              then _ ← bumpTargetsVersion; mret None
              else mret None
          end
      end
  end.

Definition TargetsVersion : M S (res Z) :=
  r ← query targets_version;
  mret (match r with
        | Ok (Some v) => Ok v
        | Ok None => Err (ErrWrap "controller: targets_version" ErrNoRows)
        | Err e => Err (ErrWrap "controller: targets_version" e)
        end).

(** The rows of [HubTargetsFor]. *)
Definition hub_rows (nodeID : string) : M S (res (list Node)) :=
  r ← query (sql_hub_targets nodeID);
  match r with
  | Err e => mret (Err (ErrWrap "controller: hub targets" e))
  | Ok out =>
      e ← rows_Err;
      match e with
      | Some e => mret (Err e)
      | None => mret (Ok out)
      end
  end.

(** The version it returns with them, read by another statement. *)
Definition hub_version (out : list Node) : M S (res (list Node * Z)) :=
  v ← TargetsVersion;
  mret (match v with Err e => Err e | Ok v => Ok (out, v) end).

Definition HubTargetsFor (nodeID : string) : M S (res (list Node * Z)) :=
  r ← hub_rows nodeID;
  match r with
  | Err e => mret (Err e)
  | Ok out => hub_version out
  end.

Definition hubSetChanged (prior next : Node) (priorMissing : bool) : bool :=
  let priorActive := negb priorMissing && bool_decide (Role prior = RoleHub) &&
                     negb (Disabled prior) && negb (bool_decide (Address prior = "")) in
  let nextActive := bool_decide (Role next = RoleHub) && negb (Disabled next) &&
                    negb (bool_decide (Address next = "")) in
  if negb (eqb priorActive nextActive) then true
  else if priorActive && nextActive && negb (bool_decide (Address prior = Address next)) then true
  else false.

(** The three steps of [Upsert]: read the prior row, write, bump. *)
Definition upsert_read (n : Node) : M S (res (Node * bool)) :=
  r ← Get (ID n);
  mret (match r with
        | Ok prior => Ok (prior, false)
        | Err e => if errors_Is e ErrUnknownNode then Ok (zero_node, true) else Err e
        end).

Definition upsert_write (n : Node) : M S (option err) :=
  let addr := if bool_decide (Address n = "") then None else Some (Address n) in
  let disabled := if Disabled n then 1 else 0 in
  r ← exec (sql_upsert (ID n) (Role n) (SecretHash n) addr disabled);
  mret (match r with
        | Ok _ => None
        | Err e => Some (ErrWrap "controller: upsert node" e)
        end).

Definition upsert_bump (prior n : Node) (priorMissing : bool) : M S () :=
  if hubSetChanged prior n priorMissing then _ ← bumpTargetsVersion; mret () else mret ().

Definition Upsert (n : Node) : M S (option err) :=
  r ← upsert_read n;
  match r with
  | Err e => mret (Some e)
  | Ok (prior, priorMissing) =>
      e ← upsert_write n;
      match e with
      | Some e => mret (Some e)
      | None => _ ← upsert_bump prior n priorMissing; mret None
      end
  end.

(** [UpdateSpoolStats]; the multiplication is on 64 bits. *)
Definition UpdateSpoolStats (id : string) (stats : SpoolStats) : M S (option err) :=
  let oldest :=
    if HasOldest stats
    then Some (format_datetime (TimeAdd (ObservedAt stats)
                 (wrap64 (wrap64 (- OldestAgeSecs stats) * Second))))
    else None in
  r ← exec (λ _ db, Ok (sql_spool_stats id stats oldest db));
  match r with
  | Err e => mret (Some (ErrWrap "controller: update spool stats" e))
  | Ok affected =>
      r ← RowsAffected affected;
      mret (match r with
            | Err e => Some (ErrWrap "controller: update spool stats rows" e)
            | Ok n => if n =? 0 then Some ErrNoRows else None
            end)
  end.
End Methods.

(** ** Secrets: facts *)

Lemma ct_accumulate (l : list (Z * Z)) acc :
  foldl (λ v xy, Z.lor v (Z.lxor xy.1 xy.2)) acc l = 0 ↔ acc = 0 ∧ Forall (λ xy, xy.1 = xy.2) l.
Proof.
  revert acc. induction l as [|[x y] l IH]; intros acc; cbn [foldl fst snd].
  - naive_solver.
  - rewrite IH, Z.lor_eq_0_iff, Z.lxor_eq_0_iff, Forall_cons. cbn. tauto.
Qed.

Lemma ConstantTimeCompare_eq a b : ConstantTimeCompare a b = true ↔ a = b.
Proof.
  unfold ConstantTimeCompare. destruct (Nat.eqb_spec (length a) (length b)) as [Hl|Hl]; [|naive_solver].
  rewrite Z.eqb_eq, ct_accumulate. revert b Hl.
  induction a as [|x a IH]; intros [|y b] Hl; cbn in Hl; try done.
  cbn [zip_with]. rewrite Forall_cons. cbn [fst snd]. specialize (IH b ltac:(lia)). naive_solver.
Qed.

Lemma hex_val_range c v : hex_val c = Some v → 0 <= v < 16 ∧ lower c = hex_char v.
Proof.
  intros H. assert (Hall : ∀ c, match hex_val c with
      | Some v => (0 <=? v) && (v <? 16) && bool_decide (lower c = hex_char v)
      | None => true end = true).
  { intros c'. destruct c' as [[] [] [] [] [] [] [] []]; vm_compute; reflexivity. }
  specialize (Hall c). rewrite H in Hall. apply andb_prop in Hall as [Hv Hc%bool_decide_eq_true_1].
  split; [lia|done].
Qed.

Lemma hex_val_lower c : hex_val (lower c) = hex_val c.
Proof. destruct c as [[] [] [] [] [] [] [] []]; vm_compute; reflexivity. Qed.

Lemma hex_decode_lower s : hex_decode (ToLower s) = hex_decode s.
Proof.
  revert s. fix IH 1. intros [|x [|y s]]; cbn [ToLower hex_decode]; [done|done|].
  rewrite !hex_val_lower. by rewrite IH.
Qed.

Lemma hex_decode_encode s l : hex_decode s = Some l → ToLower s = hex_encode l ∧ Forall is_byte l.
Proof.
  revert s l. fix IH 1. intros [|x [|y s]] l; cbn [ToLower hex_decode]; [by intros [= <-]|done|].
  destruct (hex_val x) as [a|] eqn:Hx, (hex_val y) as [b|] eqn:Hy, (hex_decode s) as [l'|] eqn:Hs; cbn; try done.
  intros [= <-]. apply hex_val_range in Hx as [Ha ->], Hy as [Hb ->].
  destruct (IH s l' Hs) as [-> Hl]. split; [|constructor; [unfold is_byte; lia|done]].
  cbn [hex_encode]. do 2 f_equal; [f_equal; div_lia|]. f_equal. f_equal. div_lia.
Qed.

Lemma VerifySecret_hash n p : VerifySecret n p = true ↔ ToLower (SecretHash n) = HashSecret p.
Proof.
  unfold VerifySecret, HashSecret. split.
  - destruct (hex_decode (SecretHash n)) as [want|] eqn:Hd; [|done].
    intros ->%ConstantTimeCompare_eq. by apply hex_decode_encode in Hd as [-> _].
  - intros He. rewrite <- hex_decode_lower, He, hex_roundtrip by apply Sum256_byte.
    by apply ConstantTimeCompare_eq.
Qed.

Lemma ToLower_HashSecret s : ToLower (HashSecret s) = HashSecret s.
Proof.
  unfold HashSecret. pose proof (hex_roundtrip _ (Sum256_byte (bytes_of s))) as H.
  by apply hex_decode_encode in H as [-> _].
Qed.

(** Secret verification: a presented secret is accepted exactly when the
    stored hash is, up to letter case, the hash [HashSecret] computes for it; in
    particular the secret a hash was made from is accepted, and a stored value
    that is not hexadecimal or not 32 bytes accepts nothing. *)
Theorem VerifySecret_iff n p :
  (VerifySecret n p = true ↔ ToLower (SecretHash n) = HashSecret p) ∧
  (∀ s, SecretHash n = HashSecret s →
     VerifySecret n s = true ∧ (VerifySecret n p = true ↔ Sum256 (bytes_of p) = Sum256 (bytes_of s))) ∧
  (∀ l, hex_decode (SecretHash n) = Some l → length l ≠ 32%nat → VerifySecret n p = false).
Proof.
  split; [apply VerifySecret_hash|]. split.
  - intros s Hs. rewrite !VerifySecret_hash, Hs, ToLower_HashSecret. split; [done|].
    unfold HashSecret. split; [|by intros ->]. intros He. apply (f_equal hex_decode) in He.
    rewrite !hex_roundtrip in He by apply Sum256_byte. apply (inj Some) in He. by symmetry.
  - intros l Hl Hlen. unfold VerifySecret. rewrite Hl. apply not_true_iff_false.
    intros ->%ConstantTimeCompare_eq. apply Hlen, Sum256_length.
Qed.

(** ** The registry: what each call does when nothing fails *)

Section Serial.
Context {E : Env} {D : CtlDriver} {S : Type} {HD : HasDB S}.
Hypothesis Hff : fault_free E.

(** A program run from [w] returns [a] and leaves the database [d]. *)
Definition gives {A} (m : M S A) (w : world S) (a : A) (d : cdb) : Prop :=
  (m w).1 = a ∧ the_db (st (m w).2) = d.

Lemma gives_bind {A B} (m : M S A) (k : A → M S B) w a d1 b d :
  gives m w a d1 → (∀ w', the_db (st w') = d1 → gives (k a) w' b d) → gives (m ≫= k) w b d.
Proof. intros [<- H1] H. specialize (H (m w).2 H1). unfold gives in *. unfold_M. by destruct (m w). Qed.

Lemma gives_ret {A} (a : A) w : gives (mret a) w a (the_db (st w)).
Proof. done. Qed.

Lemma gives_query {A} (f : cdb → A) w : gives (query f) w (Ok (f (the_db (st w)))) (the_db (st w)).
Proof. unfold gives. rewrite db_query_ff by done. cbn. by rewrite the_with. Qed.

Lemma gives_exec {A} (f : Z → cdb → res (A * cdb)) w a d :
  f (clock (tick w)) (the_db (st w)) = Ok (a, d) → gives (exec f) w (Ok a) d.
Proof. intros H. unfold gives. rewrite (db_exec_ff _ _ a d) by done. cbn. by rewrite the_with. Qed.

Lemma gives_exec_err {A} (f : Z → cdb → res (A * cdb)) w e :
  f (clock (tick w)) (the_db (st w)) = Err e → gives (exec f) w (Err e) (the_db (st w)).
Proof. intros H. unfold gives. by rewrite (db_exec_ff_err _ _ e). Qed.

(** The value part of a lookup. *)
Definition found (id : string) (db : cdb) : res Node :=
  match nodes db !! id with Some row => Ok (node_of id row) | None => Err ErrUnknownNode end.

Lemma gives_Get id w : gives (Get id) w (found id (the_db (st w))) (the_db (st w)).
Proof.
  unfold Get. eapply gives_bind; [apply gives_query|]. intros w' <-. unfold found.
  destruct (nodes (the_db (st w')) !! id); apply gives_ret.
Qed.

Lemma gives_bump w : gives bumpTargetsVersion w None (sql_bump (the_db (st w))).
Proof.
  unfold bumpTargetsVersion. eapply gives_bind; [by apply gives_exec|]. intros w' <-. apply gives_ret.
Qed.

Lemma gives_TargetsVersion w v :
  targets_version (the_db (st w)) = Some v → gives TargetsVersion w (Ok v) (the_db (st w)).
Proof.
  intros Hv. unfold TargetsVersion. eapply gives_bind; [apply gives_query|]. intros w' Hw. rewrite Hv, <- Hw.
  apply gives_ret.
Qed.

Lemma gives_hub_rows id w : gives (hub_rows id) w (Ok (sql_hub_targets id (the_db (st w)))) (the_db (st w)).
Proof.
  unfold hub_rows. eapply gives_bind; [apply gives_query|]. intros w1 H1.
  eapply (gives_bind _ _ _ None); [split; [cbn; apply Hff|done]|]. intros w2 H2. cbn in H2.
  rewrite <- H1, <- H2 in *. apply gives_ret.
Qed.

Lemma gives_hub_version out w v :
  targets_version (the_db (st w)) = Some v → gives (hub_version out) w (Ok (out, v)) (the_db (st w)).
Proof.
  intros Hv. unfold hub_version. eapply gives_bind; [by apply gives_TargetsVersion|].
  intros w' H. rewrite <- H. apply gives_ret.
Qed.

Lemma gives_HubTargetsFor id w v :
  targets_version (the_db (st w)) = Some v →
  gives (HubTargetsFor id) w (Ok (sql_hub_targets id (the_db (st w)), v)) (the_db (st w)).
Proof.
  intros Hv. unfold HubTargetsFor. eapply gives_bind; [apply gives_hub_rows|]. intros w1 H1.
  rewrite <- H1 in Hv |- *. by apply gives_hub_version.
Qed.

(** The row [Upsert n] leaves, and the database. *)
Definition upsert_row (n : Node) (t : Z) (prior : option node_row) : node_row :=
  let addr := if bool_decide (Address n = "") then None else Some (Address n) in
  let dis := if Disabled n then 1 else 0 in
  match prior with
  | None => NodeRow (Role n) (SecretHash n) (format_datetime t) None 0 None 0 None addr dis
  | Some r => NodeRow (Role n) (SecretHash n) (n_created_at r) (n_last_seen_at r) (n_spool_depth r)
                (n_spool_oldest_ts r) (n_spool_drops_total r) (n_spool_updated_at r) addr dis
  end.

Definition upserted (n : Node) (t : Z) (db : cdb) : cdb :=
  set_nodes (<[ID n := upsert_row n t (nodes db !! ID n)]> (nodes db)) db.

Definition prior_of (n : Node) (db : cdb) : Node * bool :=
  match nodes db !! ID n with Some r => (node_of (ID n) r, false) | None => (zero_node, true) end.

Definition changes_hubs (n : Node) (db : cdb) : bool :=
  let '(prior, missing) := prior_of n db in hubSetChanged prior n missing.

Lemma gives_upsert_read n w :
  gives (upsert_read n) w (Ok (prior_of n (the_db (st w)))) (the_db (st w)).
Proof.
  unfold upsert_read. eapply gives_bind; [apply gives_Get|]. intros w' <-. unfold found, prior_of.
  destruct (nodes (the_db (st w')) !! ID n); [apply gives_ret|].
  rewrite errors_Is_refl. apply gives_ret.
Qed.

Lemma gives_upsert_write n w :
  valid_role (Role n) = true →
  gives (upsert_write n) w None (upserted n (clock (tick w)) (the_db (st w))).
Proof.
  intros Hr. unfold upsert_write. eapply gives_bind.
  - apply gives_exec. unfold sql_upsert. by rewrite Hr.
  - intros w' H'. split; [done|exact H'].
Qed.

Lemma gives_Upsert n w :
  if valid_role (Role n)
  then ∃ t, gives (Upsert n) w None
              ((if changes_hubs n (the_db (st w)) then sql_bump else id) (upserted n t (the_db (st w))))
  else gives (Upsert n) w (Some (ErrWrap "controller: upsert node" check_error)) (the_db (st w)).
Proof.
  pose proof (gives_upsert_read n w) as HR. destruct (prior_of n (the_db (st w))) as [prior miss] eqn:Hp.
  assert (Hc : changes_hubs n (the_db (st w)) = hubSetChanged prior n miss)
    by (unfold changes_hubs; by rewrite Hp).
  destruct (valid_role (Role n)) eqn:Hr.
  - exists (clock (tick (upsert_read n w).2)). destruct HR as [H1 H2].
    unfold gives, Upsert. unfold_M. destruct (upsert_read n w) as [r1 w1]. cbn in *. subst r1.
    pose proof (gives_upsert_write n w1 Hr) as HW. rewrite H2 in HW.
    destruct HW as [H3 H4]. destruct (upsert_write n w1) as [r2 w2]. cbn in *. subst r2.
    unfold upsert_bump. rewrite Hc. destruct (hubSetChanged prior n miss); [|by cbn].
    unfold_M. destruct (gives_bump w2) as [_ H5]. destruct (bumpTargetsVersion w2). cbn in *.
    by rewrite H5, H4.
  - eapply gives_bind; [exact HR|]. intros w1 H1. rewrite <- H1. eapply (gives_bind _ _ _ (Some _)).
    + unfold upsert_write. eapply gives_bind.
      * apply gives_exec_err. unfold sql_upsert. by rewrite Hr.
      * intros w2 H2. by split.
    + intros w2 H2. by split.
Qed.

Lemma gives_RowsAffected n w : gives (RowsAffected n) w (Ok n) (the_db (st w)).
Proof. unfold gives. by rewrite RowsAffected_run, (proj1 Hff). Qed.

(** [Delete] on every branch. *)
Lemma gives_Delete id w :
  let db := the_db (st w) in
  match nodes db !! id with
  | None => gives (Delete id) w (Some ErrUnknownNode) db
  | Some r =>
      if bool_decide (id ∈ (r_source_id <$> results db))
      then gives (Delete id) w (Some (ErrWrap "controller: delete node" fk_error)) db
      else gives (Delete id) w None
             ((if bool_decide (n_role r = RoleHub) && (n_disabled r =? 0) then sql_bump else Datatypes.id)
                (set_nodes (delete id (nodes db)) db))
  end.
Proof.
  cbn zeta. pose proof (gives_Get id w) as HG. unfold found in HG.
  destruct (nodes (the_db (st w)) !! id) as [r|] eqn:Hr.
  2: { eapply gives_bind; [exact HG|]. intros w' <-. apply gives_ret. }
  case_bool_decide as Hin; (eapply gives_bind; [exact HG|]); intros w1 H1; rewrite <- H1 in *.
  - eapply gives_bind.
    + apply gives_exec_err. unfold sql_delete_node. rewrite Hr. by rewrite bool_decide_eq_true_2.
    + intros w2 <-. apply gives_ret.
  - eapply gives_bind.
    + apply gives_exec. unfold sql_delete_node. rewrite Hr. by rewrite bool_decide_eq_false_2.
    + intros w2 H2. eapply gives_bind; [apply gives_RowsAffected|]. intros w3 H3. rewrite H2 in H3.
      cbn [Z.eqb]. cbn [Role Disabled node_of]. rewrite negb_involutive.
      destruct (_ && _); [|by split].
      eapply gives_bind; [apply gives_bump|]. intros w4 H4. split; [done|]. by rewrite <- H3.
Qed.

Lemma gives_UpdateSpoolStats id stats w :
  ∃ e ts, gives (UpdateSpoolStats id stats) w e (sql_spool_stats id stats ts (the_db (st w))).2 ∧
          (e = None ↔ is_Some (nodes (the_db (st w)) !! id)).
Proof.
  unfold UpdateSpoolStats. set (ts := if HasOldest stats then _ else _).
  exists (if (sql_spool_stats id stats ts (the_db (st w))).1 =? 0 then Some ErrNoRows else None), ts. split.
  - eapply gives_bind; [apply gives_exec, f_equal, surjective_pairing|].
    intros w' <-. eapply gives_bind; [apply gives_RowsAffected|]. intros w2 <-. apply gives_ret.
  - unfold sql_spool_stats. destruct (nodes (the_db (st w)) !! id); cbn; [naive_solver|].
    split; [done|]. by intros [? ?].
Qed.
End Serial.

(** ** The targets version tracks the hub set *)

Lemma active_hubs_lookup db id : active_hubs db !! id = nodes db !! id ≫= active_addr.
Proof. unfold active_hubs. by rewrite lookup_omap. Qed.

Lemma active_addr_node id r :
  active_addr r =
    (let n := node_of id r in
     if bool_decide (Role n = RoleHub) && negb (Disabled n) && negb (bool_decide (Address n = ""))
     then Some (Address n) else None).
Proof.
  unfold active_addr. cbn. rewrite negb_involutive.
  destruct (bool_decide (n_role r = RoleHub)), (n_disabled r =? 0); cbn; try done.
  destruct (n_address r) as [a|]; cbn; [|by rewrite bool_decide_eq_true_2].
  by case_bool_decide.
Qed.

Lemma node_of_upsert_row n t o : node_of (ID n) (upsert_row n t o) = n.
Proof.
  destruct n as [id role hash addr dis]. unfold node_of, upsert_row. cbn.
  case_bool_decide as Ha; destruct o, dis; cbn; by rewrite ?Ha.
Qed.

Lemma active_addr_upsert n t o :
  active_addr (upsert_row n t o) =
    if bool_decide (Role n = RoleHub) && negb (Disabled n) && negb (bool_decide (Address n = ""))
    then Some (Address n) else None.
Proof. by rewrite (active_addr_node (ID n)), node_of_upsert_row. Qed.

Lemma active_hubs_upserted n t db :
  active_hubs (upserted n t db) !! ID n =
    if bool_decide (Role n = RoleHub) && negb (Disabled n) && negb (bool_decide (Address n = ""))
    then Some (Address n) else None.
Proof.
  rewrite active_hubs_lookup. cbn [upserted set_nodes nodes]. rewrite lookup_insert_eq.
  apply active_addr_upsert.
Qed.

Lemma active_addr_nonempty r a : active_addr r = Some a → a ≠ "".
Proof.
  unfold active_addr. destruct (_ && _); [|done]. destruct (n_address r) as [b|]; cbn; [|done].
  case_bool_decide; naive_solver.
Qed.

Lemma elem_of_hub_targets id h db :
  h ∈ (ID <$> sql_hub_targets id db) ↔ h ≠ id ∧ is_Some (active_hubs db !! h).
Proof.
  unfold sql_hub_targets. rewrite <- list_fmap_compose, list_elem_of_fmap. split.
  - intros ([k a] & -> & Hk). cbn. apply elem_of_by_id, lookup_delete_Some in Hk as [? ?]. split; [done|eauto].
  - intros [Hne [a Ha]]. exists (h, a). split; [done|]. apply elem_of_by_id. by rewrite lookup_delete_ne.
Qed.

(** [hubSetChanged] is exact: it reports a change precisely when the map of
    probed hubs changes. *)
Lemma hubSetChanged_exact n t db :
  changes_hubs n db = false ↔ active_hubs (upserted n t db) = active_hubs db.
Proof.
  assert (Hl : active_hubs (upserted n t db) = active_hubs db ↔
    active_hubs (upserted n t db) !! ID n = active_hubs db !! ID n).
  { split; [by intros ->|]. intros H. apply map_eq. intros k.
    destruct (decide (k = ID n)) as [->|Hne]; [done|].
    rewrite !active_hubs_lookup. cbn. by rewrite lookup_insert_ne. }
  rewrite Hl, !active_hubs_lookup. cbn [upserted set_nodes nodes]. rewrite lookup_insert_eq. cbn [mbind option_bind].
  rewrite (active_addr_node (ID n)), node_of_upsert_row. cbn zeta.
  unfold changes_hubs, prior_of, hubSetChanged.
  destruct (nodes db !! ID n) as [r|]; cbn [mbind option_bind negb andb].
  - rewrite (active_addr_node (ID n)). cbn zeta.
    destruct (bool_decide (Role n = _) && _ && _), (bool_decide (Role (node_of _ r) = _) && _ && _);
      cbn [eqb negb andb]; [|done|done|done].
    case_bool_decide as Ha; cbn [negb]; [by rewrite Ha|]. split; congruence.
  - by destruct (bool_decide (Role n = _) && _ && _).
Qed.

(** What a client holding a version may rely on. *)
Definition version_tracks (db db' : cdb) : Prop :=
  match targets_version db, targets_version db' with
  | Some v, Some v' => v <= v' ∧ (v = v' → active_hubs db = active_hubs db')
  | None, None => True
  | _, _ => False
  end.

#[export] Instance version_tracks_preorder : PreOrder version_tracks.
Proof.
  unfold version_tracks. split.
  - intros db. destruct (targets_version db); [|done]. split; [lia|done].
  - intros d1 d2 d3. destruct (targets_version d1), (targets_version d2), (targets_version d3); try done.
    intros [? H1] [? H2]. split; [lia|]. intros ?. rewrite H1 by lia. apply H2. lia.
Qed.

Lemma version_tracks_bump db db' :
  targets_version db' = targets_version db → version_tracks db (sql_bump db').
Proof.
  unfold version_tracks, sql_bump. cbn. intros ->. destruct (targets_version db); cbn; [|done].
  split; lia.
Qed.

Lemma version_tracks_same db db' :
  targets_version db' = targets_version db → active_hubs db' = active_hubs db → version_tracks db db'.
Proof.
  unfold version_tracks. intros -> ->. destruct (targets_version db); [|done]. split; [lia|done].
Qed.

Lemma active_hubs_insert db id r :
  active_addr r = nodes db !! id ≫= active_addr →
  active_hubs (set_nodes (<[id := r]> (nodes db)) db) = active_hubs db.
Proof.
  intros Hr. apply map_eq. intros k. rewrite !active_hubs_lookup. cbn.
  destruct (decide (k = id)) as [->|]; [by rewrite lookup_insert_eq|by rewrite lookup_insert_ne].
Qed.

(** The calls of the registry that requests make, one after the other. *)
Inductive registry_call :=
  | CUpsert (n : Node)
  | CDelete (id : string)
  | CSpoolStats (id : string) (stats : SpoolStats).

Section Registry.
Context {E : Env} {D : CtlDriver} {S : Type} {HD : HasDB S}.

Definition run_registry (c : registry_call) : M S (option err) :=
  match c with
  | CUpsert n => Upsert n
  | CDelete id => Delete id
  | CSpoolStats id stats => UpdateSpoolStats id stats
  end.

Fixpoint run_calls (cs : list registry_call) : M S () :=
  match cs with
  | [] => mret ()
  | c :: cs' => _ ← run_registry c; run_calls cs'
  end.

(** A failure does not pose as the absence of a row. *)
Definition plain_faults : Prop :=
  ∀ n e, fault n = Some e → errors_Is e ErrNoRows = false ∧ errors_Is e ErrUnknownNode = false.

(** The version is there to stay and never goes back. *)
Definition version_le (db db' : cdb) : Prop :=
  match targets_version db, targets_version db' with
  | Some v, Some v' => v <= v'
  | None, None => True
  | _, _ => False
  end.

Lemma version_tracks_le db db' : version_tracks db db' → version_le db db'.
Proof. unfold version_tracks, version_le. by repeat case_match; [intros []|..]. Qed.

(** What a call does to the version, whatever fails: it does not go back, and it
    tracks the hub set unless a statement failed right after one that went
    through. *)
Definition tracks (w w' : world S) : Prop :=
  (tick w <= tick w')%nat ∧ version_le (the_db (st w)) (the_db (st w')) ∧
  (onsets (tick w) (tick w') = 0%nat → version_tracks (the_db (st w)) (the_db (st w'))).

Lemma tracks_same w w' :
  (tick w <= tick w')%nat → version_tracks (the_db (st w)) (the_db (st w')) → tracks w w'.
Proof. intros Ht H. split; [done|]. split; [by apply version_tracks_le|done]. Qed.

Lemma tracks_trans w w' w'' : tracks w w' → tracks w' w'' → tracks w w''.
Proof.
  intros (T1 & L1 & V1) (T2 & L2 & V2). split; [lia|]. split.
  - revert L1 L2. unfold version_le. repeat case_match; try done. lia.
  - rewrite (onsets_split _ (tick w')) by lia. intros H. etransitivity; [apply V1|apply V2]; lia.
Qed.

(** A change of the hub set whose bump does not come off. *)
Lemma tracks_onset w w' i :
  (tick w <= i < tick w')%nat → onset i → targets_version (the_db (st w')) = targets_version (the_db (st w)) → tracks w w'.
Proof.
  intros Hi Ho Hv. split; [lia|]. split; [unfold version_le; rewrite Hv; destruct (targets_version (the_db (st w))); [reflexivity|exact I]|].
  intros H. pose proof (onsets_one (tick w) (tick w') i Hi Ho). lia.
Qed.

Lemma Get_run id w r w' :
  plain_faults → Get id w = (r, w') →
  the_db (st w') = the_db (st w) ∧ tick w' = Datatypes.S (tick w) ∧
  (r = found id (the_db (st w)) ∨ ∃ e, r = Err e ∧ errors_Is e ErrUnknownNode = false).
Proof.
  intros HP. unfold Get. unfold_M. destruct (query _ w) as [q w1] eqn:Hq. apply db_exec_run in Hq as [Ht Hq].
  destruct q as [o|e]; intros [= <- <-].
  - destruct Hq as [_ [= <- Hd]]. split; [done|]. split; [done|]. left. unfold found. by destruct (nodes (the_db (st w)) !! id).
  - destruct Hq as [-> [Hf|[_ Hf]]]; [|done]. destruct (HP _ _ Hf) as [-> Hu]. split; [done|]. split; [done|]. right.
    eexists. split; [reflexivity|]. cbn. by rewrite Hu.
Qed.

Lemma bump_run w u w' :
  bumpTargetsVersion w = (u, w') →
  tick w' = Datatypes.S (tick w) ∧
  ((fault (tick w) = None ∧ the_db (st w') = sql_bump (the_db (st w))) ∨ (is_Some (fault (tick w)) ∧ st w' = st w)).
Proof.
  unfold bumpTargetsVersion. unfold_M. destruct (exec _ w) as [q w1] eqn:Hq. apply db_exec_run in Hq as [Ht Hq].
  intros [= <- <-]. split; [done|]. destruct q as [[]|e].
  - destruct Hq as [Hf [= Hd]]. left. by split.
  - destruct Hq as [Hs [Hf|[_ ?]]]; [|done]. right. by eauto.
Qed.

(** A statement that went through, then the bump. *)
Lemma tracks_bumped (w w1 w2 w3 : world S) u :
  (tick w <= tick w1)%nat → fault (tick w1) = None → tick w2 = Datatypes.S (tick w1) →
  targets_version (the_db (st w2)) = targets_version (the_db (st w)) →
  bumpTargetsVersion w2 = (u, w3) → tracks w w3.
Proof.
  intros Ht Hf Ht2 Hv HB. apply bump_run in HB as [Ht3 [[_ Hd]|[He Hs]]].
  - apply tracks_same; [lia|]. rewrite Hd. by apply version_tracks_bump.
  - apply (tracks_onset w w3 (tick w1)); [lia| |by rewrite Hs]. split; [done|]. by rewrite <- Ht2.
Qed.

Lemma Upsert_tracks n w : plain_faults → tracks w (Upsert n w).2.
Proof.
  intros HP. unfold Upsert, upsert_read. unfold_M. destruct (Get (ID n) w) as [g w1] eqn:HG.
  apply Get_run in HG as (Hd1 & Ht1 & Hg); [|done].
  assert (Hstop : ∀ w', the_db (st w') = the_db (st w) → (tick w <= tick w')%nat → tracks w w').
  { intros w' Hd Ht. apply tracks_same; [done|]. rewrite Hd. reflexivity. }
  assert (Hread : match g with
      | Ok prior => Ok (prior, false)
      | Err e => if errors_Is e ErrUnknownNode then Ok (zero_node, true) else Err e
      end = Ok (prior_of n (the_db (st w))) ∨ ∃ e, match g with
      | Ok prior => Ok (prior, false)
      | Err e => if errors_Is e ErrUnknownNode then Ok (zero_node, true) else Err e
      end = (Err e : res (Node * bool))).
  { destruct Hg as [->|(e & -> & He)]; [left|right; exists e; by rewrite He].
    unfold found, prior_of. destruct (nodes _ !! _); [done|]. by rewrite errors_Is_refl. }
  destruct Hread as [->|[e ->]]; [|apply Hstop; [done|cbn; lia]].
  destruct (prior_of n (the_db (st w))) as [prior miss] eqn:Hp.
  unfold upsert_write. unfold_M. destruct (exec _ w1) as [q w2] eqn:Hq. apply db_exec_run in Hq as [Ht2 Hq].
  destruct q as [[]|e]; [|destruct Hq as [Hs _]; apply Hstop; [cbn; by rewrite Hs|cbn; lia]].
  destruct Hq as [Hf Hq]. rewrite Hd1 in Hq. unfold sql_upsert in Hq. destruct (negb (valid_role (Role n))); [done|]. injection Hq as Hq.
  change (upserted n (clock (tick w1)) (the_db (st w)) = the_db (st w2)) in Hq.
  assert (Hc : changes_hubs n (the_db (st w)) = hubSetChanged prior n miss) by (unfold changes_hubs; by rewrite Hp).
  unfold upsert_bump. destruct (hubSetChanged prior n miss).
  - unfold_M. destruct (bumpTargetsVersion w2) as [u w3] eqn:HB. cbn [snd].
    eapply (tracks_bumped w w1 w2); [lia|done|done|by rewrite <- Hq|done].
  - unfold_M. cbn [snd]. apply tracks_same; [cbn; lia|]. rewrite <- Hq. apply version_tracks_same; [done|]. by apply hubSetChanged_exact.
Qed.

Lemma Delete_tracks id w : plain_faults → tracks w (Delete id w).2.
Proof.
  intros HP. unfold Delete. unfold_M. destruct (Get id w) as [g w1] eqn:HG.
  apply Get_run in HG as (Hd1 & Ht1 & Hg); [|done].
  assert (Hstop : ∀ w', the_db (st w') = the_db (st w) → (tick w <= tick w')%nat → tracks w w').
  { intros w' Hd Ht. apply tracks_same; [done|]. rewrite Hd. reflexivity. }
  destruct g as [prior|e]; [|apply Hstop; [done|cbn; lia]].
  destruct (exec _ w1) as [q w2] eqn:Hq. apply db_exec_run in Hq as [Ht2 Hq].
  destruct q as [n|e]; [|destruct Hq as [Hs _]; apply Hstop; [cbn; by rewrite Hs|cbn; lia]].
  destruct Hq as [Hf Hq]. rewrite Hd1 in Hq. destruct Hg as [Hg|(e & ? & _)]; [|done].
  unfold found in Hg. unfold sql_delete_node in Hq. destruct (nodes (the_db (st w)) !! id) as [r|] eqn:Hr; [|done].
  injection Hg as ->. case_bool_decide; [done|]. injection Hq as <- Hq.
  assert (Hv : targets_version (the_db (st w2)) = targets_version (the_db (st w))) by (by rewrite <- Hq).
  rewrite RowsAffected_run. destruct (fault (tick w2)) eqn:Hf2.
  { apply (tracks_onset w _ (tick w1)); [cbn; lia| |done]. split; [done|]. rewrite <- Ht2, Hf2. by eexists. }
  cbn [Z.eqb Role Disabled node_of]. rewrite negb_involutive.
  destruct (bool_decide (n_role r = RoleHub) && (n_disabled r =? 0)) eqn:Ha.
  - unfold_M. match goal with |- context [bumpTargetsVersion ?x] => destruct (bumpTargetsVersion x) as [u w3] eqn:HB end. cbn [snd].
    eapply (tracks_bumped w w2 (mkWorld (st w2) (Datatypes.S (tick w2))) w3); [lia|done|done|done|exact HB].
  - apply tracks_same; [cbn; lia|]. cbn [snd st]. rewrite <- Hq. apply version_tracks_same; [done|].
    apply map_eq. intros k. rewrite !active_hubs_lookup. cbn.
    destruct (decide (k = id)) as [->|]; [|by rewrite lookup_delete_ne].
    rewrite lookup_delete_eq, Hr. cbn. unfold active_addr. by rewrite Ha.
Qed.

Lemma UpdateSpoolStats_tracks id stats w : tracks w (UpdateSpoolStats id stats w).2.
Proof.
  unfold UpdateSpoolStats. set (ts := if HasOldest stats then _ else _). unfold_M.
  destruct (exec _ w) as [q w2] eqn:Hq. apply db_exec_run in Hq as [Ht2 Hq].
  assert (Hd : version_tracks (the_db (st w)) (the_db (st w2))).
  { destruct q as [n|e]; [|destruct Hq as [-> _]; reflexivity]. destruct Hq as [_ [= Hq]]. unfold sql_spool_stats in Hq.
    destruct (nodes (the_db (st w)) !! id) as [r|] eqn:Hr; injection Hq as _ <-; [|reflexivity].
    apply version_tracks_same; [done|]. apply active_hubs_insert. by rewrite Hr. }
  destruct q as [n|e]; [rewrite RowsAffected_run; destruct (fault (tick w2))|]; (apply tracks_same; [cbn; lia|done]).
Qed.

Lemma run_calls_tracks cs w : plain_faults → tracks w (run_calls cs w).2.
Proof.
  intros HP. revert w. induction cs as [|c cs IH]; intros w; cbn [run_calls]; [by apply tracks_same|].
  unfold_M. assert (H : tracks w (run_registry c w).2).
  { destruct c; cbn [run_registry]; [by apply Upsert_tracks|by apply Delete_tracks|apply UpdateSpoolStats_tracks]. }
  destruct (run_registry c w) as [e w1]. eapply tracks_trans; [exact H|apply IH].
Qed.

Lemma fault_free_plain : fault_free E → plain_faults.
Proof. intros [H _] n e He. by rewrite H in He. Qed.

Lemma tracks_ff w w' : fault_free E → tracks w w' → version_tracks (the_db (st w)) (the_db (st w')).
Proof. intros Hff (_ & _ & H). apply H, onsets_none, Hff. Qed.

(** What [HubTargetsFor] returned was there. *)
Lemma HubTargetsFor_run id w ts v w' :
  HubTargetsFor id w = (Ok (ts, v), w') →
  targets_version (the_db (st w)) = Some v ∧ ts = sql_hub_targets id (the_db (st w)).
Proof.
  unfold HubTargetsFor, hub_rows, hub_version, TargetsVersion, rows_Err. unfold_M.
  destruct (query _ w) as [q w1] eqn:Hq. apply db_exec_run in Hq as [_ Hq]. destruct q as [out|e]; [|done].
  destruct Hq as [_ [= <- Hd]]. destruct (fault (tick w1)); [done|].
  destruct (query _ _) as [q w2] eqn:Hq. apply db_exec_run in Hq as [_ Hq]. cbn [st] in Hq.
  destruct q as [[x|]|e]; [|done..]. destruct Hq as [_ [= Hx _]]. rewrite <- Hd in Hx. by intros [= <- <- _].
Qed.

(** C13. The targets version is a sound change detector.  Across any sequence of
    registry calls (registrations, updates, deletions, statistics), one after the
    other, it never goes back, whatever fails; and as long as no statement fails
    right after one that went through, in particular while nothing fails, the same
    version before and after means the same targets, for every node.  (Both
    conditions are needed: [unbumped_change] for a bump that fails, whose error the
    code drops, and [Upsert_lost_update] for calls that interleave.) *)
Theorem same_version_same_targets cs (w : world S) id ts v ts' v' :
  plain_faults →
  let w' := (run_calls cs w).2 in
  (HubTargetsFor id w).1 = Ok (ts, v) →
  (HubTargetsFor id w').1 = Ok (ts', v') →
  v <= v' ∧ (onsets (tick w) (tick w') = 0%nat → v = v' → ts = ts').
Proof.
  intros HP w' H1 H2. destruct (run_calls_tracks cs w HP) as (_ & HL & HV). fold w' in HL, HV.
  destruct (HubTargetsFor id w) as [r u] eqn:E1. cbn in H1. subst r. apply HubTargetsFor_run in E1 as [Hv ->].
  destruct (HubTargetsFor id w') as [r u'] eqn:E2. cbn in H2. subst r. apply HubTargetsFor_run in E2 as [Hv' ->].
  unfold version_le in HL. unfold version_tracks in HV. rewrite Hv, Hv' in HL, HV. split; [done|].
  intros Ho ->. destruct (HV Ho) as [_ Heq]. unfold sql_hub_targets. by rewrite Heq.
Qed.

(** Registration round trip: after [Upsert n] succeeds, [Get] returns exactly
    [n]; every other node is as it was, and so are the node's own spool
    statistics and creation time; an unknown role is refused and changes
    nothing. *)
Theorem Upsert_Get n (w : world S) :
  fault_free E →
  let w' := (Upsert n w).2 in
  ((Upsert n w).1 = None ↔ valid_role (Role n) = true) ∧
  ((Upsert n w).1 = None →
     (Get (ID n) w').1 = Ok n ∧
     (∀ r r', nodes (the_db (st w)) !! ID n = Some r → nodes (the_db (st w')) !! ID n = Some r' →
        n_created_at r' = n_created_at r ∧ n_spool_depth r' = n_spool_depth r ∧
        n_spool_drops_total r' = n_spool_drops_total r ∧ n_last_seen_at r' = n_last_seen_at r) ∧
     (∀ k, k ≠ ID n → nodes (the_db (st w')) !! k = nodes (the_db (st w)) !! k)) ∧
  ((Upsert n w).1 ≠ None → the_db (st w') = the_db (st w)).
Proof.
  intros Hff. cbn zeta. pose proof (gives_Upsert Hff n w) as H. destruct (valid_role (Role n)).
  - destruct H as (t & H1 & H2). rewrite H1. split; [naive_solver|]. split; [|done]. intros _.
    assert (Hn : nodes (the_db (st (Upsert n w).2)) =
      <[ID n := upsert_row n t (nodes (the_db (st w)) !! ID n)]> (nodes (the_db (st w))))
      by (rewrite H2; by destruct (changes_hubs _ _)).
    split; [|split].
    + destruct (gives_Get Hff (ID n) (Upsert n w).2) as [-> _]. unfold found.
      rewrite Hn, lookup_insert_eq. by rewrite node_of_upsert_row.
    + intros r r' Hr Hr'. rewrite Hn, lookup_insert_eq, Hr in Hr'. by simplify_eq.
    + intros k Hk. by rewrite Hn, lookup_insert_ne.
  - destruct H as [H1 H2]. rewrite H1, H2. naive_solver.
Qed.

(** Deletion: [Delete] succeeds exactly for a registered node no result
    refers to; then the node is gone and everything else is as it was.  In every
    other case the database is unchanged: a missing node gives
    [ErrUnknownNode], and a node with results gives the database's foreign-key
    error. *)
Theorem Delete_spec id (w : world S) :
  fault_free E →
  let db := the_db (st w) in
  let w' := (Delete id w).2 in
  ((Delete id w).1 = None ↔ is_Some (nodes db !! id) ∧ id ∉ (r_source_id <$> results db)) ∧
  ((Delete id w).1 = None →
     nodes (the_db (st w')) = delete id (nodes db) ∧ results (the_db (st w')) = results db ∧
     (Get id w').1 = Err ErrUnknownNode) ∧
  ((Delete id w).1 ≠ None → the_db (st w') = db) ∧
  (nodes db !! id = None → (Delete id w).1 = Some ErrUnknownNode) ∧
  (is_Some (nodes db !! id) → id ∈ (r_source_id <$> results db) →
     (Delete id w).1 = Some (ErrWrap "controller: delete node" fk_error)).
Proof.
  intros Hff. cbn zeta. pose proof (gives_Delete Hff id w) as H. cbn zeta in H.
  destruct (nodes (the_db (st w)) !! id) as [r|] eqn:Hr.
  2: { destruct H as [H1 H2]. rewrite H1, H2. split; [|naive_solver].
       split; [done|]. by intros [[? ?] _]. }
  case_bool_decide as Hin.
  { destruct H as [H1 H2]. rewrite H1, H2. split; [naive_solver|]. split; [done|]. naive_solver. }
  destruct H as [H1 H2]. rewrite H1. split; [split; eauto|]. split; [|naive_solver]. intros _.
  assert (Hn : nodes (the_db (st (Delete id w).2)) = delete id (nodes (the_db (st w))) ∧
               results (the_db (st (Delete id w).2)) = results (the_db (st w)))
    by (rewrite H2; by destruct (_ && _)).
  destruct Hn as [Hn Hres]. split; [done|]. split; [done|].
  destruct (gives_Get Hff id (Delete id w).2) as [-> _]. unfold found. by rewrite Hn, lookup_delete_eq.
Qed.

(** Disabling an active hub bumps the version. *)
Lemma disabling_bumps (w : world S) h r a v hash :
  fault_free E → nodes (the_db (st w)) !! h = Some r → active_addr r = Some a → targets_version (the_db (st w)) = Some v →
  let B := mkNode h RoleHub hash a true in
  targets_version (the_db (st (Upsert B w).2)) = Some (v + 1) ∧ active_hubs (the_db (st (Upsert B w).2)) !! h = None.
Proof.
  intros Hff Hr Ha Hv B. destruct (gives_Upsert Hff B w) as (t & _ & D2).
  assert (HB : changes_hubs B (the_db (st w)) = true).
  { destruct (changes_hubs B _) eqn:HB; [done|]. apply (hubSetChanged_exact B t) in HB.
    apply (f_equal (.!! ID B)) in HB. rewrite active_hubs_upserted, active_hubs_lookup in HB.
    change (ID B) with h in HB. rewrite Hr, andb_false_r in HB. cbn in HB. by rewrite Ha in HB. }
  rewrite HB in D2. rewrite D2. split; [cbn; by rewrite Hv|]. change h with (ID B).
  change (active_hubs (upserted B t (the_db (st w))) !! ID B = None). by rewrite active_hubs_upserted, andb_false_r.
Qed.

(** C35. A list and a version that do not belong together.  [HubTargetsFor] reads
    the hubs and the version in two statements.  When a hub is disabled between
    them, the caller gets the list with the hub under the version that announced
    it gone, the version under which a later caller gets the list without it: an
    agent that stores the pair has no reason to fetch again. *)
Theorem HubTargetsFor_torn (w : world S) h r a v z hash :
  fault_free E →
  nodes (the_db (st w)) !! h = Some r → active_addr r = Some a →
  targets_version (the_db (st w)) = Some v → z ≠ h →
  let B := mkNode h RoleHub hash a true in
  match hub_rows z w with
  | (Ok out, w1) =>
      let w2 := (Upsert B w1).2 in
      ∃ ts', (hub_version out w2).1 = Ok (out, v + 1) ∧ (HubTargetsFor z w2).1 = Ok (ts', v + 1) ∧
             h ∈ (ID <$> out) ∧ ¬ h ∈ (ID <$> ts')
  | _ => False
  end.
Proof.
  intros Hff Hr Ha Hv Hz B. destruct (gives_hub_rows Hff z w) as [E1 D1]. destruct (hub_rows z w) as [r1 w1]. cbn in E1, D1. subst r1.
  rewrite <- D1 in Hr, Hv |- *. destruct (disabling_bumps w1 h r a v hash Hff Hr Ha Hv) as [V2 A2]. fold B in V2, A2.
  set (w2 := (Upsert B w1).2) in *. exists (sql_hub_targets z (the_db (st w2))).
  split; [apply (gives_hub_version Hff _ w2 _ V2)|]. split; [apply (gives_HubTargetsFor Hff z w2 _ V2)|].
  rewrite !elem_of_hub_targets. split.
  - split; [done|]. rewrite active_hubs_lookup, Hr. cbn. by eexists.
  - intros [_ [x Hx]]. by rewrite A2 in Hx.
Qed.

(** The change detector does not survive interleaving: when an update of a
    hub that leaves it active reads the prior row, another request then disables
    the hub, and the first one goes on to write, the hub is active again under
    the version that announced it disabled; an agent that fetched in between
    holds that version and the shorter list. *)
Theorem Upsert_lost_update (w : world S) h r a v z hash hash' :
  fault_free E →
  nodes (the_db (st w)) !! h = Some r → active_addr r = Some a →
  targets_version (the_db (st w)) = Some v → z ≠ h →
  let A := mkNode h RoleHub hash a false in
  let B := mkNode h RoleHub hash' a true in
  match upsert_read A w with
  | (Ok (prior, missing), w1) =>
      let w2 := (Upsert B w1).2 in
      let w3 := (upsert_write A w2).2 in
      let w4 := (upsert_bump prior A missing w3).2 in
      ∃ ts ts', (HubTargetsFor z w2).1 = Ok (ts, v + 1) ∧ (HubTargetsFor z w4).1 = Ok (ts', v + 1) ∧
                ¬ h ∈ (ID <$> ts) ∧ h ∈ (ID <$> ts')
  | _ => False
  end.
Proof.
  intros Hff Hr Ha Hv Hz A B. pose proof (active_addr_nonempty r a Ha) as Hne.
  assert (HA : ∀ t o, active_addr (upsert_row A t o) = Some a).
  { intros t o. rewrite active_addr_upsert. cbn. by rewrite (bool_decide_eq_false_2 (a = "")). }
  assert (HA' : changes_hubs A (the_db (st w)) = false).
  { apply (hubSetChanged_exact A 0), active_hubs_insert. rewrite HA. cbn. by rewrite Hr. }
  destruct (gives_upsert_read Hff A w) as [E1 D1].
  destruct (upsert_read A w) as [r1 w1]. cbn in E1, D1. subst r1.
  unfold changes_hubs in HA'. destruct (prior_of A (the_db (st w))) as [prior missing].
  rewrite <- D1 in Hr, Hv. destruct (disabling_bumps w1 h r a v hash' Hff Hr Ha Hv) as [V2 A2]. fold B in V2, A2.
  set (w2 := (Upsert B w1).2) in *.
  destruct (gives_upsert_write Hff A w2 eq_refl) as [_ D3]. set (w3 := (upsert_write A w2).2) in *.
  unfold upsert_bump. rewrite HA'. cbn [snd].
  assert (V3 : targets_version (the_db (st w3)) = Some (v + 1)) by (rewrite D3; exact V2).
  destruct (gives_HubTargetsFor Hff z w2 _ V2) as [T2 _].
  destruct (gives_HubTargetsFor Hff z w3 _ V3) as [T3 _].
  exists (sql_hub_targets z (the_db (st w2))), (sql_hub_targets z (the_db (st w3))).
  split; [done|]. split; [done|]. rewrite !elem_of_hub_targets. split.
  - intros [_ [x Hx]]. by rewrite A2 in Hx.
  - split; [done|]. rewrite D3. change h with (ID A). rewrite active_hubs_upserted. cbn.
    rewrite (bool_decide_eq_false_2 (a = "")) by done. eauto.
Qed.
End Registry.

(** ** Witnesses *)

Definition example_world : world cdb := mkWorld example_db 0.

(** A report, an update that leaves the hub where it is and the deletion of a spoke. *)
Abbreviation ex_calls := [CSpoolStats "spoke-1" (mkSpoolStats 1 5 0 0 true); CUpsert (mkNode "hub-1" "hub" "cc" "10.0.0.1:9000" false);
                          CDelete "spoke-1"; CDelete "nobody"].

Lemma same_version_same_targets_witness :
  let w := example_world in
  let w' := (@run_calls calm sqlite_driver cdb cdb_HasDB ex_calls w).2 in
  nodes (st w') !! "spoke-1" = None ∧
  ∀ ts ts', (@HubTargetsFor calm cdb cdb_HasDB "spoke-2" w).1 = Ok (ts, 4) →
            (@HubTargetsFor calm cdb cdb_HasDB "spoke-2" w').1 = Ok (ts', 4) → ts = ts'.
Proof.
  cbn zeta. split; [vm_compute; reflexivity|]. intros ts ts' H1 H2.
  apply (@same_version_same_targets calm sqlite_driver cdb cdb_HasDB ex_calls example_world "spoke-2" ts 4 ts' 4).
  - apply fault_free_plain, calm_ff.
  - exact H1.
  - exact H2.
  - vm_compute. reflexivity.
  - reflexivity.
Defined.

(** The two lists that are equal by it. *)
Example ex_calls_list :
  let w' := (@run_calls calm sqlite_driver cdb cdb_HasDB ex_calls example_world).2 in
  (@HubTargetsFor calm cdb cdb_HasDB "spoke-2" w').1 = Ok ([mkNode "hub-1" "hub" "" "10.0.0.1:9000" false], 4).
Proof. vm_compute. reflexivity. Qed.

(** A failing bump: the hub is gone from the list, the version is as before, and the
    caller is told that all went well. *)
Definition no_bump : Env := {|
  fault n := if (n =? 3)%nat then Some (ErrDriver "disk I/O error") else None; clock := @clock calm; ctx_done _ := false |}.

Example unbumped_change :
  let '(e, w) := @Delete no_bump sqlite_driver cdb cdb_HasDB "hub-1" example_world in
  e = None ∧ targets_version (st w) = targets_version example_db ∧
  (@HubTargetsFor no_bump cdb cdb_HasDB "spoke-1" w).1 = Ok ([], 4) ∧
  (@HubTargetsFor calm cdb cdb_HasDB "spoke-1" example_world).1 = Ok ([mkNode "hub-1" "hub" "" "10.0.0.1:9000" false], 4).
Proof. vm_compute. done. Qed.

Lemma Upsert_Get_witness :
  (@Get calm cdb cdb_HasDB "hub-2"
     (@Upsert calm sqlite_driver cdb cdb_HasDB (mkNode "hub-2" "hub" "ab" "h:1" false) example_world).2).1 =
  Ok (mkNode "hub-2" "hub" "ab" "h:1" false).
Proof.
  apply (@Upsert_Get calm sqlite_driver cdb cdb_HasDB (mkNode "hub-2" "hub" "ab" "h:1" false) example_world calm_ff).
  vm_compute. reflexivity.
Defined.

Lemma Delete_spec_witness :
  (@Delete calm sqlite_driver cdb cdb_HasDB "nobody" example_world).1 = Some ErrUnknownNode.
Proof.
  apply (@Delete_spec calm sqlite_driver cdb cdb_HasDB "nobody" example_world calm_ff).
  vm_compute. reflexivity.
Defined.

Lemma Upsert_lost_update_witness :
  match @upsert_read calm cdb cdb_HasDB (mkNode "hub-1" "hub" "aa" "10.0.0.1:9000" false) example_world with
  | (Ok (prior, missing), w1) =>
      ∃ ts ts', ts ≠ ts' ∧
        (@HubTargetsFor calm cdb cdb_HasDB "spoke-1"
           (@Upsert calm sqlite_driver cdb cdb_HasDB (mkNode "hub-1" "hub" "bb" "10.0.0.1:9000" true) w1).2).1 = Ok (ts, 5)
  | _ => False
  end.
Proof.
  pose proof (@Upsert_lost_update calm sqlite_driver cdb cdb_HasDB example_world "hub-1" example_hub
    "10.0.0.1:9000" 4 "spoke-1" "aa" "bb" calm_ff eq_refl eq_refl eq_refl ltac:(done)) as H.
  unfold RoleHub in H. destruct (upsert_read _ _) as [[[prior missing]|e] w1]; [|exact H].
  destruct H as (ts & ts' & H1 & _ & H3 & H4). exists ts, ts'. split; [|exact H1].
  intros ->. exact (H3 H4).
Defined.

Lemma HubTargetsFor_torn_witness :
  match @hub_rows calm cdb cdb_HasDB "spoke-1" example_world with
  | (Ok out, w1) =>
      (@hub_version calm cdb cdb_HasDB out
         (@Upsert calm sqlite_driver cdb cdb_HasDB (mkNode "hub-1" "hub" "bb" "10.0.0.1:9000" true) w1).2).1 = Ok (out, 5) ∧
      "hub-1" ∈ (ID <$> out)
  | _ => False
  end.
Proof.
  pose proof (@HubTargetsFor_torn calm sqlite_driver cdb cdb_HasDB example_world "hub-1" example_hub
    "10.0.0.1:9000" 4 "spoke-1" "bb" calm_ff eq_refl eq_refl eq_refl ltac:(done)) as H.
  unfold RoleHub in H. destruct (hub_rows _ _) as [[out|e] w1]; [|exact H].
  destruct H as (ts' & H1 & _ & H3 & _). split; [exact H1|exact H3].
Defined.
