(* ===== verification/Http.v ===== *)
(** * Requests, responses and credential checks
      ([internal/controller/auth.go], [admin.go], [ws.go], [ui.go], [internal/metrics/metrics.go])

    The part of [net/http] the handlers use, the comparison routines that guard
    every credential, and the origin check of WebSocket upgrades. *)
From Stdlib Require Import Ascii ZArith Lia.
From S2P Require Import Prelude GoTime GoStrings.

Local Open Scope string_scope.
Local Open Scope Z_scope.

(** ** Requests *)

(** [Header] is keyed by canonical names; [Cookie] is the value of the
    [nlm_session] cookie, [None] when [r.Cookie] fails; [Query] and [Form] are
    the parsed query string and form. *)
Record request := mkReq {
  Method : string;
  Path : string;
  Header : gmap string string;
  Host : string;
  RemoteAddr : string;
  TLS : bool;
  Cookie : option string;
  Query : gmap string string;
  Form : gmap string string;
  Body : string;
}.

(** [r.Header.Get], [Query().Get], [r.FormValue]: empty when absent. *)
Definition Header_Get (r : request) (k : string) : string := default "" (Header r !! k).
Definition Query_Get (r : request) (k : string) : string := default "" (Query r !! k).
Definition FormValue (r : request) (k : string) : string := default "" (Form r !! k).

(** Status codes the handlers use. *)
Definition StatusOK : Z := 200.
Definition StatusCreated : Z := 201.
Definition StatusNoContent : Z := 204.
Definition StatusSeeOther : Z := 303.
Definition StatusUnauthorized : Z := 401.
Definition StatusNotFound : Z := 404.
Definition StatusConflict : Z := 409.
Definition StatusUnprocessableEntity : Z := 422.
Definition StatusTooManyRequests : Z := 429.
Definition StatusInternalServerError : Z := 500.
Definition StatusServiceUnavailable : Z := 503.

(** ** Constant-time comparison *)

(** The loop shared by [constantTimeStringEq] and [equalSecure]: the bitwise or
    of the differences of the bytes. *)
Fixpoint ct_diff (v : N) (a b : string) : N :=
  match a, b with
  | String x a', String y b' => ct_diff (N.lor v (N.lxor (N_of_ascii x) (N_of_ascii y))) a' b'
  | _, _ => v
  end.

Definition constantTimeStringEq (a b : string) : bool :=
  if negb (String.length a =? String.length b)%nat then false
  else (ct_diff 0 a b =? 0)%N.

(** [equalSecure]; the slice [a[:7]] is within bounds because the expected
    value starts with the prefix and the lengths agree. *)
Definition equalSecure (a b : string) : bool :=
  if negb (String.length a =? String.length b)%nat then false
  else (ct_diff 0 a b =? 0)%N && EqualFold (str_take 7 a) "Bearer ".

(** ** Bearer tokens *)

Definition parseBearer (h : string) : res string :=
  if (String.length h <=? 7)%nat || negb (EqualFold (str_take 7 h) "Bearer ")
  then Err (ErrMsg "missing bearer token")
  else Ok (TrimSpace (str_drop 7 h)).

(** ** Client address *)

Fixpoint LastIndexByte (s : string) (c : ascii) : option nat :=
  match s with
  | EmptyString => None
  | String d s' =>
      match LastIndexByte s' c with
      | Some i => Some (S i)
      | None => if bool_decide (d = c) then Some O else None
      end
  end.

(** [net.SplitHostPort]: the host, or [None] for an address error. *)
Definition SplitHostPort (hp : string) : option string :=
  match LastIndexByte hp ":" with
  | None => None
  | Some i =>
      let checked (host : string) (j k : nat) : option string :=
        match IndexByte (str_drop j hp) "[", IndexByte (str_drop k hp) "]" with
        | None, None => Some host
        | _, _ => None
        end in
      if HasPrefix hp "[" then
        match IndexByte hp "]" with
        | None => None
        | Some e =>
            if (S e =? i)%nat then checked (str_take (e - 1) (str_drop 1 hp)) 1%nat (S e) else None
        end
      else
        let host := str_take i hp in
        match IndexByte host ":" with
        | Some _ => None
        | None => checked host 0%nat 0%nat
        end
  end.

Definition clientIP (r : request) : string :=
  let v := Header_Get r "X-Forwarded-For" in
  if negb (bool_decide (v = "")) then
    match IndexByte v "," with
    | Some i => TrimSpace (str_take i v)
    | None => TrimSpace v
    end
  else match SplitHostPort (RemoteAddr r) with
       | Some host => host
       | None => RemoteAddr r
       end.

(** ** Origin of a WebSocket upgrade *)

Definition is_path_start (c : ascii) : bool :=
  bool_decide (c = "/"%char) || bool_decide (c = "?"%char) || bool_decide (c = "#"%char).

Definition origin_host (origin : string) : string :=
  let h := match Index origin "://" with Some i => str_drop (i + 3) origin | None => origin end in
  match IndexFunc is_path_start h with Some i => str_take i h | None => h end.

Definition checkWSOrigin (allowed : list string) (r : request) : bool :=
  let origin := Header_Get r "Origin" in
  if bool_decide (origin = "") then true
  else if EqualFold (origin_host origin) (Host r) then true
  else existsb (EqualFold origin) allowed.

(** [isHTTPS] *)
Definition isHTTPS (r : request) : bool :=
  TLS r || bool_decide (Header_Get r "X-Forwarded-Proto" = "https").

(** ** Facts *)

Lemma ct_diff_zero v a b :
  String.length a = String.length b → ct_diff v a b = 0%N ↔ v = 0%N ∧ a = b.
Proof.
  revert v b. induction a as [|x a IH]; intros v [|y b] Hl; cbn in *; try done; [naive_solver|].
  rewrite IH by lia. rewrite N.lor_eq_0_iff, N.lxor_eq_0_iff. split.
  - intros [[-> Hx] ->]. apply (f_equal ascii_of_N) in Hx. rewrite !ascii_N_embedding in Hx. by subst.
  - intros [-> [= -> ->]]. done.
Qed.

Lemma constantTimeStringEq_eq a b : constantTimeStringEq a b = true ↔ a = b.
Proof.
  unfold constantTimeStringEq. destruct (Nat.eqb_spec (String.length a) (String.length b)) as [Hl|Hl]; cbn.
  - rewrite N.eqb_eq, ct_diff_zero by done. naive_solver.
  - naive_solver.
Qed.

Lemma equalSecure_eq a token : equalSecure a ("Bearer " ++ token) = true ↔ a = "Bearer " ++ token.
Proof.
  unfold equalSecure.
  destruct (Nat.eqb_spec (String.length a) (String.length ("Bearer " ++ token))) as [Hl|Hl]; cbn [negb].
  - rewrite andb_true_iff, N.eqb_eq, ct_diff_zero by done. split; [naive_solver|].
    intros ->. split; [done|]. reflexivity.
  - naive_solver.
Qed.

(** A bearer header: the prefix in any case, and a token between blanks. *)
Lemma parseBearer_Ok h tok :
  parseBearer h = Ok tok ↔
  ∃ p rest, h = p ++ rest ∧ String.length p = 7%nat ∧ ToLower p = "bearer " ∧ rest ≠ "" ∧ tok = TrimSpace rest.
Proof.
  unfold parseBearer, EqualFold. split.
  - destruct (Nat.leb_spec (String.length h) 7) as [|Hl]; cbn [orb]; [done|].
    case_bool_decide as Hp; cbn [negb]; [|done]. intros [= <-].
    exists (str_take 7 h), (str_drop 7 h). rewrite str_take_drop. split; [done|].
    pose proof (f_equal String.length (str_take_drop 7 h)) as Hlen. rewrite string_length_app in Hlen.
    assert (Ht : String.length (str_take 7 h) = 7%nat).
    { pose proof (f_equal String.length Hp) as Hl'. revert Hl'. clear. generalize (str_take 7 h). intros s.
      assert (∀ s, String.length (ToLower s) = String.length s) as ->; [|done].
      induction s0; cbn; congruence. }
    split; [done|]. split; [done|]. split; [|done]. intros Hr. rewrite Hr, Ht in Hlen. change (String.length "") with 0%nat in Hlen. lia.
  - intros (p & rest & -> & Hl & Hp & Hr & ->).
    replace (String.length (p ++ rest) <=? 7)%nat with false; cycle 1.
    { symmetry. apply Nat.leb_gt. rewrite string_length_app. destruct rest; [done|]. cbn. lia. }
    rewrite <- Hl, str_take_app, str_drop_app, Hp. done.
Qed.
