(* ===== verification/Ui.v ===== *)
(** * View models of the web UI ([internal/ui/models.go])
      and the fan-out of probe results to browsers ([internal/controller/ws_hub.go])

    Latencies are IEEE 754 doubles ([spec_float]). *)
From Stdlib Require Import Ascii ZArith Lia SpecFloat.
From S2P Require Import Prelude GoTime GoStrings ControllerDB.

Local Open Scope string_scope.
Local Open Scope Z_scope.

(** ** Models *)

Record NodeInfo := mkNodeInfo {
  ni_ID : string;
  ni_Role : string;
  ni_Address : string;
  ni_Disabled : bool;
  ni_SpoolDepth : Z;
  ni_LastSeen : Z;
}.

Record MatrixEntry := mkEntry {
  me_SourceID : string;
  me_TargetID : string;
  me_AvgLatMS : spec_float;
  me_MinLatMS : spec_float;
  me_MaxLatMS : spec_float;
  me_Samples : Z;
  me_HasError : bool;
  me_LastSeen : Z;
}.

Record LatencyMatrix := mkMatrix { lm_Nodes : list string; lm_Entries : list MatrixEntry }.

(** [LatencyMatrix.Get]: the first entry of the pair. *)
Fixpoint matrix_find (src dst : string) (es : list MatrixEntry) : option MatrixEntry :=
  match es with
  | [] => None
  | e :: es' =>
      if bool_decide (me_SourceID e = src) && bool_decide (me_TargetID e = dst) then Some e
      else matrix_find src dst es'
  end.

Definition Matrix_Get (m : LatencyMatrix) (src dst : string) : option MatrixEntry :=
  matrix_find src dst (lm_Entries m).

(** The doubles 10 and 50. *)
Definition float10 : spec_float := S754_finite false 5629499534213120 (-49).
Definition float50 : spec_float := S754_finite false 7036874417766400 (-47).

Definition cellClass (ms : spec_float) : string :=
  if SFltb ms float10 then "cell-good"
  else if SFltb ms float50 then "cell-warn"
  else "cell-bad".

(** ** The hub of UI clients *)

(** [ProbeEvent], the message broadcast for one observation. *)
Record ProbeEvent := mkProbeEvent {
  pe_Type : string;
  pe_SourceID : string;
  pe_TargetID : string;
  pe_LatencyMS : spec_float;
  pe_Error : string;
}.

(** A client is identified by its address; its [send] channel is the buffer. *)
Definition sendCap : nat := 64.

Record WSHub := mkHub { clients : gmap nat (list ProbeEvent) }.

Definition newWSHub : WSHub := mkHub ∅.

Definition register (c : nat) (h : WSHub) : WSHub := mkHub (<[c := []]> (clients h)).
Definition unregister (c : nat) (h : WSHub) : WSHub := mkHub (delete c (clients h)).

(** The non-blocking send of [Broadcast]. *)
Definition offer (msg : ProbeEvent) (buf : list ProbeEvent) : list ProbeEvent :=
  if (length buf <? sendCap)%nat then (buf ++ [msg])%list else buf.

Definition Broadcast (msg : ProbeEvent) (h : WSHub) : WSHub := mkHub (offer msg <$> clients h).

(** One receive of the write pump. *)
Definition receive (c : nat) (h : WSHub) : option ProbeEvent * WSHub :=
  match clients h !! c with
  | Some (m :: buf) => (Some m, mkHub (<[c := buf]> (clients h)))
  | _ => (None, h)
  end.

(** ** The life of the hub

    [pump c h got sent h']: between two states of the hub, while [c] stays
    registered, client [c] received [got] and the messages [sent] were broadcast. *)
Inductive pump (c : nat) : WSHub → list ProbeEvent → list ProbeEvent → WSHub → Prop :=
  | pump_nil h : pump c h [] [] h
  | pump_broadcast h got sent h1 msg :
      pump c h got sent h1 → pump c h got (sent ++ [msg])%list (Broadcast msg h1)
  | pump_receive h got sent h1 msg h2 :
      pump c h got sent h1 → receive c h1 = (Some msg, h2) → pump c h (got ++ [msg])%list sent h2
  | pump_other h got sent h1 d :
      pump c h got sent h1 → d ≠ c → pump c h got sent (register d h1)
  | pump_other_receive h got sent h1 d o h2 :
      pump c h got sent h1 → d ≠ c → receive d h1 = (o, h2) → pump c h got sent h2
  | pump_leave h got sent h1 d :
      pump c h got sent h1 → d ≠ c → pump c h got sent (unregister d h1).

Lemma receive_other d o c h h' : d ≠ c → receive d h = (o, h') → clients h' !! c = clients h !! c.
Proof.
  unfold receive. intros Hne H. destruct (clients h !! d) as [[|m buf]|]; simplify_eq; try done.
  cbn. by rewrite lookup_insert_ne.
Qed.

Lemma pump_buffer c h got sent h' :
  pump c h got sent h' → clients h !! c = Some [] →
  ∃ buf, clients h' !! c = Some buf ∧ (length buf <= sendCap)%nat ∧ sublist (got ++ buf)%list sent.
Proof.
  induction 1 as [h|h got sent h1 msg _ IH|h got sent h1 msg h2 _ IH Hr|h got sent h1 d _ IH Hne
    |h got sent h1 d o h2 _ IH Hne Hr|h got sent h1 d _ IH Hne]; intros H0.
  - exists []. split; [done|]. split; [unfold sendCap; cbn; lia|done].
  - destruct (IH H0) as (buf & Hb & Hl & Hs). exists (offer msg buf). cbn. rewrite lookup_fmap, Hb.
    split; [done|]. unfold offer. destruct (Nat.ltb_spec (length buf) sendCap).
    + split; [rewrite length_app; cbn; lia|]. rewrite (assoc_L app). by apply sublist_app.
    + split; [done|]. by apply sublist_inserts_r.
  - destruct (IH H0) as (buf & Hb & Hl & Hs). unfold receive in Hr. rewrite Hb in Hr.
    destruct buf as [|m buf]; simplify_eq. exists buf. cbn. rewrite lookup_insert_eq.
    split; [done|]. cbn in Hl. split; [lia|]. by rewrite <- (assoc_L app).
  - destruct (IH H0) as (buf & Hb & Hl & Hs). exists buf. cbn. by rewrite lookup_insert_ne.
  - destruct (IH H0) as (buf & Hb & Hl & Hs). exists buf. by rewrite (receive_other _ _ _ _ _ Hne Hr).
  - destruct (IH H0) as (buf & Hb & Hl & Hs). exists buf. cbn. by rewrite lookup_delete_ne.
Qed.

(** C36. Live updates: however broadcasts, receives and other clients' comings
    and goings interleave after a client registers, what the client has received
    is a subsequence of what was broadcast, in order and without repetition or
    invention; its buffer never exceeds its capacity, and a broadcast completes
    whatever state the clients are in. *)
Theorem hub_delivery c h0 got sent h :
  pump c (register c h0) got sent h →
  sublist got sent ∧ ∃ buf, clients h !! c = Some buf ∧ (length buf <= 64)%nat ∧ sublist (got ++ buf)%list sent.
Proof.
  intros H. destruct (pump_buffer _ _ _ _ _ H) as (buf & Hb & Hl & Hs); [apply lookup_insert_eq|].
  split; [|eauto]. etransitivity; [|exact Hs]. by apply sublist_inserts_r.
Qed.

Definition example_event : ProbeEvent := mkProbeEvent "probe_result" "a" "b" (S754_zero false) "".

Lemma hub_delivery_witness : sublist [example_event] [example_event].
Proof.
  apply (hub_delivery 1 newWSHub [example_event] [example_event]
    (mkHub (<[1%nat := []]> (clients (Broadcast example_event (register 1 newWSHub)))))).
  refine (pump_receive 1 _ [] _ (Broadcast example_event (register 1 newWSHub)) example_event _ _ _).
  - apply (pump_broadcast 1 _ [] [] _ example_event (pump_nil 1 _)).
  - vm_compute. reflexivity.
Defined.
