(* ===== verification/Server.v ===== *)
(** * The controller's server: state, metrics and credential gates
      ([internal/controller/server.go], [auth.go], [admin.go], [ui.go])

    [srv] is what handlers share: the database, the ticket store, the rate
    limiter, the replication tracker, the metrics and the UI hub.  [config] is
    what [NewWithOptions] fixes.  A handler is a program over [srv] from a request
    to a response. *)
From Stdlib Require Import Ascii ZArith Lia SpecFloat.
From S2P Require Import Prelude GoTime GoStrings Base64 Ticket RateLimit Litestream ControllerDB Nodes Http Ui.

Local Open Scope string_scope.
Local Open Scope Z_scope.

(** ** Metrics

    Counters and gauges that hold integers are integers (a [float64] holds them
    exactly below 2^53); durations are in nanoseconds. *)
Record Metrics := mkMetrics {
  IngestTotal : gmap (string * string) Z;
  IngestLatency : list Z;
  NodeSpoolDepth : gmap string Z;
  NodeSpoolOldestAgeSecs : gmap string Z;
  NodeSpoolDropsTotal : gmap string Z;
  NodeLastSeenSeconds : gmap string Z;
  ClockDriftMS : spec_float;
  LitestreamLastSyncTimestamp : Z;
  LitestreamLagSeconds : Z;
  ActiveWebSocketConnections : Z;
  WSTicketsIssued : Z;
  WSTicketsUsed : Z;
  WSTicketsRejected : gmap string Z;
  DBSizeBytes : Z;
  ProbeResultsTotal : Z;
}.

(** [metrics.New] *)
Definition newMetrics : Metrics :=
  mkMetrics ∅ [] ∅ ∅ ∅ ∅ (S754_zero false) 0 0 0 0 0 ∅ 0 0.

(** ** Configuration and state *)

Record config := mkConfig {
  dbPath : string;
  chrony : option (nat → res spec_float);
  maxDriftMS : spec_float;
  maxLag : Z;
  metricsToken : string;
  adminToken : string;
  wsAllowedOrigins : list string;
}.

Record srv := mkSrv {
  s_db : cdb;
  s_tickets : Store;
  s_wsRateLimit : option RateLimiter;
  s_litestream : option Tracker;
  s_metrics : option Metrics;
  s_lastDropsByNode : gmap string Z;
  s_dropsLocked : bool;   (* dropsMu is held and will not be released *)
  s_wsHub : WSHub;
}.

#[export] Instance srv_HasDB : HasDB srv := {|
  the_db := s_db;
  with_db := λ d s, mkSrv d (s_tickets s) (s_wsRateLimit s) (s_litestream s) (s_metrics s)
                          (s_lastDropsByNode s) (s_dropsLocked s) (s_wsHub s);
  the_with := λ d s, eq_refl;
|}.

Definition with_tickets (t : Store) (s : srv) : srv :=
  mkSrv (s_db s) t (s_wsRateLimit s) (s_litestream s) (s_metrics s) (s_lastDropsByNode s) (s_dropsLocked s) (s_wsHub s).
Definition with_limiter (l : option RateLimiter) (s : srv) : srv :=
  mkSrv (s_db s) (s_tickets s) l (s_litestream s) (s_metrics s) (s_lastDropsByNode s) (s_dropsLocked s) (s_wsHub s).
Definition with_metrics (m : option Metrics) (s : srv) : srv :=
  mkSrv (s_db s) (s_tickets s) (s_wsRateLimit s) (s_litestream s) m (s_lastDropsByNode s) (s_dropsLocked s) (s_wsHub s).
Definition with_drops (d : gmap string Z) (s : srv) : srv :=
  mkSrv (s_db s) (s_tickets s) (s_wsRateLimit s) (s_litestream s) (s_metrics s) d (s_dropsLocked s) (s_wsHub s).
Definition lock_drops (s : srv) : srv :=
  mkSrv (s_db s) (s_tickets s) (s_wsRateLimit s) (s_litestream s) (s_metrics s) (s_lastDropsByNode s) true (s_wsHub s).
Definition with_hub (h : WSHub) (s : srv) : srv :=
  mkSrv (s_db s) (s_tickets s) (s_wsRateLimit s) (s_litestream s) (s_metrics s) (s_lastDropsByNode s) (s_dropsLocked s) h.

(** [Options] less what is immutable, and [NewWithOptions]. *)
Record Options := mkOptions {
  o_Tickets : option Store;
  o_WSRateLimit : option RateLimiter;
  o_Litestream : option Tracker;
  o_Metrics : option Metrics;
}.

Definition NewWithOptions (db : cdb) (o : Options) : srv :=
  mkSrv db (default (Ticket.NewStore 0) (o_Tickets o)) (o_WSRateLimit o) (o_Litestream o) (o_Metrics o) ∅ false newWSHub.

Definition New (db : cdb) : srv :=
  NewWithOptions db (mkOptions (Some (Ticket.NewStore 0)) None None None).

(** ** Payloads *)

Record ResultObservation := mkObs {
  TargetID : string;
  LatencyMs : option spec_float;
  ObsError : string;
}.

Record SpoolMetadata := mkSpoolMetadata {
  SpoolDepth : Z;
  SpoolOldestAgeSeconds : Z;
  SpoolDropsTotal : Z;
  DrainAttempt : Z;
}.

Record ResultsRequest := mkResultsRequest {
  SourceID : string;
  ProbeRunID : string;
  ReqObservedAt : Z;
  Results : list ResultObservation;
  SpoolMeta : SpoolMetadata;
}.

Record AdminCreateRequest := mkAdminCreate {
  ac_ID : string;
  ac_Role : string;
  ac_Address : string;
  ac_Disabled : bool;
  ac_Secret : string;
}.

Record AdminPatchRequest := mkAdminPatch {
  ap_Role : option string;
  ap_Address : option string;
  ap_Disabled : option bool;
  ap_Secret : option string;
}.

(** [dec.Decode] with [DisallowUnknownFields], for the three bodies. *)
Class Codec := {
  decode_results : string → res ResultsRequest;
  decode_create : string → res AdminCreateRequest;
  decode_patch : string → res AdminPatchRequest;
}.

(** [rand.Read] of 32 bytes at a step. *)
Class Rand := { rand_Read : nat → res (list Z) }.

(** ** Responses *)

Record AdminNode := mkAdminNode {
  an_ID : string;
  an_Role : string;
  an_Address : string;
  an_Disabled : bool;
}.

Inductive page :=
  | LoginPage (msg : string)
  | DashboardPage (m : LatencyMatrix)
  | NodesPage (infos : list NodeInfo) (secret : string)
  | MatrixFragment (m : LatencyMatrix)
  | NewNodeForm
  | NodeRowFragment (i : NodeInfo).

(** One readiness check: passed or not. *)
Record readiness := mkReadiness { r_chrony : bool; r_litestream : option bool }.

Inductive payload :=
  | JError (msg : string)
  | JStatus
  | JResults (version : option Z)
  | JTargets (targets : list (string * string)) (version : Z)
  | JTicket (value expires_at : string)
  | JNodes (l : list AdminNode)
  | JCreated (n : AdminNode) (secret : string)
  | JNode (n : AdminNode)
  | JReady (status : string) (checks : readiness)
  | Empty
  | Plain (msg : string)
  | Html (p : page)
  | Redirect (location : string)
  | Upgraded (nodeID : string)
  | Scrape (m : Metrics)
  | Static
  | Aborted     (* the handler panicked: the connection is closed without a response *)
  | Hung.       (* the handler never returns *)

(** [set_cookie]: the value of a session cookie the response sets, with its
    [Secure] flag. *)
Record response := mkResp {
  code : Z;
  body : payload;
  set_cookie : option (string * bool);
}.

Definition reply (c : Z) (b : payload) : response := mkResp c b None.
Definition writeJSONError (c : Z) (msg : string) : response := reply c (JError msg).

Definition handler : Type := request → M srv response.

Section Gates.
Context {E : Env}.

Definition modify (f : srv → srv) : M srv () := λ w, ((), mkWorld (f (st w)) (tick w)).

(** Applies an update to the metrics, when there are any. *)
Definition with_m (f : Metrics → Metrics) : M srv () := modify (λ s, with_metrics (f <$> s_metrics s) s).

(** [bearerAuth]: hands the authenticated node to the next handler. *)
Definition bearerAuth (next : Node → handler) : handler := λ r,
  let nodeID := Header_Get r "X-Nlm-Node-Id" in
  match parseBearer (Header_Get r "Authorization") with
  | Err _ => mret (writeJSONError StatusUnauthorized "unauthorized")
  | Ok token =>
      if bool_decide (nodeID = "") then mret (writeJSONError StatusUnauthorized "unauthorized")
      else
        n ← Get nodeID;
        match n with
        | Err e =>
            if errors_Is e ErrUnknownNode then mret (writeJSONError StatusUnauthorized "unauthorized")
            else mret (writeJSONError StatusInternalServerError "internal error")
        | Ok node =>
            if negb (VerifySecret node token)
            then mret (writeJSONError StatusUnauthorized "unauthorized")
            else next node r
        end
  end.

(** [adminAuth] *)
Definition adminAuth (c : config) (next : handler) : handler := λ r,
  if bool_decide (adminToken c = "")
  then mret (writeJSONError StatusServiceUnavailable "admin api disabled (NLM_ADMIN_TOKEN not set)")
  else
    let hdr := Header_Get r "Authorization" in
    if (String.length hdr <=? 7)%nat || negb (EqualFold (str_take 7 hdr) "Bearer ")
    then mret (writeJSONError StatusUnauthorized "missing bearer")
    else
      let got := TrimSpace (str_drop 7 hdr) in
      if negb (constantTimeStringEq got (adminToken c))
      then mret (writeJSONError StatusUnauthorized "bad admin token")
      else next r.

Definition session_ok (c : config) (r : request) : bool :=
  match Cookie r with
  | None => false
  | Some v => constantTimeStringEq v (adminToken c)
  end.

(** [requireSession] *)
Definition requireSession (c : config) (next : handler) : handler := λ r,
  if session_ok c r then next r
  else mret (reply StatusSeeOther (Redirect "/ui/login")).

(** [Metrics.Handler]'s token check. *)
Definition metricsAuth (c : config) (next : handler) : handler := λ r,
  if bool_decide (metricsToken c = "") then next r
  else if negb (equalSecure (Header_Get r "Authorization") ("Bearer " ++ metricsToken c))
  then mret (reply StatusUnauthorized (Plain "unauthorized"))
  else next r.
End Gates.

(** ** Who may pass *)

(** The credentials of a node, of the operator through the API, and of a browser
    session. *)
Definition node_credentials (db : cdb) (r : request) (node : Node) : Prop :=
  ∃ row token, nodes db !! Header_Get r "X-Nlm-Node-Id" = Some row ∧
    node = node_of (Header_Get r "X-Nlm-Node-Id") row ∧ ID node ≠ "" ∧
    parseBearer (Header_Get r "Authorization") = Ok token ∧ VerifySecret node token = true.

Definition admin_credentials (c : config) (r : request) : Prop :=
  adminToken c ≠ "" ∧ parseBearer (Header_Get r "Authorization") = Ok (adminToken c).

(** What the session gate compares, and what makes it a credential: there is a
    token to know. *)
Definition session_cookie (c : config) (r : request) : Prop := Cookie r = Some (adminToken c).

Definition session_credentials (c : config) (r : request) : Prop := adminToken c ≠ "" ∧ session_cookie c r.

Lemma session_ok_iff c r : session_ok c r = true ↔ session_cookie c r.
Proof.
  unfold session_ok, session_cookie. destruct (Cookie r); [|naive_solver].
  rewrite constantTimeStringEq_eq. naive_solver.
Qed.

Section GateFacts.
Context {E : Env}.

(** A gate refuses without touching the state, or the request has credentials
    and the next handler runs from an unchanged database. *)
Lemma adminAuth_cases c next r (w : world srv) :
  (admin_credentials c r ∧ adminAuth c next r w = next r w) ∨
  (¬ admin_credentials c r ∧ ∃ resp, adminAuth c next r w = (resp, w) ∧ code resp ∈ [401; 503]).
Proof.
  unfold adminAuth, admin_credentials, parseBearer. case_bool_decide as Ht.
  { right. split; [naive_solver|]. eexists. split; [reflexivity|]. set_solver. }
  destruct (_ || _) eqn:Hb.
  { right. split; [naive_solver|]. eexists. split; [reflexivity|]. set_solver. }
  destruct (constantTimeStringEq _ _) eqn:Hc; cbn [negb].
  - left. apply constantTimeStringEq_eq in Hc. rewrite Hc. done.
  - right. split; [|eexists; split; [reflexivity|set_solver]].
    intros [_ He]. apply not_true_iff_false in Hc. apply Hc, constantTimeStringEq_eq. congruence.
Qed.

Lemma requireSession_cases c next r (w : world srv) :
  (session_cookie c r ∧ requireSession c next r w = next r w) ∨
  (¬ session_cookie c r ∧
   requireSession c next r w = (reply StatusSeeOther (Redirect "/ui/login"), w)).
Proof.
  unfold requireSession. destruct (session_ok c r) eqn:Hs.
  - left. by apply session_ok_iff in Hs.
  - right. split; [|done]. rewrite <- session_ok_iff. congruence.
Qed.

Lemma metricsAuth_cases c next r (w : world srv) :
  ((metricsToken c = "" ∨ Header_Get r "Authorization" = "Bearer " ++ metricsToken c) ∧
     metricsAuth c next r w = next r w) ∨
  (∃ resp, metricsAuth c next r w = (resp, w) ∧ code resp = StatusUnauthorized).
Proof.
  unfold metricsAuth. case_bool_decide; [left; by auto|].
  destruct (equalSecure _ _) eqn:He; cbn [negb].
  - left. split; [right; by apply equalSecure_eq|done].
  - right. by eexists.
Qed.

(** The world of a query: the state is as it was. *)
Lemma query_world {A} (f : cdb → A) (w : world srv) r w' :
  query f w = (r, w') →
  st w' = st w ∧ tick w' = S (tick w) ∧ ((∃ e, r = Err e) ∨ r = Ok (f (s_db (st w)))).
Proof.
  unfold query, exec, stmt. destruct (fault (tick w)) as [e|]; cbn; intros [= <- <-]; cbn; eauto.
  split; [by destruct (st w)|]. auto.
Qed.

Lemma bearerAuth_cases next r (w : world srv) :
  (∃ node w', node_credentials (s_db (st w)) r node ∧ st w' = st w ∧ tick w' = S (tick w) ∧
              bearerAuth next r w = next node r w') ∨
  (∃ resp w', bearerAuth next r w = (resp, w') ∧ st w' = st w ∧ code resp ∈ [401; 500]).
Proof.
  unfold bearerAuth. destruct (parseBearer _) as [token|e] eqn:Hp.
  2: { right. eexists _, w. split; [reflexivity|]. split; [done|set_solver]. }
  case_bool_decide as Hid.
  { right. eexists _, w. split; [reflexivity|]. split; [done|set_solver]. }
  unfold Get. unfold_M. destruct (query _ w) as [q w1] eqn:Hq.
  apply query_world in Hq as (Hst & Htick & Hq).
  destruct q as [[row|]|e].
  - destruct Hq as [[e ?]|Hq]; [done|]. injection Hq as Hrow.
    destruct (VerifySecret _ _) eqn:Hv; cbn [negb].
    + left. exists (node_of (Header_Get r "X-Nlm-Node-Id") row), w1. split; [|done].
      exists row, token. done.
    + right. eexists _, w1. split; [reflexivity|]. split; [done|set_solver].
  - right. rewrite errors_Is_refl. eexists _, w1. split; [reflexivity|]. split; [done|set_solver].
  - right. destruct (errors_Is e ErrNoRows).
    + rewrite errors_Is_refl. eexists _, w1. split; [reflexivity|]. split; [done|set_solver].
    + destruct (errors_Is (ErrWrap _ e) ErrUnknownNode);
        (eexists _, w1; split; [reflexivity|]; split; [done|set_solver]).
Qed.
End GateFacts.
