(* ===== verification/Pages.v ===== *)
(** * The pages of the web UI ([internal/ui/*_templ.go])

    Every generated component, as the sequence of its writes, and [renderHTML],
    which sends one.  The literals are the templates' own, with a backquote for
    the double quote. *)
From Stdlib Require Import Ascii ZArith Lia SpecFloat.
From S2P Require Import Prelude GoTime GoStrings GoNumbers ControllerDB Ui Http Server Html.

Local Open Scope string_scope.
Local Open Scope list_scope.

Section Pages.
Context {T : Templ}.

(** ** [layout_templ.go]

    The children come through the context; without any the component is
    [NopComponent]. *)
Definition layout (title : string) (children : option Component) : Component :=
  GeneratedTemplate (
    [WriteString (lit "<!doctype html><html lang=`en`><head><meta charset=`UTF-8`><meta name=`viewport` content=`width=device-width, initial-scale=1.0`><title>");
     WriteEscaped title;
     WriteString (lit " – NLM</title><link rel=`stylesheet` href=`/static/style.css`><script src=`https://unpkg.com/htmx.org@2.0.4/dist/htmx.min.js` defer></script></head><body><nav class=`nav`><a href=`/ui/` class=`nav-brand`>NLM</a> <a href=`/ui/`>Dashboard</a> <a href=`/ui/nodes`>Nodes</a><form method=`POST` action=`/ui/logout` class=`nav-form`><button type=`submit` class=`nav-logout`>Logout</button></form></nav><main>")]
    ++ default [] children ++
    [WriteString (lit "</main></body></html>")]).

(** ** [login_templ.go] *)
Definition Login (errMsg : string) : Component :=
  GeneratedTemplate (
    [WriteString (lit "<!doctype html><html lang=`en`><head><meta charset=`UTF-8`><meta name=`viewport` content=`width=device-width, initial-scale=1.0`><title>Login – NLM</title><link rel=`stylesheet` href=`/static/style.css`></head><body class=`login-body`><div class=`login-card`><h1>NetLatencyMonitor</h1><p class=`subtitle`>Enter your admin token to continue.</p>")]
    ++ (if bool_decide (errMsg = "") then []
        else [WriteString (lit "<div class=`alert alert-error`>"); WriteEscaped errMsg; WriteString (lit "</div>")])
    ++ [WriteString (lit "<form method=`POST` action=`/ui/login`><label>Admin Token <input type=`password` name=`token` autofocus required></label> <button type=`submit` class=`btn-primary btn-full`>Sign in</button></form></div></body></html>")]).

(** ** [nodes_templ.go] *)

(** The last cell of a row: the buttons. *)
Definition NodeRow_actions (n : NodeInfo) : list op :=
  (if ni_Disabled n then
     [WriteString (lit "<button class=`btn-secondary btn-sm` hx-patch=`");
      WriteEscaped ("/ui/frag/nodes/" ⊕ ni_ID n ⊕ "/enable");
      WriteString (lit "` hx-target=`");
      WriteEscaped ("#node-" ⊕ ni_ID n);
      WriteString (lit "` hx-swap=`outerHTML`>Enable</button> ")]
   else
     [WriteString (lit "<button class=`btn-danger btn-sm` hx-patch=`");
      WriteEscaped ("/ui/frag/nodes/" ⊕ ni_ID n ⊕ "/disable");
      WriteString (lit "` hx-target=`");
      WriteEscaped ("#node-" ⊕ ni_ID n);
      WriteString (lit "` hx-swap=`outerHTML`>Disable</button> ")])
  ++ [WriteString (lit "<button class=`btn-danger btn-sm` hx-delete=`");
      WriteEscaped ("/ui/frag/nodes/" ⊕ ni_ID n);
      WriteString (lit "` hx-confirm=`");
      WriteEscaped ("Delete node " ⊕ ni_ID n ⊕ "? This cannot be undone.");
      WriteString (lit "` hx-target=`");
      WriteEscaped ("#node-" ⊕ ni_ID n);
      WriteString (lit "` hx-swap=`outerHTML`>Delete</button></td></tr>")].

Definition NodeRow (n : NodeInfo) : Component :=
  GeneratedTemplate (
    [WriteString (lit "<tr id=`");
     WriteEscaped ("node-" ⊕ ni_ID n);
     WriteString (lit "`><td class=`mono`>");
     WriteEscaped (ni_ID n);
     WriteString (lit "</td><td>");
     WriteCSSItems ["badge badge-" ⊕ ni_Role n];
     WriteString (lit "<span class=`");
     WriteEscaped (CSSClasses_String ["badge badge-" ⊕ ni_Role n]);
     WriteString (lit "`>");
     WriteEscaped (ni_Role n);
     WriteString (lit "</span></td><td class=`mono`>");
     WriteEscaped (ni_Address n);
     WriteString (lit "</td><td>")]
    ++ [WriteString (lit (if ni_Disabled n then "<span class=`badge badge-disabled`>Disabled</span>"
                          else "<span class=`badge badge-active`>Active</span>"));
     WriteString (lit "</td><td>");
     WriteEscaped (format_int (ni_SpoolDepth n));
     WriteString (lit "</td><td class=`actions`>")]
    ++ NodeRow_actions n).

Definition NodesTable (nodes : list NodeInfo) : Component :=
  GeneratedTemplate (
    [WriteString (lit "<div id=`nodes-table-wrap`><table class=`nodes-table`><thead><tr><th>ID</th><th>Role</th><th>Address</th><th>Status</th><th>Spool</th><th></th></tr></thead> <tbody>")]
    ++ (if (length nodes =? 0)%nat
        then [WriteString (lit "<tr><td colspan=`6` class=`empty`>No nodes provisioned yet.</td></tr>")] else [])
    ++ for_each nodes NodeRow
    ++ [WriteString (lit "</tbody></table></div>")]).

(** The page around the table; the children given to the layout do not look at
    the context. *)
Definition Nodes (nodes : list NodeInfo) (secret : string) : Component :=
  let Var2 : Component :=
    [WriteString (lit "<div class=`page-header`><div><h1>Nodes</h1><p class=`subtitle`>Manage agent nodes. Hub nodes form the probe mesh.</p></div><button class=`btn-primary` hx-get=`/ui/frag/nodes/new` hx-target=`#create-slot` hx-swap=`innerHTML`>+ Add Node</button></div>")]
    ++ (if bool_decide (secret = "") then []
        else [WriteString (lit "<div class=`secret-box`><p>⚠ Save this secret — it will not be shown again.</p><span class=`secret-value`>");
              WriteEscaped secret;
              WriteString (lit "</span></div>")])
    ++ [WriteString (lit " <div id=`create-slot`></div><div id=`nodes-table-wrap`>")]
    ++ NodesTable nodes
    ++ [WriteString (lit "</div>")] in
  GeneratedTemplate (layout "Nodes" (Some Var2)).

Definition CreateNodeForm : Component :=
  GeneratedTemplate
    [WriteString (lit "<form class=`create-form` hx-post=`/ui/frag/nodes` hx-target=`#nodes-table-wrap` hx-swap=`outerHTML`><h2>Add Node</h2><div class=`form-row`><label>ID <input type=`text` name=`id` placeholder=`hub-nyc1` required></label> <label>Role <select name=`role`><option value=`hub`>hub</option> <option value=`spoke`>spoke</option> <option value=`listener`>listener</option></select></label> <label>Address <small>(hub only, host:port)</small> <input type=`text` name=`address` placeholder=`203.0.113.1:8444`></label> <label>Secret <small>(blank = auto-generate)</small> <input type=`text` name=`secret` placeholder=`auto`></label></div><div class=`form-actions`><button type=`submit` class=`btn-primary`>Create</button> <button type=`button` class=`btn-secondary` onclick=`document.getElementById('create-slot').innerHTML=''`>Cancel</button></div></form>")].

(** ** [dashboard_templ.go] *)

Definition cellID (src dst : string) : string := "cell-" ⊕ src ⊕ "-" ⊕ dst.

(** [fmt.Sprintf("avg %.1f ms  min %.1f  max %.1f  n=%d", ...)] *)
Definition cell_title (e : MatrixEntry) : string :=
  "avg " ⊕ format_f1 (me_AvgLatMS e) ⊕ " ms  min " ⊕ format_f1 (me_MinLatMS e) ⊕
  "  max " ⊕ format_f1 (me_MaxLatMS e) ⊕ "  n=" ⊕ format_int (me_Samples e).

Definition matrixCell (e : option MatrixEntry) (src dst : string) : Component :=
  GeneratedTemplate
    (match e with
     | None =>
         [WriteString (lit "<td id=`");
          WriteEscaped (cellID src dst);
          WriteString (lit "` class=`cell-unknown`>?</td>")]
     | Some e =>
         if me_HasError e then
           [WriteString (lit "<td id=`");
            WriteEscaped (cellID src dst);
            WriteString (lit "` class=`cell-error` title=`probe error`>✕</td>")]
         else
           [WriteCSSItems [cellClass (me_AvgLatMS e)];
            WriteString (lit "<td id=`");
            WriteEscaped (cellID src dst);
            WriteString (lit "` class=`");
            WriteEscaped (CSSClasses_String [cellClass (me_AvgLatMS e)]);
            WriteString (lit "` title=`");
            WriteEscaped (cell_title e);
            WriteString (lit "`>");
            WriteEscaped (format_f1 (me_AvgLatMS e));
            WriteString (lit "</td>")]
     end).

(** The row of one source. *)
Definition MatrixTable_row (matrix : LatencyMatrix) (src : string) : list op :=
  [WriteString (lit "<tr><td class=`row-label`>");
   WriteEscaped src;
   WriteString (lit "</td>")]
  ++ for_each (lm_Nodes matrix) (λ dst,
       if bool_decide (src = dst) then [WriteString (lit "<td class=`cell-self`>—</td>")]
       else matrixCell (Matrix_Get matrix src dst) src dst)
  ++ [WriteString (lit "</tr>")].

Definition MatrixTable (matrix : LatencyMatrix) : Component :=
  GeneratedTemplate (
    [WriteString (lit "<div id=`matrix-wrap` hx-get=`/ui/frag/matrix` hx-trigger=`every 30s` hx-swap=`outerHTML`>")]
    ++ (if (length (lm_Nodes matrix) =? 0)%nat
        then [WriteString (lit "<p class=`empty`>No hub nodes yet. <a href=`/ui/nodes`>Add one →</a></p>")]
        else
          [WriteString (lit "<table class=`matrix`><thead><tr><th class=`corner`>from ╲ to</th>")]
          ++ for_each (lm_Nodes matrix) (λ n,
               [WriteString (lit "<th>"); WriteEscaped n; WriteString (lit "</th>")])
          ++ [WriteString (lit "</tr></thead> <tbody>")]
          ++ for_each (lm_Nodes matrix) (MatrixTable_row matrix)
          ++ [WriteString (lit "</tbody></table>")])
    ++ [WriteString (lit "</div>")]).

(** The script, line for line; the tokenizer sees one piece of text. *)
Definition wsScript : Component :=
  GeneratedTemplate
    [WriteString (lit "<script>
	(function () {
		var statusEl = document.getElementById('ws-status');
		var dot = document.createElement('span');
		dot.className = 'ws-dot';
		dot.style.background = 'var(--unknown)';

		function setStatus(msg, color) {
			dot.style.background = color || 'var(--unknown)';
			statusEl.textContent = msg ? ' ' + msg : '';
			statusEl.prepend(dot);
		}

		var proto = location.protocol === 'https:' ? 'wss:' : 'ws:';
		var ws = new WebSocket(proto + '//' + location.host + '/api/v1/ui/ws');

		ws.onopen = function () { setStatus('', 'var(--good)'); };
		ws.onclose = function () { setStatus('disconnected', 'var(--bad)'); };
		ws.onerror = function () { setStatus('error', 'var(--bad)'); };

		ws.onmessage = function (ev) {
			var msg;
			try { msg = JSON.parse(ev.data); } catch (_) { return; }
			if (msg.type !== 'probe_result') return;

			var id = 'cell-' + msg.source_id + '-' + msg.target_id;
			var cell = document.getElementById(id);
			if (!cell) return;

			if (msg.error) {
				cell.textContent = '✕';
				cell.className = 'cell-error';
				cell.title = 'probe error';
			} else {
				var ms = msg.latency_ms;
				cell.textContent = ms.toFixed(1);
				cell.className = ms < 10 ? 'cell-good' : ms < 50 ? 'cell-warn' : 'cell-bad';
				cell.title = ms.toFixed(2) + ' ms';
			}
		};
	})();
	</script>")].

Definition Dashboard (matrix : LatencyMatrix) : Component :=
  let Var2 : Component :=
    [WriteString (lit "<div class=`page-header`><div><h1>Latency Matrix</h1><p class=`subtitle`>TCP probe latency between hub nodes (ms, 5-min avg). Updates in real-time.</p></div><span id=`ws-status` class=`ws-status`></span></div><div class=`matrix-scroll`>")]
    ++ MatrixTable matrix
    ++ [WriteString (lit "</div>")]
    ++ wsScript in
  GeneratedTemplate (layout "Dashboard" (Some Var2)).

(** The component a handler renders. *)
Definition component (p : page) : Component :=
  match p with
  | LoginPage msg => Login msg
  | DashboardPage m => Dashboard m
  | NodesPage infos secret => Nodes infos secret
  | MatrixFragment m => MatrixTable m
  | NewNodeForm => CreateNodeForm
  | NodeRowFragment i => NodeRow i
  end.

(** [renderHTML]: the error of the rendering is dropped. *)
Definition renderHTML {E : Env} (c : Component) : M string () := _ ← Render c; mret ().
End Pages.
