(* ===== verification/PagesFacts.v ===== *)
(** * What the pages show, and that data never becomes markup

    [dom] is a document tree; the trees below are written from the [.templ]
    sources, with the data of the page at their leaves.  The theorems say that
    the text the generated code writes is read by an HTML tokenizer as exactly
    those trees, for whatever bytes the data holds. *)
From Stdlib Require Import Ascii ZArith Lia SpecFloat.
From S2P Require Import Prelude GoTime GoStrings GoNumbers ControllerDB Ui Http Server Html Pages.

Local Open Scope string_scope.
Local Open Scope list_scope.

(** ** Documents *)

Inductive dom :=
  | El (name : string) (attrs : list (string * string)) (children : list dom)
  | Void (name : string) (attrs : list (string * string))
  | Txt (s : string).

Fixpoint dom_tokens (d : dom) : list token :=
  match d with
  | El n l ds => StartTag n l :: flat_map dom_tokens ds ++ [EndTag n]
  | Void n l => [StartTag n l]
  | Txt s => text_token s
  end.

Definition doc_tokens (ds : list dom) : list token := flat_map dom_tokens ds.

(** The trees a tokenizer finds in the text of a component that starts and ends
    between tags. *)
Definition reads {T : Templ} (c : list op) (ds : list dom) : Prop :=
  run (Data "") (html c) = (Data "", doc_tokens ds).

(** ** The templates *)

Section Templates.
Context {T : Templ}.

(** [layout.templ] *)
Definition layout_dom (title : string) (children : list dom) : dom :=
  El "html" [("lang", "en")]
    [El "head" []
       [Void "meta" [("charset", "UTF-8")];
        Void "meta" [("name", "viewport"); ("content", "width=device-width, initial-scale=1.0")];
        El "title" [] [Txt (title ⊕ " – NLM")];
        Void "link" [("rel", "stylesheet"); ("href", "/static/style.css")];
        El "script" [("src", "https://unpkg.com/htmx.org@2.0.4/dist/htmx.min.js"); ("defer", "")] []];
     El "body" []
       [El "nav" [("class", "nav")]
          [El "a" [("href", "/ui/"); ("class", "nav-brand")] [Txt "NLM"]; Txt " ";
           El "a" [("href", "/ui/")] [Txt "Dashboard"]; Txt " ";
           El "a" [("href", "/ui/nodes")] [Txt "Nodes"];
           El "form" [("method", "POST"); ("action", "/ui/logout"); ("class", "nav-form")]
             [El "button" [("type", "submit"); ("class", "nav-logout")] [Txt "Logout"]]];
        El "main" [] children]].

(** [login.templ] *)
Definition login_dom (errMsg : string) : dom :=
  El "html" [("lang", "en")]
    [El "head" []
       [Void "meta" [("charset", "UTF-8")];
        Void "meta" [("name", "viewport"); ("content", "width=device-width, initial-scale=1.0")];
        El "title" [] [Txt "Login – NLM"];
        Void "link" [("rel", "stylesheet"); ("href", "/static/style.css")]];
     El "body" [("class", "login-body")]
       [El "div" [("class", "login-card")]
          ([El "h1" [] [Txt "NetLatencyMonitor"];
            El "p" [("class", "subtitle")] [Txt "Enter your admin token to continue."]]
           ++ (if bool_decide (errMsg = "") then [] else [El "div" [("class", "alert alert-error")] [Txt errMsg]])
           ++ [El "form" [("method", "POST"); ("action", "/ui/login")]
                 [El "label" []
                    [Txt "Admin Token ";
                     Void "input" [("type", "password"); ("name", "token"); ("autofocus", ""); ("required", "")]];
                  Txt " ";
                  El "button" [("type", "submit"); ("class", "btn-primary btn-full")] [Txt "Sign in"]]])]].

(** [nodes.templ] *)
Definition row_dom (n : NodeInfo) : dom :=
  El "tr" [("id", "node-" ⊕ ni_ID n)]
    [El "td" [("class", "mono")] [Txt (ni_ID n)];
     El "td" [] [El "span" [("class", CSSClasses_String ["badge badge-" ⊕ ni_Role n])] [Txt (ni_Role n)]];
     El "td" [("class", "mono")] [Txt (ni_Address n)];
     El "td" [] [if ni_Disabled n then El "span" [("class", "badge badge-disabled")] [Txt "Disabled"]
                 else El "span" [("class", "badge badge-active")] [Txt "Active"]];
     El "td" [] [Txt (format_int (ni_SpoolDepth n))];
     El "td" [("class", "actions")]
       [if ni_Disabled n
        then El "button" [("class", "btn-secondary btn-sm"); ("hx-patch", "/ui/frag/nodes/" ⊕ ni_ID n ⊕ "/enable");
                          ("hx-target", "#node-" ⊕ ni_ID n); ("hx-swap", "outerHTML")] [Txt "Enable"]
        else El "button" [("class", "btn-danger btn-sm"); ("hx-patch", "/ui/frag/nodes/" ⊕ ni_ID n ⊕ "/disable");
                          ("hx-target", "#node-" ⊕ ni_ID n); ("hx-swap", "outerHTML")] [Txt "Disable"];
        Txt " ";
        El "button" [("class", "btn-danger btn-sm"); ("hx-delete", "/ui/frag/nodes/" ⊕ ni_ID n);
                     ("hx-confirm", "Delete node " ⊕ ni_ID n ⊕ "? This cannot be undone.");
                     ("hx-target", "#node-" ⊕ ni_ID n); ("hx-swap", "outerHTML")] [Txt "Delete"]]].

Definition table_dom (nodes : list NodeInfo) : dom :=
  El "div" [("id", "nodes-table-wrap")]
    [El "table" [("class", "nodes-table")]
       [El "thead" []
          [El "tr" [] [El "th" [] [Txt "ID"]; El "th" [] [Txt "Role"]; El "th" [] [Txt "Address"];
                       El "th" [] [Txt "Status"]; El "th" [] [Txt "Spool"]; El "th" [] []]];
        Txt " ";
        El "tbody" []
          ((if (length nodes =? 0)%nat
            then [El "tr" [] [El "td" [("colspan", "6"); ("class", "empty")] [Txt "No nodes provisioned yet."]]]
            else [])
           ++ (row_dom <$> nodes))]].

Definition nodes_dom (nodes : list NodeInfo) (secret : string) : dom :=
  layout_dom "Nodes"
    ([El "div" [("class", "page-header")]
        [El "div" [] [El "h1" [] [Txt "Nodes"];
                      El "p" [("class", "subtitle")] [Txt "Manage agent nodes. Hub nodes form the probe mesh."]];
         El "button" [("class", "btn-primary"); ("hx-get", "/ui/frag/nodes/new"); ("hx-target", "#create-slot");
                      ("hx-swap", "innerHTML")] [Txt "+ Add Node"]]]
     ++ (if bool_decide (secret = "") then []
         else [El "div" [("class", "secret-box")]
                 [El "p" [] [Txt "⚠ Save this secret — it will not be shown again."];
                  El "span" [("class", "secret-value")] [Txt secret]]])
     ++ [Txt " "; El "div" [("id", "create-slot")] [];
         El "div" [("id", "nodes-table-wrap")] [table_dom nodes]]).

Definition form_dom : dom :=
  El "form" [("class", "create-form"); ("hx-post", "/ui/frag/nodes"); ("hx-target", "#nodes-table-wrap");
             ("hx-swap", "outerHTML")]
    [El "h2" [] [Txt "Add Node"];
     El "div" [("class", "form-row")]
       [El "label" [] [Txt "ID "; Void "input" [("type", "text"); ("name", "id"); ("placeholder", "hub-nyc1"); ("required", "")]];
        Txt " ";
        El "label" [] [Txt "Role ";
          El "select" [("name", "role")]
            [El "option" [("value", "hub")] [Txt "hub"]; Txt " ";
             El "option" [("value", "spoke")] [Txt "spoke"]; Txt " ";
             El "option" [("value", "listener")] [Txt "listener"]]];
        Txt " ";
        El "label" [] [Txt "Address "; El "small" [] [Txt "(hub only, host:port)"]; Txt " ";
          Void "input" [("type", "text"); ("name", "address"); ("placeholder", "203.0.113.1:8444")]];
        Txt " ";
        El "label" [] [Txt "Secret "; El "small" [] [Txt "(blank = auto-generate)"]; Txt " ";
          Void "input" [("type", "text"); ("name", "secret"); ("placeholder", "auto")]]];
     El "div" [("class", "form-actions")]
       [El "button" [("type", "submit"); ("class", "btn-primary")] [Txt "Create"]; Txt " ";
        El "button" [("type", "button"); ("class", "btn-secondary");
                     ("onclick", "document.getElementById('create-slot').innerHTML=''")] [Txt "Cancel"]]].

(** [dashboard.templ] *)
Definition cell_dom (e : option MatrixEntry) (src dst : string) : dom :=
  match e with
  | None => El "td" [("id", cellID src dst); ("class", "cell-unknown")] [Txt "?"]
  | Some e =>
      if me_HasError e
      then El "td" [("id", cellID src dst); ("class", "cell-error"); ("title", "probe error")] [Txt "✕"]
      else El "td" [("id", cellID src dst); ("class", CSSClasses_String [cellClass (me_AvgLatMS e)]);
                    ("title", cell_title e)] [Txt (format_f1 (me_AvgLatMS e))]
  end.

Definition matrix_row_dom (m : LatencyMatrix) (src : string) : dom :=
  El "tr" []
    (El "td" [("class", "row-label")] [Txt src] ::
     ((λ dst, if bool_decide (src = dst) then El "td" [("class", "cell-self")] [Txt "—"]
              else cell_dom (Matrix_Get m src dst) src dst) <$> lm_Nodes m)).

Definition matrix_dom (m : LatencyMatrix) : dom :=
  El "div" [("id", "matrix-wrap"); ("hx-get", "/ui/frag/matrix"); ("hx-trigger", "every 30s"); ("hx-swap", "outerHTML")]
    [if (length (lm_Nodes m) =? 0)%nat
     then El "p" [("class", "empty")] [Txt "No hub nodes yet. "; El "a" [("href", "/ui/nodes")] [Txt "Add one →"]]
     else El "table" [("class", "matrix")]
       [El "thead" [] [El "tr" [] (El "th" [("class", "corner")] [Txt "from ╲ to"] ::
                                   ((λ n, El "th" [] [Txt n]) <$> lm_Nodes m))];
        Txt " ";
        El "tbody" [] (matrix_row_dom m <$> lm_Nodes m)]].

Definition script_dom : dom := El "script" [] [Txt "
	(function () {
		var statusEl = document.getElementById('ws-status');
		var dot = document.createElement('span');
		dot.className = 'ws-dot';
		dot.style.background = 'var(--unknown)';

		function setStatus(msg, color) {
			dot.style.background = color || 'var(--unknown)';
			statusEl.textContent = msg ? ' ' + msg : '';
			statusEl.prepend(dot);
		}

		var proto = location.protocol === 'https:' ? 'wss:' : 'ws:';
		var ws = new WebSocket(proto + '//' + location.host + '/api/v1/ui/ws');

		ws.onopen = function () { setStatus('', 'var(--good)'); };
		ws.onclose = function () { setStatus('disconnected', 'var(--bad)'); };
		ws.onerror = function () { setStatus('error', 'var(--bad)'); };

		ws.onmessage = function (ev) {
			var msg;
			try { msg = JSON.parse(ev.data); } catch (_) { return; }
			if (msg.type !== 'probe_result') return;

			var id = 'cell-' + msg.source_id + '-' + msg.target_id;
			var cell = document.getElementById(id);
			if (!cell) return;

			if (msg.error) {
				cell.textContent = '✕';
				cell.className = 'cell-error';
				cell.title = 'probe error';
			} else {
				var ms = msg.latency_ms;
				cell.textContent = ms.toFixed(1);
				cell.className = ms < 10 ? 'cell-good' : ms < 50 ? 'cell-warn' : 'cell-bad';
				cell.title = ms.toFixed(2) + ' ms';
			}
		};
	})();
	"].

Definition dashboard_dom (m : LatencyMatrix) : dom :=
  layout_dom "Dashboard"
    [El "div" [("class", "page-header")]
       [El "div" [] [El "h1" [] [Txt "Latency Matrix"];
                     El "p" [("class", "subtitle")]
                       [Txt "TCP probe latency between hub nodes (ms, 5-min avg). Updates in real-time."]];
        El "span" [("id", "ws-status"); ("class", "ws-status")] []];
     El "div" [("class", "matrix-scroll")] [matrix_dom m];
     script_dom].

(** The document of a page; the whole pages start with a doctype. *)
Definition page_dom (p : page) : dom :=
  match p with
  | LoginPage msg => login_dom msg
  | DashboardPage m => dashboard_dom m
  | NodesPage infos secret => nodes_dom infos secret
  | MatrixFragment m => matrix_dom m
  | NewNodeForm => form_dom
  | NodeRowFragment i => row_dom i
  end.

Definition page_tokens (p : page) : list token :=
  match p with
  | LoginPage _ | DashboardPage _ | NodesPage _ _ => Declaration "doctype html" :: dom_tokens (page_dom p)
  | _ => dom_tokens (page_dom p)
  end.
End Templates.

(** ** Reading a component *)

Section Reading.
Context {T : Templ} {TS : TemplSpec T}.

Lemma escape_decodes s : unescape (EscapeString s) = s.
Proof.
  rewrite <- (string_app_nil_r (EscapeString s)), escape_reads_back. apply string_app_nil_r.
Qed.

Lemma reads_app a b da db : reads a da → reads b db → reads (a ++ b) (da ++ db).
Proof.
  unfold reads, doc_tokens. intros Ha Hb. rewrite html_app, flat_map_app. by eapply run_then.
Qed.

Lemma reads_nil : reads [] [].
Proof. done. Qed.

Lemma reads_for_each {A} (l : list A) (f : A → list op) (g : A → dom) :
  (∀ x, reads (f x) [g x]) → reads (for_each l f) (g <$> l).
Proof.
  intros Hf. induction l as [|x l IH]; [done|]. apply (reads_app (f x) _ [g x]); [apply Hf|exact IH].
Qed.

(** A component that only adds a check of the context. *)
Lemma reads_template c ds : reads c ds → reads (GeneratedTemplate c) ds.
Proof. done. Qed.

(** The text of a component, as one concatenation. *)
Ltac unfold_html := repeat progress (cbn [html chunk app]; rewrite ?html_app, ?string_app_assoc).

(** Names the escaped values of the goal, with what is known of them. *)
Ltac name_values :=
  rewrite ?css_items_empty;
  repeat match goal with
  | |- context [EscapeString ?v] =>
      let Hp := fresh "Hp" in let Hd := fresh "Hd" in
      pose proof (escape_plain v) as Hp; pose proof (escape_decodes v) as Hd;
      generalize dependent (EscapeString v); intros
  end.

(** Runs the tokenizer over the literals and named values of a component. *)
Ltac scan :=
  repeat (eapply run_then;
    [first [ match goal with H : run ?s ?x = _ |- run ?s ?x = _ => exact H end
           | apply run_data; assumption | apply run_value; assumption
           | lazy -[unescape text_token raw_text app]; cbn [app]; reflexivity ]|]);
  cbn [run]; reflexivity.

(** Compares two sequences of tokens up to association. *)
Ltac decode_values :=
  repeat match goal with Hd : unescape ?x = _ |- context [unescape ?x] => rewrite Hd end;
  unfold doc_tokens; cbn [flat_map dom_tokens app];
  repeat progress (rewrite <- ?(assoc_L app), ?app_nil_r; cbn [app]); reflexivity.

Ltac reads_tac :=
  unfold reads, GeneratedTemplate in *; unfold_html; name_values;
  etransitivity; [scan|]; decode_values.

Lemma NodeRow_reads n : reads (NodeRow n) [row_dom n].
Proof. destruct n as [id role addr [] depth seen]; unfold NodeRow, NodeRow_actions, row_dom;
  cbn [ni_ID ni_Role ni_Address ni_Disabled ni_SpoolDepth]; reads_tac. Qed.

Lemma NodesTable_reads nodes : reads (NodesTable nodes) [table_dom nodes].
Proof.
  pose proof (reads_for_each nodes NodeRow row_dom NodeRow_reads) as Hrows.
  unfold NodesTable, table_dom. destruct (length nodes =? 0)%nat; reads_tac.
Qed.

Lemma CreateNodeForm_reads : reads CreateNodeForm [form_dom].
Proof. unfold CreateNodeForm. reads_tac. Qed.

Lemma matrixCell_reads e src dst : reads (matrixCell e src dst) [cell_dom e src dst].
Proof. unfold matrixCell, cell_dom. destruct e as [e|]; [destruct (me_HasError e)|]; reads_tac. Qed.

Lemma MatrixTable_row_reads m src : reads (MatrixTable_row m src) [matrix_row_dom m src].
Proof.
  unfold MatrixTable_row, matrix_row_dom.
  match goal with |- context [for_each ?l ?f] =>
    match goal with |- context [?g <$> l] => assert (Hcells : reads (for_each l f) (g <$> l)) end end.
  { apply reads_for_each. intros dst. destruct (bool_decide (src = dst)); [reads_tac|apply matrixCell_reads]. }
  reads_tac.
Qed.

Lemma MatrixTable_reads m : reads (MatrixTable m) [matrix_dom m].
Proof.
  unfold MatrixTable, matrix_dom. destruct (length (lm_Nodes m) =? 0)%nat; [reads_tac|].
  assert (Hhead : reads (for_each (lm_Nodes m) (λ n, [WriteString (lit "<th>"); WriteEscaped n; WriteString (lit "</th>")]))
                    ((λ n, El "th" [] [Txt n]) <$> lm_Nodes m)).
  { apply reads_for_each. intros n. reads_tac. }
  pose proof (reads_for_each (lm_Nodes m) _ _ (MatrixTable_row_reads m)) as Hrows.
  reads_tac.
Qed.

Lemma wsScript_reads : reads wsScript [script_dom].
Proof. unfold wsScript, script_dom. reads_tac. Qed.

(** The second literal of the layout ends the title and opens the body. *)
Lemma layout_middle y :
  run (RawText "title" y "") (str_drop 8 (lit " – NLM</title><link rel=`stylesheet` href=`/static/style.css`><script src=`https://unpkg.com/htmx.org@2.0.4/dist/htmx.min.js` defer></script></head><body><nav class=`nav`><a href=`/ui/` class=`nav-brand`>NLM</a> <a href=`/ui/`>Dashboard</a> <a href=`/ui/nodes`>Nodes</a><form method=`POST` action=`/ui/logout` class=`nav-form`><button type=`submit` class=`nav-logout`>Logout</button></form></nav><main>")) =
  (Data "", text_token (unescape y) ++
     [EndTag "title"; StartTag "link" [("rel", "stylesheet"); ("href", "/static/style.css")]] ++
     dom_tokens (El "script" [("src", "https://unpkg.com/htmx.org@2.0.4/dist/htmx.min.js"); ("defer", "")] []) ++
     [EndTag "head"; StartTag "body" []] ++
     dom_tokens (El "nav" [("class", "nav")]
          [El "a" [("href", "/ui/"); ("class", "nav-brand")] [Txt "NLM"]; Txt " ";
           El "a" [("href", "/ui/")] [Txt "Dashboard"]; Txt " ";
           El "a" [("href", "/ui/nodes")] [Txt "Nodes"];
           El "form" [("method", "POST"); ("action", "/ui/logout"); ("class", "nav-form")]
             [El "button" [("type", "submit"); ("class", "nav-logout")] [Txt "Logout"]]]) ++
     [StartTag "main" []]).
Proof.
  etransitivity; [lazy -[unescape text_token raw_text app]; cbn [app]; reflexivity|].
  repeat progress (rewrite <- ?(assoc_L app), ?app_nil_r; cbn [app]). reflexivity.
Qed.

(** The layout around its children, for any title. *)
Lemma layout_reads title c ds :
  reads c ds →
  run (Data "") (html (layout title (Some c))) =
    (Data "", Declaration "doctype html" :: dom_tokens (layout_dom title ds)).
Proof.
  unfold layout, reads, GeneratedTemplate. intros Hc. cbn [default]. unfold_html.
  match goal with |- context [(EscapeString title ++ ?l ++ _)%string] => rewrite <- (str_take_drop 8 l) end.
  change (str_take 8 _) with " – NLM". rewrite string_app_assoc.
  pose proof (escape_reads_back title " – NLM") as Ht. change (unescape " – NLM") with " – NLM" in Ht.
  eapply eq_trans.
  - do 2 (eapply run_then; [lazy -[app]; cbn [app]; reflexivity|]).
    eapply run_then; [apply run_title, escape_plain|]. eapply run_then; [apply (run_title _ " – NLM"); reflexivity|].
    eapply run_then; [apply layout_middle|]. eapply run_then; [exact Hc|].
    eapply run_then; [lazy -[unescape text_token raw_text app]; cbn [app]; reflexivity|]. reflexivity.
  - change ("" ++ EscapeString title)%string with (EscapeString title). rewrite Ht.
    unfold layout_dom, doc_tokens. cbn [flat_map dom_tokens app].
    repeat progress (rewrite <- ?(assoc_L app), ?app_nil_r; cbn [app]). reflexivity.
Qed.

Lemma Login_reads errMsg :
  run (Data "") (html (Login errMsg)) = (Data "", Declaration "doctype html" :: dom_tokens (login_dom errMsg)).
Proof.
  unfold Login, login_dom, GeneratedTemplate.
  destruct (bool_decide (errMsg = "")); unfold_html; name_values; (etransitivity; [scan|]); decode_values.
Qed.

Lemma Nodes_reads nodes secret :
  run (Data "") (html (Nodes nodes secret)) = (Data "", page_tokens (NodesPage nodes secret)).
Proof.
  unfold Nodes, nodes_dom. cbn [page_tokens page_dom]. apply (layout_reads "Nodes").
  pose proof (NodesTable_reads nodes) as Ht. unfold reads in Ht.
  unfold reads. destruct (bool_decide (secret = "")); unfold_html; name_values; (etransitivity; [scan|]); decode_values.
Qed.

Lemma Dashboard_reads m :
  run (Data "") (html (Dashboard m)) = (Data "", page_tokens (DashboardPage m)).
Proof.
  unfold Dashboard, dashboard_dom. cbn [page_tokens page_dom]. apply (layout_reads "Dashboard").
  pose proof (MatrixTable_reads m) as Ht. pose proof wsScript_reads as Hs. unfold reads in *.
  unfold_html. (etransitivity; [scan|]); decode_values.
Qed.

Lemma component_reads p : run (Data "") (html (component p)) = (Data "", page_tokens p).
Proof.
  destruct p as [msg|m|infos secret|m| |i]; cbn [component page_tokens page_dom].
  - apply Login_reads.
  - apply Dashboard_reads.
  - apply Nodes_reads.
  - pose proof (MatrixTable_reads m) as H. unfold reads, doc_tokens in H. cbn [flat_map] in H.
    by rewrite app_nil_r in H.
  - pose proof CreateNodeForm_reads as H. unfold reads, doc_tokens in H. cbn [flat_map] in H.
    by rewrite app_nil_r in H.
  - pose proof (NodeRow_reads i) as H. unfold reads, doc_tokens in H. cbn [flat_map] in H.
    by rewrite app_nil_r in H.
Qed.
End Reading.
