(* ===== verification/Results.v ===== *)
(** * Ingest ([internal/controller/results.go], [targets.go], [ui.go: broadcastResults])

    [POST /api/v1/results] from validation through the transaction to the
    response, with the statistics, metrics and live updates it triggers. *)
From Stdlib Require Import Ascii ZArith Lia SpecFloat.
From stdpp Require Import pretty.
From S2P Require Import Prelude GoTime GoStrings Base64 Ticket RateLimit Litestream ControllerDB Nodes Http Ui Server.

Local Open Scope string_scope.
Local Open Scope Z_scope.

(** ** Validation *)

Definition zero_float : spec_float := S754_zero false.

(** The text [%q] gives for an id without characters to escape. *)
Definition quoted (s : string) : string :=
  let q := String (ascii_of_N 34) "" in q ++ s ++ q.

Definition at_index (i : nat) (msg : string) : err :=
  ErrMsg ("results[" ++ pretty (Z.of_nat i) ++ "]" ++ msg).

(** The loop over the observations, with the ids seen so far. *)
Fixpoint validate_obs (i : nat) (seen : gset string) (obs : list ResultObservation) : option err :=
  match obs with
  | [] => None
  | o :: obs' =>
      if bool_decide (TargetID o = "") then Some (at_index i ".target_id required")
      else if bool_decide (TargetID o ∈ seen)
      then Some (at_index i (": duplicate target_id " ++ quoted (TargetID o)))
      else if match LatencyMs o with None => bool_decide (ObsError o = "") | Some _ => false end
      then Some (at_index i ": latency_ms or error required")
      else if match LatencyMs o with Some l => SFltb l zero_float | None => false end
      then Some (at_index i ": latency_ms must be >= 0")
      else validate_obs (S i) ({[ TargetID o ]} ∪ seen) obs'
  end.

Definition validateResultsRequest (authNodeID : string) (req : ResultsRequest) : option err :=
  if bool_decide (SourceID req = "") then Some (ErrMsg "source_id required")
  else if negb (bool_decide (SourceID req = authNodeID))
  then Some (ErrMsg "source_id does not match authenticated node")
  else if bool_decide (ProbeRunID req = "") then Some (ErrMsg "probe_run_id required")
  else if IsZero (ReqObservedAt req) then Some (ErrMsg "observed_at required")
  else if (length (Results req) =? 0)%nat then Some (ErrMsg "results must be non-empty")
  else validate_obs 0 ∅ (Results req).

(** ** Persistence *)

(** The key of the UNIQUE constraint. *)
Definition result_key (r : result_row) : string * string * string :=
  (r_source_id r, r_probe_run_id r, r_target_id r).

(** [INSERT INTO probe_results]: the UNIQUE index, then the foreign key. *)
Definition sql_insert_result `{CtlDriver} (req : ResultsRequest) (o : ResultObservation) (t : Z) (db : cdb)
    : res (() * cdb) :=
  let row := ResultRow (r_autoinc db + 1) (SourceID req) (ProbeRunID req) (TargetID o)
               (format_datetime (ReqObservedAt req)) (LatencyMs o)
               (if bool_decide (ObsError o = "") then None else Some (ObsError o))
               (format_datetime t) in
  if bool_decide (result_key row ∈ (result_key <$> results db)) then Err unique_error
  else match nodes db !! SourceID req with
       | None => Err fk_error
       | Some _ => Ok ((), CDB (nodes db) (results db ++ [row])%list (r_autoinc db + 1) (targets_version db))
       end.

Section Ingest.
Context {E : Env} {D : CtlDriver}.

(** A step that only the environment can fail: begin, prepare, commit. *)
Definition db_step : M srv (option err) := λ w,
  (fault (tick w), mkWorld (st w) (S (tick w))).

(** One statement inside a transaction: it sees and changes the working copy
    [d], which no one else sees until the commit. *)
Definition tx_exec (f : Z → cdb → res (() * cdb)) (d : cdb) : M srv (res cdb) := λ w,
  (match fault (tick w) with
   | Some e => Err e
   | None => match f (clock (tick w)) d with Ok (_, d') => Ok d' | Err e => Err e end
   end, mkWorld (st w) (S (tick w))).

(** The insert loop: [inl] is a status to return at once, [inr] the copy to commit. *)
Fixpoint insert_loop (req : ResultsRequest) (obs : list ResultObservation) (d : cdb)
    : M srv (res Z + cdb) :=
  match obs with
  | [] => mret (inr d)
  | o :: obs' =>
      r ← tx_exec (sql_insert_result req o) d;
      match r with
      | Ok d' => insert_loop req obs' d'
      | Err e => if isUniqueViolation e then mret (inl (Ok StatusConflict))
                 else mret (inl (Err (ErrWrap "insert observation" e)))
      end
  end.

(** [persistResults]; a return without commit rolls back. *)
Definition persistResults (req : ResultsRequest) : M srv (res Z) :=
  e ← db_step;
  match e with Some e => mret (Err (ErrWrap "begin tx" e)) | None =>
  e ← db_step;
  match e with Some e => mret (Err (ErrWrap "prepare insert" e)) | None =>
  s ← get;
  r ← insert_loop req (Results req) (s_db s);
  match r with
  | inl r => mret r
  | inr d =>
      e ← db_step;
      match e with
      | Some e => mret (Err (ErrWrap "commit" e))
      | None => _ ← modify (with_db d); mret (Ok StatusCreated)
      end
  end end end.

(** ** Metrics and live updates *)

Definition statusLabel (status : Z) : string :=
  if status =? 201 then "201"
  else if status =? 409 then "409"
  else if (400 <=? status) && (status <? 500) then "4xx"
  else if 500 <=? status then "5xx"
  else pretty status.

Definition bump_key `{Countable K} (k : K) (m : gmap K Z) : gmap K Z := <[k := default 0 (m !! k) + 1]> m.

Definition set_ingest (nodeID : string) (status took : Z) (m : Metrics) : Metrics :=
  mkMetrics (bump_key (nodeID, statusLabel status) (IngestTotal m)) (IngestLatency m ++ [took])%list
    (NodeSpoolDepth m) (NodeSpoolOldestAgeSecs m) (NodeSpoolDropsTotal m) (NodeLastSeenSeconds m)
    (ClockDriftMS m) (LitestreamLastSyncTimestamp m) (LitestreamLagSeconds m)
    (ActiveWebSocketConnections m) (WSTicketsIssued m) (WSTicketsUsed m) (WSTicketsRejected m)
    (DBSizeBytes m) (ProbeResultsTotal m).

Definition observeIngest (nodeID : string) (status start : Z) : M srv () :=
  n ← now; with_m (set_ingest nodeID status (TimeSub n start)).

(** The gauges of a report. *)
Definition set_spool_gauges (nodeID : string) (meta : SpoolMetadata) (m : Metrics) : Metrics :=
  mkMetrics (IngestTotal m) (IngestLatency m)
    (<[nodeID := SpoolDepth meta]> (NodeSpoolDepth m))
    (<[nodeID := SpoolOldestAgeSeconds meta]> (NodeSpoolOldestAgeSecs m))
    (NodeSpoolDropsTotal m) (<[nodeID := 0]> (NodeLastSeenSeconds m))
    (ClockDriftMS m) (LitestreamLastSyncTimestamp m) (LitestreamLagSeconds m)
    (ActiveWebSocketConnections m) (WSTicketsIssued m) (WSTicketsUsed m) (WSTicketsRejected m)
    (DBSizeBytes m) (ProbeResultsTotal m).

Definition add_drops (nodeID : string) (delta : Z) (m : Metrics) : Metrics :=
  mkMetrics (IngestTotal m) (IngestLatency m) (NodeSpoolDepth m) (NodeSpoolOldestAgeSecs m)
    (<[nodeID := default 0 (NodeSpoolDropsTotal m !! nodeID) + delta]> (NodeSpoolDropsTotal m))
    (NodeLastSeenSeconds m) (ClockDriftMS m) (LitestreamLastSyncTimestamp m) (LitestreamLagSeconds m)
    (ActiveWebSocketConnections m) (WSTicketsIssued m) (WSTicketsUsed m) (WSTicketsRejected m)
    (DBSizeBytes m) (ProbeResultsTotal m).

Definition add_results (n : Z) (m : Metrics) : Metrics :=
  mkMetrics (IngestTotal m) (IngestLatency m) (NodeSpoolDepth m) (NodeSpoolOldestAgeSecs m)
    (NodeSpoolDropsTotal m) (NodeLastSeenSeconds m) (ClockDriftMS m) (LitestreamLastSyncTimestamp m)
    (LitestreamLagSeconds m) (ActiveWebSocketConnections m) (WSTicketsIssued m) (WSTicketsUsed m)
    (WSTicketsRejected m) (DBSizeBytes m) (ProbeResultsTotal m + n).

(** The metrics of a report.  The drop counter advances by the 64-bit difference
    to the last report; [Counter.Add] panics on a negative value, and then the
    mutex stays locked.  [Some p] ends the request with [p]. *)
Definition report_metrics (nodeID : string) (req : ResultsRequest) (status : Z) : M srv (option payload) := λ w,
  let s := st w in
  match s_metrics s with
  | None => (None, w)
  | Some m =>
      let m := set_spool_gauges nodeID (SpoolMeta req) m in
      let s := with_metrics (Some m) s in
      if s_dropsLocked s then (Some Hung, mkWorld s (tick w))
      else
        let reported := SpoolDropsTotal (SpoolMeta req) in
        let last := default 0 (s_lastDropsByNode s !! nodeID) in
        let delta := wrap64 (reported - last) in
        if (last <? reported) && (delta <? 0) then (Some Aborted, mkWorld (lock_drops s) (tick w))
        else
          let m := if last <? reported then add_drops nodeID delta m else m in
          let m := if status =? StatusCreated
                   then add_results (Z.of_nat (length (Results req))) m else m in
          (None, mkWorld (with_drops (<[nodeID := reported]> (s_lastDropsByNode s))
                                     (with_metrics (Some m) s)) (tick w))
  end.

(** [broadcastResults]; a missing latency is sent as 0. *)
Definition event_of (sourceID : string) (o : ResultObservation) : ProbeEvent :=
  mkProbeEvent "probe_result" sourceID (TargetID o) (default zero_float (LatencyMs o)) (ObsError o).

Definition broadcastResults (sourceID : string) (obs : list ResultObservation) : M srv () :=
  modify (λ s, with_hub (foldl (λ h o, Broadcast (event_of sourceID o) h) (s_wsHub s) obs) s).

(** ** The handlers *)

(** [time.Now()] read for the statistics. *)
Definition spool_stats (req : ResultsRequest) (t : Z) : SpoolStats :=
  mkSpoolStats (SpoolDepth (SpoolMeta req)) (SpoolOldestAgeSeconds (SpoolMeta req))
    (SpoolDropsTotal (SpoolMeta req)) t (0 <? SpoolDepth (SpoolMeta req)).

(** What follows a persisted or replayed batch: statistics (whose failure is
    only logged), metrics, live updates, and the version echoed. *)
Definition finish_results (nodeID : string) (req : ResultsRequest) (status start : Z) : M srv response :=
  t ← now;
  _ ← UpdateSpoolStats nodeID (spool_stats req t);
  p ← report_metrics nodeID req status;
  match p with
  | Some p => mret (reply 0 p)
  | None =>
      _ ← (if status =? StatusCreated then broadcastResults nodeID (Results req) else mret ());
      _ ← observeIngest nodeID status start;
      v ← TargetsVersion;
      mret (reply status (JResults (match v with Ok v => Some v | Err _ => None end)))
  end.

Definition handleResults {Cd : Codec} (node : Node) : handler := λ r,
  start ← now;
  let nodeID := ID node in
  match decode_results (Body r) with
  | Err e =>
      _ ← observeIngest nodeID StatusUnprocessableEntity start;
      mret (writeJSONError StatusUnprocessableEntity ("invalid json: " ++ Error e))
  | Ok req =>
      match validateResultsRequest nodeID req with
      | Some e =>
          _ ← observeIngest nodeID StatusUnprocessableEntity start;
          mret (writeJSONError StatusUnprocessableEntity (Error e))
      | None =>
          p ← persistResults req;
          match p with
          | Err _ =>
              _ ← observeIngest nodeID StatusInternalServerError start;
              mret (writeJSONError StatusInternalServerError "internal error")
          | Ok status => finish_results nodeID req status start
          end
      end
  end.

(** [handleTargets] *)
Definition handleTargets (node : Node) : handler := λ _,
  r ← HubTargetsFor (ID node);
  mret (match r with
        | Err _ => writeJSONError StatusInternalServerError "internal error"
        | Ok (hubs, version) =>
            reply StatusOK (JTargets ((λ h, (ID h, Address h)) <$> hubs) version)
        end).
End Ingest.
