(* ===== verification/ResultsFacts.v ===== *)
(** * Ingest: correctness

    Validation is characterised, the transaction is all or nothing, a replay is
    recognised and changes nothing, and the status codes of the handler mean what
    the contract of the endpoint says. *)
From Stdlib Require Import Ascii ZArith Lia SpecFloat Sorted.
From S2P Require Import Prelude GoTime GoStrings Base64 Ticket RateLimit Litestream ControllerDB Nodes Http Ui Server Results.

Local Open Scope string_scope.
Local Open Scope Z_scope.

(** ** Validation *)

Definition valid_obs (o : ResultObservation) : Prop :=
  TargetID o ≠ "" ∧ (LatencyMs o = None → ObsError o ≠ "") ∧
  (∀ l, LatencyMs o = Some l → SFltb l zero_float = false).

Lemma validate_obs_cons i seen o obs :
  validate_obs i seen (o :: obs) = None ↔
  valid_obs o ∧ ¬ TargetID o ∈ seen ∧ validate_obs (S i) ({[ TargetID o ]} ∪ seen) obs = None.
Proof.
  cbn [validate_obs]. unfold valid_obs.
  case_bool_decide as Ht; [split; [done|]; by intros [(? & _) _]|].
  case_bool_decide as Hs; [split; [done|]; by intros (_ & ? & _)|].
  destruct (LatencyMs o) as [l|].
  - destruct (SFltb l zero_float) eqn:Hneg.
    + split; [done|]. intros [(_ & _ & H) _]. specialize (H l eq_refl). congruence.
    + split; [|by intros (_ & _ & ?)]. intros H. repeat split; try done. by intros ? [= <-].
  - case_bool_decide as He.
    + split; [done|]. intros [(_ & H & _) _]. by destruct (H eq_refl).
    + split; [|by intros (_ & _ & ?)]. intros H. by repeat split.
Qed.

Lemma validate_obs_iff obs i seen :
  validate_obs i seen obs = None ↔
  Forall valid_obs obs ∧ NoDup (TargetID <$> obs) ∧ (∀ o, o ∈ obs → ¬ TargetID o ∈ seen).
Proof.
  revert i seen. induction obs as [|o obs IH]; intros i seen.
  { split; [|done]. intros _. split; [constructor|]. split; [constructor|]. by intros o ?%not_elem_of_nil. }
  rewrite validate_obs_cons, IH, fmap_cons, Forall_cons, NoDup_cons. split.
  - intros (Hv & Hs & HF & Hnd & Hsn). split; [done|]. split.
    + split; [|done]. intros (o' & He & Ho')%list_elem_of_fmap. apply (Hsn o' Ho'), elem_of_union.
      left. apply elem_of_singleton. done.
    + intros o' [->|Ho']%elem_of_cons; [done|]. intros Hin. apply (Hsn o' Ho'), elem_of_union. by right.
  - intros ([Hv HF] & [Hn Hnd] & Hsn). split; [done|]. split; [apply Hsn; by left|].
    split; [done|]. split; [done|]. intros o' Ho' [He%elem_of_singleton|Hin]%elem_of_union.
    + apply Hn. rewrite <- He. by apply list_elem_of_fmap_2.
    + apply (Hsn o'); [by right|done].
Qed.

Lemma validateResultsRequest_ok auth req :
  validateResultsRequest auth req = None →
  SourceID req = auth ∧ NoDup (TargetID <$> Results req) ∧ Results req ≠ [].
Proof.
  unfold validateResultsRequest. case_bool_decide as H1; [done|]. case_bool_decide as H2; cbn [negb]; [|done].
  case_bool_decide as H3; [done|]. destruct (IsZero _); [done|].
  destruct (Nat.eqb_spec (length (Results req)) 0) as [H5|H5]; [done|].
  rewrite validate_obs_iff. intros (_ & Hnd & _). split; [done|]. split; [done|]. intros He. by rewrite He in H5.
Qed.

(** Validation, decided. *)
Lemma validateResultsRequest_spec auth req :
  validateResultsRequest auth req = None ↔
  SourceID req = auth ∧ auth ≠ "" ∧ ProbeRunID req ≠ "" ∧ ReqObservedAt req ≠ zero_time ∧
  Results req ≠ [] ∧ NoDup (TargetID <$> Results req) ∧ Forall valid_obs (Results req).
Proof.
  unfold validateResultsRequest, IsZero.
  case_bool_decide as H1; [split; [done|]; intros (? & ? & _); congruence|].
  case_bool_decide as H2; cbn [negb]; [|split; [done|]; by intros (? & _)].
  case_bool_decide as H3; [split; [done|]; by intros (_ & _ & ? & _)|].
  destruct (Z.eqb_spec (ReqObservedAt req) zero_time) as [H4|H4]; [split; [done|]; by intros (_ & _ & _ & ? & _)|].
  destruct (Nat.eqb_spec (length (Results req)) 0) as [H5|H5].
  { split; [done|]. intros (_ & _ & _ & _ & H & _). by apply nil_length_inv in H5. }
  rewrite validate_obs_iff. split.
  - intros (HF & Hnd & _). repeat split; try done; try congruence. intros He. by rewrite He in H5.
  - intros (_ & _ & _ & _ & _ & Hnd & HF). split; [done|]. split; [done|]. set_solver.
Qed.

(** C28. What the endpoint accepts: a request passes validation exactly when it
    names the authenticated node as its source, has a run id and an instant, has
    at least one observation, no two for the same target, and every observation
    names its target and carries an error or a latency that is not negative. *)
Theorem validateResultsRequest_iff auth req :
  validateResultsRequest auth req = None ↔
  SourceID req = auth ∧ auth ≠ "" ∧ ProbeRunID req ≠ "" ∧ ReqObservedAt req ≠ zero_time ∧
  Results req ≠ [] ∧ NoDup (TargetID <$> Results req) ∧ Forall valid_obs (Results req).
Proof. apply validateResultsRequest_spec. Qed.

(** ** The transaction *)

(** The row stored for an observation. *)
Definition stored (req : ResultsRequest) (o : ResultObservation) (r : result_row) : Prop :=
  r_source_id r = SourceID req ∧ r_probe_run_id r = ProbeRunID req ∧ r_target_id r = TargetID o ∧
  r_observed_at r = format_datetime (ReqObservedAt req) ∧ r_latency_ms r = LatencyMs o ∧
  r_error r = (if bool_decide (ObsError o = "") then None else Some (ObsError o)).

(** The key an observation of a request occupies. *)
Definition obs_key (req : ResultsRequest) (o : ResultObservation) : string * string * string :=
  (SourceID req, ProbeRunID req, TargetID o).

Lemma stored_key req o r : stored req o r → result_key r = obs_key req o.
Proof. unfold stored, result_key, obs_key. naive_solver congruence. Qed.

(** The database with the rows of a whole batch appended. *)
Record ingested (req : ResultsRequest) (obs : list ResultObservation) (d d' : cdb) : Prop := {
  ing_nodes : nodes d' = nodes d;
  ing_version : targets_version d' = targets_version d;
  ing_rows : ∃ rows, results d' = (results d ++ rows)%list ∧ Forall2 (stored req) obs rows;
  ing_fresh : Forall (λ o, ¬ obs_key req o ∈ (result_key <$> results d)) obs;
  ing_source : obs ≠ [] → is_Some (nodes d !! SourceID req);
  ing_nodup : NoDup (result_key <$> results d) → NoDup (result_key <$> results d');
  ing_autoinc : r_autoinc d' = r_autoinc d + Z.of_nat (length obs);
}.

Section Tx.
Context {E : Env} {D : CtlDriver}.

(** The environment does not disguise its failures as constraint violations. *)
Definition honest_faults : Prop := ∀ n e, fault n = Some e → isUniqueViolation e = false.

Lemma sql_insert_result_Ok req o t d u d' :
  sql_insert_result req o t d = Ok (u, d') → ingested req [o] d d'.
Proof.
  unfold sql_insert_result. case_bool_decide as Hk; [done|].
  destruct (nodes d !! SourceID req) as [nr|] eqn:Hn; [|done]. intros [= _ <-].
  match goal with |- context [(results d ++ [?r])%list] => set (row := r) in * end.
  assert (Hrow : stored req o row) by done.
  rewrite (stored_key _ _ _ Hrow) in Hk. split; cbn [nodes results targets_version r_autoinc]; try done.
  - exists [row]. split; [done|]. by repeat constructor.
  - by repeat constructor.
  - intros Hnd. rewrite fmap_app. apply NoDup_app. split; [done|]. cbn.
    rewrite (stored_key _ _ _ Hrow). split; [|apply NoDup_singleton].
    intros k Hin ->%list_elem_of_singleton. done.
Qed.

Lemma sql_insert_result_Err req o t d e :
  sql_insert_result req o t d = Err e →
  (isUniqueViolation e = true ∧ obs_key req o ∈ (result_key <$> results d)) ∨
  (isUniqueViolation e = false ∧ nodes d !! SourceID req = None).
Proof.
  unfold sql_insert_result. case_bool_decide as Hk.
  - intros [= <-]. left. split; [apply unique_error_text|exact Hk].
  - destruct (nodes d !! SourceID req) eqn:Hn; [done|]. intros [= <-]. right. split; [apply fk_error_text|done].
Qed.
Lemma ingested_nil req d : ingested req [] d d.
Proof. split; try done; [by exists []; rewrite app_nil_r|cbn; lia]. Qed.

Lemma ingested_cons req o obs d1 d2 d3 :
  ingested req [o] d1 d2 → ingested req obs d2 d3 → ingested req (o :: obs) d1 d3.
Proof.
  intros [N1 V1 (rs1 & R1 & S1) F1 G1 U1 A1] [N2 V2 (rs2 & R2 & S2) F2 G2 U2 A2]. split.
  - congruence.
  - congruence.
  - exists (rs1 ++ rs2)%list. rewrite R2, R1, <- (assoc_L app). split; [done|].
    apply Forall2_cons_inv_l in S1 as (r & rs & Hr & Hnil%Forall2_nil_inv_l & ->). subst. by constructor.
  - apply Forall_cons in F1 as [Ho _]. constructor; [done|].
    eapply Forall_impl; [exact F2|]. cbn. intros o' Hn Hin. apply Hn.
    rewrite R1, fmap_app. apply elem_of_app. by left.
  - intros _. by apply G1.
  - auto.
  - cbn [length] in *. lia.
Qed.

(** The environment failed a step. *)
Definition failed : Prop := ∃ n e, fault n = Some e.

(** What the insert loop can return. *)
Definition loop_result (req : ResultsRequest) (obs : list ResultObservation) (d : cdb) (r : res Z + cdb) : Prop :=
  match r with
  | inr d' => ingested req obs d d'
  | inl (Ok s) => s = StatusConflict ∧ (honest_faults → ∃ o d', o ∈ obs ∧ obs_key req o ∈ (result_key <$> results d') ∧
                    ∃ obs', ingested req obs' d d' ∧ prefix (obs' ++ [o])%list obs)
  | inl (Err _) => failed ∨ nodes d !! SourceID req = None
  end.

Lemma insert_loop_spec req obs d (w : world srv) :
  let '(r, w') := insert_loop req obs d w in st w' = st w ∧ loop_result req obs d r.
Proof.
  revert d w. induction obs as [|o obs IH]; intros d w; cbn [insert_loop].
  { split; [done|]. apply ingested_nil. }
  unfold_M. unfold tx_exec. destruct (fault (tick w)) as [e|] eqn:Hf.
  - destruct (isUniqueViolation e) eqn:Hu; (split; [done|]); cbn; [|left; by eexists _, _].
    split; [done|]. intros Hh. by rewrite (Hh _ _ Hf) in Hu.
  - destruct (sql_insert_result req o (clock (tick w)) d) as [[u d']|e] eqn:Hi.
    + specialize (IH d' (mkWorld (st w) (S (tick w)))).
      destruct (insert_loop req obs d' _) as [r w']. cbn in IH. destruct IH as [Hst IH].
      split; [done|]. apply sql_insert_result_Ok in Hi. destruct r as [[s|e]|d'']; cbn in *.
      * destruct IH as [-> IH]. split; [done|]. intros Hh.
        destruct (IH Hh) as (o' & d'' & Ho & Hk & obs' & Hobs & [l ->]). exists o', d''.
        split; [by right|]. split; [done|]. exists (o :: obs'). split; [by eapply ingested_cons|]. by exists l.
      * by rewrite (ing_nodes _ _ _ _ Hi) in IH.
      * by eapply ingested_cons.
    + apply sql_insert_result_Err in Hi as [[-> Hk]|[-> Hn]]; (split; [done|]); cbn; [|by right].
      split; [done|]. intros _. exists o, d. split; [by left|]. split; [done|].
      exists []. split; [apply ingested_nil|]. by exists obs.
Qed.

(** The result of [persistResults] and the state it leaves. *)
Lemma persistResults_cases req (w : world srv) :
  let '(r, w') := persistResults req w in
  (r = Ok StatusCreated ∧ ∃ d', ingested req (Results req) (s_db (st w)) d' ∧ st w' = with_db d' (st w)) ∨
  (r = Ok StatusConflict ∧ st w' = st w ∧
     loop_result req (Results req) (s_db (st w)) (inl (Ok StatusConflict))) ∨
  (∃ e, r = Err e ∧ st w' = st w ∧ (failed ∨ nodes (s_db (st w)) !! SourceID req = None)).
Proof.
  unfold persistResults, db_step, get, modify. unfold_M.
  destruct (fault (tick w)) eqn:F1; [right; right; eexists; split; [done|]; split; [done|left; by eexists _, _]|].
  cbn [tick st].
  destruct (fault (S (tick w))) eqn:F2; [right; right; eexists; split; [done|]; split; [done|left; by eexists _, _]|].
  cbn [tick st].
  pose proof (insert_loop_spec req (Results req) (s_db (st w)) (mkWorld (st w) (S (S (tick w))))) as H.
  destruct (insert_loop _ _ _ _) as [r w1]. destruct H as [Hst Hr]. cbn in Hst.
  destruct r as [[s|e]|d'].
  - right. left. destruct Hr as [-> Hr]. done.
  - right. right. by eexists.
  - destruct (fault (tick w1)) eqn:F3; [right; right; eexists; split; [done|]; split; [done|left; by eexists _, _]|].
    left. split; [done|]. exists d'.
    split; [done|]. cbn. by rewrite Hst.
Qed.
(** With distinct targets, a collision is with a row that was there before. *)
Lemma conflict_original req obs d :
  honest_faults → NoDup (TargetID <$> obs) → loop_result req obs d (inl (Ok StatusConflict)) →
  ∃ o, o ∈ obs ∧ obs_key req o ∈ (result_key <$> results d).
Proof.
  intros Hh Hnd [_ H]. destruct (H Hh) as (o & d' & Ho & Hk & obs' & Hi & [l ->]).
  exists o. split; [done|]. destruct (ing_rows _ _ _ _ Hi) as (rows & Hr & HS).
  rewrite Hr, fmap_app in Hk. apply elem_of_app in Hk as [Hk|Hk]; [done|exfalso].
  apply list_elem_of_fmap in Hk as (row & Hkey & Hrow).
  destruct (Forall2_elem_r _ _ _ _ HS Hrow) as (o' & Ho' & Hst).
  rewrite (stored_key _ _ _ Hst) in Hkey. injection Hkey as Ht.
  rewrite <- (assoc_L app), fmap_app in Hnd. apply NoDup_app in Hnd as (_ & Hd & _).
  apply (Hd (TargetID o')); [by apply list_elem_of_fmap_2|]. rewrite <- Ht. cbn. by left.
Qed.

(** C8. A batch is stored whole or not at all, whatever fails when: 201 means
    that exactly the rows of the batch were appended, none of whose keys was there
    before; 409 and every error leave the server's state untouched; and a 409 for
    a batch of distinct targets means that one of its own keys is already
    stored. *)
Theorem persistResults_atomic req (w : world srv) :
  NoDup (TargetID <$> Results req) → honest_faults →
  let '(r, w') := persistResults req w in
  (r = Ok 201 ∧ ∃ d', ingested req (Results req) (s_db (st w)) d' ∧ st w' = with_db d' (st w)) ∨
  (r = Ok 409 ∧ st w' = st w ∧
     ∃ o, o ∈ Results req ∧ obs_key req o ∈ (result_key <$> results (s_db (st w)))) ∨
  (∃ e, r = Err e ∧ st w' = st w).
Proof.
  intros Hnd Hh. pose proof (persistResults_cases req w) as H. destruct (persistResults req w) as [r w'].
  destruct H as [H|[(-> & Hst & Hl)|(e & -> & Hst & _)]]; [by left| |right; right; eauto].
  right. left. split; [done|]. split; [done|]. by apply conflict_original.
Qed.

Lemma ff_honest : fault_free E → honest_faults.
Proof. intros [Hf _] n e He. congruence. Qed.

(** Idempotence: when nothing fails and the source is registered, a batch of
    distinct targets is stored (201) if none of its keys is, and otherwise, in
    particular whenever an earlier attempt at the same batch went through, it is
    answered 409 and changes nothing. *)
Theorem persistResults_idempotent req (w : world srv) :
  fault_free E → NoDup (TargetID <$> Results req) → is_Some (nodes (s_db (st w)) !! SourceID req) →
  let '(r, w') := persistResults req w in
  ((∃ o, o ∈ Results req ∧ obs_key req o ∈ (result_key <$> results (s_db (st w)))) →
     r = Ok 409 ∧ st w' = st w) ∧
  ((∀ o, o ∈ Results req → ¬ obs_key req o ∈ (result_key <$> results (s_db (st w)))) → r = Ok 201) ∧
  (r = Ok 201 → Results req ≠ [] →
     let '(r2, w2) := persistResults req w' in r2 = Ok 409 ∧ st w2 = st w').
Proof.
  intros Hff Hnd Hn. pose proof (ff_honest Hff) as Hh.
  assert (Hcol : ∀ u : world srv, is_Some (nodes (s_db (st u)) !! SourceID req) →
    (∃ o, o ∈ Results req ∧ obs_key req o ∈ (result_key <$> results (s_db (st u)))) →
    let '(r, u') := persistResults req u in r = Ok 409 ∧ st u' = st u).
  { intros u Hu (o & Ho & Hk). pose proof (persistResults_cases req u) as H.
    destruct (persistResults req u) as [r u'].
    destruct H as [(-> & d' & Hi & _)|[(-> & Hst & _)|(e & -> & _ & [(n & x & Hx)|Hnone])]].
    - exfalso. pose proof (ing_fresh _ _ _ _ Hi) as HF. rewrite Forall_forall in HF. by apply (HF o Ho).
    - done.
    - by rewrite (proj1 Hff) in Hx.
    - rewrite Hnone in Hu. by destruct Hu. }
  pose proof (Hcol w Hn) as Hw. pose proof (persistResults_cases req w) as H.
  destruct (persistResults req w) as [r w']. split; [exact Hw|].
  destruct H as [(-> & d' & Hi & Hst)|[(-> & Hst & Hl)|(e & -> & _ & [(n & x & Hx)|Hnone])]].
  - split; [done|]. intros _ Hne. apply Hcol; rewrite Hst; cbn.
    + by rewrite (ing_nodes _ _ _ _ Hi).
    + destruct (Results req) as [|o obs] eqn:HR; [done|]. exists o. split; [by left|].
      destruct (ing_rows _ _ _ _ Hi) as (rows & -> & HS).
      apply Forall2_cons_inv_l in HS as (row & rows' & Hrow & _ & ->).
      rewrite fmap_app, fmap_cons, (stored_key _ _ _ Hrow). apply elem_of_app. right. by left.
  - split; [|done]. intros Hno. destruct (conflict_original _ _ _ Hh Hnd Hl) as (o & Ho & Hk). by destruct (Hno o).
  - by rewrite (proj1 Hff) in Hx.
  - rewrite Hnone in Hn. by destruct Hn.
Qed.
End Tx.

(** ** The handler *)

(** Only the statistics columns of the node [n] changed. *)
Definition only_stats (n : string) (d d' : cdb) : Prop :=
  results d' = results d ∧ r_autoinc d' = r_autoinc d ∧ targets_version d' = targets_version d ∧
  (∀ k, node_of k <$> nodes d' !! k = node_of k <$> nodes d !! k) ∧
  (∀ k, k ≠ n → nodes d' !! k = nodes d !! k).

#[export] Instance only_stats_preorder n : PreOrder (only_stats n).
Proof.
  unfold only_stats. split; [done|]. intros d1 d2 d3 (? & ? & ? & Hk1 & Hn1) (? & ? & ? & Hk2 & Hn2).
  split; [congruence|]. split; [congruence|]. split; [congruence|]. split; [congruence|].
  intros k Hk. by rewrite Hn2, Hn1.
Qed.

Section Handler.
Context {E : Env} {D : CtlDriver} {Cd : Codec}.

Abbreviation keeps n m := (db_moves (only_stats n) m).

Lemma keeps_UpdateSpoolStats id stats : keeps id (UpdateSpoolStats id stats).
Proof.
  unfold UpdateSpoolStats. apply moves_bind; [apply _| |intros a; repeat moves_step].
  apply db_moves_exec; [apply _|]. intros n d a d' [= He]. unfold sql_spool_stats in He.
  destruct (nodes d !! id) as [r|] eqn:Hr; [|injection He as <- <-; reflexivity].
  injection He as <- <-. do 3 (split; [done|]). split; intros k; cbn; [|intros Hk; by rewrite lookup_insert_ne].
  destruct (decide (k = id)) as [->|]; [by rewrite lookup_insert_eq, Hr|by rewrite lookup_insert_ne].
Qed.

Lemma keeps_modify n (f : srv → srv) : (∀ s, s_db (f s) = s_db s) → keeps n (modify f).
Proof. intros H w. cbn. rewrite H. reflexivity. Qed.

Lemma keeps_report id req status : keeps id (report_metrics id req status).
Proof.
  intros w. unfold report_metrics. destruct (s_metrics (st w)); [|reflexivity].
  cbn. destruct (s_dropsLocked (st w)); [reflexivity|]. destruct (_ && _); reflexivity.
Qed.

Lemma keeps_observe id status start : keeps id (observeIngest id status start).
Proof. apply moves_bind; [apply _|apply moves_now, _|]. intros t. by apply keeps_modify. Qed.

Lemma keeps_TargetsVersion n : keeps n (TargetsVersion (S := srv)).
Proof. apply moves_bind; [apply _|by apply db_moves_query, _|]. intros a. apply moves_ret, _. Qed.

Lemma keeps_finish id req status start : keeps id (finish_results id req status start).
Proof.
  unfold finish_results. apply moves_bind; [apply _|apply moves_now, _|]. intros t.
  apply moves_bind; [apply _|apply keeps_UpdateSpoolStats|]. intros _.
  apply moves_bind; [apply _|apply keeps_report|]. intros [p|]; [apply moves_ret, _|].
  apply moves_bind; [apply _| |]. { destruct (_ =? _); [by apply keeps_modify|apply moves_ret, _]. }
  intros _. apply moves_bind; [apply _|apply keeps_observe|]. intros _.
  apply moves_bind; [apply _|apply keeps_TargetsVersion|]. intros v. apply moves_ret, _.
Qed.

(** The status of a finished request is the persisted one, unless the report
    ends the request. *)
Lemma finish_code id req status start (w : world srv) :
  let resp := (finish_results id req status start w).1 in
  (code resp = status ∧ ∃ v, body resp = JResults v) ∨ (code resp = 0 ∧ body resp ∈ [Aborted; Hung]).
Proof.
  unfold finish_results. unfold_M. destruct (now w) as [t w1].
  destruct (UpdateSpoolStats _ _ w1) as [e w2].
  destruct (report_metrics id req status w2) as [[p|] w3] eqn:Hr.
  - right. split; [done|]. unfold report_metrics in Hr. destruct (s_metrics (st w2)); [|done].
    cbn in *. repeat case_match; simplify_eq; set_solver.
  - left. match goal with |- context [(if ?b then ?x else ?y) w3] =>
      destruct ((if b then x else y) w3) as [u4 w4] end.
    destruct (observeIngest _ _ _ w4) as [u5 w5]. destruct (TargetsVersion w5) as [v w6]. cbn. eauto.
Qed.

(** A request that decodes and validates: its batch went in whole, or nothing was
    stored; a 201 is the former, a 409 means that a key was stored before. *)
Lemma handleResults_valid node r (w : world srv) req :
  honest_faults → decode_results (Body r) = Ok req → validateResultsRequest (ID node) req = None →
  let '(resp, w') := handleResults node r w in
  let d := s_db (st w) in
  let d' := s_db (st w') in
  (code resp = 0 → body resp ∈ [Aborted; Hung]) ∧
  ((code resp ∈ [201; 0] ∧ ∃ d1, ingested req (Results req) d d1 ∧ only_stats (ID node) d1 d') ∨
   (code resp ∈ [409; 500; 0] ∧ only_stats (ID node) d d' ∧
    (code resp = 409 → ∃ o, o ∈ Results req ∧ obs_key req o ∈ (result_key <$> results d)))).
Proof.
  intros Hh Hdec Hval. unfold handleResults. rewrite Hdec, Hval. unfold_M. cbn zeta.
  destruct (now w) as [start w0] eqn:Hw0.
  assert (Hs0 : st w0 = st w) by (unfold now in Hw0; by injection Hw0 as <- <-).
  pose proof (persistResults_cases req w0) as Hp. rewrite Hs0 in Hp.
  destruct (persistResults req w0) as [p w1].
  destruct Hp as [(-> & d1 & Hi & Hst)|[(-> & Hst & Hl)|(e & -> & Hst & _)]].
  - pose proof (keeps_finish (ID node) req StatusCreated start w1) as Hk.
    pose proof (finish_code (ID node) req StatusCreated start w1) as Hc.
    destruct (finish_results _ _ _ _ w1) as [resp w2]. rewrite Hst in Hk. cbn in Hk, Hc. unfold StatusCreated in Hc.
    split; [destruct Hc as [[-> _]|[_ ?]]; done|]. left. split; [destruct Hc as [[-> _]|[-> _]]; set_solver|].
    by exists d1.
  - pose proof (keeps_finish (ID node) req StatusConflict start w1) as Hk.
    pose proof (finish_code (ID node) req StatusConflict start w1) as Hc.
    destruct (finish_results _ _ _ _ w1) as [resp w2]. rewrite Hst in Hk. cbn in Hk, Hc. unfold StatusConflict in Hc.
    split; [destruct Hc as [[-> _]|[_ ?]]; done|]. right. split; [destruct Hc as [[-> _]|[-> _]]; set_solver|].
    split; [done|]. intros _. apply validateResultsRequest_ok in Hval.
    apply (conflict_original req (Results req) (s_db (st w)) Hh); [apply Hval|done].
  - pose proof (keeps_observe (ID node) StatusInternalServerError start w1) as Hk.
    destruct (observeIngest _ _ _ w1) as [u w2]. rewrite Hst in Hk. cbn in *.
    split; [done|]. right. split; [set_solver|]. split; [done|]. done.
Qed.

(** What is refused. *)
Definition rejected (node : Node) (r : request) : Prop :=
  match decode_results (Body r) with
  | Err _ => True
  | Ok req => validateResultsRequest (ID node) req ≠ None
  end.

(** Every body is refused, or decodes to a valid batch. *)
Lemma rejected_or_valid node r :
  rejected node r ∨ ∃ req, decode_results (Body r) = Ok req ∧ validateResultsRequest (ID node) req = None.
Proof.
  unfold rejected. destruct (decode_results (Body r)) as [req|e]; [|by left].
  destruct (validateResultsRequest (ID node) req) as [e|] eqn:Hval; [by left|right; by exists req].
Qed.

(** A refused request changes statistics at most. *)
Lemma handleResults_rejected node r (w : world srv) :
  rejected node r →
  let '(resp, w') := handleResults node r w in
  code resp = 422 ∧ only_stats (ID node) (s_db (st w)) (s_db (st w')).
Proof.
  unfold rejected, handleResults. unfold_M. cbn zeta. destruct (now w) as [start w0] eqn:Hw0.
  assert (Hs0 : st w0 = st w) by (unfold now in Hw0; by injection Hw0 as <- <-).
  pose proof (keeps_observe (ID node) StatusUnprocessableEntity start w0) as Hk. rewrite Hs0 in Hk.
  destruct (decode_results (Body r)) as [req|e].
  - destruct (validateResultsRequest (ID node) req) as [e|]; [|done].
    destruct (observeIngest _ _ _ w0) as [u w1]. done.
  - destruct (observeIngest _ _ _ w0) as [u w1]. done.
Qed.

(** The contract on refused requests. *)
Lemma contract_rejected node r (w : world srv) :
  rejected node r →
  let '(resp, w') := handleResults node r w in
  let d := s_db (st w) in
  let d' := s_db (st w') in
  (code resp = 422 ↔ rejected node r) ∧
  (rejected node r ∨ code resp = 500 → only_stats (ID node) d d') ∧
  (code resp = 201 → ∃ req d1, decode_results (Body r) = Ok req ∧ validateResultsRequest (ID node) req = None ∧
     ingested req (Results req) d d1 ∧ only_stats (ID node) d1 d') ∧
  (code resp = 409 → only_stats (ID node) d d' ∧ ∃ req o, decode_results (Body r) = Ok req ∧
     validateResultsRequest (ID node) req = None ∧ o ∈ Results req ∧
     obs_key req o ∈ (result_key <$> results d)) ∧
  code resp ∈ [201; 409; 422; 500; 0] ∧
  (∀ k, node_of k <$> nodes d' !! k = node_of k <$> nodes d !! k) ∧ targets_version d' = targets_version d.
Proof.
  intros Hrej. pose proof (handleResults_rejected node r w Hrej) as H.
  destruct (handleResults node r w) as [resp w']. destruct H as [-> Ho]. cbn zeta.
  split; [done|]. split; [done|]. split; [done|]. split; [done|]. split; [set_solver|].
  by destruct Ho as (_ & _ & ? & ? & _).
Qed.

End Handler.

(** ** The drop counter *)

Section Drops.
Context {E : Env} {D : CtlDriver} {Cd : Codec}.

(** The exported counter and the baseline of a node. *)
Definition drop_counter (s : srv) (id : string) : option Z :=
  m ← s_metrics s; Some (default 0 (NodeSpoolDropsTotal m !! id)).
Definition baseline (s : srv) (id : string) : Z := default 0 (s_lastDropsByNode s !! id).

(** One report that does not overflow. *)
Lemma report_step id req status (w : world srv) c :
  drop_counter (st w) id = Some c → s_dropsLocked (st w) = false →
  let v := SpoolDropsTotal (SpoolMeta req) in
  v - baseline (st w) id <= max_int64 →
  let '(p, w') := report_metrics id req status w in
  p = None ∧ s_dropsLocked (st w') = false ∧ baseline (st w') id = v ∧
  drop_counter (st w') id = Some (c + Z.max 0 (v - baseline (st w) id)).
Proof.
  unfold drop_counter, baseline, report_metrics. cbn zeta. intros Hc Hl Hv.
  destruct (s_metrics (st w)) as [m|]; [|done]. cbn in Hc. injection Hc as <-.
  cbn [with_metrics s_dropsLocked s_lastDropsByNode]. rewrite Hl.
  set (v := SpoolDropsTotal (SpoolMeta req)) in *. set (l := default 0 (s_lastDropsByNode (st w) !! id)) in *.
  destruct (Z.ltb_spec l v) as [Hlt|Hge]; cbn [andb].
  - rewrite wrap64_id by (unfold in_int64, min_int64; lia). rewrite (proj2 (Z.ltb_ge _ _)) by lia.
    cbn. split; [done|]. split; [done|]. rewrite lookup_insert_eq. split; [done|].
    f_equal. destruct (status =? StatusCreated); cbn; rewrite lookup_insert_eq; cbn; lia.
  - cbn. split; [done|]. split; [done|]. rewrite lookup_insert_eq. split; [done|].
    f_equal. destruct (status =? StatusCreated); cbn; lia.
Qed.

Fixpoint report_all (id : string) (reqs : list ResultsRequest) : M srv () :=
  match reqs with
  | [] => mret ()
  | req :: reqs' => _ ← report_metrics id req StatusConflict; report_all id reqs'
  end.

Definition reported (reqs : list ResultsRequest) : list Z := (λ q, SpoolDropsTotal (SpoolMeta q)) <$> reqs.

(** The drop counter is exact for reports that arrive in order: after a
    sequence of cumulative reports that never decrease, a node's exported counter
    has grown by exactly the last report less the baseline. *)
Theorem drops_in_order id reqs (w : world srv) c :
  drop_counter (st w) id = Some c → s_dropsLocked (st w) = false → 0 <= baseline (st w) id →
  Sorted Z.le (baseline (st w) id :: reported reqs) → Forall (λ v, v <= max_int64) (reported reqs) →
  drop_counter (st (report_all id reqs w).2) id =
    Some (c + (default (baseline (st w) id) (last (reported reqs)) - baseline (st w) id)).
Proof.
  revert w c. induction reqs as [|req reqs IH]; intros w c Hc Hl H0 Hs HF; cbn [report_all].
  { unfold_M. cbn [fst snd]. rewrite Hc. cbn. f_equal. lia. }
  unfold_M. unfold reported in Hs, HF. rewrite fmap_cons in Hs, HF.
  apply Forall_cons in HF as [Hm HF]. inversion Hs as [|? ? Hs' Hhd]; subst.
  inversion Hhd as [|? ? Hle]; subst.
  pose proof (report_step id req StatusConflict w c Hc Hl) as Hstep. cbn zeta in Hstep.
  specialize (Hstep ltac:(lia)). destruct (report_metrics id req StatusConflict w) as [p w1].
  destruct Hstep as (_ & Hl1 & Hb1 & Hc1). cbn [fst snd] in *.
  rewrite (IH w1 _ Hc1 Hl1); rewrite ?Hb1; [|lia|done|done].
  f_equal. rewrite Z.max_r by lia. unfold reported. rewrite fmap_cons, last_cons.
  destruct (last (_ <$> reqs)); cbn; lia.
Qed.

(** It over-counts reports that arrive out of order: three deliveries
    carrying the totals [a], [b] and [a] with [0 <= b < a], as when a spooled
    older report is delivered between two newer ones, count [a - b] drops
    twice. *)
Theorem drops_out_of_order id q1 q2 q3 (w : world srv) :
  drop_counter (st w) id = Some 0 → s_dropsLocked (st w) = false → baseline (st w) id = 0 →
  let a := SpoolDropsTotal (SpoolMeta q1) in
  let b := SpoolDropsTotal (SpoolMeta q2) in
  SpoolDropsTotal (SpoolMeta q3) = a → 0 <= b < a → a <= max_int64 →
  drop_counter (st (report_all id [q1; q2; q3] w).2) id = Some (a + (a - b)).
Proof.
  cbn zeta. intros Hc Hl Hb H3 Hba Ha. cbn [report_all]. unfold_M.
  pose proof (report_step id q1 StatusConflict w 0 Hc Hl) as S1. cbn zeta in S1.
  rewrite Hb in S1. specialize (S1 ltac:(lia)).
  destruct (report_metrics id q1 StatusConflict w) as [p1 w1]. destruct S1 as (_ & Hl1 & Hb1 & Hc1).
  pose proof (report_step id q2 StatusConflict w1 _ Hc1 Hl1) as S2. cbn zeta in S2.
  rewrite Hb1 in S2. specialize (S2 ltac:(lia)).
  destruct (report_metrics id q2 StatusConflict w1) as [p2 w2]. destruct S2 as (_ & Hl2 & Hb2 & Hc2).
  pose proof (report_step id q3 StatusConflict w2 _ Hc2 Hl2) as S3. cbn zeta in S3.
  rewrite Hb2, H3 in S3. specialize (S3 ltac:(lia)).
  destruct (report_metrics id q3 StatusConflict w2) as [p3 w3]. destruct S3 as (_ & _ & _ & Hc3).
  cbn [fst snd]. rewrite Hc3. f_equal. lia.
Qed.
End Drops.

(** ** A report that wedges the endpoint *)

(** The mutex of the drop counter is held for ever, and metrics are on. *)
Definition wedged (s : srv) : Prop := s_dropsLocked s = true ∧ is_Some (s_metrics s).

Section Wedge.
Context {E : Env} {D : CtlDriver} {Cd : Codec}.

Abbreviation stays m := (moves (λ s s', wedged s → wedged s') m).

Lemma stays_exec {A} (f : Z → cdb → res (A * cdb)) : stays (exec f).
Proof.
  apply moves_stmt; [apply _|]. intros n s a s'. destruct (f (clock n) (the_db s)) as [[b d]|]; cbn; [|done].
  by intros [= _ <-].
Qed.

Lemma stays_persist req : stays (persistResults req).
Proof.
  intros w. pose proof (persistResults_cases req w) as H. destruct (persistResults req w) as [p w'].
  cbn. destruct H as [(_ & d & _ & ->)|[(_ & -> & _)|(e & _ & -> & _)]]; done.
Qed.

Lemma stays_observe id status start : stays (observeIngest id status start).
Proof.
  apply moves_bind; [apply _|apply moves_now, _|]. intros t w [Hl [m Hm]].
  split; [done|]. cbn. rewrite Hm. cbn. eauto.
Qed.

(** Once the mutex is lost, a batch that is stored or recognised is never
    acknowledged. *)
Lemma finish_hangs id req status start (w : world srv) :
  wedged (st w) →
  let '(resp, w') := finish_results id req status start w in resp = reply 0 Hung ∧ wedged (st w').
Proof.
  intros Hw. unfold finish_results. unfold_M.
  pose proof (moves_now (λ s s', wedged s → wedged s') w Hw) as H1. destruct (now w) as [t w1]. cbn in H1.
  assert (H2 : stays (UpdateSpoolStats id (spool_stats req t))).
  { apply moves_bind; [apply _|apply stays_exec|]. intros a. repeat moves_step. }
  specialize (H2 w1 H1). destruct (UpdateSpoolStats id (spool_stats req t) w1) as [e w2]. cbn in H2.
  unfold report_metrics. destruct H2 as [Hl [m Hm]]. rewrite Hm. cbn. rewrite Hl. cbn.
  split; [done|]. split; [done|]. cbn. eauto.
Qed.

(** C39. An overflowing drop report takes the endpoint down: a report whose
    64-bit difference to the node's baseline overflows panics in the counter while
    the mutex is held; from then on no batch of any node is acknowledged, although
    batches are still stored, and no request ends that state. *)
Theorem drops_overflow_wedges id req status (w : world srv) :
  is_Some (s_metrics (st w)) → s_dropsLocked (st w) = false →
  in_int64 (SpoolDropsTotal (SpoolMeta req)) → in_int64 (baseline (st w) id) →
  SpoolDropsTotal (SpoolMeta req) - baseline (st w) id > max_int64 →
  let '(p, w1) := report_metrics id req status w in
  p = Some Aborted ∧ wedged (st w1) ∧
  ∀ node r (w2 : world srv), wedged (st w2) →
    let '(resp, w3) := handleResults node r w2 in
    ¬ code resp ∈ [201; 409] ∧ wedged (st w3).
Proof.
  intros [m Hm] Hl Hv Hb Hov. unfold report_metrics. rewrite Hm.
  cbn [with_metrics s_dropsLocked s_lastDropsByNode]. rewrite Hl. fold (baseline (st w) id).
  unfold in_int64, min_int64, max_int64 in *.
  rewrite (proj2 (Z.ltb_lt _ _)) by lia. rewrite wrap64_overflow by lia.
  rewrite (proj2 (Z.ltb_lt (_ - _) 0)) by lia. cbn [andb].
  split; [done|]. split; [split; [done|cbn; eauto]|]. clear. intros node r w Hw.
  unfold handleResults. unfold_M. pose proof (moves_now (λ s s', wedged s → wedged s') w Hw) as H1. destruct (now w) as [start w1]. cbn in H1.
  destruct (decode_results (Body r)) as [req|e].
  2: { pose proof (stays_observe (ID node) StatusUnprocessableEntity start w1 H1) as H2.
       destruct (observeIngest _ _ _ w1) as [u w2]. split; [set_solver|done]. }
  destruct (validateResultsRequest (ID node) req) as [e|].
  { pose proof (stays_observe (ID node) StatusUnprocessableEntity start w1 H1) as H2.
    destruct (observeIngest _ _ _ w1) as [u w2]. split; [set_solver|done]. }
  pose proof (stays_persist req w1 H1) as H2. destruct (persistResults req w1) as [[status'|e] w2].
  - pose proof (finish_hangs (ID node) req status' start w2 H2) as H3.
    destruct (finish_results _ _ _ _ w2) as [resp w3]. destruct H3 as [-> H3]. split; [set_solver|done].
  - pose proof (stays_observe (ID node) StatusInternalServerError start w2 H2) as H3.
    destruct (observeIngest _ _ _ w2) as [u w3]. split; [set_solver|done].
Qed.
End Wedge.

(** ** Witnesses *)

Definition example_req (drops : Z) : ResultsRequest :=
  mkResultsRequest "spoke-1" "run-1" (1700000000 * Second)
    [mkObs "hub-1" (Some (S754_finite false 6755399441055744 (-51))) ""; mkObs "hub-2" None "dial timeout"]
    (mkSpoolMetadata 2 30 drops 1).

Definition example_codec : Codec := {|
  decode_results := λ _, Ok (example_req 3);
  decode_create := λ _, Err (ErrMsg "EOF");
  decode_patch := λ _, Err (ErrMsg "EOF");
|}.

Definition example_srv : srv :=
  NewWithOptions example_db (mkOptions None None None (Some newMetrics)).

Definition example_start : world srv := mkWorld example_srv 0.

Definition example_request : request := mkReq "POST" "/api/v1/results" ∅ "c" "10.0.0.2:5000" false None ∅ ∅ "{}".

Lemma calm_honest : @honest_faults calm.
Proof. done. Qed.

Lemma example_targets : NoDup (TargetID <$> Results (example_req 3)).
Proof. by_decide. Qed.

Lemma persistResults_atomic_witness :
  ∃ d', ingested (example_req 3) (Results (example_req 3)) example_db d'.
Proof.
  pose proof (@persistResults_atomic calm sqlite_driver (example_req 3) example_start
    example_targets calm_honest) as H.
  destruct (persistResults _ _) as [r w'] eqn:Hp. revert H. vm_compute in Hp. simplify_eq.
  intros [(_ & d' & Hi & _)|[(Hr & _)|(e & Hr & _)]]; [by exists d'|discriminate..].
Defined.

Lemma persistResults_idempotent_witness :
  (@persistResults calm sqlite_driver (example_req 3)
     (@persistResults calm sqlite_driver (example_req 3) example_start).2).1 = Ok 409.
Proof.
  pose proof (@persistResults_idempotent calm sqlite_driver (example_req 3) example_start calm_ff
    example_targets) as H.
  destruct (persistResults _ example_start) as [r w'] eqn:Hp.
  destruct H as (_ & _ & H); [vm_compute; eauto|].
  assert (Hr : r = Ok 201) by (apply (f_equal fst) in Hp; vm_compute in Hp; done).
  specialize (H Hr ltac:(done)). cbn [snd]. by destruct (persistResults _ w') as [r2 w2], H.
Defined.


Lemma drops_in_order_witness :
  drop_counter (st (report_all "n" [example_req 3; example_req 8] example_start).2) "n" = Some 8.
Proof.
  apply (drops_in_order "n" [example_req 3; example_req 8] example_start 0).
  - reflexivity.
  - reflexivity.
  - by_decide.
  - apply Sorted_cons; [apply Sorted_cons; [apply Sorted_cons; [apply Sorted_nil|apply HdRel_nil]
      |apply HdRel_cons; by_decide]|apply HdRel_cons; by_decide].
  - by_decide.
Defined.

Lemma drops_out_of_order_witness :
  drop_counter (st (report_all "n" [example_req 10; example_req 5; example_req 10] example_start).2) "n"
  = Some 15.
Proof.
  apply (drops_out_of_order "n" (example_req 10) (example_req 5) (example_req 10) example_start).
  - reflexivity.
  - reflexivity.
  - reflexivity.
  - reflexivity.
  - by_decide.
  - by_decide.
Defined.

Lemma drops_overflow_wedges_witness :
  (report_metrics "n" (example_req max_int64) 409
     (report_metrics "n" (example_req min_int64) 201 example_start).2).1 = Some Aborted.
Proof.
  pose proof (@drops_overflow_wedges calm sqlite_driver example_codec "n" (example_req max_int64) 409
    (report_metrics "n" (example_req min_int64) 201 example_start).2) as H.
  destruct (report_metrics "n" (example_req max_int64) 409 _) as [p w1].
  destruct H as [H _]; [vm_compute; eauto|reflexivity|by_decide|by_decide|by_decide|exact H].
Defined.
