(* ===== verification/Handlers.v ===== *)
(** * The other handlers of the controller
      ([internal/controller/admin.go], [ui.go], [ws.go], [ws_hub.go], [server.go], [probe_matrix.go])

    Administration, the web UI, tickets and WebSocket upgrades, readiness and the
    latency matrix, each as the whole handler. *)
From Stdlib Require Import Ascii ZArith Lia SpecFloat.
From S2P Require Import Prelude GoTime GoStrings Base64 Ticket RateLimit Litestream ControllerDB Nodes Http Ui Server Results.

Local Open Scope string_scope.
Local Open Scope Z_scope.

(** ** Administration of nodes *)

Definition validateAdminNodeFields (id role address : string) : option err :=
  if bool_decide (id = "") then Some (ErrMsg "id required")
  else if negb (valid_role role) then Some (ErrMsg "role must be one of spoke, hub, listener")
  else if bool_decide (role = RoleHub) && bool_decide (address = "")
  then Some (ErrMsg "hub role requires address (host:port)")
  else None.

Definition admin_node (n : Node) : AdminNode := mkAdminNode (ID n) (Role n) (Address n) (Disabled n).

(** Third-party and operating-system behaviour the handlers depend on. *)

(** The gorilla [Upgrader]: the status of a handshake it refuses before looking
    at the origin. *)
Class Upgrader := { bad_handshake : request → option Z }.

(** Size of a file, when [os.Stat] succeeds. *)
Class Stat := { stat_size : nat → string → option Z }.

(** SQLite's aggregates over the non-null latencies of a group, and what
    scanning [MAX(observed_at)] into a [time.Time] gives. *)
Class MatrixSQL := {
  sql_avg : list spec_float → spec_float;
  sql_min : list spec_float → spec_float;
  sql_max : list spec_float → spec_float;
  scan_time : string → res Z;
}.

Section Handlers.
Context {E : Env} {D : CtlDriver} {Cd : Codec} {Rn : Rand}.

Definition mintSecret : M srv (res string) := λ w,
  ((λ buf, b64_encode buf) <$> rand_Read (tick w), mkWorld (st w) (S (tick w))).

Definition internal_error : response := writeJSONError StatusInternalServerError "internal error".

Definition handleAdminListNodes : handler := λ _,
  '(ns, e) ← List_;
  mret (match e with
        | Some _ => internal_error
        | None => reply StatusOK (JNodes (admin_node <$> ns))
        end).

(** The secret supplied, or a fresh one. *)
Definition secret_or_mint (given : string) : M srv (res string) :=
  if bool_decide (given = "") then mintSecret else mret (Ok given).

Definition handleAdminCreateNode : handler := λ r,
  match decode_create (Body r) with
  | Err e => mret (writeJSONError StatusUnprocessableEntity ("invalid json: " ++ Error e))
  | Ok req =>
      match validateAdminNodeFields (ac_ID req) (ac_Role req) (ac_Address req) with
      | Some e => mret (writeJSONError StatusUnprocessableEntity (Error e))
      | None =>
          g ← Get (ac_ID req);
          match g with
          | Ok _ => mret (writeJSONError StatusConflict "node already exists")
          | Err e =>
              if negb (errors_Is e ErrUnknownNode) then mret (writeJSONError StatusInternalServerError (Error e))
              else
                s ← secret_or_mint (ac_Secret req);
                match s with
                | Err _ => mret internal_error
                | Ok secret =>
                    let n := mkNode (ac_ID req) (ac_Role req) (HashSecret secret) (ac_Address req) (ac_Disabled req) in
                    e ← Upsert n;
                    mret (match e with
                          | Some _ => internal_error
                          | None => reply StatusCreated (JCreated (admin_node n) secret)
                          end)
                end
          end
      end
  end.

Definition apply_patch (req : AdminPatchRequest) (cur : Node) : Node :=
  mkNode (ID cur) (default (Role cur) (ap_Role req))
    (match ap_Secret req with
     | Some s => if bool_decide (s = "") then SecretHash cur else HashSecret s
     | None => SecretHash cur
     end)
    (default (Address cur) (ap_Address req)) (default (Disabled cur) (ap_Disabled req)).

(** [id] is [r.PathValue("id")]. *)
Definition handleAdminPatchNode (id : string) : handler := λ r,
  if bool_decide (id = "") then mret (writeJSONError StatusUnprocessableEntity "missing id")
  else
    g ← Get id;
    match g with
    | Err e => if errors_Is e ErrUnknownNode then mret (writeJSONError StatusNotFound "unknown node")
               else mret (writeJSONError StatusInternalServerError (Error e))
    | Ok cur =>
        match decode_patch (Body r) with
        | Err e => mret (writeJSONError StatusUnprocessableEntity ("invalid json: " ++ Error e))
        | Ok req =>
            let next := apply_patch req cur in
            match validateAdminNodeFields (ID next) (Role next) (Address next) with
            | Some e => mret (writeJSONError StatusUnprocessableEntity (Error e))
            | None =>
                e ← Upsert next;
                mret (match e with
                      | Some _ => internal_error
                      | None => reply StatusOK (JNode (admin_node next))
                      end)
            end
        end
    end.

Definition handleAdminDeleteNode (id : string) : handler := λ _,
  if bool_decide (id = "") then mret (writeJSONError StatusUnprocessableEntity "missing id")
  else
    e ← Delete id;
    mret (match e with
          | None => reply StatusNoContent Empty
          | Some e => if errors_Is e ErrUnknownNode || errors_Is e ErrNoRows
                      then writeJSONError StatusNotFound "unknown node"
                      else internal_error
          end).

(** ** The web UI *)

Definition nodeToInfo (n : Node) : NodeInfo :=
  mkNodeInfo (ID n) (Role n) (Address n) (Disabled n) 0 zero_time.

Definition listNodeInfos : M srv (res (list NodeInfo)) :=
  '(ns, e) ← List_;
  mret (match e with Some e => Err e | None => Ok (nodeToInfo <$> ns) end).

Definition http_error (c : Z) (msg : string) : response := reply c (Plain msg).
Definition page_of (p : page) : response := reply StatusOK (Html p).

Definition handleUILogin (c : config) : handler := λ r,
  if bool_decide (Method r = "GET") then mret (page_of (LoginPage ""))
  else
    let token := TrimSpace (FormValue r "token") in
    if bool_decide (adminToken c = "") || negb (constantTimeStringEq token (adminToken c))
    then mret (page_of (LoginPage "Invalid token."))
    else mret (mkResp StatusSeeOther (Redirect "/ui/") (Some (token, isHTTPS r))).

Definition handleUILogout : handler := λ _,
  mret (mkResp StatusSeeOther (Redirect "/ui/login") (Some ("", false))).

Definition handleUINodes : handler := λ _,
  i ← listNodeInfos;
  mret (match i with
        | Err _ => http_error StatusInternalServerError "internal error"
        | Ok infos => page_of (NodesPage infos "")
        end).

Definition handleFragNewNodeForm : handler := λ _, mret (page_of NewNodeForm).

(** [handleFragCreateNode]: no check that the node is new. *)
Definition handleFragCreateNode : handler := λ r,
  let id := TrimSpace (FormValue r "id") in
  let role := TrimSpace (FormValue r "role") in
  let address := TrimSpace (FormValue r "address") in
  match validateAdminNodeFields id role address with
  | Some e => mret (http_error StatusUnprocessableEntity (Error e))
  | None =>
      s ← secret_or_mint (TrimSpace (FormValue r "secret"));
      match s with
      | Err _ => mret (http_error StatusInternalServerError "internal error")
      | Ok secret =>
          e ← Upsert (mkNode id role (HashSecret secret) address false);
          match e with
          | Some _ => mret (http_error StatusInternalServerError "internal error")
          | None =>
              i ← listNodeInfos;
              mret (match i with
                    | Err _ => http_error StatusInternalServerError "internal error"
                    | Ok infos => page_of (NodesPage infos secret)
                    end)
          end
      end
  end.

Definition handleFragDeleteNode (id : string) : handler := λ _,
  e ← Delete id;
  mret (match e with
        | Some _ => http_error StatusNotFound "not found"
        | None => reply StatusOK Empty
        end).

Definition patchDisabled (disable : bool) (id : string) : handler := λ _,
  g ← Get id;
  match g with
  | Err _ => mret (http_error StatusNotFound "not found")
  | Ok node =>
      let node := mkNode (ID node) (Role node) (SecretHash node) (Address node) disable in
      e ← Upsert node;
      mret (match e with
            | Some _ => http_error StatusInternalServerError "internal error"
            | None => page_of (NodeRowFragment (nodeToInfo node))
            end)
  end.

Definition handleFragDisableNode := patchDisabled true.
Definition handleFragEnableNode := patchDisabled false.

(** ** The latency matrix *)

Context {MS : MatrixSQL}.

Definition pair_key (r : result_row) : string * string := (r_source_id r, r_target_id r).

(** The rows of the last five minutes at instant [t]. *)
Definition recent (t : Z) (db : cdb) : list result_row :=
  filter (λ r, String.ltb (format_datetime (TimeAdd t (- (5 * Minute)))) (r_observed_at r) = true) (results db).

Definition latencies (g : list result_row) : list spec_float := omap r_latency_ms g.

Definition has_error (r : result_row) : bool :=
  match r_error r with Some e => negb (bool_decide (e = "")) | None => false end.

Fixpoint max_text (l : list string) : string :=
  match l with
  | [] => ""
  | s :: l' => let m := max_text l' in if String.ltb s m then m else s
  end.

(** [rows.Scan] of one group: a NULL average does not fit a [float64]. *)
Definition scan_group (k : string * string) (g : list result_row) : res MatrixEntry :=
  match latencies g with
  | [] => Err (ErrMsg "sql: Scan error on column index 2: converting NULL to float64 is unsupported")
  | ls =>
      t ← scan_time (max_text (r_observed_at <$> g));
      let errCount := length (List.filter has_error g) in
      Ok (mkEntry k.1 k.2 (sql_avg ls) (sql_min ls) (sql_max ls) (Z.of_nat (length g))
            ((0 <? errCount)%nat && (length g =? errCount)%nat) t)
  end.

(** The scan loop over the groups. *)
Fixpoint scan_groups (rows : list result_row) (ks : list (string * string)) : res (list MatrixEntry) :=
  match ks with
  | [] => Ok []
  | k :: ks' =>
      e ← scan_group k (filter (λ r, pair_key r = k) rows);
      es ← scan_groups rows ks';
      Ok (e :: es)
  end.

(** [GROUP BY source_id, target_id]: one group per pair that occurs. *)
Definition group_keys (rows : list result_row) : list (string * string) := remove_dups (pair_key <$> rows).

(** [queryMatrix]; [List] returns the nodes sorted, so the hub ids are. *)
Definition queryMatrix : M srv (res LatencyMatrix) :=
  '(ns, e) ← List_;
  match e with
  | Some e => mret (Err e)
  | None =>
      let hubIDs := ID <$> List.filter (λ n, bool_decide (Role n = RoleHub) && negb (Disabled n)) ns in
      match hubIDs with
      | [] => mret (Ok (mkMatrix [] []))
      | _ =>
          r ← exec (λ t db, Ok (recent t db, db));
          match r with
          | Err e => mret (Err e)
          | Ok rows =>
              match scan_groups rows (group_keys rows) with
              | Err e => mret (Err e)
              | Ok entries =>
                  e ← rows_Err;
                  mret (match e with Some e => Err e | None => Ok (mkMatrix hubIDs entries) end)
              end
          end
      end
  end.

Definition handleUIDashboard : handler := λ _,
  m ← queryMatrix;
  mret (match m with
        | Err _ => http_error StatusInternalServerError "internal error"
        | Ok m => page_of (DashboardPage m)
        end).

Definition handleFragMatrix : handler := λ _,
  m ← queryMatrix;
  mret (match m with
        | Err _ => http_error StatusInternalServerError "internal error"
        | Ok m => page_of (MatrixFragment m)
        end).

(** ** Tickets and WebSockets *)

Definition add_issued (m : Metrics) : Metrics :=
  mkMetrics (IngestTotal m) (IngestLatency m) (NodeSpoolDepth m) (NodeSpoolOldestAgeSecs m)
    (NodeSpoolDropsTotal m) (NodeLastSeenSeconds m) (ClockDriftMS m) (LitestreamLastSyncTimestamp m)
    (LitestreamLagSeconds m) (ActiveWebSocketConnections m) (WSTicketsIssued m + 1) (WSTicketsUsed m)
    (WSTicketsRejected m) (DBSizeBytes m) (ProbeResultsTotal m).
Definition add_used (m : Metrics) : Metrics :=
  mkMetrics (IngestTotal m) (IngestLatency m) (NodeSpoolDepth m) (NodeSpoolOldestAgeSecs m)
    (NodeSpoolDropsTotal m) (NodeLastSeenSeconds m) (ClockDriftMS m) (LitestreamLastSyncTimestamp m)
    (LitestreamLagSeconds m) (ActiveWebSocketConnections m) (WSTicketsIssued m) (WSTicketsUsed m + 1)
    (WSTicketsRejected m) (DBSizeBytes m) (ProbeResultsTotal m).
Definition add_active (n : Z) (m : Metrics) : Metrics :=
  mkMetrics (IngestTotal m) (IngestLatency m) (NodeSpoolDepth m) (NodeSpoolOldestAgeSecs m)
    (NodeSpoolDropsTotal m) (NodeLastSeenSeconds m) (ClockDriftMS m) (LitestreamLastSyncTimestamp m)
    (LitestreamLagSeconds m) (ActiveWebSocketConnections m + n) (WSTicketsIssued m) (WSTicketsUsed m)
    (WSTicketsRejected m) (DBSizeBytes m) (ProbeResultsTotal m).
Definition add_rejected (reason : string) (m : Metrics) : Metrics :=
  mkMetrics (IngestTotal m) (IngestLatency m) (NodeSpoolDepth m) (NodeSpoolOldestAgeSecs m)
    (NodeSpoolDropsTotal m) (NodeLastSeenSeconds m) (ClockDriftMS m) (LitestreamLastSyncTimestamp m)
    (LitestreamLagSeconds m) (ActiveWebSocketConnections m) (WSTicketsIssued m) (WSTicketsUsed m)
    (bump_key reason (WSTicketsRejected m)) (DBSizeBytes m) (ProbeResultsTotal m).

Definition issue (node : string) : M srv (res Ticket) := λ w,
  let '(r, t) := Issue (rand_Read (tick w)) (clock (S (tick w))) node (s_tickets (st w)) in
  (r, mkWorld (with_tickets t (st w)) (S (S (tick w)))).

Definition handleWSTicket (node : Node) : handler := λ _,
  tk ← issue (ID node);
  match tk with
  | Err _ => mret internal_error
  | Ok tk =>
      _ ← with_m add_issued;
      mret (reply StatusOK (JTicket (Value tk) (format_rfc3339 (ExpiresAt tk))))
  end.

Definition blocked (ip : string) : M srv bool :=
  n ← now; s ← (get : M srv srv);
  mret (match s_wsRateLimit s with Some l => Blocked n ip l | None => false end).

Definition validate (v : string) : M srv (res string) := λ w,
  let '(r, t) := Validate (clock (tick w)) v (s_tickets (st w)) in
  (r, mkWorld (with_tickets t (st w)) (S (tick w))).

Definition wsReject (reason : string) (status : Z) (msg : string) : M srv response :=
  _ ← with_m (add_rejected reason); mret (writeJSONError status msg).

Definition record_failure (ip : string) : M srv () :=
  n ← now;
  modify (λ s, with_limiter ((λ l, (RecordFailure n ip l).2) <$> s_wsRateLimit s) s).

Definition wsRejectAndCount (ip reason : string) (status : Z) (msg : string) : M srv response :=
  _ ← record_failure ip; wsReject reason status msg.

Context {Up : Upgrader}.

(** [upgrader.Upgrade]: 101 when the handshake and the origin are accepted. *)
Definition upgrade (c : config) (r : request) : option Z :=
  match bad_handshake r with
  | Some code => Some code
  | None => if checkWSOrigin (wsAllowedOrigins c) r then None else Some 403
  end.

Definition handleWS (c : config) : handler := λ r,
  let ip := clientIP r in
  b ← blocked ip;
  if (b : bool) then wsReject "ratelimit" StatusTooManyRequests "too many ticket failures"
  else
    let tkValue := Query_Get r "ticket" in
    if bool_decide (tkValue = "") then wsRejectAndCount ip "unknown" StatusUnauthorized "ticket required"
    else
      v ← validate tkValue;
      match v with
      | Err e =>
          let reason := if errors_Is e ErrExpiredTicket then "expired" else "unknown" in
          wsRejectAndCount ip reason StatusUnauthorized "invalid ticket"
      | Ok nodeID =>
          _ ← with_m add_used;
          match upgrade c r with
          | Some code => mret (reply code (Plain "upgrade failed"))
          | None => _ ← with_m (add_active 1); mret (reply 101 (Upgraded nodeID))
          end
      end.

(** [serveWS] after the upgrade: what its loop sees, and the frames it sends. *)
Inductive ws_event := ReadDone | PingTick (ok : bool).
Inductive frame := Hello (nodeID : string) | Ping.

Fixpoint serveWS_loop (evs : list ws_event) : list frame :=
  match evs with
  | [] | ReadDone :: _ => []
  | PingTick true :: evs' => Ping :: serveWS_loop evs'
  | PingTick false :: _ => [Ping]
  end.

Definition serveWS (nodeID : string) (hello_ok : bool) (evs : list ws_event) : M srv (list frame) :=
  let frames := Hello nodeID :: (if hello_ok then serveWS_loop evs else []) in
  _ ← with_m (add_active (-1)); mret frames.

(** [handleUIWS] and the client it serves. *)
Definition handleUIWS (c : config) : handler := λ r,
  if session_ok c r then
    match upgrade c r with
    | Some code => mret (reply code (Plain "upgrade failed"))
    | None => mret (reply 101 (Upgraded ""))
    end
  else mret (http_error StatusUnauthorized "unauthorized").

Inductive ui_event := SendReady (ok : bool) | UIPing (ok : bool) | ClientDone.

(** The write pump of [serveUIClient], with what else happens to the hub in
    between; returns the messages written. *)
Fixpoint ui_pump (client : nat) (evs : list ((WSHub → WSHub) * ui_event)) (h : WSHub)
    : list ProbeEvent * WSHub :=
  match evs with
  | [] => ([], h)
  | (others, ev) :: evs' =>
      let h := others h in
      match ev with
      | ClientDone | UIPing false => ([], h)
      | UIPing true => ui_pump client evs' h
      | SendReady ok =>
          match receive client h with
          | (None, h) => ui_pump client evs' h
          | (Some msg, h) =>
              if ok then let '(out, h') := ui_pump client evs' h in (msg :: out, h') else ([msg], h)
          end
      end
  end.

Definition serveUIClient (client : nat) (evs : list ((WSHub → WSHub) * ui_event)) (h : WSHub)
    : list ProbeEvent * WSHub :=
  let '(out, h) := ui_pump client evs (register client h) in (out, unregister client h).

(** ** Liveness, readiness and metrics *)

Definition handleHealthz : handler := λ _, mret (reply StatusOK JStatus).

Definition set_drift (d : spec_float) (m : Metrics) : Metrics :=
  mkMetrics (IngestTotal m) (IngestLatency m) (NodeSpoolDepth m) (NodeSpoolOldestAgeSecs m)
    (NodeSpoolDropsTotal m) (NodeLastSeenSeconds m) d (LitestreamLastSyncTimestamp m)
    (LitestreamLagSeconds m) (ActiveWebSocketConnections m) (WSTicketsIssued m) (WSTicketsUsed m)
    (WSTicketsRejected m) (DBSizeBytes m) (ProbeResultsTotal m).

(** The lag, and the last sync unless there was none. *)
Definition set_lag (lag last : Z) (m : Metrics) : Metrics :=
  mkMetrics (IngestTotal m) (IngestLatency m) (NodeSpoolDepth m) (NodeSpoolOldestAgeSecs m)
    (NodeSpoolDropsTotal m) (NodeLastSeenSeconds m) (ClockDriftMS m)
    (if IsZero last then LitestreamLastSyncTimestamp m else Unix last)
    lag (ActiveWebSocketConnections m) (WSTicketsIssued m) (WSTicketsUsed m)
    (WSTicketsRejected m) (DBSizeBytes m) (ProbeResultsTotal m).

Definition set_dbsize (n : Z) (m : Metrics) : Metrics :=
  mkMetrics (IngestTotal m) (IngestLatency m) (NodeSpoolDepth m) (NodeSpoolOldestAgeSecs m)
    (NodeSpoolDropsTotal m) (NodeLastSeenSeconds m) (ClockDriftMS m) (LitestreamLastSyncTimestamp m)
    (LitestreamLagSeconds m) (ActiveWebSocketConnections m) (WSTicketsIssued m) (WSTicketsUsed m)
    (WSTicketsRejected m) n (ProbeResultsTotal m).

(** The clock gate: [None] when chrony is not configured. *)
Definition chrony_check (c : config) : M srv bool := λ w,
  match chrony c with
  | None => (false, w)
  | Some drift_at =>
      let w1 := mkWorld (st w) (S (tick w)) in
      match drift_at (tick w) with
      | Err _ => (false, w1)
      | Ok drift =>
          if SFltb zero_float (maxDriftMS c) && SFltb (maxDriftMS c) drift then (false, w1)
          else (true, (with_m (set_drift drift) w1).2)
      end
  end.

(** The replication gate: [None] when Litestream is not configured.  [Lag] and
    [Healthy] read the clock one after the other. *)
Definition litestream_check (c : config) : M srv (option bool) :=
  s ← (get : M srv srv);
  match s_litestream s with
  | None => mret None
  | Some t =>
      n1 ← now; n2 ← now;
      let ok := Healthy n2 (maxLag c) t in
      _ ← with_m (set_lag (Lag n1 t) (LastSyncAt (status t)));
      mret (Some ok)
  end.

Definition handleReadyz (c : config) : handler := λ _,
  ch ← chrony_check c;
  ls ← litestream_check c;
  if (ch : bool) && default true ls
  then mret (reply StatusOK (JReady "ok" (mkReadiness ch ls)))
  else mret (reply StatusServiceUnavailable (JReady "degraded" (mkReadiness ch ls))).

Context {Sz : Stat}.

Fixpoint sum_sizes (p : string) (suffixes : list string) (total : Z) : M srv Z :=
  match suffixes with
  | [] => mret total
  | sfx :: rest => λ w,
      let total := match stat_size (tick w) (p ++ sfx) with
                   | Some n => wrap64 (total + n)
                   | None => total
                   end in
      sum_sizes p rest total (mkWorld (st w) (S (tick w)))
  end.

Definition dbSize (c : config) : M srv Z :=
  if bool_decide (dbPath c = "") then mret 0 else sum_sizes (dbPath c) [""; "-wal"; "-shm"] 0.

Definition refreshMetrics (c : config) : M srv () :=
  n ← dbSize c;
  _ ← with_m (set_dbsize n);
  s ← (get : M srv srv);
  match s_litestream s with
  | None => mret ()
  | Some t => n ← now; with_m (set_lag (Lag n t) (LastSyncAt (status t)))
  end.

Definition handleMetrics (c : config) : handler := λ _,
  _ ← refreshMetrics c;
  s ← (get : M srv srv);
  mret (match s_metrics s with
        | Some m => reply StatusOK (Scrape m)
        | None => reply StatusNotFound Empty
        end).
End Handlers.
