(* ===== verification/Routes.v ===== *)
(** * Routing and authorization ([internal/controller/server.go: Handler])

    The route table with the gate of every route, and the theorem that, when an
    operator token is configured, the database changes only through requests with
    the matching credentials. *)
From Stdlib Require Import Ascii ZArith Lia SpecFloat.
From S2P Require Import Prelude GoTime GoStrings Base64 Ticket RateLimit Litestream ControllerDB Nodes Http Ui Server Results ResultsFacts Handlers.

Local Open Scope string_scope.
Local Open Scope Z_scope.

(** ** The mux *)

Inductive route :=
  | RHealthz | RReadyz | RResults | RTargets | RWSTicket | RWS
  | RAdminList | RAdminCreate | RAdminPatch (id : string) | RAdminDelete (id : string)
  | RMetrics
  | RLogin | RLogout | RDashboard | RNodes
  | RFragMatrix | RFragNew | RFragCreate
  | RFragDelete (id : string) | RFragDisable (id : string) | RFragEnable (id : string)
  | RUIWS | RStatic
  | RMoved (location : string) | RNotAllowed | RNotFound.

(** A path as the mux sees it: what follows the leading slash, by segments; a
    trailing slash leaves a last empty segment. *)
Definition segments (path : string) : option (list string) :=
  match path with
  | String "/" rest => Some (Split rest "/")
  | _ => None
  end.

(** The mux redirects paths with empty, [.] or [..] segments. *)
Fixpoint clean_segments (segs : list string) : bool :=
  match segs with
  | [] => true
  | [s] => negb (bool_decide (s = ".") || bool_decide (s = ".."))
  | s :: segs' => negb (bool_decide (s = "") || bool_decide (s = ".") || bool_decide (s = "..")) && clean_segments segs'
  end.

(** The patterns that match a path, most specific first. *)
Definition patterns (metrics_on : bool) (segs : list string) : list (string * route) :=
  match segs with
  | ["healthz"] => [("GET", RHealthz)]
  | ["readyz"] => [("GET", RReadyz)]
  | ["metrics"] => if metrics_on then [("GET", RMetrics)] else []
  | ["api"; "v1"; "results"] => [("POST", RResults)]
  | ["api"; "v1"; "targets"] => [("GET", RTargets)]
  | ["api"; "v1"; "ws-ticket"] => [("POST", RWSTicket)]
  | ["api"; "v1"; "ws"] => [("GET", RWS)]
  | ["api"; "v1"; "ui"; "ws"] => [("GET", RUIWS)]
  | ["api"; "v1"; "admin"; "nodes"] => [("GET", RAdminList); ("POST", RAdminCreate)]
  | ["api"; "v1"; "admin"; "nodes"; id] =>
      if bool_decide (id = "") then [] else [("PATCH", RAdminPatch id); ("DELETE", RAdminDelete id)]
  | ["ui"] => [("GET", RMoved "/ui/")]
  | "ui" :: rest =>
      (match rest with
       | ["login"] => [("GET", RLogin); ("POST", RLogin)]
       | ["logout"] => [("POST", RLogout)]
       | ["nodes"] => [("GET", RNodes)]
       | ["frag"; "matrix"] => [("GET", RFragMatrix)]
       | ["frag"; "nodes"] => [("POST", RFragCreate)]
       | ["frag"; "nodes"; id] =>
           if bool_decide (id = "") then [] else
           ((if bool_decide (id = "new") then [("GET", RFragNew)] else []) ++ [("DELETE", RFragDelete id)])
       | ["frag"; "nodes"; id; "disable"] => if bool_decide (id = "") then [] else [("PATCH", RFragDisable id)]
       | ["frag"; "nodes"; id; "enable"] => if bool_decide (id = "") then [] else [("PATCH", RFragEnable id)]
       | _ => []
       end ++ [("GET", RDashboard)])%list
  | ["static"] => [("GET", RMoved "/static/")]
  | "static" :: _ => [("GET", RStatic)]
  | _ => []
  end.

(** A GET pattern also serves HEAD. *)
Definition method_matches (pattern m : string) : bool :=
  bool_decide (pattern = m) || (bool_decide (pattern = "GET") && bool_decide (m = "HEAD")).

Fixpoint pick (m : string) (ps : list (string * route)) : option route :=
  match ps with
  | [] => None
  | (pm, rt) :: ps' => if method_matches pm m then Some rt else pick m ps'
  end.

Definition find_route (metrics_on : bool) (r : request) : route :=
  match segments (Path r) with
  | None => RNotFound
  | Some segs =>
      if negb (clean_segments segs) then RMoved "cleaned path"
      else
        let ps := patterns metrics_on segs in
        match pick (Method r) ps with
        | Some rt => rt
        | None => match ps with [] => RNotFound | _ => RNotAllowed end
        end
  end.

Section Mux.
Context {E : Env} {D : CtlDriver} {Cd : Codec} {Rn : Rand} {MS : MatrixSQL} {Up : Upgrader} {Sz : Stat}.

(** The handler of a route, behind its gate. *)
Definition serve (c : config) (rt : route) : handler :=
  match rt with
  | RHealthz => handleHealthz
  | RReadyz => handleReadyz c
  | RResults => bearerAuth handleResults
  | RTargets => bearerAuth handleTargets
  | RWSTicket => bearerAuth handleWSTicket
  | RWS => handleWS c
  | RAdminList => adminAuth c handleAdminListNodes
  | RAdminCreate => adminAuth c handleAdminCreateNode
  | RAdminPatch id => adminAuth c (handleAdminPatchNode id)
  | RAdminDelete id => adminAuth c (handleAdminDeleteNode id)
  | RMetrics => metricsAuth c (handleMetrics c)
  | RLogin => handleUILogin c
  | RLogout => handleUILogout
  | RDashboard => requireSession c handleUIDashboard
  | RNodes => requireSession c handleUINodes
  | RFragMatrix => requireSession c handleFragMatrix
  | RFragNew => requireSession c handleFragNewNodeForm
  | RFragCreate => requireSession c handleFragCreateNode
  | RFragDelete id => requireSession c (handleFragDeleteNode id)
  | RFragDisable id => requireSession c (handleFragDisableNode id)
  | RFragEnable id => requireSession c (handleFragEnableNode id)
  | RUIWS => handleUIWS c
  | RStatic => λ _, mret (reply StatusOK Static)
  | RMoved loc => λ _, mret (reply 301 (Redirect loc))
  | RNotAllowed => λ _, mret (reply 405 (Plain "Method Not Allowed"))
  | RNotFound => λ _, mret (reply 404 (Plain "404 page not found"))
  end.

(** [Handler]; whether metrics are mounted is fixed when the mux is built. *)
Definition Handler (c : config) (metrics_on : bool) : handler := λ r,
  serve c (find_route metrics_on r) r.

(** ** Effects on the database *)

Abbreviation same_db m := (db_moves eq m).

Lemma same_db_ret {A} (a : A) : same_db (mret a : M srv A).
Proof. by intros w. Qed.

Lemma same_db_bind {A B} (m : M srv A) (k : A → M srv B) :
  same_db m → (∀ a, same_db (k a)) → same_db (m ≫= k).
Proof. intros Hm Hk. apply moves_bind; [apply _|done|done]. Qed.

Lemma same_db_now : same_db (now : M srv Z).
Proof. by intros w. Qed.

Lemma same_db_get : same_db (get : M srv srv).
Proof. by intros w. Qed.

Lemma same_db_query {A} (f : cdb → A) : same_db (query (S := srv) f).
Proof. apply db_moves_query, _. Qed.

Lemma same_db_exec {A} (f : Z → cdb → A) : same_db (exec (S := srv) (λ t db, Ok (f t db, db))).
Proof. apply db_moves_exec; [apply _|]. by intros n d a d' [= _ <-]. Qed.

Lemma same_db_rows_Err : same_db (rows_Err (S := srv)).
Proof. by intros w. Qed.

Lemma same_db_modify (f : srv → srv) : (∀ s, s_db (f s) = s_db s) → same_db (modify f).
Proof. intros H w. cbn. by rewrite H. Qed.

Lemma same_db_with_m f : same_db (with_m f).
Proof. by apply same_db_modify. Qed.

#[local] Hint Resolve same_db_ret same_db_now same_db_get same_db_query same_db_exec same_db_rows_Err
  same_db_with_m : moves.

(** Splits a program along its binds and cases; leaves are in the database. *)
Ltac same_db :=
  repeat first
    [ solve [auto with moves]
    | apply same_db_bind
    | match goal with |- db_moves _ (match ?x with _ => _ end) => destruct x end
    | progress intros
    | apply same_db_modify; done ].

Lemma same_db_validate v : same_db (validate v).
Proof. intros w. unfold validate. by destruct (Validate _ _ _). Qed.

Lemma same_db_issue node : same_db (issue node).
Proof. intros w. unfold issue. by destruct (Issue _ _ _ _). Qed.

Lemma same_db_chrony c : same_db (chrony_check c).
Proof. intros w. unfold chrony_check. repeat case_match; done. Qed.

Lemma same_db_sum_sizes p sfx total : same_db (sum_sizes p sfx total).
Proof.
  revert total. induction sfx as [|s sfx IH]; intros total; [apply same_db_ret|].
  intros w. cbn [sum_sizes]. apply (IH _ (mkWorld (st w) (S (tick w)))).
Qed.

#[local] Hint Resolve same_db_validate same_db_issue same_db_chrony same_db_sum_sizes : moves.

Lemma same_db_handleWS c r : same_db (handleWS c r).
Proof. unfold handleWS, blocked, wsRejectAndCount, wsReject, record_failure. same_db. Qed.

Lemma same_db_handleReadyz c r : same_db (handleReadyz c r).
Proof. unfold handleReadyz, litestream_check. same_db. Qed.

Lemma same_db_handleMetrics c r : same_db (handleMetrics c r).
Proof. unfold handleMetrics, refreshMetrics, dbSize. same_db. Qed.

Lemma same_db_handleUIWS c r : same_db (handleUIWS c r).
Proof. unfold handleUIWS. same_db. Qed.

Lemma same_db_handleUILogin c r : same_db (handleUILogin c r).
Proof. unfold handleUILogin. same_db. Qed.

Lemma same_db_handleTargets n r : same_db (handleTargets n r).
Proof. unfold handleTargets, HubTargetsFor, TargetsVersion. same_db. Qed.

Lemma same_db_handleWSTicket n r : same_db (handleWSTicket n r).
Proof. unfold handleWSTicket. same_db. Qed.

(** What a node may do to the database: add results of its own and update its own
    statistics.  The rows of all other nodes stay as they are, and so do the role,
    the secret, the address and the state of the node itself. *)
Definition node_effect (n : string) (d d' : cdb) : Prop :=
  (∀ k, k ≠ n → nodes d' !! k = nodes d !! k) ∧
  node_of n <$> nodes d' !! n = node_of n <$> nodes d !! n ∧
  targets_version d' = targets_version d ∧
  ∃ rows, results d' = (results d ++ rows)%list ∧ Forall (λ r, r_source_id r = n) rows.

Lemma only_stats_effect n d d' : only_stats n d d' → node_effect n d d'.
Proof.
  intros (Hr & _ & Hv & Hk & Hn). split; [done|]. split; [done|]. split; [done|]. exists []. by rewrite Hr, app_nil_r.
Qed.

Lemma ingested_effect n req d d1 d' :
  SourceID req = n → ingested req (Results req) d d1 → only_stats n d1 d' → node_effect n d d'.
Proof.
  intros Hn Hi (Hr & _ & Hv & Hk & Ho). split; [intros k Hkn; by rewrite Ho, (ing_nodes _ _ _ _ Hi)|].
  split; [by rewrite Hk, (ing_nodes _ _ _ _ Hi)|].
  split; [by rewrite Hv, (ing_version _ _ _ _ Hi)|].
  destruct (ing_rows _ _ _ _ Hi) as (rows & Hrows & HS). exists rows. rewrite Hr, Hrows. split; [done|].
  apply Forall_forall. intros row Hrow. destruct (Forall2_elem_r _ _ _ _ HS Hrow) as (o & _ & Hst).
  by rewrite <- Hn; apply Hst.
Qed.

Lemma handleResults_effect node r (w : world srv) :
  node_effect (ID node) (s_db (st w)) (s_db (st (handleResults node r w).2)).
Proof.
  unfold handleResults. unfold_M. destruct (now w) as [start w0] eqn:Hw0.
  assert (Hs0 : st w0 = st w) by (unfold now in Hw0; by injection Hw0 as <- <-). rewrite <- Hs0.
  destruct (decode_results (Body r)) as [req|e].
  2: { pose proof (keeps_observe (ID node) StatusUnprocessableEntity start w0) as Hk.
       destruct (observeIngest _ _ _ w0) as [u w1]. by apply only_stats_effect. }
  destruct (validateResultsRequest (ID node) req) as [e|] eqn:Hv.
  { pose proof (keeps_observe (ID node) StatusUnprocessableEntity start w0) as Hk.
    destruct (observeIngest _ _ _ w0) as [u w1]. by apply only_stats_effect. }
  apply validateResultsRequest_ok in Hv as (Hsrc & _).
  pose proof (persistResults_cases req w0) as Hp. destruct (persistResults req w0) as [p w1].
  destruct Hp as [(-> & d1 & Hi & Hst)|[(-> & Hst & _)|(e & -> & Hst & _)]].
  - pose proof (keeps_finish (ID node) req StatusCreated start w1) as Hk. rewrite Hst in Hk.
    by eapply ingested_effect.
  - pose proof (keeps_finish (ID node) req StatusConflict start w1) as Hk. rewrite Hst in Hk.
    by apply only_stats_effect.
  - pose proof (keeps_observe (ID node) StatusInternalServerError start w1) as Hk. rewrite Hst in Hk.
    destruct (observeIngest _ _ _ w1) as [u w2]. by apply only_stats_effect.
Qed.

(** The three ways a request can relate to the database. *)
Definition authorized (c : config) (r : request) (d d' : cdb) : Prop :=
  d' = d ∨ (admin_credentials c r ∨ session_credentials c r) ∨
  (∃ node, node_credentials d r node ∧ node_effect (ID node) d d').

Lemma authorized_same c r (h : handler) (w : world srv) :
  same_db (h r) → authorized c r (s_db (st w)) (s_db (st (h r w).2)).
Proof. intros H. left. symmetry. apply H. Qed.

Lemma authorized_admin c r next (w : world srv) :
  authorized c r (s_db (st w)) (s_db (st (adminAuth c next r w).2)).
Proof.
  destruct (adminAuth_cases c next r w) as [[H _]|[_ (resp & -> & _)]]; [right; left; by left|by left].
Qed.

Lemma authorized_session c r next (w : world srv) :
  adminToken c ≠ "" → authorized c r (s_db (st w)) (s_db (st (requireSession c next r w).2)).
Proof.
  intros Ht. destruct (requireSession_cases c next r w) as [[H _]|[_ ->]]; [right; left; by right|by left].
Qed.

Lemma authorized_bearer c r next (w : world srv) :
  (∀ node (w : world srv), node_effect (ID node) (s_db (st w)) (s_db (st (next node r w).2))) →
  authorized c r (s_db (st w)) (s_db (st (bearerAuth next r w).2)).
Proof.
  intros Hn. destruct (bearerAuth_cases next r w) as [(node & w1 & Hc & Hst & _ & ->)|(resp & w1 & -> & Hst & _)].
  - right. right. exists node. split; [done|]. rewrite <- Hst. apply Hn.
  - left. cbn. by rewrite Hst.
Qed.

(** C9. Authorization: when an operator token is configured, then for every request
    to the whole server, whatever route, method and body, and whatever the
    environment does: the database is unchanged, or the request carries the
    operator's token (as a bearer token or session cookie), or it carries the id and
    secret of a registered node and then its only effects are new results of that
    node and the statistics in that node's own row; the rows of all other nodes, its
    own credentials, role and address, and the targets version stay as they were.
    (Without a token the session gate is open: [empty_token_session].) *)
Theorem Handler_authorized c metrics_on r (w : world srv) :
  adminToken c ≠ "" →
  authorized c r (s_db (st w)) (s_db (st (Handler c metrics_on r w).2)).
Proof.
  intros Ht. unfold Handler. destruct (find_route metrics_on r); cbn [serve];
    try apply authorized_admin; try by apply authorized_session.
  - apply (authorized_same c r handleHealthz). apply same_db_ret.
  - apply (authorized_same c r (handleReadyz c)). apply same_db_handleReadyz.
  - apply authorized_bearer. intros. apply handleResults_effect.
  - apply authorized_bearer. intros node u.
    pose proof (same_db_handleTargets node r u) as H. cbn in H. rewrite <- H. apply only_stats_effect. reflexivity.
  - apply authorized_bearer. intros node u.
    pose proof (same_db_handleWSTicket node r u) as H. cbn in H. rewrite <- H. apply only_stats_effect. reflexivity.
  - apply (authorized_same c r (handleWS c)). apply same_db_handleWS.
  - apply (authorized_same c r (metricsAuth c (handleMetrics c))). intros u.
    destruct (metricsAuth_cases c (handleMetrics c) r u) as [[_ ->]|(resp & -> & _)];
      [apply same_db_handleMetrics|done].
  - apply (authorized_same c r (handleUILogin c)). apply same_db_handleUILogin.
  - apply (authorized_same c r handleUILogout). apply same_db_ret.
  - apply (authorized_same c r (handleUIWS c)). apply same_db_handleUIWS.
  - by left.
  - by left.
  - by left.
  - by left.
Qed.

(** C38. Without an admin token the operator's API refuses every request, but the
    session gate of the web UI does not: a request with an empty session cookie
    passes it, to every page and every change the UI can make. *)
Theorem empty_token_session c :
  adminToken c = "" →
  (∀ next r (w : world srv), (adminAuth c next r w).1 = writeJSONError 503 "admin api disabled (NLM_ADMIN_TOKEN not set)") ∧
  (∀ next r (w : world srv), Cookie r = Some "" → requireSession c next r w = next r w).
Proof.
  intros Ht. split.
  - intros next r w. unfold adminAuth. by rewrite bool_decide_eq_true_2.
  - intros next r w Hc. unfold requireSession, session_ok. by rewrite Hc, Ht.
Qed.
End Mux.

(** ** Witnesses *)

Definition no_admin : config := mkConfig "" None zero_float 0 "" "" [].

Lemma empty_token_session_witness :
  @requireSession no_admin handleUILogout (mkReq "GET" "/ui/" ∅ "" "" false (Some "") ∅ ∅ "") example_start
  = handleUILogout (mkReq "GET" "/ui/" ∅ "" "" false (Some "") ∅ ∅ "") example_start.
Proof. by apply (empty_token_session no_admin). Defined.
