(* ===== verification/HandlersFacts.v ===== *)
(** * Correctness of the other handlers

    The invariant of the controller database is kept by every request; secrets
    handed out by the administration API authenticate; a WebSocket upgrade costs a
    valid ticket; readiness is the conjunction of its gates. *)
From Stdlib Require Import Ascii ZArith Lia SpecFloat.
From S2P Require Import Prelude GoTime GoStrings Base64 Ticket RateLimit Litestream Sha256 ControllerDB Nodes Http Ui Server Results ResultsFacts Handlers Routes.

Local Open Scope string_scope.
Local Open Scope Z_scope.

(** ** The invariant of the database *)

Record wf_cdb (db : cdb) : Prop := {
  wf_keys : NoDup (result_key <$> results db);
  wf_sources : Forall (λ r, is_Some (nodes db !! r_source_id r)) (results db);
  wf_roles : map_Forall (λ _ r, valid_role (n_role r) = true) (nodes db);
}.

Lemma migrated_wf_cdb : wf_cdb ControllerDB.migrated.
Proof. split; [constructor|constructor|apply map_Forall_empty]. Qed.

Lemma wf_insert_node id row db v :
  valid_role (n_role row) = true → wf_cdb db →
  wf_cdb (CDB (<[id := row]> (nodes db)) (results db) (r_autoinc db) v).
Proof.
  intros Hr [Hk Hs Hro]. split; cbn; [done| |by apply map_Forall_insert_2].
  eapply Forall_impl; [exact Hs|]. cbn. intros r [x Hx].
  destruct (decide (id = r_source_id r)) as [->|]; [rewrite lookup_insert_eq|rewrite lookup_insert_ne by done]; eauto.
Qed.

(** ** What requests can do to the database

    The handlers change the database through two methods of the registry and
    through ingest.  A preorder on databases that those respect is respected by
    the whole server. *)
Section Generic.
Context {E : Env} {D : CtlDriver} {Cd : Codec} {Rn : Rand} {MS : MatrixSQL} {Up : Upgrader} {Sz : Stat}.
Context (R : relation cdb) `{!PreOrder R}.

Abbreviation safe m := (db_moves R m).

Lemma same_db_safe {A} (m : M srv A) : db_moves eq m → safe m.
Proof. intros H w. specialize (H w). cbn in *. rewrite <- H. reflexivity. Qed.

Lemma safe_bind {A B} (m : M srv A) (k : A → M srv B) : safe m → (∀ a, safe (k a)) → safe (m ≫= k).
Proof. intros Hm Hk. apply moves_bind; [apply _|done|done]. Qed.

Lemma safe_ret {A} (a : A) : safe (mret a : M srv A).
Proof. apply same_db_safe, same_db_ret. Qed.

Lemma safe_Get id : safe (Get id : M srv _).
Proof. apply safe_bind; [apply same_db_safe, same_db_query|]. intros a. apply safe_ret. Qed.

Context (safe_Upsert : ∀ n, safe (Upsert n : M srv _)) (safe_Delete : ∀ id, safe (Delete id : M srv _)).

Lemma safe_List : safe (List_ : M srv _).
Proof.
  apply safe_bind; [apply same_db_safe, same_db_query|]. intros [l|e]; [|apply safe_ret].
  apply safe_bind; [apply same_db_safe, same_db_rows_Err|intros; apply safe_ret].
Qed.

Lemma safe_mint g : safe (secret_or_mint g).
Proof. unfold secret_or_mint. case_bool_decide; [by intros w|apply safe_ret]. Qed.

Lemma safe_exec_read {A} (f : Z → cdb → A) : safe (exec (S := srv) (λ t db, Ok (f t db, db))).
Proof. apply same_db_safe, same_db_exec. Qed.

Lemma safe_rows_Err : safe (rows_Err (S := srv)).
Proof. apply same_db_safe, same_db_rows_Err. Qed.

#[local] Hint Resolve safe_ret safe_Get safe_Upsert safe_Delete safe_List safe_mint safe_exec_read safe_rows_Err : moves.

Ltac safe_handler :=
  repeat first
    [ solve [auto with moves]
    | apply safe_bind
    | match goal with |- db_moves _ (match ?x with _ => _ end) => destruct x end
    | progress intros ].

Lemma safe_gate_admin c next r : (∀ r, safe (next r)) → safe (adminAuth c next r).
Proof.
  intros H w. destruct (adminAuth_cases c next r w) as [[_ ->]|[_ (resp & -> & _)]]; [apply H|reflexivity].
Qed.

Lemma safe_gate_session c next r : (∀ r, safe (next r)) → safe (requireSession c next r).
Proof. intros H w. destruct (requireSession_cases c next r w) as [[_ ->]|[_ ->]]; [apply H|reflexivity]. Qed.

Lemma safe_gate_bearer next r :
  (∀ n, ID n = Header_Get r "X-Nlm-Node-Id" → safe (next n r)) → safe (bearerAuth next r).
Proof.
  intros H w. destruct (bearerAuth_cases next r w) as [(node & w1 & Hc & Hst & _ & ->)|(resp & w1 & -> & Hst & _)].
  - cbn. rewrite <- Hst. apply H. by destruct Hc as (row & tok & _ & -> & _).
  - cbn. rewrite Hst. reflexivity.
Qed.

Lemma safe_queryMatrix : safe queryMatrix.
Proof. unfold queryMatrix. safe_handler. Qed.

#[local] Hint Resolve safe_queryMatrix : moves.

Lemma Handler_methods c metrics_on r :
  (∀ node, ID node = Header_Get r "X-Nlm-Node-Id" → safe (handleResults node r)) →
  safe (Handler c metrics_on r).
Proof.
  intros Hres. unfold Handler.
  destruct (find_route metrics_on r); cbn [serve];
    try (apply safe_gate_admin; intros; unfold handleAdminListNodes, handleAdminCreateNode, handleAdminPatchNode,
           handleAdminDeleteNode; safe_handler);
    try (apply safe_gate_session; intros; unfold handleUIDashboard, handleUINodes, handleFragMatrix,
           handleFragNewNodeForm, handleFragCreateNode, handleFragDeleteNode, handleFragDisableNode,
           handleFragEnableNode, patchDisabled, listNodeInfos; safe_handler);
    try (apply safe_ret).
  - apply same_db_safe, same_db_handleReadyz.
  - by apply safe_gate_bearer.
  - apply safe_gate_bearer. intros. apply same_db_safe, same_db_handleTargets.
  - apply safe_gate_bearer. intros. apply same_db_safe, same_db_handleWSTicket.
  - apply same_db_safe, same_db_handleWS.
  - intros u. destruct (metricsAuth_cases c (handleMetrics c) r u) as [[_ ->]|(resp & -> & _)]; [|reflexivity].
    apply (same_db_safe _ (same_db_handleMetrics c r)).
  - apply same_db_safe, same_db_handleUILogin.
  - apply same_db_safe, same_db_handleUIWS.
Qed.
End Generic.

(** The same from the statements: what each of them respects, the methods do,
    whatever fails in between. *)
Section Statements.
Context {E : Env} {D : CtlDriver} {Cd : Codec} {Rn : Rand} {MS : MatrixSQL} {Up : Upgrader} {Sz : Stat}.
Context (R : relation cdb) `{!PreOrder R}.
Context (R_upsert : ∀ id role hash addr dis t d u d', sql_upsert id role hash addr dis t d = Ok (u, d') → R d d').
Context (R_delete : ∀ id d n d', sql_delete_node id d = Ok (n, d') → R d d').
Context (R_bump : ∀ d, R d (sql_bump d)).

Abbreviation safe m := (db_moves R m).
Abbreviation safe_bind := (safe_bind R).
Abbreviation safe_ret := (safe_ret R).
Abbreviation safe_Get := (safe_Get R).

Lemma safe_bump : safe (bumpTargetsVersion : M srv _).
Proof.
  apply safe_bind; [|intros a; apply safe_ret]. apply db_moves_exec; [apply _|].
  intros t d a d' [= _ <-]. apply R_bump.
Qed.

Lemma safe_Upsert n : safe (Upsert n : M srv _).
Proof.
  apply safe_bind. { apply safe_bind; [apply safe_Get|]. intros a. apply safe_ret. }
  intros [[prior miss]|e]; [|apply safe_ret]. apply safe_bind.
  - apply safe_bind; [|intros a; apply safe_ret]. apply db_moves_exec; [apply _|]. intros t d a d'. apply R_upsert.
  - intros [e|]; [apply safe_ret|]. apply safe_bind; [|intros; apply safe_ret].
    unfold upsert_bump. destruct (hubSetChanged _ _ _); [|apply safe_ret].
    apply safe_bind; [apply safe_bump|intros; apply safe_ret].
Qed.

Lemma safe_Delete id : safe (Delete id : M srv _).
Proof.
  apply safe_bind; [apply safe_Get|]. intros [prior|e]; [|apply safe_ret]. apply safe_bind.
  - apply db_moves_exec; [apply _|]. intros t d a d'. apply R_delete.
  - intros [a|e]; [|apply safe_ret]. apply safe_bind; [apply moves_RowsAffected, _|].
    intros [n|e]; [|apply safe_ret]. destruct (n =? 0); [apply safe_ret|].
    destruct (_ && _); [|apply safe_ret]. apply safe_bind; [apply safe_bump|intros; apply safe_ret].
Qed.

Lemma Handler_moves c metrics_on r :
  (∀ node, ID node = Header_Get r "X-Nlm-Node-Id" → safe (handleResults node r)) →
  safe (Handler c metrics_on r).
Proof. apply Handler_methods; [apply _|apply safe_Upsert|apply safe_Delete]. Qed.
End Statements.

Section Invariant.
Context {E : Env} {D : CtlDriver} {Cd : Codec} {Rn : Rand} {MS : MatrixSQL} {Up : Upgrader} {Sz : Stat}.

Abbreviation wf_step := (λ d d', wf_cdb d → wf_cdb d').

Lemma only_stats_wf n d d' : only_stats n d d' → wf_cdb d → wf_cdb d'.
Proof.
  intros (Hr & _ & _ & Hk & _) [H1 H2 H3].
  assert (Hrow : ∀ k r', nodes d' !! k = Some r' → ∃ r, nodes d !! k = Some r ∧ n_role r' = n_role r).
  { intros k r' Hr'. specialize (Hk k). rewrite Hr' in Hk. destruct (nodes d !! k) as [r|]; [|done].
    cbn in Hk. injection Hk as Hrole _ _ _. eauto. }
  split.
  - by rewrite Hr.
  - rewrite Hr. eapply Forall_impl; [exact H2|]. cbn. intros r [x Hx].
    specialize (Hk (r_source_id r)). rewrite Hx in Hk. destruct (nodes d' !! r_source_id r); [eauto|done].
  - intros k r' Hr'. destruct (Hrow _ _ Hr') as (r & Hn & ->). by apply (H3 k).
Qed.

Lemma ingested_wf req d d' : ingested req (Results req) d d' → wf_cdb d → wf_cdb d'.
Proof.
  intros Hi [H1 H2 H3]. split.
  - by apply (ing_nodup _ _ _ _ Hi).
  - destruct (ing_rows _ _ _ _ Hi) as (rows & -> & HS). rewrite (ing_nodes _ _ _ _ Hi). apply Forall_app.
    split; [done|]. apply Forall_forall. intros row Hrow.
    destruct (Forall2_elem_r _ _ _ _ HS Hrow) as (o & Ho & (-> & _)).
    apply (ing_source _ _ _ _ Hi). intros Hn. rewrite Hn in Ho. by apply not_elem_of_nil in Ho.
  - by rewrite (ing_nodes _ _ _ _ Hi).
Qed.

Lemma wf_handleResults node r : db_moves wf_step (handleResults node r).
Proof.
  intros w. unfold handleResults. unfold_M. destruct (now w) as [start w0] eqn:Hw0.
  assert (Hs0 : st w0 = st w) by (unfold now in Hw0; by injection Hw0 as <- <-). cbn. rewrite <- Hs0.
  assert (Hob : ∀ st0 u p, wf_cdb (s_db (st u)) →
    wf_cdb (s_db (st (let '(_, w') := observeIngest (ID node) st0 start u in (p : response, w')).2))).
  { intros st0 u p. pose proof (keeps_observe (ID node) st0 start u) as Hk.
    destruct (observeIngest _ _ _ u). by eapply only_stats_wf. }
  destruct (decode_results (Body r)) as [req|e]; [|apply Hob].
  destruct (validateResultsRequest _ _); [apply Hob|].
  pose proof (persistResults_cases req w0) as H. destruct (persistResults req w0) as [p w1].
  destruct H as [(-> & d1 & Hi & Hst)|[(-> & Hst & _)|(e & -> & Hst & _)]]; intros Hw;
    [| |apply Hob; by rewrite Hst]; (eapply only_stats_wf; [apply keeps_finish|]); cbn; rewrite Hst; [|done].
  by apply (ingested_wf req _ _ Hi).
Qed.

Lemma wf_Handler c metrics_on r : db_moves wf_step (Handler c metrics_on r).
Proof.
  apply Handler_moves; [apply _| | | |intros; apply wf_handleResults].
  - intros id role hash addr dis t d u d'. unfold sql_upsert.
    destruct (valid_role role) eqn:Hr; cbn [negb]; [|done]. intros [= _ <-]. apply wf_insert_node.
    by destruct (nodes d !! id).
  - intros id d n d'. unfold sql_delete_node. destruct (nodes d !! id) eqn:Hn; [|by intros [= _ <-]].
    case_bool_decide as Hin; [done|]. intros [= _ <-] [Hk Hs Hr]. split; cbn; [done| |by apply map_Forall_delete].
    rewrite Forall_forall in *. intros r' Hx. rewrite lookup_delete_ne; [by apply Hs|].
    intros ->. apply Hin. by apply list_elem_of_fmap_2.
  - intros d [Hk Hs Hr]. by split.
Qed.

(** The results of a request: rows are only ever added, and all of them belong to
    the node the request names. *)
Definition appends (id : string) (d d' : cdb) : Prop :=
  ∃ rows, results d' = (results d ++ rows)%list ∧ Forall (λ row, r_source_id row = id) rows.

#[export] Instance appends_preorder id : PreOrder (appends id).
Proof.
  split; [intros d; exists []; by rewrite app_nil_r|].
  intros d1 d2 d3 (r1 & H1 & F1) (r2 & H2 & F2). exists (r1 ++ r2)%list.
  rewrite H2, H1, <- (assoc_L app). split; [done|]. by apply Forall_app.
Qed.

Lemma appends_same id d d' : results d' = results d → appends id d d'.
Proof. intros H. exists []. by rewrite app_nil_r, H. Qed.

Lemma Handler_appends c metrics_on r :
  db_moves (appends (Header_Get r "X-Nlm-Node-Id")) (Handler c metrics_on r).
Proof.
  apply Handler_moves; [apply _| | | |].
  - intros id role hash addr dis t d u d'. unfold sql_upsert. destruct (negb _); [done|].
    intros [= _ <-]. by apply appends_same.
  - intros id d n d'. unfold sql_delete_node. destruct (nodes d !! id); [|intros [= _ <-]; by apply appends_same].
    case_bool_decide; [done|]. intros [= _ <-]. by apply appends_same.
  - intros d. by apply appends_same.
  - intros node Hid w. destruct (handleResults_effect node r w) as (_ & _ & _ & H). by rewrite <- Hid.
Qed.

(** C10. The invariant of the controller database holds in every state the server
    reaches: whatever request it serves and whatever fails meanwhile, no two
    stored results share source, run and target, every stored result belongs to a
    registered node, and every node has one of the three roles. *)
Theorem Handler_keeps_invariant c metrics_on r (w : world srv) :
  wf_cdb (s_db (st w)) → wf_cdb (s_db (st (Handler c metrics_on r w).2)).
Proof. apply wf_Handler. Qed.
End Invariant.

(** ** Secrets handed out authenticate *)

Definition no_space (s : string) : Prop := Forall (λ c, is_space c = false) (String.list_ascii_of_string s).

Lemma TrimSpace_no_space s : no_space s → TrimSpace s = s.
Proof.
  intros H. assert (HL : TrimLeft s = s) by (destruct s; [done|]; cbn; apply Forall_cons in H as [-> _]; done).
  unfold TrimSpace. rewrite HL. clear HL. induction s as [|c s IH]; [done|].
  apply Forall_cons in H as [Hc Hs]. cbn. rewrite (IH Hs). by destruct s; rewrite ?Hc.
Qed.

Lemma b64_char_no_space n : 0 <= n < 64 → is_space (b64_char n) = false.
Proof.
  intros Hn. assert (H : Forall (λ k, is_space (b64_char (Z.of_nat k)) = false) (seq 0 64)) by by_decide.
  rewrite Forall_forall in H. specialize (H (Z.to_nat n)). rewrite Z2Nat.id in H by lia.
  apply H. apply elem_of_seq. lia.
Qed.

Lemma b64_encode_no_space l : Forall is_byte l → no_space (b64_encode l).
Proof.
  unfold no_space, is_byte.
  induction l as [|a|a b|a b c l IH] using list_ind3; intros H; rewrite ?Forall_cons in H; destruct_and?;
    cbn [b64_encode String.list_ascii_of_string]; rewrite ?Forall_cons; repeat split; try done;
    try (apply b64_char_no_space; div_lia). by apply IH.
Qed.

Lemma parseBearer_bearer s : s ≠ "" → parseBearer ("Bearer " ++ s) = Ok (TrimSpace s).
Proof. intros Hs. apply parseBearer_Ok. by exists "Bearer ", s. Qed.

Section Create.
Context {E : Env} {D : CtlDriver} {Cd : Codec} {Rn : Rand}.

(** A registration that was acknowledged. *)
Lemma create_run r (w : world srv) n secret :
  fault_free E → body (handleAdminCreateNode r w).1 = JCreated n secret →
  ∃ req, decode_create (Body r) = Ok req ∧ nodes (s_db (st w)) !! ac_ID req = None ∧ ac_ID req ≠ "" ∧
    an_ID n = ac_ID req ∧
    (ac_Secret req ≠ "" ∧ secret = ac_Secret req ∨
     ac_Secret req = "" ∧ ∃ k buf, rand_Read k = Ok buf ∧ secret = b64_encode buf) ∧
    ∃ row, nodes (s_db (st (handleAdminCreateNode r w).2)) !! ac_ID req = Some row ∧
      node_of (ac_ID req) row = mkNode (ac_ID req) (ac_Role req) (HashSecret secret) (ac_Address req) (ac_Disabled req).
Proof.
  intros Hff. unfold handleAdminCreateNode. destruct (decode_create (Body r)) as [req|]; [|done].
  unfold validateAdminNodeFields. case_bool_decide as Hid; [done|].
  destruct (negb (valid_role (ac_Role req))) eqn:Hrole; [done|]. apply negb_false_iff in Hrole.
  destruct (_ && _); [done|]. unfold_M.
  destruct (gives_Get Hff (ac_ID req) w) as [HG HGdb]. destruct (Get (ac_ID req) w) as [g w1]. cbn in HG, HGdb.
  subst g. unfold found. destruct (nodes (s_db (st w)) !! ac_ID req) eqn:Hn; [done|].
  rewrite errors_Is_refl. cbn [negb].
  assert (HS : let '(s, w2) := secret_or_mint (ac_Secret req) w1 in
    the_db (st w2) = the_db (st w1) ∧ (∀ sec, s = Ok sec →
      ac_Secret req ≠ "" ∧ sec = ac_Secret req ∨
      ac_Secret req = "" ∧ ∃ k buf, rand_Read k = Ok buf ∧ sec = b64_encode buf)).
  { unfold secret_or_mint, mintSecret. case_bool_decide as Hs; cbn; (split; [done|]); intros sec Hsec.
    - right. split; [done|]. destruct (rand_Read (tick w1)) as [buf|] eqn:Hr; [|done].
      injection Hsec as <-. eauto.
    - left. by injection Hsec as <-. }
  destruct (secret_or_mint (ac_Secret req) w1) as [[sec|] w2]; [|done]. destruct HS as [Hdb HS].
  set (node := mkNode _ _ _ _ _). pose proof (gives_Upsert Hff node w2) as HU.
  change (Role node) with (ac_Role req) in HU. rewrite Hrole in HU. destruct HU as (t & HU & HUdb).
  destruct (Upsert node w2) as [u w3]. cbn in HU, HUdb. subst u. cbn. intros [= <- <-].
  exists req. split; [done|]. split; [done|]. split; [done|]. split; [done|]. split; [by apply HS|].
  exists (upsert_row node t (nodes (s_db (st w2)) !! ac_ID req)). split.
  - rewrite HUdb. destruct (changes_hubs _ _); cbn; by rewrite lookup_insert_eq.
  - apply (node_of_upsert_row node).
Qed.

(** C34. Registration hands out a working credential: when creating a node is
    acknowledged, the node did not exist before, and a request that presents the
    id and the returned secret has the node's credentials exactly if trimming
    white space does not change the secret's hash; a secret the controller minted
    always works.  (A secret supplied with surrounding blanks never does, short of
    a hash collision, because the bearer token is trimmed and the stored secret is
    not.) *)
Theorem created_secret_works r (w : world srv) n secret r' :
  fault_free E → (∀ k buf, rand_Read k = Ok buf → Forall is_byte buf ∧ buf ≠ []) →
  body (handleAdminCreateNode r w).1 = JCreated n secret →
  Header_Get r' "X-Nlm-Node-Id" = an_ID n → Header_Get r' "Authorization" = "Bearer " ++ secret →
  let d' := s_db (st (handleAdminCreateNode r w).2) in
  nodes (s_db (st w)) !! an_ID n = None ∧
  ((∃ node, node_credentials d' r' node) ↔ HashSecret (TrimSpace secret) = HashSecret secret) ∧
  ((∃ req, decode_create (Body r) = Ok req ∧ ac_Secret req = "") → ∃ node, node_credentials d' r' node).
Proof.
  intros Hff Hrand Hb Hid Hauth. cbn zeta.
  destruct (create_run r w n secret Hff Hb) as (req & Hdec & Hnone & Hne & Hn & Hsec & row & Hrow & Hnode).
  rewrite Hn in *. split; [done|].
  assert (Hs : secret ≠ "").
  { destruct Hsec as [[? ->]|(_ & k & buf & Hr & ->)]; [done|].
    destruct (Hrand _ _ Hr) as [_ Hb0]. by destruct buf as [|a [|b [|c0 l]]]. }
  assert (Hiff : (∃ node, node_credentials (s_db (st (handleAdminCreateNode r w).2)) r' node) ↔
                 HashSecret (TrimSpace secret) = HashSecret secret).
  { assert (Hv : VerifySecret (node_of (ac_ID req) row) (TrimSpace secret) = true ↔
                 HashSecret (TrimSpace secret) = HashSecret secret).
    { rewrite VerifySecret_hash, Hnode. cbn [SecretHash]. rewrite ToLower_HashSecret. split; by intros ->. }
    rewrite <- Hv. unfold node_credentials. rewrite Hid, Hauth, Hrow, (parseBearer_bearer _ Hs). split.
    - intros (node & row' & tok & [= <-] & -> & _ & [= <-] & HV). done.
    - intros HV. exists (node_of (ac_ID req) row), row, (TrimSpace secret). done. }
  split; [done|]. intros (req' & Hd' & He). rewrite Hdec in Hd'. injection Hd' as <-.
  apply Hiff. destruct Hsec as [[? _]|(_ & k & buf & Hr & ->)]; [done|].
  rewrite TrimSpace_no_space; [done|]. apply b64_encode_no_space. by destruct (Hrand _ _ Hr).
Qed.
End Create.

(** ** Readiness *)

Section Ready.
Context {E : Env}.

(** C32. Readiness is the conjunction of its gates: 200 exactly when chrony is
    configured, answers, and its drift is not above a positive limit, and
    Litestream, when configured, is healthy at that moment; 503 otherwise.  A
    drift that is not a number is never above the limit, so it passes the gate. *)
Theorem handleReadyz_iff c r (w : world srv) :
  let resp := (handleReadyz c r w).1 in
  let replicated := match s_litestream (st w) with
                    | None => True
                    | Some t => Healthy (clock (S (S (tick w)))) (maxLag c) t = true
                    end in
  (code resp = 200 ↔
     (∃ q drift, chrony c = Some q ∧ q (tick w) = Ok drift ∧
        ¬ (SFltb zero_float (maxDriftMS c) = true ∧ SFltb (maxDriftMS c) drift = true)) ∧ replicated) ∧
  (code resp = 200 ∨ code resp = 503) ∧
  (∀ q, chrony c = Some q → q (tick w) = Ok S754_nan → replicated → code resp = 200).
Proof.
  cbn zeta.
  assert (Hls : ∀ w1 : world srv, s_litestream (st w1) = s_litestream (st w) →
    (litestream_check c w1).1 =
      match s_litestream (st w) with
      | None => None
      | Some t => Some (Healthy (clock (S (tick w1))) (maxLag c) t)
      end).
  { intros w1 H. unfold litestream_check, get. unfold_M. cbn. rewrite H. by destruct (s_litestream (st w)). }
  unfold handleReadyz. unfold_M. unfold chrony_check.
  destruct (chrony c) as [q|] eqn:Hq.
  2: { destruct (litestream_check c w) as [ls w2]. cbn. split; [|split; [by right|done]].
       split; [done|]. intros [(q & d & ? & _) _]. done. }
  assert (Hgo : ∀ ch (w1 : world srv), s_litestream (st w1) = s_litestream (st w) → tick w1 = S (tick w) →
    code ((let '(ls, w2) := litestream_check c w1 in
           (if ch && default true ls then λ w, (reply StatusOK (JReady "ok" (mkReadiness ch ls)), w)
            else λ w, (reply StatusServiceUnavailable (JReady "degraded" (mkReadiness ch ls)), w)) w2).1) =
    if ch && match s_litestream (st w) with None => true
             | Some t => Healthy (clock (S (S (tick w)))) (maxLag c) t end then 200 else 503).
  { intros ch w1 H1 H2. specialize (Hls w1 H1). rewrite H2 in Hls.
    destruct (litestream_check c w1) as [ls w2]. cbn in Hls. subst ls.
    destruct (s_litestream (st w)); cbn; by destruct (ch && _). }
  destruct (q (tick w)) as [drift|e] eqn:Hd.
  2: { rewrite Hgo by done. cbn. split; [|split; [by right|]]; [split; [done|]|].
       - intros [(q' & d & [= <-] & ? & _) _]. congruence.
       - intros q' [= <-] ?. congruence. }
  destruct (SFltb zero_float (maxDriftMS c) && SFltb (maxDriftMS c) drift) eqn:Hdrift.
  - rewrite Hgo by done. cbn. apply andb_prop in Hdrift as [H1 H2].
    split; [|split; [by right|]]; [split; [done|]|].
    + intros [(q' & d & [= <-] & Hd' & Hn) _]. destruct Hn. assert (d = drift) as -> by congruence. done.
    + intros q' [= <-] Hd'. assert (drift = S754_nan) as -> by congruence. exfalso.
      by destruct (maxDriftMS c).
  - rewrite Hgo; [|by destruct (s_metrics (st w))|done]. cbn [andb].
    assert (Hok : ∃ q0 d, Some q = Some q0 ∧ q0 (tick w) = Ok d ∧
      ¬ (SFltb zero_float (maxDriftMS c) = true ∧ SFltb (maxDriftMS c) d = true)).
    { exists q, drift. split; [done|]. split; [done|]. intros [H1 H2]. by rewrite H1, H2 in Hdrift. }
    destruct (s_litestream (st w)) as [t|]; [|split; [by split|by split; [left|]]].
    destruct (Healthy _ _ t); [split; [by split|by split; [left|]]|]. split; [|split; [by right|by intros]]. split; [done|]. by intros [_ ?].
Qed.
End Ready.

(** ** WebSocket upgrades *)

Section WebSocket.
Context {E : Env} {Up : Upgrader}.

Definition limiter_blocks (t : Z) (ip : string) (s : srv) : bool :=
  match s_wsRateLimit s with Some l => Blocked t ip l | None => false end.

Definition counted (t : Z) (ip : string) (l : option RateLimiter) : option RateLimiter :=
  (λ l, (RecordFailure t ip l).2) <$> l.

(** The label of a ticket that is not accepted. *)
Definition reject_reason (e : err) : string := if errors_Is e ErrExpiredTicket then "expired" else "unknown".

(** C16. What an upgrade takes, and what an attempt costs.  A connection is
    upgraded for node [n] exactly when its address is not blocked, it presents a
    ticket the store validates for [n] at that instant, and the handshake and the
    origin are accepted.  An attempt from a blocked address touches neither the
    tickets nor the failure count of the address; it shows only as a rejection in
    the metrics, labelled ratelimit.  An attempt with no ticket or one that does
    not validate is a rejection in the metrics, labelled by its reason, and counts
    as one failure of its address.  A ticket that validates is spent and counted as
    used even when the upgrade is then refused, and such a refusal is neither a
    rejection nor a failure of the address. *)
Theorem handleWS_contract c r (w : world srv) :
  let '(resp, w') := handleWS c r w in
  let ip := clientIP r in
  let tk := Query_Get r "ticket" in
  let barred := limiter_blocks (clock (tick w)) ip (st w) in
  let checked := Validate (clock (S (tick w))) tk (s_tickets (st w)) in
  (∀ n, body resp = Upgraded n ↔
     barred = false ∧ tk ≠ "" ∧ checked.1 = Ok n ∧ bad_handshake r = None ∧
     checkWSOrigin (wsAllowedOrigins c) r = true) ∧
  (barred = true → code resp = 429 ∧ s_tickets (st w') = s_tickets (st w) ∧
                   s_wsRateLimit (st w') = s_wsRateLimit (st w) ∧
                   s_metrics (st w') = add_rejected "ratelimit" <$> s_metrics (st w)) ∧
  (barred = false → tk = "" → code resp = 401 ∧ s_tickets (st w') = s_tickets (st w) ∧
     s_wsRateLimit (st w') = counted (clock (S (tick w))) ip (s_wsRateLimit (st w)) ∧
     s_metrics (st w') = add_rejected "unknown" <$> s_metrics (st w)) ∧
  (barred = false → tk ≠ "" → s_tickets (st w') = checked.2 ∧
     (∀ e, checked.1 = Err e → code resp = 401 ∧
        s_wsRateLimit (st w') = counted (clock (S (S (tick w)))) ip (s_wsRateLimit (st w)) ∧
        s_metrics (st w') = add_rejected (reject_reason e) <$> s_metrics (st w)) ∧
     (∀ n, checked.1 = Ok n → s_wsRateLimit (st w') = s_wsRateLimit (st w) ∧
        (body resp = Upgraded n → s_metrics (st w') = (λ m, add_active 1 (add_used m)) <$> s_metrics (st w)) ∧
        (body resp ≠ Upgraded n → s_metrics (st w') = add_used <$> s_metrics (st w)))).
Proof.
  unfold handleWS, blocked, get. unfold_M. cbn [st tick now fst snd]. unfold now. cbn [st tick].
  fold (limiter_blocks (clock (tick w)) (clientIP r) (st w)).
  destruct (limiter_blocks _ _ _) eqn:Hb.
  { unfold wsReject. unfold_M. cbn. split; [by intros n; split; [|intros [? _]]|]. done. }
  case_bool_decide as Htk.
  { unfold wsRejectAndCount, wsReject, record_failure, now. unfold_M. cbn.
    split; [by intros n; split; [|intros (_ & ? & _)]|]. done. }
  unfold validate. cbn [st tick].
  destruct (Validate (clock (S (tick w))) _ _) as [[node|e] t]; cbn [fst snd].
  - unfold upgrade. cbn [with_m modify st tick]. destruct (bad_handshake r) as [code0|].
    { cbn. split; [intros n; split; [done|by intros (_ & _ & _ & ? & _)]|].
      split; [done|]. split; [done|]. intros _ _. split; [done|]. split; [done|]. by intros n [= <-]. }
    destruct (checkWSOrigin (wsAllowedOrigins c) r); cbn.
    + split; [intros n; split; [by intros [= ->]|by intros (_ & _ & [= ->] & _)]|].
      split; [done|]. split; [done|]. intros _ _. split; [done|]. split; [done|]. intros n [= <-]. split; [done|].
      split; [by destruct (s_metrics (st w))|done].
    + split; [intros n; split; [done|by intros (_ & _ & _ & _ & ?)]|].
      split; [done|]. split; [done|]. intros _ _. split; [done|]. split; [done|]. by intros n [= <-].
  - unfold wsRejectAndCount, wsReject, record_failure, now. unfold_M. cbn.
    split; [intros n; split; [done|by intros (_ & _ & ? & _)]|].
    split; [done|]. split; [done|]. intros _ _. split; [done|]. split; [by intros e' [= <-]|done].
Qed.
End WebSocket.

(** ** The latency matrix *)

Section Matrix.
Context {E : Env} {MS : MatrixSQL}.

Definition group (rows : list result_row) (k : string * string) : list result_row :=
  filter (λ r, pair_key r = k) rows.

Lemma scan_groups_Ok rows ks es :
  scan_groups rows ks = Ok es → Forall2 (λ k e, scan_group k (group rows k) = Ok e) ks es.
Proof.
  revert es. induction ks as [|k ks IH]; intros es; cbn [scan_groups].
  { intros [= <-]. constructor. }
  unfold mbind, res_bind. fold (group rows k). destruct (scan_group k (group rows k)) as [e|] eqn:He; [|done].
  destruct (scan_groups rows ks) as [es'|]; [|done]. intros [= <-]. constructor; [done|by apply IH].
Qed.

Lemma scan_group_key k g e : scan_group k g = Ok e → me_SourceID e = k.1 ∧ me_TargetID e = k.2.
Proof.
  unfold scan_group. destruct (latencies g) as [|l ls]; [done|]. unfold mbind, res_bind.
  destruct (scan_time _); [|done]. by intros [= <-].
Qed.

(** Looking a pair up in scanned groups. *)
Lemma matrix_find_groups rows ks es src dst :
  Forall2 (λ k e, scan_group k (group rows k) = Ok e) ks es →
  match matrix_find src dst es with
  | Some e => (src, dst) ∈ ks ∧ scan_group (src, dst) (group rows (src, dst)) = Ok e
  | None => ¬ (src, dst) ∈ ks
  end.
Proof.
  induction 1 as [|k e ks es Hk _ IH]; cbn [matrix_find]; [by apply not_elem_of_nil|].
  destruct (scan_group_key _ _ _ Hk) as [Hs Ht]. destruct k as [s0 t0]. cbn in Hs, Ht. subst.
  destruct (bool_decide _) eqn:H1; cbn [andb]; [apply bool_decide_eq_true_1 in H1|].
  - destruct (bool_decide (me_TargetID e = dst)) eqn:H2; [apply bool_decide_eq_true_1 in H2|].
    + rewrite H1, H2 in *. split; [by left|done].
    + apply bool_decide_eq_false_1 in H2. destruct (matrix_find src dst es).
      * destruct IH. split; [by right|done].
      * intros [He|?]%elem_of_cons; [congruence|done].
  - apply bool_decide_eq_false_1 in H1. destruct (matrix_find src dst es).
    + destruct IH. split; [by right|done].
    + intros [He|?]%elem_of_cons; [congruence|done].
Qed.

Lemma elem_of_group_keys rows k : k ∈ group_keys rows ↔ group rows k ≠ [].
Proof.
  unfold group_keys. rewrite elem_of_remove_dups, list_elem_of_fmap. unfold group. split.
  - intros (r & -> & Hr) Hn. apply (not_elem_of_nil r). rewrite <- Hn. by apply list_elem_of_filter.
  - intros Hn. destruct (filter _ rows) as [|r l] eqn:Hf; [done|].
    assert (Hr : r ∈ filter (λ r, pair_key r = k) rows) by (rewrite Hf; by left).
    apply list_elem_of_filter in Hr as [Hk Hr]. by exists r.
Qed.

(** The active hubs the matrix has as axes. *)
Definition hub_ids (db : cdb) : list string :=
  ID <$> List.filter (λ n, bool_decide (Role n = RoleHub) && negb (Disabled n))
    ((λ '(id, row), node_of id row) <$> by_id (nodes db)).

(** A group can be scanned: it has a latency to average, and the driver makes a
    [time.Time] of its MAX(observed_at). *)
Definition scannable (g : list result_row) : Prop :=
  latencies g ≠ [] ∧ is_Ok (scan_time (max_text (r_observed_at <$> g))) = true.

Lemma scan_group_is_Ok k g : is_Ok (scan_group k g) = true ↔ scannable g.
Proof.
  unfold scan_group, scannable. destruct (latencies g) as [|l ls]; [naive_solver|]. unfold mbind, res_bind.
  destruct (scan_time _); naive_solver.
Qed.

Lemma scan_groups_is_Ok rows ks :
  is_Ok (scan_groups rows ks) = true ↔ ∀ k, k ∈ ks → scannable (group rows k).
Proof.
  induction ks as [|k ks IH]; cbn [scan_groups]; [split; [by intros _ k ?%not_elem_of_nil|done]|].
  unfold mbind, res_bind. fold (group rows k). pose proof (scan_group_is_Ok k (group rows k)) as Hk.
  destruct (scan_group k (group rows k)); cbn in Hk.
  - destruct (scan_groups rows ks); cbn in *; split; intros H; try done.
    + intros k' [->|Hin]%elem_of_cons; [by apply Hk|by apply IH].
    + apply IH. intros k' Hin. apply H. by right.
  - split; [done|]. intros H. apply Hk, H. by left.
Qed.

Lemma scan_groups_keys rows ks es :
  scan_groups rows ks = Ok es → (λ e, (me_SourceID e, me_TargetID e)) <$> es = ks.
Proof.
  intros H%scan_groups_Ok. induction H as [|[a b] e ks es Hk _ IH]; [done|]. apply scan_group_key in Hk as [Ha Hb].
  cbn in *. by rewrite Ha, Hb, IH.
Qed.

(** [queryMatrix] when no statement fails: the scan of the groups decides. *)
Lemma queryMatrix_run (w : world srv) :
  fault_free E →
  let rows := recent (clock (S (S (tick w)))) (s_db (st w)) in
  (queryMatrix w).1 =
    match hub_ids (s_db (st w)) with
    | [] => Ok (mkMatrix [] [])
    | ids => mkMatrix ids <$> scan_groups rows (group_keys rows)
    end.
Proof.
  intros Hff. cbn zeta.
  assert (HL : (List_ w) = (((λ '(id, row), node_of id row) <$> by_id (nodes (s_db (st w))), None),
                            mkWorld (with_db (the_db (st w)) (st w)) (S (S (tick w))))).
  { unfold List_. unfold_M. rewrite db_query_ff by done. unfold rows_Err. cbn. by rewrite (proj1 Hff). }
  unfold queryMatrix. unfold_M. rewrite HL. fold (hub_ids (s_db (st w))).
  destruct (hub_ids (s_db (st w))) as [|h hs] eqn:Hids; [done|].
  rewrite (db_exec_ff _ _ _ (the_db (st w))) by done. cbn [st tick the_db srv_HasDB].
  destruct (scan_groups _ _); [|done]. unfold rows_Err. cbn. by rewrite (proj1 Hff).
Qed.

(** C37. The latency matrix, when no statement fails.  Without active hubs it is
    empty.  Otherwise it is returned exactly when every pair of source and target
    with results in the last five minutes has one with a latency and the driver
    makes a time of the latest of them; and then its axes are the active hubs and
    it has exactly one entry per such pair, the aggregate of the pair's results.  So
    one pair whose probes have all failed for five minutes, or a driver that does
    not convert MAX(observed_at), makes the whole dashboard fail. *)
Theorem queryMatrix_spec (w : world srv) :
  fault_free E →
  let d := s_db (st w) in
  let rows := recent (clock (S (S (tick w)))) d in
  (hub_ids d = [] → (queryMatrix w).1 = Ok (mkMatrix [] [])) ∧
  (hub_ids d ≠ [] →
     (is_Ok (queryMatrix w).1 = true ↔ ∀ k, group rows k ≠ [] → scannable (group rows k)) ∧
     (∀ m, (queryMatrix w).1 = Ok m →
        lm_Nodes m = hub_ids d ∧ NoDup ((λ e, (me_SourceID e, me_TargetID e)) <$> lm_Entries m) ∧
        (∀ k, k ∈ ((λ e, (me_SourceID e, me_TargetID e)) <$> lm_Entries m) ↔ group rows k ≠ []) ∧
        ∀ src dst, match Matrix_Get m src dst with
                   | Some e => scan_group (src, dst) (group rows (src, dst)) = Ok e
                   | None => group rows (src, dst) = []
                   end)).
Proof.
  intros Hff. cbn zeta. rewrite (queryMatrix_run w Hff). set (rows := recent _ _).
  destruct (hub_ids (s_db (st w))) as [|h hs]; [done|]. split; [done|]. intros _. split.
  - etransitivity; [|setoid_rewrite <- elem_of_group_keys; apply scan_groups_is_Ok]. by destruct (scan_groups _ _).
  - intros m. destruct (scan_groups rows (group_keys rows)) as [es|] eqn:Hs; [|done]. intros [= <-]. cbn [lm_Nodes lm_Entries].
    rewrite (scan_groups_keys _ _ _ Hs). split; [done|]. split; [apply NoDup_remove_dups|].
    split; [apply elem_of_group_keys|]. intros src dst.
    apply scan_groups_Ok in Hs. pose proof (matrix_find_groups _ _ _ src dst Hs) as H.
    unfold Matrix_Get. cbn [lm_Entries]. destruct (matrix_find src dst es); [apply H|].
    rewrite elem_of_group_keys in H. destruct (group rows (src, dst)); [done|]. exfalso. by apply H.
Qed.
End Matrix.

(** ** Witnesses *)

Definition create_codec : Codec := {|
  decode_results := λ _, Err (ErrMsg "EOF");
  decode_create := λ _, Ok (mkAdminCreate "hub-9" "hub" "h9:9000" false "");
  decode_patch := λ _, Err (ErrMsg "EOF");
|}.

Definition fixed_rand : Rand := {| rand_Read := λ _, Ok (repeat 9 32) |}.

Definition plain_sql : MatrixSQL := {|
  sql_avg := λ _, zero_float; sql_min := λ _, zero_float; sql_max := λ _, zero_float;
  scan_time := λ _, Ok 0;
|}.

Definition any_handshake : Upgrader := {| bad_handshake := λ _, None |}.
Definition no_files : Stat := {| stat_size := λ _ _, None |}.

Definition admin_config : config := mkConfig "" None zero_float 0 "" "s3cret" [].

Definition create_request : request :=
  mkReq "POST" "/api/v1/admin/nodes" {[ "Authorization" := "Bearer s3cret" ]} "c" "10.0.0.9:1" false None ∅ ∅ "{}".

(** A deletion asked for with an empty session cookie: the token is not known. *)
Definition stranger : request := mkReq "DELETE" "/ui/fragments/nodes/hub-1" ∅ "" "10.0.0.9:1" false (Some "") ∅ ∅ "".

Lemma Handler_authorized_witness :
  s_db (st (@Handler calm sqlite_driver create_codec fixed_rand plain_sql any_handshake no_files admin_config true stranger example_start).2)
  = s_db (st example_start).
Proof.
  destruct (@Handler_authorized calm sqlite_driver create_codec fixed_rand plain_sql any_handshake no_files
    admin_config true stranger example_start ltac:(done)) as [H|[[[_ H]|[_ H]]|(node & (row & tok & H & _) & _)]].
  - exact H.
  - exfalso. vm_compute in H. discriminate.
  - exfalso. vm_compute in H. discriminate.
  - exfalso. vm_compute in H. discriminate.
Defined.

Lemma example_srv_wf : wf_cdb (s_db example_srv).
Proof.
  split; [constructor|constructor|]. apply map_Forall_to_list. by_decide.
Qed.

Lemma Handler_keeps_invariant_witness :
  wf_cdb (s_db (st (@Handler calm sqlite_driver create_codec fixed_rand plain_sql any_handshake no_files
                      admin_config true create_request example_start).2)).
Proof. apply Handler_keeps_invariant. exact example_srv_wf. Defined.

Definition minted_secret : string := Eval vm_compute in b64_encode (repeat 9 32).

Lemma created_secret_works_witness :
  ∃ node, node_credentials
    (s_db (st (@handleAdminCreateNode calm sqlite_driver create_codec fixed_rand create_request example_start).2))
    (mkReq "GET" "/api/v1/targets"
       {[ "X-Nlm-Node-Id" := "hub-9"; "Authorization" := "Bearer " ++ minted_secret ]} "c" "" false None ∅ ∅ "") node.
Proof.
  apply (@created_secret_works calm sqlite_driver create_codec fixed_rand create_request example_start
    (mkAdminNode "hub-9" "hub" "h9:9000" false) minted_secret
    (mkReq "GET" "/api/v1/targets"
       {[ "X-Nlm-Node-Id" := "hub-9"; "Authorization" := "Bearer " ++ minted_secret ]} "c" "" false None ∅ ∅ "")).
  - exact calm_ff.
  - intros k buf [= <-]. split; [by_decide|done].
  - vm_compute. reflexivity.
  - vm_compute. reflexivity.
  - vm_compute. reflexivity.
  - by eexists.
Defined.

(** A pair whose only recent probe failed. *)
Definition failed_row : result_row :=
  ResultRow 1 "spoke-1" "run-1" "hub-1" "2023-11-14 22:13:20" None (Some "timeout") "2023-11-14 22:13:20".

Definition failing_srv : srv :=
  NewWithOptions (CDB (nodes example_db) [failed_row] 1 (Some 4)) (mkOptions None None None None).

(** The same with one probe that was answered. *)
Definition probed_row : result_row :=
  ResultRow 2 "spoke-1" "run-2" "hub-1" "2023-11-14 22:13:21" (Some zero_float) None "2023-11-14 22:13:21".

Definition probed_srv : srv :=
  NewWithOptions (CDB (nodes example_db) [failed_row; probed_row] 2 (Some 4)) (mkOptions None None None None).

Lemma probed_scannable rows k : rows = [failed_row; probed_row] → group rows k ≠ [] → @scannable plain_sql (group rows k).
Proof.
  intros ->. unfold group. rewrite !filter_cons, filter_nil. change (pair_key failed_row) with (pair_key probed_row).
  destruct (decide (pair_key probed_row = k)); [|done]. by split.
Qed.

Lemma queryMatrix_spec_witness :
  is_Ok (@queryMatrix calm plain_sql (mkWorld failing_srv 0)).1 = false ∧
  is_Ok (@queryMatrix calm plain_sql (mkWorld probed_srv 0)).1 = true.
Proof.
  split.
  - destruct (@queryMatrix_spec calm plain_sql (mkWorld failing_srv 0) calm_ff) as [_ H].
    destruct H as [[H _] _]; [vm_compute; discriminate|]. apply not_true_is_false. intros Hok.
    destruct (H Hok ("spoke-1", "hub-1")) as [Hl _]; [vm_compute; discriminate|]. apply Hl. vm_compute. reflexivity.
  - destruct (@queryMatrix_spec calm plain_sql (mkWorld probed_srv 0) calm_ff) as [_ H].
    destruct H as [[_ H] _]; [vm_compute; discriminate|]. apply H. intros k.
    apply probed_scannable. vm_compute. reflexivity.
Defined.
