(* ===== verification/UiFlow.v ===== *)
(** * The web UI in use

    The pages and the routes together: what the server sends is the page's
    document, the buttons of a node's row reach the handlers for that node and do
    what they say, and the cells of the latency matrix can be told apart. *)
From Stdlib Require Import Ascii ZArith Lia SpecFloat.
From S2P Require Import Prelude GoTime GoStrings GoNumbers Ticket Litestream ControllerDB Nodes Http Ui Server Results ResultsFacts Handlers Routes HandlersFacts Html Pages PagesFacts.

Local Open Scope string_scope.
Local Open Scope list_scope.

(** ** What reaches the browser *)

(** C6. Pages carry data, never markup: for every page a handler answers with
    and whatever bytes its data holds, what [renderHTML] sends is the beginning of
    the page's text, and when neither the context ends nor a write fails it is a
    text that a browser's tokenizer reads as exactly the document of the
    templates, with every value verbatim at its place. *)
Theorem renderHTML_document {T : Templ} {TS : TemplSpec T} {E : Env} (p : page) (n : nat) :
  let sent := st (renderHTML (component p) (mkWorld "" n)).2 in
  (∃ rest, html (component p) = (sent ++ rest)%string) ∧
  (fault_free E → tokenize sent = Some (page_tokens p)).
Proof.
  unfold renderHTML. unfold_M. pose proof (Render_cases (component p) (mkWorld "" n)) as H.
  destruct (Render (component p) (mkWorld "" n)) as [e w']. cbn.
  destruct H as [(q & rest & Hh & Hs & He) Hff]. cbn in Hs. rewrite Hs. split; [by exists rest|].
  intros H0. rewrite (He (Hff H0)), string_app_nil_r in Hh. unfold tokenize.
  by rewrite <- Hh, component_reads, app_nil_r.
Qed.

(** A node whose fields try to break out of their elements. *)
Definition hostile : NodeInfo :=
  mkNodeInfo "<script>alert(1)</script>" "spoke' onclick='x" ("" ⊕ String dquote "><b>&lt;") false 3 0.

Lemma renderHTML_document_witness :
  tokenize (st (@renderHTML go_templ calm (@component go_templ (NodesPage [hostile] "s&ecret")) (mkWorld "" 0)).2)
    = Some (@page_tokens go_templ (NodesPage [hostile] "s&ecret")).
Proof. apply (@renderHTML_document go_templ go_templ_spec calm). exact calm_ff. Defined.

(** ** Attributes of a document *)

Fixpoint attr_values (a : string) (d : dom) : list string :=
  let own (l : list (string * string)) := omap (λ '(k, v), if bool_decide (k = a) then Some v else None) l in
  match d with
  | El _ l ds => own l ++ flat_map (attr_values a) ds
  | Void _ l => own l
  | Txt _ => []
  end.

(** What a browser finds in the text a component writes: the values of an
    attribute, tag by tag. *)
Definition token_values (a : string) (ts : list token) : list string :=
  flat_map (λ t, match t with
                 | StartTag _ l => omap (λ '(k, v), if bool_decide (k = a) then Some v else None) l
                 | _ => []
                 end) ts.

Definition shown {T : Templ} (a : string) (c : Component) : list string :=
  match tokenize (html c) with Some ts => token_values a ts | None => [] end.

Lemma token_values_dom a d : token_values a (dom_tokens d) = attr_values a d.
Proof.
  unfold token_values. revert d. fix IH 1. intros [n l ds|n l|t]; cbn [dom_tokens attr_values flat_map].
  - rewrite flat_map_app. cbn [flat_map]. rewrite !app_nil_r. f_equal.
    induction ds as [|d ds IHds]; [done|]. cbn [flat_map]. by rewrite flat_map_app, IH, IHds.
  - by rewrite app_nil_r.
  - unfold text_token. by destruct (bool_decide _).
Qed.

Lemma shown_fragment `{TS : TemplSpec} a p d :
  page_tokens p = dom_tokens d → shown a (component p) = attr_values a d.
Proof.
  intros Hp. unfold shown, tokenize. rewrite component_reads, Hp. cbn. rewrite app_nil_r. apply token_values_dom.
Qed.

Lemma shown_row `{TS : TemplSpec} a i : shown a (NodeRow i) = attr_values a (row_dom i).
Proof. by apply (shown_fragment a (NodeRowFragment i)). Qed.

Lemma row_dom_id {T : Templ} i : attr_values "id" (row_dom i) = ["node-" ⊕ ni_ID i].
Proof. unfold row_dom. by destruct (ni_Disabled i). Qed.

Lemma shown_matrix `{TS : TemplSpec} a m : shown a (MatrixTable m) = attr_values a (matrix_dom m).
Proof. by apply (shown_fragment a (MatrixFragment m)). Qed.

(** ** Paths *)

(** Characters that stand for themselves in a URL's path. *)
Definition unreserved (c : ascii) : bool :=
  let n := N_of_ascii c in
  (((48 <=? n) && (n <=? 57)) || ((65 <=? n) && (n <=? 90)) || ((97 <=? n) && (n <=? 122)) ||
   (n =? 45) || (n =? 46) || (n =? 95) || (n =? 126))%N.

Fixpoint path_segment (s : string) : bool :=
  match s with String c s' => unreserved c && path_segment s' | EmptyString => true end.

Lemma split_go_segment cur s : path_segment s = true → split_go "/" cur s = [(cur ++ s)%string].
Proof.
  revert cur. induction s as [|c s IH]; intros cur; cbn; [by rewrite string_app_nil_r|].
  intros [Hc Hs]%andb_true_iff. rewrite bool_decide_eq_false_2 by (by intros ->).
  rewrite IH by done. by rewrite string_app_assoc.
Qed.

Lemma split_go_slash cur s t :
  path_segment s = true → split_go "/" cur (s ++ String "/" t) = (cur ++ s)%string :: split_go "/" "" t.
Proof.
  revert cur. induction s as [|c s IH]; intros cur; cbn; [by rewrite string_app_nil_r|].
  intros [Hc Hs]%andb_true_iff. rewrite bool_decide_eq_false_2 by (by intros ->).
  rewrite IH by done. by rewrite string_app_assoc.
Qed.

(** An id that can be a segment of a path. *)
Definition addressable (id : string) : Prop := path_segment id = true ∧ id ≠ "" ∧ id ≠ "." ∧ id ≠ "..".

Lemma segments_node id : path_segment id = true →
  segments ("/ui/frag/nodes/" ⊕ id) = Some ["ui"; "frag"; "nodes"; id].
Proof.
  intros H. change (Some (split_go "/" "" ("ui" ++ String "/" ("frag" ++ String "/" ("nodes" ++ String "/" id)))) =
                    Some ["ui"; "frag"; "nodes"; id]).
  by rewrite !split_go_slash, split_go_segment by done.
Qed.

Lemma segments_action id act : path_segment id = true → path_segment act = true →
  segments ("/ui/frag/nodes/" ⊕ id ⊕ String "/" act) = Some ["ui"; "frag"; "nodes"; id; act].
Proof.
  intros H Ha.
  change (Some (split_go "/" "" ("ui" ++ String "/" ("frag" ++ String "/" ("nodes" ++ String "/" (id ++ String "/" act))))) =
          Some ["ui"; "frag"; "nodes"; id; act]).
  by rewrite !split_go_slash, split_go_segment by done.
Qed.

(** A request of a logged-in browser. *)
Definition browser_request (c : config) (method url : string) : request :=
  mkReq method url ∅ "" "" true (Some (adminToken c)) ∅ ∅ "".

Lemma route_disable mo c id :
  addressable id → find_route mo (browser_request c "PATCH" ("/ui/frag/nodes/" ⊕ id ⊕ "/disable")) = RFragDisable id.
Proof.
  intros (Hs & H1 & H2 & H3). unfold find_route, browser_request. cbn [Path Method].
  rewrite (segments_action id "disable") by done. cbn.
  rewrite !bool_decide_eq_false_2 by done. by cbn.
Qed.

Lemma route_enable mo c id :
  addressable id → find_route mo (browser_request c "PATCH" ("/ui/frag/nodes/" ⊕ id ⊕ "/enable")) = RFragEnable id.
Proof.
  intros (Hs & H1 & H2 & H3). unfold find_route, browser_request. cbn [Path Method].
  rewrite (segments_action id "enable") by done. cbn.
  rewrite !bool_decide_eq_false_2 by done. by cbn.
Qed.

Lemma route_delete mo c id :
  addressable id → find_route mo (browser_request c "DELETE" ("/ui/frag/nodes/" ⊕ id)) = RFragDelete id.
Proof.
  intros (Hs & H1 & H2 & H3). unfold find_route, browser_request. cbn [Path Method].
  rewrite (segments_node id) by done. cbn.
  rewrite !bool_decide_eq_false_2 by done. cbn.
  destruct (bool_decide (id = "new")); cbn; by rewrite ?bool_decide_eq_false_2 by done.
Qed.

(** ** The buttons of a row *)

Section Buttons.
Context {E : Env} {D : CtlDriver} {Cd : Codec} {Rn : Rand} {MS : MatrixSQL} {Up : Upgrader} {Sz : Stat}.
Context {T : Templ} {TS : TemplSpec T}.

Lemma session_browser c m url : session_ok c (browser_request c m url) = true.
Proof. unfold session_ok. cbn. by rewrite constantTimeStringEq_eq. Qed.

(** The node with its flag set. *)
Definition set_disabled (b : bool) (n : Node) : Node := mkNode (ID n) (Role n) (SecretHash n) (Address n) b.

Lemma patch_run (b : bool) id r (w : world srv) row :
  fault_free E → nodes (s_db (st w)) !! id = Some row → valid_role (n_role row) = true →
  let '(resp, w') := patchDisabled b id r w in
  let node := set_disabled b (node_of id row) in
  resp = page_of (NodeRowFragment (nodeToInfo node)) ∧
  (∃ row', nodes (s_db (st w')) = <[id := row']> (nodes (s_db (st w))) ∧ node_of id row' = node).
Proof.
  intros Hff Hrow Hrole. unfold patchDisabled. unfold_M.
  destruct (gives_Get Hff id w) as [HG HGdb]. destruct (Get id w) as [g w1]. cbn in HG, HGdb. subst g.
  unfold found. rewrite Hrow. cbn [node_of ID Role SecretHash Address].
  set (node := mkNode id _ _ _ b). pose proof (gives_Upsert Hff node w1) as HU.
  change (Role node) with (n_role row) in HU. rewrite Hrole in HU. destruct HU as (t & HU & HUdb).
  destruct (Upsert node w1) as [u w2]. cbn in HU, HUdb. subst u. cbn. split; [done|].
  exists (upsert_row node t (nodes (s_db (st w1)) !! id)). split.
  - rewrite HUdb, HGdb. by destruct (changes_hubs node (s_db (st w))).
  - apply (node_of_upsert_row node).
Qed.

End Buttons.


(** Nothing keeps an id out of the registry that cannot stand in a URL: the row of
    a node named [a/b] is shown, and both its buttons miss. *)
Example slash_id_misses :
  let i := nodeToInfo (mkNode "a/b" "spoke" "" "" false) in
  validateAdminNodeFields "a/b" "spoke" "" = None ∧
  (∀ url, url ∈ @shown go_templ "hx-patch" (@NodeRow go_templ i) →
     find_route true (browser_request admin_config "PATCH" url) = RNotAllowed) ∧
  (∀ url, url ∈ @shown go_templ "hx-delete" (@NodeRow go_templ i) →
     find_route true (browser_request admin_config "DELETE" url) = RNotAllowed).
Proof.
  cbn zeta. rewrite !(@shown_row go_templ go_templ_spec). cbn. split; [done|].
  split; intros url ->%list_elem_of_singleton; vm_compute; reflexivity.
Qed.

(** The table sits in an element with its own id: the target of the form's swap
    occurs twice on the page. *)
Example duplicate_table_id nodes secret :
  take 3 (attr_values "id" (@nodes_dom go_templ nodes secret)) =
    ["create-slot"; "nodes-table-wrap"; "nodes-table-wrap"].
Proof. unfold nodes_dom. by destruct (bool_decide (secret = "")). Qed.

(** ** The cells of the matrix *)

(** The pairs that have a cell with an id, row by row. *)
Definition pairs (ns : list string) : list (string * string) :=
  src ← ns; dst ← ns; if bool_decide (src = dst) then [] else [(src, dst)].

Definition hyphen_free (s : string) : Prop := IndexByte s "-" = None.

Lemma attr_values_list a (f : string → dom) (g : string → list string) l :
  (∀ x, attr_values a (f x) = g x) → flat_map (attr_values a) (f <$> l) = l ≫= g.
Proof. intros H. induction l as [|x l IH]; [done|]. cbn [fmap list_fmap flat_map]. by rewrite bind_cons, H, <- IH. Qed.

Lemma fmap_bind {A B C} (f : B → C) (g : A → list B) (l : list A) : f <$> (l ≫= g) = l ≫= λ x, f <$> g x.
Proof. induction l as [|x l IH]; [done|]. by rewrite !bind_cons, fmap_app, IH. Qed.

Section Cells.
Context {T : Templ}.

Lemma cell_ids m src dst :
  attr_values "id" (if bool_decide (src = dst) then El "td" [("class", "cell-self")] [Txt "—"]
                    else cell_dom (Matrix_Get m src dst) src dst) =
  (if bool_decide (src = dst) then [] else [cellID src dst]).
Proof.
  destruct (bool_decide (src = dst)); [done|]. unfold cell_dom.
  destruct (Matrix_Get m src dst) as [e|]; [destruct (me_HasError e)|]; done.
Qed.

Lemma row_ids m src :
  attr_values "id" (matrix_row_dom m src) = (λ p, cellID p.1 p.2) <$>
    (dst ← lm_Nodes m; if bool_decide (src = dst) then [] else [(src, dst)]).
Proof.
  unfold matrix_row_dom. cbn [attr_values omap list_omap flat_map app].
  rewrite (attr_values_list _ _ _ _ (cell_ids m src)).
  change (_ ++ (lm_Nodes m ≫= ?f)) with (lm_Nodes m ≫= f).
  induction (lm_Nodes m) as [|dst l IH]; [done|]. rewrite !bind_cons, IH, fmap_app.
  by destruct (bool_decide (src = dst)).
Qed.

Lemma matrix_ids m :
  lm_Nodes m ≠ [] →
  attr_values "id" (matrix_dom m) = "matrix-wrap" :: ((λ p, cellID p.1 p.2) <$> pairs (lm_Nodes m)).
Proof.
  intros Hne. unfold matrix_dom. destruct (lm_Nodes m) as [|n0 l0] eqn:Hl; [done|].
  cbn [length Nat.eqb]. rewrite <- Hl. unfold pairs.
  assert (Hth : ∀ l, flat_map (attr_values "id") ((λ n, El "th" [] [Txt n]) <$> l) = [])
    by (intros l; by induction l).
  cbn -[matrix_row_dom cellID]. rewrite Hth. f_equal.
  transitivity (flat_map (attr_values "id") (matrix_row_dom m <$> lm_Nodes m)); [by rewrite !app_nil_r|].
  rewrite (attr_values_list _ _ _ _ (row_ids m)).
  symmetry. apply fmap_bind.
Qed.

Lemma IndexByte_app s t : hyphen_free s → IndexByte (s ++ String "-" t) "-" = Some (String.length s).
Proof.
  unfold hyphen_free, IndexByte. induction s as [|c s IH]; cbn; [done|].
  case_bool_decide; [done|]. intros Hx. rewrite IH; [done|]. by destruct (IndexFunc _ s).
Qed.

Lemma cellID_inj src dst src' dst' :
  hyphen_free src → hyphen_free src' → cellID src dst = cellID src' dst' → src = src' ∧ dst = dst'.
Proof.
  unfold cellID, concat. intros Hs Hs' [= H]. cbn in H.
  assert (Hlen : String.length src = String.length src').
  { apply (f_equal (λ s, IndexByte s "-")) in H. rewrite !IndexByte_app in H by done. by injection H. }
  split.
  - apply (f_equal (str_take (String.length src))) in H. by rewrite str_take_app, Hlen, str_take_app in H.
  - apply (f_equal (str_drop (String.length src))) in H. rewrite str_drop_app, Hlen, str_drop_app in H.
    by injection H.
Qed.

Lemma NoDup_pairs ns : NoDup ns → NoDup (pairs ns).
Proof.
  intros Hnd. apply NoDup_bind; [|intros src _; apply NoDup_bind|done]; try done.
  - intros s1 s2 p _ _ (d1 & H1 & _)%list_elem_of_bind (d2 & H2 & _)%list_elem_of_bind.
    repeat case_bool_decide; set_solver.
  - intros d1 d2 p _ _ H1 H2. repeat case_bool_decide; set_solver.
  - intros d _. case_bool_decide; [constructor|apply NoDup_singleton].
Qed.

(** C18. Live updates hit their cell: the ids on the matrix, in the tree of the
    template and in the text [MatrixTable] writes, are, besides the wrapper's, one
    per ordered pair of distinct nodes, [cell-<src>-<dst>], and when no node id
    contains a hyphen no two cells share an id, so that the event of a pair names
    the cell of that pair; with hyphens in ids two pairs can share one. *)
Theorem matrix_cell_ids m :
  lm_Nodes m ≠ [] → NoDup (lm_Nodes m) →
  attr_values "id" (matrix_dom m) = "matrix-wrap" :: ((λ p, cellID p.1 p.2) <$> pairs (lm_Nodes m)) ∧
  (Forall hyphen_free (lm_Nodes m) → NoDup (attr_values "id" (matrix_dom m))) ∧
  (∃ m', NoDup (lm_Nodes m') ∧ ¬ NoDup (attr_values "id" (matrix_dom m'))) ∧
  (TemplSpec T → ∀ m, shown "id" (MatrixTable m) = attr_values "id" (matrix_dom m)).
Proof.
  intros Hne Hnd. split; [by apply matrix_ids|]. split; [|split; [|intros TS m'; apply shown_matrix]].
  - intros Hh. rewrite matrix_ids by done. rewrite NoDup_cons. split.
    + intros (p & Hp & _)%list_elem_of_fmap. done.
    + apply NoDup_fmap_2_strong; [|by apply NoDup_pairs].
      intros [s d] [s' d'] Hp Hp' Heq. rewrite Forall_forall in Hh.
      assert (Hin : ∀ s d, (s, d) ∈ pairs (lm_Nodes m) → s ∈ lm_Nodes m).
      { intros s0 d0 (s1 & Hs1 & Hs)%list_elem_of_bind. apply list_elem_of_bind in Hs1 as (d1 & Hd1 & _).
        case_bool_decide; set_solver. }
      destruct (cellID_inj s d s' d') as [-> ->]; eauto.
  - exists (mkMatrix ["a"; "a-b"; "b-c"; "c"] []). split; [by_decide|].
    apply (bool_decide_eq_false_1 _). vm_compute. reflexivity.
Qed.
End Cells.

Lemma matrix_cell_ids_witness :
  NoDup (attr_values "id" (@matrix_dom go_templ (mkMatrix ["fra"; "nyc"; "sin"] []))).
Proof.
  apply (@matrix_cell_ids go_templ (mkMatrix ["fra"; "nyc"; "sin"] [])); [done|by_decide|].
  repeat constructor.
Defined.
