(* ===== verification/Chrony.v ===== *)
(** * The clock offset ([internal/chrony/chrony.go])

    Parsing of [chronyc tracking], down to the IEEE double [strconv.ParseFloat]
    returns: the decimal number is converted exactly and rounded once, to nearest,
    ties to even. *)
From Stdlib Require Import Ascii ZArith Lia SpecFloat.
From S2P Require Import Prelude GoTime GoStrings.

Local Open Scope string_scope.
Local Open Scope Z_scope.

(** ** Doubles *)

Definition f64_prec : Z := 53.
Definition f64_emax : Z := 1024.

Definition f64_mul : spec_float → spec_float → spec_float := SFmul f64_prec f64_emax.

(** [n / d] rounded to a double, [d > 0]: the core of the division works on
    integers of any size. *)
Definition f64_ratio (neg : bool) (n d : Z) : spec_float :=
  match n, d with
  | Zpos p, Zpos q => SFdiv f64_prec f64_emax (S754_finite neg p 0) (S754_finite false q 0)
  | _, _ => S754_zero neg
  end.

Definition f64_1000 : spec_float := S754_finite false 8796093022208000 (-43).

(** ** [strconv.ParseFloat] *)

Definition digits_to_Z (ds : list Z) : Z := foldl (λ a d, 10 * a + d) 0 ds.

(** The exponent stops growing at 10000. *)
Definition exp_to_Z (ds : list Z) : Z := foldl (λ e d, if e <? 10000 then 10 * e + d else e) 0 ds.

Definition sign_of (s : string) : bool * string :=
  match s with
  | String "+" s' => (false, s')
  | String "-" s' => (true, s')
  | _ => (false, s)
  end.

(** The exponent part, when there is one: it must end the string. *)
Definition parse_exp (s : string) : option Z :=
  match s with
  | EmptyString => Some 0
  | String c s' =>
      if bool_decide (lower c = "e"%char) then
        let '(neg, s') := sign_of s' in
        let '(ds, rest) := span_digits s' in
        if bool_decide (ds = []) || negb (bool_decide (rest = "")) then None
        else Some (if neg then - exp_to_Z ds else exp_to_Z ds)
      else None
  end.

(** A decimal number as a sign and a fraction. *)
Definition parse_decimal (s : string) : option (bool * Z * Z) :=
  let '(neg, s1) := sign_of s in
  let '(ip, s2) := span_digits s1 in
  let '(fp, s3) := match s2 with String "." s' => span_digits s' | _ => ([], s2) end in
  if bool_decide (ip = []) && bool_decide (fp = []) then None
  else
    e ← parse_exp s3;
    let m := digits_to_Z (ip ++ fp)%list in
    let k := e - Z.of_nat (length fp) in
    Some (neg, if 0 <=? k then m * 10 ^ k else m, if 0 <=? k then 1 else 10 ^ (- k)).

Definition parse_special (s : string) : option spec_float :=
  let l := ToLower s in
  if bool_decide (l ∈ ["inf"; "+inf"; "infinity"; "+infinity"]) then Some (S754_infinity false)
  else if bool_decide (l ∈ ["-inf"; "-infinity"]) then Some (S754_infinity true)
  else if bool_decide (l = "nan") then Some S754_nan
  else None.

(** Hexadecimal notation and digit separators, which [ParseFloat] also accepts. *)
Class ExoticFloat := { parse_exotic : string → res spec_float }.

Definition is_exotic (s : string) : bool := Contains (ToLower s) "x" || Contains s "_".

Definition ParseFloat `{ExoticFloat} (s : string) : res spec_float :=
  match parse_special s with
  | Some f => Ok f
  | None =>
      if is_exotic s then parse_exotic s
      else match parse_decimal s with
           | None => Err (ErrMsg ("strconv.ParseFloat: parsing " ++ s ++ ": invalid syntax"))
           | Some (neg, n, d) =>
               match f64_ratio neg n d with
               | S754_infinity _ => Err (ErrMsg ("strconv.ParseFloat: parsing " ++ s ++ ": value out of range"))
               | f => Ok f
               end
           end
  end.

(** ** [ParseTracking] *)

Definition newline : ascii := ascii_of_N 10.

Definition abs_ms (secs : spec_float) : spec_float :=
  let secs := if SFltb secs (S754_zero false) then SFopp secs else secs in
  f64_mul secs f64_1000.

(** One line: [None] to continue with the next. *)
Definition tracking_line `{ExoticFloat} (line : string) : option (res spec_float) :=
  let line := TrimSpace line in
  if negb (HasPrefix line "System time") then None
  else match IndexByte line ":" with
       | None => None
       | Some colon =>
           Some (match Fields (str_drop (S colon) line) with
                 | f :: _ :: _ =>
                     match ParseFloat f with
                     | Err e => Err (ErrWrap ("chrony: parse offset " ++ f) e)
                     | Ok secs => Ok (abs_ms secs)
                     end
                 | _ => Err (ErrMsg ("chrony: unexpected System time line: " ++ line))
                 end)
       end.

Fixpoint tracking_loop `{ExoticFloat} (lines : list string) : res spec_float :=
  match lines with
  | [] => Err (ErrMsg "chrony: no System time line in output")
  | l :: ls => match tracking_line l with Some r => r | None => tracking_loop ls end
  end.

Definition ParseTracking `{ExoticFloat} (out : string) : res spec_float :=
  tracking_loop (Split out newline).

(** ** Queriers *)

Record CommandQuerier := mkCommandQuerier { Binary : string; Timeout : Z }.

Definition NewCommandQuerier : CommandQuerier := mkCommandQuerier "chronyc" (2 * Second).

(** Running a command with a time limit: its output, or its error. *)
Class Exec := { run_command : nat → Z → list string → res string }.

Definition Drift `{ExoticFloat, Exec} (c : CommandQuerier) (step : nat) : res spec_float :=
  let bin := if bool_decide (Binary c = "") then "chronyc" else Binary c in
  let to := if Timeout c <=? 0 then 2 * Second else Timeout c in
  match run_command step to [bin; "tracking"] with
  | Err e => Err (ErrWrap ("chrony: " ++ bin ++ " tracking") e)
  | Ok out => ParseTracking out
  end.

Record FixedQuerier := mkFixedQuerier { fq_Value : spec_float; fq_Err : option err }.

Definition FixedDrift (f : FixedQuerier) : res spec_float :=
  match fq_Err f with Some e => Err e | None => Ok (fq_Value f) end.

(** ** Facts *)

Definition no_exotic : ExoticFloat := {| parse_exotic := λ _, Err (ErrMsg "invalid syntax") |}.

Example ParseFloat_ex :
  @ParseFloat no_exotic "0.5" = Ok (S754_finite false 4503599627370496 (-53)) ∧
  @ParseFloat no_exotic "-1e3" = Ok (S754_finite true 8796093022208000 (-43)) ∧
  @ParseFloat no_exotic "0.1" = Ok (S754_finite false 7205759403792794 (-56)) ∧
  @ParseFloat no_exotic "NaN" = Ok S754_nan ∧ is_Ok (@ParseFloat no_exotic "1e400") = false ∧
  is_Ok (@ParseFloat no_exotic "abc") = false.
Proof. vm_compute. done. Qed.

(** A magnitude: not below zero. *)
Definition magnitude (f : spec_float) : Prop := SFltb f (S754_zero false) = false.

Lemma round_aux_sign m e l :
  match binary_round_aux f64_prec f64_emax false m e l with
  | S754_finite s _ _ | S754_infinity s => s = false
  | _ => True
  end.
Proof. unfold binary_round_aux. repeat case_match; simplify_eq; done. Qed.

Lemma abs_ms_magnitude f : magnitude (abs_ms f).
Proof.
  unfold magnitude, abs_ms, f64_mul.
  destruct f as [[]|[]| |[] m e]; try reflexivity; cbn [SFltb SFcompare SFopp negb SFmul f64_1000 xorb].
  all: match goal with |- context [binary_round_aux _ _ false ?m ?e ?l] =>
    pose proof (round_aux_sign m e l) as H; destruct (binary_round_aux _ _ false m e l) as [s|s| |s m' e'] end;
    by subst.
Qed.

Lemma f64_ratio_magnitude n d : magnitude (f64_ratio false n d).
Proof.
  unfold magnitude, f64_ratio. destruct n as [|p|p], d as [|q|q]; try reflexivity.
  unfold SFdiv. destruct (SFdiv_core_binary _ _ _ _ _ _) as [[m e] l]. cbn [xorb].
  pose proof (round_aux_sign m e l) as H.
  by destruct (binary_round_aux _ _ false m e l) as [s|s| |s m' e']; subst.
Qed.

(** ** Reading what chronyc prints *)

(** Decimal digits as text. *)
Fixpoint digits_text (ds : list Z) : string :=
  match ds with [] => "" | d :: ds' => String (digit d) (digits_text ds') end.

Definition is_digit (d : Z) : Prop := 0 <= d < 10.

Lemma span_digits_text ds rest :
  Forall is_digit ds → (∀ c s, rest = String c s → digit_val c = None) →
  span_digits (digits_text ds ++ rest) = (ds, rest).
Proof.
  unfold is_digit. intros H Hr. induction H as [|d ds Hd _ IH]; cbn [digits_text].
  - change ("" ++ rest) with rest. destruct rest as [|c s]; [done|]. cbn. by rewrite (Hr c s).
  - cbn. rewrite digit_val_digit by done. by rewrite IH.
Qed.

(** A number as [printf "%.9f"] writes it. *)
Definition number_text (ip fp : list Z) : string := digits_text ip ++ "." ++ digits_text fp.

Lemma parse_decimal_number ip fp :
  Forall is_digit ip → Forall is_digit fp → ip ≠ [] → fp ≠ [] →
  parse_decimal (number_text ip fp) =
    Some (false, digits_to_Z (ip ++ fp)%list, 10 ^ Z.of_nat (length fp)).
Proof.
  intros Hi Hf Hni Hnf. unfold parse_decimal, number_text.
  assert (Hs : sign_of (digits_text ip ++ "." ++ digits_text fp) = (false, digits_text ip ++ "." ++ digits_text fp)).
  { destruct ip as [|d ip]; [done|]. apply Forall_cons in Hi as [Hd _]. cbn.
    destruct (digit_cases d Hd) as [->|[->|[->|[->|[->|[->|[->|[->|[->| ->]]]]]]]]]; reflexivity. }
  rewrite Hs, span_digits_text; [|done|by intros c s [= <- _]]. cbn [String.append].
  rewrite <- (string_app_nil_r (digits_text fp)) at 1.
  rewrite (span_digits_text fp ""); [|done|done].
  rewrite bool_decide_eq_false_2 by done. cbn [andb parse_exp mbind option_bind].
  assert (0 < length fp)%nat by (destruct fp; [done|cbn; lia]).
  rewrite (proj2 (Z.leb_gt _ _)) by lia. do 3 f_equal. lia.
Qed.

(** The bytes of such a number. *)
Definition number_char (c : ascii) : Prop := c = "."%char ∨ ∃ d, is_digit d ∧ c = digit d.

Fixpoint all_chars (P : ascii → Prop) (s : string) : Prop :=
  match s with EmptyString => True | String c s' => P c ∧ all_chars P s' end.

Lemma all_chars_app P a b : all_chars P (a ++ b) ↔ all_chars P a ∧ all_chars P b.
Proof. induction a as [|c a IH]; cbn; [tauto|]. rewrite IH. tauto. Qed.

Lemma number_text_chars ip fp :
  Forall is_digit ip → Forall is_digit fp → all_chars number_char (number_text ip fp).
Proof.
  assert (H : ∀ ds, Forall is_digit ds → all_chars number_char (digits_text ds)).
  { induction 1 as [|d ds Hd _ IH]; cbn; [done|]. split; [right; eauto|done]. }
  intros Hi Hf. unfold number_text. rewrite !all_chars_app. split; [by apply H|].
  split; [split; [by left|done]|by apply H].
Qed.

Lemma number_char_facts c : number_char c →
  is_space c = false ∧ lower c = c ∧ c ≠ "x"%char ∧ c ≠ "_"%char ∧ c ≠ "i"%char ∧ c ≠ "n"%char ∧
  c ≠ "+"%char ∧ c ≠ "-"%char.
Proof.
  intros [->|(d & Hd & ->)]; [by repeat split|].
  destruct (digit_cases d Hd) as [->|[->|[->|[->|[->|[->|[->|[->|[->| ->]]]]]]]]]; by repeat split.
Qed.

Lemma Contains_char s c : all_chars (λ x, x ≠ c) s → Contains s (String c "") = false.
Proof.
  induction s as [|x s IH]; cbn [all_chars Contains]; [done|]. intros [Hx Hs]. rewrite (IH Hs).
  cbn. destruct (ascii_dec c x); [congruence|done].
Qed.

Lemma all_chars_impl (P Q : ascii → Prop) s : (∀ c, P c → Q c) → all_chars P s → all_chars Q s.
Proof. intros H. induction s; cbn; [done|]. intros [? ?]. auto. Qed.

Lemma ToLower_number s : all_chars number_char s → ToLower s = s.
Proof.
  induction s as [|c s IH]; cbn; [done|]. intros [Hc Hs]. destruct (number_char_facts c Hc) as (_ & -> & _).
  by rewrite (IH Hs).
Qed.

Lemma ParseFloat_number `{ExoticFloat} ip fp :
  Forall is_digit ip → Forall is_digit fp → ip ≠ [] → fp ≠ [] →
  let f := f64_ratio false (digits_to_Z (ip ++ fp)%list) (10 ^ Z.of_nat (length fp)) in
  (∀ s, f ≠ S754_infinity s) → ParseFloat (number_text ip fp) = Ok f.
Proof.
  intros Hi Hf Hni Hnf f Hinf. pose proof (number_text_chars ip fp Hi Hf) as Hc.
  unfold ParseFloat.
  assert (Hsp : parse_special (number_text ip fp) = None).
  { unfold parse_special. rewrite (ToLower_number _ Hc).
    destruct (number_text ip fp) as [|c s]; [done|]. destruct Hc as [Hc _].
    destruct (number_char_facts c Hc) as (_ & _ & _ & _ & H1 & H2 & H3 & H4).
    repeat case_bool_decide; set_solver. }
  rewrite Hsp. unfold is_exotic. rewrite (ToLower_number _ Hc).
  rewrite !Contains_char, parse_decimal_number by
    (done || (eapply all_chars_impl; [|exact Hc]; intros c Hx; destruct (number_char_facts c Hx); tauto)).
  cbn [orb]. fold f. destruct f; try done. by destruct (Hinf s).
Qed.

Lemma fields_go_word w rest cur :
  all_chars (λ c, is_space c = false) w → (cur ++ w) ≠ "" →
  fields_go cur (w ++ String " " rest) = (cur ++ w) :: fields_go "" rest.
Proof.
  revert cur. induction w as [|c w IH]; intros cur Hw Hne.
  - rewrite string_app_nil_r in *. cbn. by rewrite bool_decide_eq_false_2.
  - destruct Hw as [Hc Hw]. cbn [String.append fields_go]. rewrite Hc.
    rewrite (IH (cur ++ String c "") Hw).
    + by rewrite string_app_assoc.
    + rewrite string_app_assoc. done.
Qed.

Lemma TrimRight_app a b : TrimRight b ≠ "" → TrimRight (a ++ b) = a ++ TrimRight b.
Proof.
  intros Hb. induction a as [|c a IH]; [done|]. cbn. rewrite IH.
  rewrite bool_decide_eq_false_2; [done|]. destruct a; done.
Qed.

(** The line chronyc prints, with the direction [dir]. *)
Definition system_time_line (ip fp : list Z) (dir : string) : string :=
  "System time     : " ++ number_text ip fp ++ " seconds " ++ dir ++ " of NTP time".

Definition skipped_line (l : string) : Prop := HasPrefix (TrimSpace l) "System time" = false.

Lemma tracking_line_reads `{ExoticFloat} ip fp dir :
  Forall is_digit ip → Forall is_digit fp → ip ≠ [] → fp ≠ [] →
  let f := f64_ratio false (digits_to_Z (ip ++ fp)%list) (10 ^ Z.of_nat (length fp)) in
  (∀ s, f ≠ S754_infinity s) →
  tracking_line (system_time_line ip fp dir) = Some (Ok (abs_ms f)).
Proof.
  intros Hi Hf Hni Hnf f Hinf. unfold tracking_line.
  assert (Ht : TrimSpace (system_time_line ip fp dir) = system_time_line ip fp dir).
  { unfold TrimSpace. change (TrimLeft (system_time_line ip fp dir)) with (system_time_line ip fp dir).
    assert (Ha : system_time_line ip fp dir =
      ("System time     : " ++ number_text ip fp ++ " seconds " ++ dir) ++ " of NTP time").
    { unfold system_time_line. by rewrite !string_app_assoc. }
    rewrite Ha. by rewrite TrimRight_app. }
  rewrite Ht. unfold system_time_line.
  change (HasPrefix ("System time     : " ++ ?x) "System time") with true. cbn [negb].
  change (IndexByte ("System time     : " ++ ?x) ":") with (Some 16%nat).
  pose proof (number_text_chars ip fp Hi Hf) as Hc.
  assert (HF : Fields (str_drop 17 ("System time     : " ++ number_text ip fp ++ " seconds " ++ dir ++ " of NTP time"))
    = number_text ip fp :: "seconds" :: fields_go "" (dir ++ " of NTP time")).
  { change (Fields _) with (fields_go "" (number_text ip fp ++ String " " ("seconds " ++ dir ++ " of NTP time"))).
    rewrite (fields_go_word (number_text ip fp) _ ""); [reflexivity| |by destruct ip].
    eapply all_chars_impl; [|exact Hc]. intros c Hx. by apply number_char_facts. }
  cbv beta iota zeta. rewrite HF. by rewrite (ParseFloat_number ip fp) by done.
Qed.

(** The clock offset: on the output of [chronyc tracking], the first line
    that starts with [System time] decides; if it reports [ip.fp] seconds, fast or
    slow, the result is that number, rounded to a double, times 1000.  On any
    output at all, a result is a magnitude (never below zero), and output without
    such a line is an error, so that an unreadable clock fails the gate. *)
Theorem ParseTracking_reads `{ExoticFloat} :
  (∀ out pre ip fp dir post,
     Split out newline = (pre ++ system_time_line ip fp dir :: post)%list → Forall skipped_line pre →
     Forall is_digit ip → Forall is_digit fp → ip ≠ [] → fp ≠ [] →
     let f := f64_ratio false (digits_to_Z (ip ++ fp)%list) (10 ^ Z.of_nat (length fp)) in
     (∀ s, f ≠ S754_infinity s) → ParseTracking out = Ok (f64_mul f f64_1000)) ∧
  (∀ out d, ParseTracking out = Ok d → magnitude d ∧ ∃ l, l ∈ Split out newline ∧ ¬ skipped_line l) ∧
  (∀ out, Forall skipped_line (Split out newline) → is_Ok (ParseTracking out) = false).
Proof.
  split; [|split].
  - intros out pre ip fp dir post Hs Hpre Hi Hf Hni Hnf f Hinf. unfold ParseTracking. rewrite Hs. clear Hs.
    assert (Hm : abs_ms f = f64_mul f f64_1000).
    { unfold abs_ms. replace (SFltb f (S754_zero false)) with false; [done|]. symmetry.
      apply f64_ratio_magnitude. }
    induction Hpre as [|l pre Hl _ IH]; cbn [app tracking_loop].
    + rewrite (tracking_line_reads ip fp dir) by done. exact (f_equal Ok Hm).
    + unfold tracking_line. rewrite Hl. apply IH.
  - intros out d. unfold ParseTracking. induction (Split out newline) as [|l ls IH]; cbn [tracking_loop]; [done|].
    destruct (tracking_line l) as [r|] eqn:Hl.
    + intros ->. unfold tracking_line in Hl. unfold skipped_line.
      destruct (HasPrefix (TrimSpace l) "System time") eqn:Hp; cbn [negb] in Hl; [|done].
      split; [|exists l; split; [by left|congruence]].
      destruct (IndexByte _ _) as [n|]; [|done].
      destruct (Fields _) as [|a [|b fs]]; try done. destruct (ParseFloat a); [|done].
      injection Hl as <-. apply abs_ms_magnitude.
    + intros Hd. destruct (IH Hd) as [Hm (l' & Hin & Hl')]. split; [done|]. exists l'. split; [by right|done].
  - intros out HF. unfold ParseTracking. induction HF as [|l ls Hl _ IH]; cbn [tracking_loop]; [done|].
    unfold tracking_line. by rewrite Hl.
Qed.

Lemma ParseTracking_nan : @ParseTracking no_exotic "System time     : nan seconds slow of NTP time" = Ok S754_nan.
Proof. vm_compute. reflexivity. Qed.
