(* ===== verification/Config.v ===== *)
(** * Configuration from the environment
      ([internal/config/config.go], [internal/logging/logging.go])

    The process environment and the secret file are parameters; everything the
    loaders decide on them is here: defaults, ranges, the order of the errors,
    target lists, and the conversion to 64-bit durations. *)
From Stdlib Require Import Ascii ZArith Lia SpecFloat.
From stdpp Require Import pretty.
From S2P Require Import Prelude GoTime GoStrings Backoff Chrony.

Local Open Scope string_scope.
Local Open Scope Z_scope.

(** [os.LookupEnv] and [os.ReadFile]. *)
Class ProcEnv := {
  LookupEnv : string → option string;
  ReadFile : string → res string;
}.

Section Loaders.
Context {PE : ProcEnv}.

(** [os.Getenv] *)
Definition Getenv (key : string) : string := default "" (LookupEnv key).

Definition getString (key def : string) : string :=
  match LookupEnv key with
  | Some v => if bool_decide (v = "") then def else v
  | None => def
  end.

Definition getInt (key : string) (def : Z) : res Z :=
  match LookupEnv key with
  | None => Ok def
  | Some v =>
      if bool_decide (v = "") then Ok def
      else match Atoi v with
           | None => Err (ErrMsg (key ++ ": invalid integer " ++ v))
           | Some n => Ok n
           end
  end.

(** [if bad { return c, fmt.Errorf(msg) }] *)
Definition reject_if (bad : bool) (msg : string) : res () :=
  if bad then Err (ErrMsg msg) else Ok ().

(** ** The spool *)

Record SpoolConfig := mkSpoolConfig {
  sc_Path : string;
  sc_DrainRows : Z;
  sc_MaxAgeHours : Z;
  sc_MaxSizeMB : Z;
  sc_BackoffBaseSeconds : Z;
  sc_BackoffMaxSeconds : Z;
}.

Definition LoadSpool : res SpoolConfig :=
  let path := getString "NLM_SPOOL_PATH" "/var/lib/nlm/spool.db" in
  rows ← getInt "NLM_SPOOL_DRAIN_ROWS" 100;
  age ← getInt "NLM_SPOOL_MAX_AGE_HOURS" 24;
  size ← getInt "NLM_SPOOL_MAX_SIZE_MB" 100;
  base ← getInt "NLM_SPOOL_BACKOFF_BASE_SECONDS" 30;
  max ← getInt "NLM_SPOOL_BACKOFF_MAX_SECONDS" 3600;
  _ ← reject_if (rows <=? 0) "NLM_SPOOL_DRAIN_ROWS must be > 0";
  _ ← reject_if (age <=? 0) "NLM_SPOOL_MAX_AGE_HOURS must be > 0";
  _ ← reject_if (size <=? 0) "NLM_SPOOL_MAX_SIZE_MB must be > 0";
  _ ← reject_if (base <=? 0) "NLM_SPOOL_BACKOFF_BASE_SECONDS must be > 0";
  _ ← reject_if (max <? base) "NLM_SPOOL_BACKOFF_MAX_SECONDS must be >= NLM_SPOOL_BACKOFF_BASE_SECONDS";
  Ok (mkSpoolConfig path rows age size base max).

Definition sc_MaxAge (c : SpoolConfig) : Z := wrap64 (sc_MaxAgeHours c * Hour).
Definition sc_MaxSizeBytes (c : SpoolConfig) : Z := wrap64 (wrap64 (sc_MaxSizeMB c * 1024) * 1024).
Definition sc_BackoffBase (c : SpoolConfig) : Z := wrap64 (sc_BackoffBaseSeconds c * Second).
Definition sc_BackoffMax (c : SpoolConfig) : Z := wrap64 (sc_BackoffMaxSeconds c * Second).

(** ** Targets *)

Record Target := mkTarget { t_ID : string; t_Address : string }.

#[export] Instance Target_eq_dec : EqDecision Target.
Proof. solve_decision. Defined.

(** One entry, [None] when it is blank: the split at the first [=]. *)
Definition parseTarget (i : nat) (p : string) : option (res Target) :=
  let p := TrimSpace p in
  if bool_decide (p = "") then None
  else Some
    (match IndexByte p "=" with
     | None | Some O => Err (ErrMsg ("NLM_PROBE_TARGETS[" ++ pretty (Z.of_nat i) ++ "]: expected id=host:port, got " ++ p))
     | Some eq =>
         if (eq =? String.length p - 1)%nat
         then Err (ErrMsg ("NLM_PROBE_TARGETS[" ++ pretty (Z.of_nat i) ++ "]: expected id=host:port, got " ++ p))
         else
           let t := mkTarget (TrimSpace (str_take eq p)) (TrimSpace (str_drop (S eq) p)) in
           if bool_decide (t_ID t = "") || bool_decide (t_Address t = "")
           then Err (ErrMsg ("NLM_PROBE_TARGETS[" ++ pretty (Z.of_nat i) ++ "]: empty id or address in " ++ p))
           else Ok t
     end).

(** The loop over the parts, [out] and [seen] grown in step. *)
Fixpoint targets_loop (i : nat) (seen : gset string) (out : list Target) (parts : list string) : res (list Target) :=
  match parts with
  | [] => Ok out
  | p :: rest =>
      match parseTarget i p with
      | None => targets_loop (S i) seen out rest
      | Some (Err e) => Err e
      | Some (Ok t) =>
          if bool_decide (t_ID t ∈ seen)
          then Err (ErrMsg ("NLM_PROBE_TARGETS: duplicate target id " ++ t_ID t))
          else targets_loop (S i) ({[t_ID t]} ∪ seen) (out ++ [t])%list rest
      end
  end.

Definition parseTargets (raw : string) : res (list Target) :=
  let raw := TrimSpace raw in
  if bool_decide (raw = "") then Ok [] else targets_loop 0 ∅ [] (Split raw ",").

(** ** The agent *)

Record AgentConfig := mkAgentConfig {
  a_NodeID : string;
  a_NodeSecret : string;
  a_ControllerURL : string;
  a_Targets : list Target;
  a_ProbeTimeout : Z;
  a_HTTPTimeout : Z;
  a_StartupJitter : Z;
  a_HubProbeInterval : Z;
  a_HubRefreshInterval : Z;
}.

Definition loadAgentSecret : res string :=
  let v := Getenv "NLM_NODE_SECRET" in
  if negb (bool_decide (v = "")) then Ok (TrimSpace v)
  else
    let path := getString "NLM_NODE_SECRET_PATH" "/var/lib/nlm/node.secret" in
    match ReadFile path with
    | Err e => Err (ErrWrap ("read NLM_NODE_SECRET_PATH (" ++ path ++ ")") e)
    | Ok data =>
        let secret := TrimSpace data in
        if bool_decide (secret = "") then Err (ErrMsg ("NLM_NODE_SECRET_PATH (" ++ path ++ ") is empty"))
        else Ok secret
    end.

Definition LoadAgent : res AgentConfig :=
  let nodeID := getString "NLM_NODE_ID" "" in
  let url := getString "NLM_CONTROLLER_URL" "" in
  _ ← reject_if (bool_decide (nodeID = "")) "NLM_NODE_ID must be set";
  _ ← reject_if (bool_decide (url = "")) "NLM_CONTROLLER_URL must be set";
  secret ← loadAgentSecret;
  targets ← parseTargets (getString "NLM_PROBE_TARGETS" "");
  probeSecs ← getInt "NLM_PROBE_TIMEOUT" 5;
  _ ← reject_if (probeSecs <=? 0) "NLM_PROBE_TIMEOUT must be > 0";
  httpSecs ← getInt "NLM_HTTP_TIMEOUT" 10;
  _ ← reject_if (httpSecs <=? 0) "NLM_HTTP_TIMEOUT must be > 0";
  jitterSecs ← getInt "NLM_STARTUP_JITTER" 10;
  _ ← reject_if (jitterSecs <? 0) "NLM_STARTUP_JITTER must be >= 0";
  hubProbeSecs ← getInt "NLM_HUB_PROBE_INTERVAL" 60;
  _ ← reject_if (hubProbeSecs <=? 0) "NLM_HUB_PROBE_INTERVAL must be > 0";
  hubRefreshSecs ← getInt "NLM_HUB_REFRESH_INTERVAL" 300;
  _ ← reject_if (hubRefreshSecs <=? 0) "NLM_HUB_REFRESH_INTERVAL must be > 0";
  Ok (mkAgentConfig nodeID secret url targets (wrap64 (probeSecs * Second)) (wrap64 (httpSecs * Second))
        (wrap64 (jitterSecs * Second)) (wrap64 (hubProbeSecs * Second)) (wrap64 (hubRefreshSecs * Second))).

(** ** The controller *)

Record ControllerConfig := mkControllerConfig {
  c_DBPath : string;
  c_Listen : string;
  c_BaseURL : string;
  c_MaxClockDriftMS : spec_float;
  c_MaxLitestreamLagSecs : Z;
  c_WSTicketRateLimit : Z;
  c_MetricsToken : string;
  c_ChronycBinary : string;
  c_AdminToken : string;
  c_WSAllowedOrigins : list string;
}.

(** [float64(n)] of a non-negative integer. *)
Definition f64_of_int (n : Z) : spec_float := f64_ratio false n 1.

Fixpoint origins_loop (parts : list string) : list string :=
  match parts with
  | [] => []
  | o :: rest =>
      let trimmed := TrimSpace o in
      if bool_decide (trimmed = "") then origins_loop rest else trimmed :: origins_loop rest
  end.

Definition allowedOrigins : list string :=
  let raw := getString "NLM_WS_ALLOWED_ORIGINS" "" in
  if bool_decide (raw = "") then [] else origins_loop (Split raw ",").

Definition LoadController : res ControllerConfig :=
  let dbPath := getString "NLM_CONTROLLER_DB_PATH" "/var/lib/nlm/nlm.db" in
  let listen := getString "NLM_CONTROLLER_LISTEN" ":8080" in
  let baseURL := getString "NLM_CONTROLLER_BASE_URL" "" in
  let metricsToken := getString "NLM_METRICS_TOKEN" "" in
  let chronyc := getString "NLM_CHRONYC_BINARY" "chronyc" in
  let adminToken := getString "NLM_ADMIN_TOKEN" "" in
  let origins := allowedOrigins in
  _ ← reject_if (bool_decide (dbPath = "")) "NLM_CONTROLLER_DB_PATH must not be empty";
  _ ← reject_if (bool_decide (listen = "")) "NLM_CONTROLLER_LISTEN must not be empty";
  driftMS ← getInt "NLM_READY_MAX_CLOCK_DRIFT_MS" 100;
  _ ← reject_if (driftMS <? 0) "NLM_READY_MAX_CLOCK_DRIFT_MS must be >= 0";
  lagSecs ← getInt "NLM_LITESTREAM_MAX_LAG_SECONDS" 300;
  _ ← reject_if (lagSecs <=? 0) "NLM_LITESTREAM_MAX_LAG_SECONDS must be > 0";
  rl ← getInt "NLM_WS_TICKET_RATE_LIMIT" 10;
  _ ← reject_if (rl <=? 0) "NLM_WS_TICKET_RATE_LIMIT must be > 0";
  Ok (mkControllerConfig dbPath listen baseURL (f64_of_int driftMS) lagSecs rl metricsToken chronyc adminToken origins).

Definition c_MaxLitestreamLag (c : ControllerConfig) : Z := wrap64 (c_MaxLitestreamLagSecs c * Second).

(** ** Logging level ([logging.go]) *)

Inductive Level := TraceLevel | DebugLevel | InfoLevel | WarnLevel | ErrorLevel | FatalLevel.

Definition parseLevel (s : string) : Level :=
  let l := ToLower s in
  if bool_decide (l = "trace") then TraceLevel
  else if bool_decide (l = "debug") then DebugLevel
  else if bool_decide (l = "warn") || bool_decide (l = "warning") then WarnLevel
  else if bool_decide (l = "error") then ErrorLevel
  else if bool_decide (l = "fatal") then FatalLevel
  else InfoLevel.

(** What [Init] sets up: the time format, the level and the writer. *)
Record Logger := mkLogger { l_TimeFieldFormat : string; l_level : Level; l_console : bool }.

Definition logging_Init : Logger :=
  mkLogger "2006-01-02T15:04:05.999999999Z07:00" (parseLevel (Getenv "NLM_LOG_LEVEL"))
    (bool_decide (fold_name (Getenv "NLM_LOG_FORMAT") = fold_name "console")).
End Loaders.

(** ** Facts on the string functions *)

Lemma all_chars_and (P Q : ascii → Prop) s :
  all_chars P s → all_chars Q s → all_chars (λ c, P c ∧ Q c) s.
Proof. induction s as [|c s IH]; cbn; [done|]. intros [? ?] [? ?]. auto. Qed.

Lemma all_chars_TrimLeft P s : all_chars P s → all_chars P (TrimLeft s).
Proof. induction s as [|c s IH]; cbn; [done|]. destruct (is_space c); [|done]. intros [_ ?]. auto. Qed.

Lemma all_chars_TrimRight P s : all_chars P s → all_chars P (TrimRight s).
Proof.
  induction s as [|c s IH]; cbn; [done|]. intros [Hc Hs].
  destruct (_ && _); [done|]. split; [done|auto].
Qed.

Lemma all_chars_TrimSpace P s : all_chars P s → all_chars P (TrimSpace s).
Proof. intros H. by apply all_chars_TrimRight, all_chars_TrimLeft. Qed.

Lemma all_chars_split P n s : all_chars P s → all_chars P (str_take n s) ∧ all_chars P (str_drop n s).
Proof. rewrite <- (str_take_drop n s) at 1. by rewrite all_chars_app. Qed.

Lemma split_go_chars sep cur s :
  all_chars (λ c, c ≠ sep) cur → Forall (all_chars (λ c, c ≠ sep)) (split_go sep cur s).
Proof.
  revert cur. induction s as [|c s IH]; intros cur Hc; cbn [split_go]; [by constructor|].
  case_bool_decide; [constructor; [done|by apply IH]|]. apply IH. apply all_chars_app. done.
Qed.

(** Pieces never hold the separator. *)
Lemma Split_chars s sep : Forall (all_chars (λ c, c ≠ sep)) (Split s sep).
Proof. by apply split_go_chars. Qed.

Lemma split_go_piece sep cur a rest :
  all_chars (λ c, c ≠ sep) a → split_go sep cur (a ++ String sep rest) = (cur ++ a) :: split_go sep "" rest.
Proof.
  revert cur. induction a as [|c a IH]; intros cur Ha; cbn [String.append split_go].
  - by rewrite bool_decide_eq_true_2, string_app_nil_r.
  - destruct Ha as [Hc Ha]. rewrite bool_decide_eq_false_2 by done.
    by rewrite IH, string_app_assoc.
Qed.

Lemma split_go_last sep cur a : all_chars (λ c, c ≠ sep) a → split_go sep cur a = [cur ++ a].
Proof.
  revert cur. induction a as [|c a IH]; intros cur Ha; cbn [split_go]; [by rewrite string_app_nil_r|].
  destruct Ha as [Hc Ha]. rewrite bool_decide_eq_false_2 by done. by rewrite IH, string_app_assoc.
Qed.

(** [strings.Join(pieces, sep)] *)
Fixpoint Join (sep : ascii) (pieces : list string) : string :=
  match pieces with
  | [] => ""
  | [p] => p
  | p :: rest => p ++ String sep (Join sep rest)
  end.

Lemma Split_Join sep p pieces :
  Forall (all_chars (λ c, c ≠ sep)) (p :: pieces) → Split (Join sep (p :: pieces)) sep = p :: pieces.
Proof.
  unfold Split. revert p. induction pieces as [|q pieces IH]; intros p H; apply Forall_cons in H as [Hp H].
  - by apply (split_go_last sep "").
  - cbn [Join]. rewrite (split_go_piece sep "") by done. cbn [String.append]. f_equal. by apply IH.
Qed.

Lemma IndexFunc_first f a c rest :
  all_chars (λ x, f x = false) a → f c = true → IndexFunc f (a ++ String c rest) = Some (String.length a).
Proof. intros Ha Hc. induction a as [|x a IH]; cbn; [by rewrite Hc|]. destruct Ha as [-> Ha]. by rewrite (IH Ha). Qed.

Lemma IndexFunc_before f s i : IndexFunc f s = Some i → all_chars (λ x, f x = false) (str_take i s).
Proof.
  revert i. induction s as [|c s IH]; intros i; cbn; [done|].
  destruct (f c) eqn:Hf; [by intros [= <-]|].
  destruct (IndexFunc f s) as [j|]; cbn; [|done]. intros [= <-]. cbn. split; [done|by apply IH].
Qed.

Lemma TrimSpace_parts s : TrimSpace s = s → TrimLeft s = s ∧ TrimRight s = s.
Proof.
  intros H. assert (HL : TrimLeft s = s).
  { rewrite <- H at 2. unfold TrimSpace. rewrite <- TrimLeft_TrimRight by apply TrimLeft_idem.
    fold (TrimSpace s). by rewrite H. }
  split; [done|]. unfold TrimSpace in H. by rewrite HL in H.
Qed.

Lemma TrimLeft_app a b : TrimLeft a = a → a ≠ "" → TrimLeft (a ++ b) = a ++ b.
Proof.
  destruct a as [|c a]; [done|]. cbn. intros H _. destruct (is_space c) eqn:Hc; [|done].
  exfalso. apply (f_equal String.length) in H. cbn in H.
  assert (∀ t, (String.length (TrimLeft t) <= String.length t)%nat) as Hl
    by (induction t as [|x t IH]; cbn; [done|]; destruct (is_space x); cbn; lia).
  specialize (Hl a). lia.
Qed.

(** Text between two trimmed words is trimmed. *)
Lemma TrimSpace_between a m b :
  TrimSpace a = a → TrimSpace b = b → a ≠ "" → b ≠ "" → TrimSpace (a ++ m ++ b) = a ++ m ++ b.
Proof.
  intros Ha Hb Hna Hnb. apply TrimSpace_parts in Ha as [Ha _]. apply TrimSpace_parts in Hb as [_ Hb].
  unfold TrimSpace. rewrite TrimLeft_app by done. rewrite <- string_app_assoc.
  rewrite TrimRight_app by congruence. by rewrite Hb.
Qed.

(** ** Target lists *)

(** Well-formed targets: what a list read from the environment can hold. *)
Record wf_target (t : Target) : Prop := {
  wt_id : t_ID t ≠ "" ∧ TrimSpace (t_ID t) = t_ID t;
  wt_addr : t_Address t ≠ "" ∧ TrimSpace (t_Address t) = t_Address t;
  wt_id_chars : all_chars (λ c, c ≠ ","%char ∧ c ≠ "="%char) (t_ID t);
  wt_addr_chars : all_chars (λ c, c ≠ ","%char) (t_Address t);
}.

Definition wf_targets (ts : list Target) : Prop := Forall wf_target ts ∧ NoDup (t_ID <$> ts).

(** The canonical text of a target list. *)
Definition target_text (t : Target) : string := t_ID t ++ String "=" (t_Address t).
Definition targets_text (ts : list Target) : string := Join "," (target_text <$> ts).

Lemma parseTarget_wf i p t :
  all_chars (λ c, c ≠ ","%char) p → parseTarget i p = Some (Ok t) → wf_target t.
Proof.
  intros Hp. unfold parseTarget. case_bool_decide; [done|].
  destruct (IndexByte (TrimSpace p) "=") as [[|n]|] eqn:Hi; try done.
  destruct (_ =? _)%nat; [done|]. cbn [t_ID t_Address].
  case_bool_decide as H1; [done|]. case_bool_decide as H2; [done|]. intros [= <-].
  apply (all_chars_TrimSpace _ p) in Hp. apply IndexFunc_before in Hi.
  split; cbn [t_ID t_Address].
  - split; [done|apply TrimSpace_idem].
  - split; [done|apply TrimSpace_idem].
  - apply all_chars_TrimSpace. destruct (all_chars_split _ (S n) _ Hp) as [Ht _].
    eapply all_chars_impl; [|exact (all_chars_and _ _ _ Ht Hi)]. cbn. intros c [? Hc].
    by apply bool_decide_eq_false in Hc.
  - apply all_chars_TrimSpace. exact (proj2 (all_chars_split _ (S (S n)) _ Hp)).
Qed.

Lemma targets_loop_wf i seen out parts ts :
  Forall (all_chars (λ c, c ≠ ","%char)) parts → wf_targets out → seen = list_to_set (t_ID <$> out) →
  targets_loop i seen out parts = Ok ts → wf_targets ts.
Proof.
  revert i seen out. induction parts as [|p parts IH]; intros i seen out Hc [Hw Hn] Hs; cbn [targets_loop].
  { by intros [= <-]. }
  apply Forall_cons in Hc as [Hp Hc]. destruct (parseTarget i p) as [[t|]|] eqn:Ht; [|done|by apply IH].
  case_bool_decide as Hd; [done|]. apply parseTarget_wf in Ht; [|done]. apply IH; [done| |].
  - subst seen. rewrite elem_of_list_to_set in Hd. split; [apply Forall_app; split; [done|by apply Forall_singleton]|].
    rewrite fmap_app. apply NoDup_app. split; [done|]. split; [|apply NoDup_singleton].
    intros x Hx ->%list_elem_of_singleton. done.
  - subst seen. rewrite fmap_app, list_to_set_app_L. cbn. set_solver.
Qed.

Lemma target_text_trimmed t : wf_target t → TrimSpace (target_text t) = target_text t.
Proof.
  intros [[H1 H2] [H3 H4] _ _]. unfold target_text. by apply (TrimSpace_between (t_ID t) "=" (t_Address t)).
Qed.

Lemma parseTarget_text i t : wf_target t → parseTarget i (target_text t) = Some (Ok t).
Proof.
  intros Hw. unfold parseTarget. rewrite (target_text_trimmed t Hw). destruct Hw as [[H1 H2] [H3 H4] H5 H6].
  rewrite bool_decide_eq_false_2 by (unfold target_text; revert H1; by destruct (t_ID t)).
  assert (Hi : IndexByte (target_text t) "=" = Some (String.length (t_ID t))).
  { apply IndexFunc_first; [|by apply bool_decide_eq_true_2].
    eapply all_chars_impl; [|exact H5]. intros c [_ ?]. by apply bool_decide_eq_false_2. }
  rewrite Hi. assert (HL : String.length (t_ID t) ≠ O) by (revert H1; by destruct (t_ID t)).
  destruct (String.length (t_ID t)) as [|n] eqn:Hn; [done|]. unfold target_text at 1.
  rewrite string_length_app. cbn [String.length].
  assert (HA : String.length (t_Address t) ≠ O) by (revert H3; by destruct (t_Address t)).
  rewrite (proj2 (Nat.eqb_neq _ _)) by lia. rewrite <- Hn. unfold target_text.
  rewrite str_take_app. replace (S (String.length (t_ID t))) with (String.length (t_ID t ++ "="))
    by (rewrite string_length_app; cbn; lia).
  change (String "=" (t_Address t)) with ("=" ++ t_Address t). rewrite <- string_app_assoc, str_drop_app.
  rewrite H2, H4. cbn. rewrite !bool_decide_eq_false_2 by done. by destruct t.
Qed.

Lemma targets_loop_text i seen out ts :
  Forall wf_target ts → NoDup (t_ID <$> ts) → (∀ t, t ∈ ts → ¬ t_ID t ∈ seen) →
  targets_loop i seen out (target_text <$> ts) = Ok (out ++ ts)%list.
Proof.
  revert i seen out. induction ts as [|t ts IH]; intros i seen out Hw Hn Hs; cbn [fmap list_fmap targets_loop].
  { by rewrite app_nil_r. }
  apply Forall_cons in Hw as [Ht Hw]. rewrite fmap_cons, NoDup_cons in Hn. destruct Hn as [Hnt Hn].
  rewrite (parseTarget_text i t Ht), bool_decide_eq_false_2 by (apply Hs; by left).
  change (list_fmap _ _ target_text ts) with (target_text <$> ts). rewrite IH; [|done|done|].
  - by rewrite <- (assoc_L app).
  - intros u Hu. rewrite elem_of_union, elem_of_singleton. intros [Heq|Hin]; [|by apply (Hs u); [right|]].
    apply Hnt. rewrite <- Heq. by apply list_elem_of_fmap_2.
Qed.

Lemma target_text_chars t : wf_target t → all_chars (λ c, c ≠ ","%char) (target_text t).
Proof.
  intros [_ _ H5 H6]. unfold target_text. apply all_chars_app. split; [|by split].
  eapply all_chars_impl; [|exact H5]. by intros c [? _].
Qed.

Lemma Join_ends ts : Forall wf_target ts → ts ≠ [] →
  targets_text ts ≠ "" ∧ TrimSpace (targets_text ts) = targets_text ts.
Proof.
  unfold targets_text. induction ts as [|t ts IH]; [done|]. intros Hw _. apply Forall_cons in Hw as [Ht Hw].
  pose proof (target_text_trimmed t Ht) as Htr.
  assert (Hne : target_text t ≠ "") by (unfold target_text; destruct Ht as [[Hi _] _ _ _]; revert Hi; by destruct (t_ID t)).
  destruct ts as [|u ts]; [done|]. destruct IH as [H1 H2]; [done|done|].
  cbn [fmap list_fmap Join] in *. split; [revert Hne; by destruct (target_text t)|].
  by apply (TrimSpace_between (target_text t) ",").
Qed.

(** C40. Target lists: a list read from [NLM_PROBE_TARGETS] has distinct, non-empty,
    trimmed ids and addresses, whatever the text was; and the canonical text of
    any such list, [id=addr,id=addr], reads back as exactly that list.  So parsing
    is a retraction onto the well-formed lists, and the text it accepts loses
    nothing but blanks and empty entries. *)
Theorem parseTargets_canonical :
  (∀ raw ts, parseTargets raw = Ok ts → wf_targets ts) ∧
  (∀ ts, wf_targets ts → parseTargets (targets_text ts) = Ok ts).
Proof.
  split.
  - intros raw ts. unfold parseTargets. case_bool_decide; [intros [= <-]; by repeat constructor|].
    apply targets_loop_wf; [apply Split_chars|by repeat constructor|done].
  - intros ts [Hw Hn]. destruct ts as [|t ts]; [done|]. unfold parseTargets.
    destruct (Join_ends (t :: ts) Hw ltac:(done)) as [Hne ->]. rewrite bool_decide_eq_false_2 by done.
    unfold targets_text. cbn [fmap list_fmap]. rewrite Split_Join.
    + apply (targets_loop_text 0 ∅ [] (t :: ts)); [done|done|set_solver].
    + change (target_text t :: list_fmap _ _ target_text ts) with (target_text <$> t :: ts).
      apply (proj2 (Forall_fmap target_text _ (t :: ts))). eapply Forall_impl; [exact Hw|]. apply target_text_chars.
Qed.

Example parseTargets_ex :
  parseTargets " hub-1 = 10.0.0.1:8444, ,hub-2=h:1=2 " = Ok [mkTarget "hub-1" "10.0.0.1:8444"; mkTarget "hub-2" "h:1=2"] ∧
  is_Ok (parseTargets "a=1,a=2") = false ∧ is_Ok (parseTargets "=x") = false ∧ is_Ok (parseTargets "x=") = false.
Proof. vm_compute. done. Qed.

(** ** Spool settings *)

Section SpoolSettings.
Context {PE : ProcEnv}.

Lemma res_bind_Ok {A B} (m : res A) (k : A → res B) b :
  (m ≫= k) = Ok b → ∃ a, m = Ok a ∧ k a = Ok b.
Proof. destruct m; cbn; [eauto|done]. Qed.

Lemma reject_if_Ok bad msg u : reject_if bad msg = Ok u → bad = false.
Proof. by destruct bad. Qed.

Lemma getInt_range key def n : in_int64 def → getInt key def = Ok n → in_int64 n.
Proof.
  unfold getInt. intros Hd. destruct (LookupEnv key) as [v|]; [|by intros [= <-]].
  case_bool_decide; [by intros [= <-]|]. destruct (Atoi v) eqn:Ha; [|done]. intros [= <-]. by eapply Atoi_in_int64.
Qed.

(** What a loaded configuration satisfies. *)
Record spool_ranges (c : SpoolConfig) : Prop := {
  sr_rows : 0 < sc_DrainRows c <= max_int64;
  sr_age : 0 < sc_MaxAgeHours c <= max_int64;
  sr_size : 0 < sc_MaxSizeMB c <= max_int64;
  sr_base : 0 < sc_BackoffBaseSeconds c;
  sr_max : sc_BackoffBaseSeconds c <= sc_BackoffMaxSeconds c <= max_int64;
  sr_path : sc_Path c ≠ "";
}.

Lemma getString_default key def : def ≠ "" → getString key def ≠ "".
Proof. unfold getString. intros Hd. destruct (LookupEnv key); [|done]. by case_bool_decide. Qed.

Lemma LoadSpool_ranges c : LoadSpool = Ok c → spool_ranges c.
Proof.
  unfold LoadSpool. intros H.
  repeat (apply res_bind_Ok in H as (? & ?Hb & H)).
  repeat match goal with
  | Hr : reject_if _ _ = Ok _ |- _ => apply reject_if_Ok in Hr
  | Hg : getInt _ _ = Ok _ |- _ => apply getInt_range in Hg; [|by_decide]
  end.
  injection H as <-. unfold in_int64, max_int64, min_int64 in *.
  split; cbn [sc_DrainRows sc_MaxAgeHours sc_MaxSizeMB sc_BackoffBaseSeconds sc_BackoffMaxSeconds sc_Path];
    unfold max_int64; try lia. by apply getString_default.
Qed.

Lemma wrap64_fixed z : wrap64 z = z ↔ in_int64 z.
Proof. split; [intros <-; apply wrap64_in_int64|apply wrap64_id]. Qed.

(** What [LoadSpool] accepts means what it says: row and size limits and
    backoff windows are positive and the base window is at most the cap; the
    maximum age is the given number of hours exactly up to 2562047 hours (and turns
    negative just above, which retention reads as every row being too old); within
    2^43 - 1 MB and 9223372036 s the size limit and the backoff are exact too, the
    window after [n] failures being [min(2^n * base, max)] seconds. *)
Theorem LoadSpool_durations c :
  LoadSpool = Ok c →
  spool_ranges c ∧
  (sc_MaxAge c = sc_MaxAgeHours c * Hour ↔ sc_MaxAgeHours c <= 2562047) ∧
  (2562047 < sc_MaxAgeHours c <= 5124095 → sc_MaxAge c < 0) ∧
  (sc_MaxSizeMB c < 2 ^ 43 → sc_MaxSizeBytes c = sc_MaxSizeMB c * 1048576) ∧
  (sc_BackoffMaxSeconds c <= 9223372036 → ∀ n, 0 <= n →
     Backoff n (sc_BackoffBase c) (sc_BackoffMax c) =
       Z.min (2 ^ n * sc_BackoffBaseSeconds c) (sc_BackoffMaxSeconds c) * Second).
Proof.
  intros H. pose proof (LoadSpool_ranges c H) as Hr. split; [done|]. destruct Hr as [_ Ha Hs Hb Hm _].
  unfold max_int64 in *. split; [|split; [|split]].
  - unfold sc_MaxAge. rewrite wrap64_fixed. unfold in_int64, min_int64, max_int64, Hour, Minute, Second. lia.
  - intros Hh. unfold sc_MaxAge, Hour, Minute, Second. rewrite wrap64_overflow by lia. lia.
  - intros Hz. unfold sc_MaxSizeBytes. rewrite (wrap64_id (sc_MaxSizeMB c * 1024)), wrap64_id; unfold in_int64, min_int64, max_int64; lia.
  - intros Hz n Hn. unfold sc_BackoffBase, sc_BackoffMax, Backoff. rewrite !wrap64_id
      by (unfold in_int64, min_int64, max_int64, Second; lia).
    rewrite (proj2 (Z.ltb_ge _ _)) by done. rewrite backoff_loop_spec
      by (unfold in_int64, min_int64, max_int64, Second; lia).
    rewrite Z2Nat.id by done. unfold Second. rewrite <- Z.mul_min_distr_nonneg_r by lia. lia.
Qed.
End SpoolSettings.

(** The environment of an agent with one setting changed. *)
Definition one_setting (k v : string) : ProcEnv := {|
  LookupEnv := λ key, if bool_decide (key = k) then Some v else None;
  ReadFile := λ _, Ok "s3cret";
|}.

Lemma LoadSpool_durations_witness :
  @sc_MaxAge (mkSpoolConfig "/var/lib/nlm/spool.db" 100 2562048 100 30 3600) < 0 ∧
  @LoadSpool (one_setting "NLM_SPOOL_MAX_AGE_HOURS" "2562048") =
    Ok (mkSpoolConfig "/var/lib/nlm/spool.db" 100 2562048 100 30 3600).
Proof.
  assert (H : @LoadSpool (one_setting "NLM_SPOOL_MAX_AGE_HOURS" "2562048") =
    Ok (mkSpoolConfig "/var/lib/nlm/spool.db" 100 2562048 100 30 3600)) by (vm_compute; reflexivity).
  split; [|exact H]. apply (@LoadSpool_durations _ _ H). cbn. lia.
Defined.

(** A secret of blanks in the environment is accepted as the empty secret, where a
    blank secret file is an error. *)
Lemma blank_secret :
  @loadAgentSecret (one_setting "NLM_NODE_SECRET" " ") = Ok "".
Proof. vm_compute. reflexivity. Qed.

Lemma parseTargets_canonical_witness :
  wf_targets [mkTarget "hub-1" "10.0.0.1:8444"; mkTarget "hub-2" "h:1=2"] ∧
  parseTargets "hub-1=10.0.0.1:8444,hub-2=h:1=2" = Ok [mkTarget "hub-1" "10.0.0.1:8444"; mkTarget "hub-2" "h:1=2"].
Proof.
  destruct parseTargets_canonical as [Hw Hp].
  assert (H : wf_targets [mkTarget "hub-1" "10.0.0.1:8444"; mkTarget "hub-2" "h:1=2"]).
  { apply (Hw " hub-1 = 10.0.0.1:8444, ,hub-2=h:1=2 "). vm_compute. reflexivity. }
  split; [exact H|]. exact (Hp _ H).
Defined.
