(* ===== verification/Agent.v ===== *)
(** * The agent ([internal/agent], [cmd/nlm-agent])

    The HTTP client that implements the spool's [Sender], the target cache it
    notifies, the probes, the probe-and-drain cycle of a spoke, the hub daemon and
    the probe listener.  The network behind [http.Client.Do] is a transport with a
    state of its own: whatever answers the requests. *)
From Stdlib Require Import Ascii ZArith Lia SpecFloat.
From stdpp Require Import pretty.
From S2P Require Import Prelude GoTime GoStrings Backoff Spool Chrony Config Server.

Local Open Scope string_scope.
Local Open Scope Z_scope.

(** ** HTTP, from the client's side *)

Record client_request := mkClientRequest {
  q_Method : string;
  q_URL : string;
  q_Header : gmap string string;
  q_Body : string;
}.

(** What is read of a response: [r_Body] is all a reader without limit gets. *)
Record client_response := mkClientResponse {
  r_StatusCode : Z;
  r_Status : string;
  r_Body : string;
}.

Class Transport (N : Type) := {
  (** [http.NewRequestWithContext]: the error for a URL that does not parse *)
  NewRequest_error : string → option err;
  (** [http.Client.Do] with a timeout, at a step *)
  Do : nat → Z → client_request → N → res client_response * N;
}.

(** [encoding/json] on the three documents the agent exchanges; a missing
    [targets_version] decodes as 0. *)
Class AgentCodec := {
  encode_results : ResultsRequest → res string;
  decode_version : string → res Z;
  decode_targets : string → res (list (string * string) * Z);
}.

(** [http.StatusText] *)
Definition StatusText (code : Z) : string :=
  match code with
  | 400 => "Bad Request" | 401 => "Unauthorized" | 402 => "Payment Required" | 403 => "Forbidden"
  | 404 => "Not Found" | 405 => "Method Not Allowed" | 406 => "Not Acceptable"
  | 407 => "Proxy Authentication Required" | 408 => "Request Timeout" | 409 => "Conflict" | 410 => "Gone"
  | 411 => "Length Required" | 412 => "Precondition Failed" | 413 => "Request Entity Too Large"
  | 414 => "Request URI Too Long" | 415 => "Unsupported Media Type" | 416 => "Requested Range Not Satisfiable"
  | 417 => "Expectation Failed" | 418 => "I'm a teapot" | 421 => "Misdirected Request"
  | 422 => "Unprocessable Entity" | 423 => "Locked" | 424 => "Failed Dependency" | 425 => "Too Early"
  | 426 => "Upgrade Required" | 428 => "Precondition Required" | 429 => "Too Many Requests"
  | 431 => "Request Header Fields Too Large" | 451 => "Unavailable For Legal Reasons"
  | 500 => "Internal Server Error" | 501 => "Not Implemented" | 502 => "Bad Gateway"
  | 503 => "Service Unavailable" | 504 => "Gateway Timeout" | 505 => "HTTP Version Not Supported"
  | 506 => "Variant Also Negotiates" | 507 => "Insufficient Storage" | 508 => "Loop Detected"
  | 510 => "Not Extended" | 511 => "Network Authentication Required"
  | _ => ""
  end.

(** [io.ReadAll(io.LimitReader(body, n))], read errors ignored. *)
Definition read_limited (n : Z) (body : string) : string := str_take (Z.to_nat n) body.

(** The horizontal ellipsis in UTF-8. *)
Definition ellipsis : string :=
  String (ascii_of_N 226) (String (ascii_of_N 128) (String (ascii_of_N 166) "")).

Definition trimBody (b : string) : string :=
  let s := TrimSpace b in
  if (256 <? Z.of_nat (String.length s)) then str_take (Z.to_nat 256) s ++ ellipsis else s.

(** ** The target cache *)

Record TargetCache := mkTargetCache {
  tc_base : string;
  tc_nodeID : string;
  tc_secret : string;
  tc_httpTimeout : Z;
  tc_maxAge : Z;
  tc_targets : list Target;
  tc_knownVersion : Z;
  tc_lastFetched : Z;
  tc_expectedNotice : Z;
}.

Definition NewTargetCache (controllerURL nodeID secret : string) (httpTimeout maxAge : Z) : TargetCache :=
  mkTargetCache (TrimRightSlash controllerURL) nodeID secret httpTimeout maxAge [] 0 zero_time 0.

(** The critical section that stores a fetched list; [Seed] is the same. *)
Definition cache_store (ts : list Target) (version t : Z) (c : TargetCache) : TargetCache :=
  mkTargetCache (tc_base c) (tc_nodeID c) (tc_secret c) (tc_httpTimeout c) (tc_maxAge c) ts version t version.

Definition NoticeVersion (v : Z) (c : TargetCache) : TargetCache :=
  if v <=? 0 then c
  else mkTargetCache (tc_base c) (tc_nodeID c) (tc_secret c) (tc_httpTimeout c) (tc_maxAge c)
         (tc_targets c) (tc_knownVersion c) (tc_lastFetched c) v.

Definition needRefresh (t : Z) (c : TargetCache) : bool :=
  IsZero (tc_lastFetched c) ||
  (negb (tc_expectedNotice c =? 0) && negb (tc_expectedNotice c =? tc_knownVersion c)) ||
  ((0 <? tc_maxAge c) && (tc_maxAge c <=? TimeSub t (tc_lastFetched c))).

(** ** The agent's state beside the spool *)

Record agent (N : Type) := mkAgent { cache : TargetCache; net : N }.
Arguments mkAgent {N} cache net.
Arguments cache {N} a.
Arguments net {N} a.

Section Agent.
Context {N : Type} {Tr : Transport N} {AC : AgentCodec}.

Definition auth_headers (nodeID secret : string) : gmap string string :=
  <["X-Nlm-Node-Id" := nodeID]> (<["Authorization" := "Bearer " ++ secret]> ∅).

(** ** The client *)

(** [cl_notifier]: whether the target cache is attached. *)
Record Client := mkClient {
  cl_base : string;
  cl_nodeID : string;
  cl_secret : string;
  cl_httpTimeout : Z;
  cl_notifier : bool;
}.

Definition NewClient (controllerURL nodeID secret : string) (httpTimeout : Z) : Client :=
  mkClient (TrimRightSlash controllerURL) nodeID secret httpTimeout false.

Definition SetVersionNotifier (c : Client) : Client :=
  mkClient (cl_base c) (cl_nodeID c) (cl_secret c) (cl_httpTimeout c) true.

Definition notifyVersion (c : Client) (body : string) (tc : TargetCache) : TargetCache :=
  if negb (cl_notifier c) || bool_decide (body = "") then tc
  else match decode_version body with
       | Err _ => tc
       | Ok v => if 0 <? v then NoticeVersion v tc else tc
       end.

Definition status_error (code : Z) (body : string) : err :=
  ErrMsg (pretty code ++ " " ++ StatusText code ++ ": " ++ trimBody body).

Definition results_request (c : Client) (pl : string) : client_request :=
  mkClientRequest "POST" (cl_base c ++ "/api/v1/results")
    (<["Content-Type" := "application/json"]> (auth_headers (cl_nodeID c) (cl_secret c))) pl.

(** The outcome for a status code, with the body that was read. *)
Definition outcome_of (resp : client_response) (body : string) : SendOutcome * option err :=
  let code := r_StatusCode resp in
  if (200 <=? code) && (code <? 300) then (OutcomeAccepted, None)
  else if code =? 409 then (OutcomeAccepted, None)
  else if (400 <=? code) && (code <? 500) then (OutcomePermanentFail, Some (status_error code body))
  else if 500 <=? code then (OutcomeTransientFail, Some (status_error code body))
  else (OutcomeTransientFail, Some (ErrMsg ("unexpected status: " ++ r_Status resp))).

(** [Client.Send] *)
Definition client_Send (c : Client) (step : nat) (probeRunID pl : string) (a : agent N)
    : (SendOutcome * option err) * agent N :=
  match NewRequest_error (cl_base c ++ "/api/v1/results") with
  | Some e => ((OutcomePermanentFail, Some (ErrWrap "build request" e)), a)
  | None =>
      let '(r, n) := Do step (cl_httpTimeout c) (results_request c pl) (net a) in
      match r with
      | Err e => ((OutcomeTransientFail, Some e), mkAgent (cache a) n)
      | Ok resp =>
          let body := read_limited 4096 (r_Body resp) in
          let o := outcome_of resp body in
          (o, mkAgent (if bool_decide (o.1 = OutcomeAccepted) then notifyVersion c body (cache a) else cache a) n)
      end
  end.

Definition client_Sender (c : Client) : Sender (agent N) := {| Send := client_Send c |}.

(** ** Fetching targets *)

Abbreviation MA := (M (sp_state (agent N))).

Definition with_ext (f : agent N → agent N) : MA () := λ w,
  ((), mkWorld (SpState (sdb (st w)) (f (ext (st w))) (sent (st w))) (tick w)).

Definition set_cache (f : TargetCache → TargetCache) : MA () :=
  with_ext (λ a, mkAgent (f (cache a)) (net a)).

Definition the_cache : MA TargetCache := λ w, (cache (ext (st w)), w).

(** A request sent on the transport: one step. *)
Definition http_do (timeout : Z) (q : client_request) : MA (res client_response) := λ w,
  let '(r, n) := Do (tick w) timeout q (net (ext (st w))) in
  (r, mkWorld (SpState (sdb (st w)) (mkAgent (cache (ext (st w))) n) (sent (st w))) (Datatypes.S (tick w))).

Definition targets_request (c : TargetCache) : client_request :=
  mkClientRequest "GET" (tc_base c ++ "/api/v1/targets") (auth_headers (tc_nodeID c) (tc_secret c)) "".

Definition fetch (c : TargetCache) : MA (res (list Target * Z)) :=
  match NewRequest_error (tc_base c ++ "/api/v1/targets") with
  | Some e => mret (Err (ErrWrap "targets: build request" e))
  | None =>
      r ← http_do (tc_httpTimeout c) (targets_request c);
      mret (match r with
            | Err e => Err (ErrWrap "targets: request" e)
            | Ok resp =>
                if negb (r_StatusCode resp =? 200)
                then Err (ErrMsg ("targets: status " ++ pretty (r_StatusCode resp) ++ ": "
                                  ++ TrimSpace (read_limited 1024 (r_Body resp))))
                else match decode_targets (r_Body resp) with
                     | Err e => Err (ErrWrap "targets: decode" e)
                     | Ok (ts, v) => Ok ((λ t, mkTarget t.1 t.2) <$> ts, v)
                     end
            end)
  end.

Section WithEnv.
Context {E : Env}.

(** [Seed] *)
Definition Seed (ts : list Target) (version : Z) : MA () :=
  t ← now; set_cache (cache_store ts version t).

(** [TargetCache.Targets]: two critical sections around the fetch. *)
Definition cache_Targets : MA (list Target * Z * option err) :=
  t ← now;
  c ← the_cache;
  if negb (needRefresh t c) then mret (tc_targets c, tc_knownVersion c, None)
  else
    r ← fetch c;
    match r with
    | Err e => mret (tc_targets c, tc_knownVersion c, Some e)
    | Ok (fetched, version) =>
        t' ← now;
        _ ← set_cache (cache_store fetched version t');
        mret (fetched, version, None)
    end.

(** [TargetSource]: a fixed list, or the cache. *)
Inductive TargetSource :=
  | StaticTargets (ts : list Target)
  | LiveTargets.

Definition Targets (src : TargetSource) : MA (list Target * Z * option err) :=
  match src with
  | StaticTargets ts => mret (ts, 0, None)
  | LiveTargets => cache_Targets
  end.
End WithEnv.
End Agent.

(** ** Probes *)

(** [net.Dialer.DialContext] for the goroutine [i] of the fan-out started at a
    step: its error, if any, and the instants before and after the call. *)
Class Dialer := {
  DialContext : nat → nat → string → Z → option err;
  dial_start : nat → nat → Z;
  dial_end : nat → nat → Z;
}.

(** [float64(n)] of any integer. *)
Definition f64_of_Z (n : Z) : spec_float :=
  match n with
  | Z0 => S754_zero false
  | Zpos _ => f64_ratio false n 1
  | Zneg p => f64_ratio true (Zpos p) 1
  end.

Definition f64_div : spec_float → spec_float → spec_float := SFdiv f64_prec f64_emax.
Definition f64_add : spec_float → spec_float → spec_float := SFadd f64_prec f64_emax.

(** [int(f)]: truncation towards zero. *)
Definition f64_to_int (f : spec_float) : Z :=
  match f with
  | S754_finite s m e =>
      let a := if 0 <=? e then Zpos m * 2 ^ e else Zpos m / 2 ^ (- e) in if s then - a else a
  | _ => 0
  end.

(** [Duration.Seconds] *)
Definition Seconds (d : Z) : spec_float :=
  f64_add (f64_of_Z (Z.quot d Second)) (f64_div (f64_of_Z (Z.rem d Second)) (f64_of_Z Second)).

Section Probes.
Context {Di : Dialer}.

Definition Probe (step i : nat) (addr : string) (timeout : Z) : res Z :=
  match DialContext step i addr timeout with
  | Some e => Err e
  | None => Ok (TimeSub (dial_end step i) (dial_start step i))
  end.

(** The observation goroutine [i] stores. *)
Definition observe (step i : nat) (t : Target) (timeout : Z) : ResultObservation :=
  match Probe step i (t_Address t) timeout with
  | Err e => mkObs (t_ID t) None (Error e)
  | Ok rtt => mkObs (t_ID t) (Some (f64_div (f64_of_Z rtt) (f64_of_Z Millisecond))) ""
  end.

(** The zero [ResultObservation] the result slice is made of. *)
Definition zero_obs : ResultObservation := mkObs "" None "".

(** The stores of the goroutines, in the order the scheduler lets them happen. *)
Definition store_obs (step : nat) (targets : list Target) (timeout : Z) (out : list ResultObservation) (i : nat)
    : list ResultObservation :=
  match targets !! i with
  | Some t => <[i := observe step i t timeout]> out
  | None => out
  end.

Definition RunProbes_sched (sched : list nat) (step : nat) (targets : list Target) (timeout : Z)
    : list ResultObservation :=
  foldl (store_obs step targets timeout) (replicate (length targets) zero_obs) sched.

(** [RunProbes]: what is there after [wg.Wait()]. *)
Definition RunProbes (step : nat) (targets : list Target) (timeout : Z) : list ResultObservation :=
  imap (λ i t, observe step i t timeout) targets.

Lemma store_obs_length step ts to out i : length (store_obs step ts to out i) = length out.
Proof. unfold store_obs. destruct (ts !! i); [apply length_insert|done]. Qed.

Lemma foldl_store_lookup step ts to sched out j t :
  ts !! j = Some t → (j < length out)%nat →
  foldl (store_obs step ts to) out sched !! j =
    if bool_decide (j ∈ sched) then Some (observe step j t to) else out !! j.
Proof.
  intros Ht. revert out. induction sched as [|i sched IH]; intros out Hj; cbn [foldl].
  { by rewrite bool_decide_eq_false_2 by apply not_elem_of_nil. }
  rewrite IH by (by rewrite store_obs_length). case_bool_decide as Hin.
  { rewrite bool_decide_eq_true_2; [done|by right]. }
  destruct (decide (i = j)) as [->|Hne].
  - rewrite bool_decide_eq_true_2 by (by left). unfold store_obs. rewrite Ht.
    by rewrite list_lookup_insert_eq.
  - rewrite bool_decide_eq_false_2 by (rewrite elem_of_cons; intuition congruence).
    unfold store_obs. destruct (ts !! i); [by rewrite list_lookup_insert_ne|done].
Qed.

(** The probe fan-out does not depend on the scheduler: whatever the order in
    which the goroutines finish, the slice read after [wg.Wait()] holds, at the
    index of each target, the observation of that target. *)
Theorem RunProbes_schedule sched step targets timeout :
  sched ≡ₚ seq 0 (length targets) →
  RunProbes_sched sched step targets timeout = RunProbes step targets timeout ∧
  length (RunProbes step targets timeout) = length targets ∧
  TargetID <$> RunProbes step targets timeout = t_ID <$> targets.
Proof.
  intros Hs. split; [|split].
  - apply list_eq. intros j. unfold RunProbes_sched, RunProbes. rewrite list_lookup_imap.
    destruct (targets !! j) as [t|] eqn:Ht; cbn.
    + pose proof (lookup_lt_Some _ _ _ Ht). rewrite (foldl_store_lookup _ _ _ _ _ j t Ht) by (by rewrite length_replicate).
      rewrite bool_decide_eq_true_2; [done|]. rewrite Hs. apply elem_of_seq. lia.
    + apply lookup_ge_None. apply lookup_ge_None in Ht.
      assert (HL : ∀ out, length (foldl (store_obs step targets timeout) out sched) = length out).
      { clear Hs. induction sched as [|i sched IH]; intros out; cbn; [done|]. by rewrite IH, store_obs_length. }
      by rewrite HL, length_replicate.
  - apply length_imap.
  - apply list_eq. intros j. unfold RunProbes. rewrite !list_lookup_fmap, list_lookup_imap.
    destruct (targets !! j) as [t|]; [|done]. cbn. unfold observe. by destruct (Probe _ _ _ _).
Qed.
End Probes.

(** ** The spoke *)

(** [uuid.NewV7] at a step. *)
Class RunIDs := { NewV7 : nat → res string }.

Record Spoke := mkSpoke {
  sk_cfg : AgentConfig;
  sk_spool : Spool;
  sk_client : Client;
  sk_source : TargetSource;
}.

(** [NewSpoke]: a nil source is the static list of the configuration. *)
Definition NewSpoke (c : AgentConfig) (sp : Spool) (client : Client) (source : option TargetSource) : Spoke :=
  mkSpoke c sp client (default (StaticTargets (a_Targets c)) source).

Record CycleStats := mkCycleStats { cs_ProbeRunID : string; cs_Targets : Z; cs_Drain : DrainStats }.

Definition no_drain : DrainStats := mkDrainStats 0 0 0 0 0 0.
Definition no_cycle : CycleStats := mkCycleStats "" 0 no_drain.

Section Cycle.
Context {N : Type} {Tr : Transport N} {AC : AgentCodec} {E : Env} {FS : FileSys} {D : SqlDriver}.
Context {Di : Dialer} {Ids : RunIDs}.

Abbreviation MA := (M (sp_state (agent N))).

Definition at_step {A} (f : nat → A) : MA A := λ w, (f (tick w), mkWorld (st w) (Datatypes.S (tick w))).

(** The request of one cycle. *)
Definition cycle_request (c : AgentConfig) (runID : string) (observedAt : Z) (results : list ResultObservation)
    (snap : DrainSnapshot) : ResultsRequest :=
  mkResultsRequest (a_NodeID c) runID observedAt results
    (mkSpoolMetadata (Depth_ snap) (OldestAgeSecs snap) (DropsTotal_ snap) 1).

(** The end of a cycle: the drain, then the snapshot the next cycle reports. *)
Definition drain_and_save (s : Spoke) (runID : string) (n : Z) : MA (option (CycleStats * option err)) :=
  r ← Drain (SX := client_Sender (sk_client s)) (sk_spool s);
  match r with
  | None => mret None
  | Some (_, Some e) => mret (Some (mkCycleStats runID n no_drain, Some (ErrWrap "spoke: drain" e)))
  | Some (stats, None) =>
      '(postDepth, _) ← Spool.Depth;
      '(postOldest, _) ← OldestAge;
      '(postDrops, _) ← DropsTotal;
      _ ← SaveDrainSnapshot postDepth (f64_to_int (Seconds postOldest)) postDrops;
      mret (Some (mkCycleStats runID n stats, None))
  end.

(** [Spoke.Run]; [None] is out of fuel in the retention loop of the drain. *)
Definition Run (s : Spoke) : MA (option (CycleStats * option err)) :=
  '(targets, _, _) ← Targets (sk_source s);
  if bool_decide (targets = []) then mret (Some (no_cycle, Some (ErrMsg "spoke: no probe targets")))
  else
    id ← at_step NewV7;
    match id with
    | Err e => mret (Some (no_cycle, Some (ErrWrap "spoke: gen run id" e)))
    | Ok runID =>
        observedAt ← now;
        results ← at_step (λ k, RunProbes k targets (a_ProbeTimeout (sk_cfg s)));
        '(prevSnap, _) ← LastDrainSnapshot;
        match encode_results (cycle_request (sk_cfg s) runID observedAt results prevSnap) with
        | Err e => mret (Some (no_cycle, Some (ErrWrap "spoke: encode payload" e)))
        | Ok pl =>
            e ← Enqueue runID pl;
            match e with
            | Some e =>
                if negb (errors_Is e ErrDuplicate)
                then mret (Some (no_cycle, Some (ErrWrap "spoke: enqueue" e)))
                else drain_and_save s runID (Z.of_nat (length results))
            | None => drain_and_save s runID (Z.of_nat (length results))
            end
        end
    end.

(** ** The hub *)

Record Hub := mkHub { h_spoke : Spoke; h_probeInterval : Z; h_startupJitter : Z }.

Definition NewHub (s : Spoke) (probeInterval startupJitter : Z) : Hub :=
  mkHub s (if probeInterval <=? 0 then 60 * Second else probeInterval) startupJitter.

Record HubDeps := mkHubDeps {
  hd_Cfg : AgentConfig;
  hd_Spool : Spool;
  hd_Sender : Client;
  hd_Source : option TargetSource;
  hd_ProbeIv : Z;
  hd_Jitter : Z;
}.

Definition BuildHub (d : HubDeps) : Hub :=
  NewHub (NewSpoke (hd_Cfg d) (hd_Spool d) (hd_Sender d) (hd_Source d)) (hd_ProbeIv d) (hd_Jitter d).

(** What a [select] of the daemon picks: the context is done, or the timer fires. *)
Inductive wake := CtxDone | Fires.

Definition runCycle (h : Hub) : MA (option (option err)) :=
  r ← Run (h_spoke h);
  mret (snd <$> r).

(** The ticker loop, over the choices of its selects; [None] is a loop that is
    still waiting when the choices end.  A failed cycle is logged. *)
Fixpoint hub_loop (h : Hub) (wakes : list wake) : MA (option (option err)) :=
  match wakes with
  | [] => mret None
  | CtxDone :: _ => mret (Some None)
  | Fires :: rest => _ ← runCycle h; hub_loop h rest
  end.

(** [Hub.Run]: the first choice, when there is a jitter, is between the context
    and the jitter timer. *)
Definition hub_Run (h : Hub) (wakes : list wake) : MA (option (option err)) :=
  if 0 <? h_startupJitter h then
    match wakes with
    | [] => mret None
    | CtxDone :: _ => mret (Some (Some ErrCtx))
    | Fires :: rest => _ ← runCycle h; hub_loop h rest
    end
  else _ ← runCycle h; hub_loop h wakes.
End Cycle.

(** ** The listener *)

(** One return of [ln.Accept], with whether the context was done by then. *)
Inductive accepted :=
  | Conn
  | AcceptError (e : err) (timeout ctx_cancelled : bool).

(** [ListenAndServe] over the results of [Accept]: the number of connections it
    accepted and closed, and the result, [None] while it is still accepting. *)
Fixpoint accept_loop (closed : nat) (as_ : list accepted) : nat * option (option err) :=
  match as_ with
  | [] => (closed, None)
  | Conn :: rest => accept_loop (S closed) rest
  | AcceptError e timeout ctx_cancelled :: rest =>
      if ctx_cancelled then (closed, Some None)
      else if timeout then accept_loop closed rest
      else (closed, Some (Some e))
  end.

Definition ListenAndServe (bind : option err) (as_ : list accepted) : nat * option (option err) :=
  match bind with
  | Some e => (O, Some (Some e))
  | None => accept_loop 0 as_
  end.

(** ** Wiring ([cmd/nlm-agent/main.go]) *)

(** The client and the source [buildTargetSource] leaves behind. *)
Definition buildTargetSource (c : AgentConfig) (client : Client) : TargetSource * Client :=
  match a_Targets c with
  | [] => (LiveTargets, SetVersionNotifier client)
  | ts => (StaticTargets ts, client)
  end.

(** The cache [buildTargetSource] creates. *)
Definition buildCache (c : AgentConfig) : TargetCache :=
  NewTargetCache (a_ControllerURL c) (a_NodeID c) (a_NodeSecret c) (a_HTTPTimeout c) (a_HubRefreshInterval c).

Definition listener_addr `{ProcEnv} : string :=
  let addr := Getenv "NLM_LISTENER_LISTEN" in if bool_decide (addr = "") then ":8444" else addr.
