(* ===== verification/Wire.v ===== *)
(** * The documents agent and controller exchange ([encoding/json] on the structs of
      [internal/controller/results.go], [targets.go], [admin.go], [internal/agent/client.go])

    Encoders write the fields of a struct in order under the names of their tags;
    decoders follow Go's rules: a key selects the field of that name, or else the
    field whose name differs in case only; unknown keys are refused or skipped;
    [null] leaves a field as it is, but empties a pointer or a slice; a repeated key
    decodes into the value the earlier one left.  Which error a refused document
    gives is not modelled, only that it is refused.  (Elements that a repeated array
    uncovers in the capacity of a slice are not modelled either.) *)
From Stdlib Require Import Ascii ZArith Lia SpecFloat.
From S2P Require Import Prelude GoTime GoStrings GoNumbers GoFloat Json Server Agent.

Local Open Scope string_scope.
Local Open Scope Z_scope.

Definition syntax_error : err := ErrMsg "invalid character".
Definition type_error : err := ErrMsg "json: cannot unmarshal".
Definition unknown_field : err := ErrMsg "json: unknown field".
Definition unsupported_value : err := ErrMsg "json: unsupported value".

(** ** Time *)

(** The fraction of a second without trailing zeros; nothing for a whole second. *)
Definition fraction_text (ns : Z) : string :=
  if ns =? 0 then ""
  else let '(d, k) := strip_zeros 9 ns 0 in String "." (pad (9 - k) d).

(** [Time.MarshalJSON] of an instant in UTC: RFC 3339 with nanoseconds. *)
Definition format_rfc3339nano (t : Z) : string := fmt_secs "T" (Unix t) (fraction_text (t mod Second) ++ "Z").

Definition year_ok (t : Z) : bool := (min_unix <=? Unix t) && (Unix t <=? max_unix).

(** ** Encoding *)

Definition enc_string (s : string) : json := jstr (quote_body s).
Definition enc_int (z : Z) : json := jnum (format_int (wrap64 z)).

Definition enc_time (t : Z) : res json :=
  if year_ok t then Ok (jstr (format_rfc3339nano t)) else Err (ErrMsg "Time.MarshalJSON: year outside of range [0,9999]").

(** A [*float64]; the type of the model also has values that are no double, which
    have no encoding. *)
Definition enc_float_ptr (f : option spec_float) : res json :=
  match f with
  | None => Ok jnull
  | Some f =>
      match format_float f with
      | Some s => if valid_float f then Ok (jnum s) else Err unsupported_value
      | None => Err unsupported_value
      end
  end.

Fixpoint enc_all {A} (f : A → res json) (l : list A) : res (list json) :=
  match l with
  | [] => Ok []
  | x :: l' => v ← f x; vs ← enc_all f l'; Ok (v :: vs)
  end.

Definition enc_observation (o : ResultObservation) : res json :=
  l ← enc_float_ptr (LatencyMs o);
  Ok (jobj [("target_id", enc_string (TargetID o)); ("latency_ms", l); ("error", enc_string (ObsError o))]).

Definition enc_metadata (m : SpoolMetadata) : json :=
  jobj [("spool_depth", enc_int (SpoolDepth m)); ("spool_oldest_age_seconds", enc_int (SpoolOldestAgeSeconds m));
        ("spool_drops_total", enc_int (SpoolDropsTotal m)); ("drain_attempt", enc_int (DrainAttempt m))].

(** [ResultsRequest]; a batch is never a nil slice. *)
Definition enc_results (r : ResultsRequest) : res json :=
  t ← enc_time (ReqObservedAt r);
  os ← enc_all enc_observation (Results r);
  Ok (jobj [("source_id", enc_string (SourceID r)); ("probe_run_id", enc_string (ProbeRunID r));
            ("observed_at", t); ("results", jarr os); ("spool_metadata", enc_metadata (SpoolMeta r))]).

(** [EncodePayload] *)
Definition EncodePayload (r : ResultsRequest) : res string := print <$> enc_results r.

Definition enc_admin_node (n : AdminNode) : json :=
  jobj ([("id", enc_string (an_ID n)); ("role", enc_string (an_Role n))] ++
        (if bool_decide (an_Address n = "") then [] else [("address", enc_string (an_Address n))]) ++
        [("disabled", jbool (an_Disabled n))])%list.

(** The documents of the handlers; maps are written with their keys in order. *)
Definition payload_json (p : payload) : option json :=
  match p with
  | JError msg => Some (jobj [("error", enc_string msg)])
  | JStatus => Some (jobj [("status", enc_string "ok")])
  | JResults v =>
      Some (jobj ([("status", enc_string "ok")] ++
                  match v with Some v => [("targets_version", enc_int v)] | None => [] end)%list)
  | JTargets ts v =>
      Some (jobj [("targets", jarr (map (λ '(id, a), jobj [("id", enc_string id); ("address", enc_string a)]) ts));
                  ("targets_version", enc_int v)])
  | JTicket value expires => Some (jobj [("expires_at", enc_string expires); ("ticket", enc_string value)])
  | JNodes l => Some (jobj [("nodes", jarr (map enc_admin_node l))])
  | JCreated n secret => Some (jobj [("node", enc_admin_node n); ("secret", enc_string secret)])
  | JNode n => Some (enc_admin_node n)
  | _ => None
  end.

(** [writeJSON]: the encoder ends the document with a newline. *)
Definition writeJSON_body (v : json) : string := print v ++ String (ascii_of_N 10) "".

(** ** Decoding *)

(** A decoder works on the value the destination holds. *)
Definition decoder (A : Type) : Type := json → A → res A.

Definition dec_string : decoder string := λ v old,
  match v with
  | jnull => Ok old
  | jstr l => match unquote l with Some s => Ok s | None => Err syntax_error end
  | _ => Err type_error
  end.

Definition dec_bool : decoder bool := λ v old,
  match v with jnull => Ok old | jbool b => Ok b | _ => Err type_error end.

Definition literal_number (l : string) : option number := fst <$> read_number l.

Definition dec_int : decoder Z := λ v old,
  match v with
  | jnull => Ok old
  | jnum l => match n ← literal_number l; number_int n with Some z => Ok z | None => Err type_error end
  | _ => Err type_error
  end.

Definition dec_float : decoder spec_float := λ v old,
  match v with
  | jnull => Ok old
  | jnum l => match n ← literal_number l; number_float n with Some f => Ok f | None => Err type_error end
  | _ => Err type_error
  end.

(** [Time.UnmarshalJSON] looks at the literal as it is. *)
Definition dec_time : decoder Z := λ v old,
  match v with
  | jnull => Ok old
  | jstr l => match parse_in_utc (Layout true true) l with Some t => Ok t | None => Err (ErrMsg "parsing time") end
  | _ => Err (ErrMsg "Time.UnmarshalJSON: input is not a JSON string")
  end.

(** A pointer: [null] empties it, otherwise its target is decoded. *)
Definition dec_ptr {A} (zero : A) (d : decoder A) : decoder (option A) := λ v old,
  match v with
  | jnull => Ok None
  | _ => a ← d v (default zero old); Ok (Some a)
  end.

(** The elements go into those the slice holds, or into zero values. *)
Fixpoint dec_elements {A} (zero : A) (d : decoder A) (vs : list json) (old : list A) : res (list A) :=
  match vs with
  | [] => Ok []
  | v :: vs' =>
      a ← d v (default zero (head old));
      l ← dec_elements zero d vs' (tail old);
      Ok (a :: l)
  end.

Definition dec_slice {A} (zero : A) (d : decoder A) : decoder (list A) := λ v old,
  match v with
  | jnull => Ok []
  | jarr vs => dec_elements zero d vs old
  | _ => Err type_error
  end.

Definition fields (A : Type) : Type := list (string * decoder A).

(** The field a key selects: the one of that name, or else the first whose folded
    name is that of the key. *)
Definition find_field {A} (fs : fields A) (key : string) : option (decoder A) :=
  match List.find (λ f, bool_decide (f.1 = key)) fs with
  | Some f => Some f.2
  | None => snd <$> List.find (λ f, bool_decide (fold_name f.1 = fold_name key)) fs
  end.

Fixpoint dec_members {A} (strict : bool) (fs : fields A) (ms : list (string * json)) (a : A) : res A :=
  match ms with
  | [] => Ok a
  | (k, v) :: ms' =>
      match unquote k with
      | None => Err syntax_error
      | Some key =>
          match find_field fs key with
          | Some d => a' ← d v a; dec_members strict fs ms' a'
          | None => if strict then Err unknown_field else dec_members strict fs ms' a
          end
      end
  end.

Definition dec_struct {A} (strict : bool) (fs : fields A) : decoder A := λ v a,
  match v with
  | jnull => Ok a
  | jobj ms => dec_members strict fs ms a
  | _ => Err type_error
  end.

(** A field of a record, by its projection and update. *)
Definition field {A B} (get : A → B) (put : B → A → A) (d : decoder B) : decoder A := λ v a,
  b ← d v (get a); Ok (put b a).

(** ** The structs *)

Definition observation_fields : fields ResultObservation := [
  ("target_id", field TargetID (λ x o, mkObs x (LatencyMs o) (ObsError o)) dec_string);
  ("latency_ms", field LatencyMs (λ x o, mkObs (TargetID o) x (ObsError o)) (dec_ptr (S754_zero false) dec_float));
  ("error", field ObsError (λ x o, mkObs (TargetID o) (LatencyMs o) x) dec_string)].

Definition zero_observation : ResultObservation := mkObs "" None "".

Definition metadata_fields : fields SpoolMetadata := [
  ("spool_depth", field SpoolDepth
     (λ x m, mkSpoolMetadata x (SpoolOldestAgeSeconds m) (SpoolDropsTotal m) (DrainAttempt m)) dec_int);
  ("spool_oldest_age_seconds", field SpoolOldestAgeSeconds
     (λ x m, mkSpoolMetadata (SpoolDepth m) x (SpoolDropsTotal m) (DrainAttempt m)) dec_int);
  ("spool_drops_total", field SpoolDropsTotal
     (λ x m, mkSpoolMetadata (SpoolDepth m) (SpoolOldestAgeSeconds m) x (DrainAttempt m)) dec_int);
  ("drain_attempt", field DrainAttempt
     (λ x m, mkSpoolMetadata (SpoolDepth m) (SpoolOldestAgeSeconds m) (SpoolDropsTotal m) x) dec_int)].

Definition results_fields : fields ResultsRequest := [
  ("source_id", field SourceID
     (λ x r, mkResultsRequest x (ProbeRunID r) (ReqObservedAt r) (Results r) (SpoolMeta r)) dec_string);
  ("probe_run_id", field ProbeRunID
     (λ x r, mkResultsRequest (SourceID r) x (ReqObservedAt r) (Results r) (SpoolMeta r)) dec_string);
  ("observed_at", field ReqObservedAt
     (λ x r, mkResultsRequest (SourceID r) (ProbeRunID r) x (Results r) (SpoolMeta r)) dec_time);
  ("results", field Results
     (λ x r, mkResultsRequest (SourceID r) (ProbeRunID r) (ReqObservedAt r) x (SpoolMeta r))
     (dec_slice zero_observation (dec_struct true observation_fields)));
  ("spool_metadata", field SpoolMeta
     (λ x r, mkResultsRequest (SourceID r) (ProbeRunID r) (ReqObservedAt r) (Results r) x)
     (dec_struct true metadata_fields))].

Definition zero_request : ResultsRequest := mkResultsRequest "" "" zero_time [] (mkSpoolMetadata 0 0 0 0).

Definition create_fields : fields AdminCreateRequest := [
  ("id", field ac_ID (λ x r, mkAdminCreate x (ac_Role r) (ac_Address r) (ac_Disabled r) (ac_Secret r)) dec_string);
  ("role", field ac_Role (λ x r, mkAdminCreate (ac_ID r) x (ac_Address r) (ac_Disabled r) (ac_Secret r)) dec_string);
  ("address", field ac_Address (λ x r, mkAdminCreate (ac_ID r) (ac_Role r) x (ac_Disabled r) (ac_Secret r)) dec_string);
  ("disabled", field ac_Disabled (λ x r, mkAdminCreate (ac_ID r) (ac_Role r) (ac_Address r) x (ac_Secret r)) dec_bool);
  ("secret", field ac_Secret (λ x r, mkAdminCreate (ac_ID r) (ac_Role r) (ac_Address r) (ac_Disabled r) x) dec_string)].

Definition patch_fields : fields AdminPatchRequest := [
  ("role", field ap_Role (λ x r, mkAdminPatch x (ap_Address r) (ap_Disabled r) (ap_Secret r)) (dec_ptr "" dec_string));
  ("address", field ap_Address (λ x r, mkAdminPatch (ap_Role r) x (ap_Disabled r) (ap_Secret r)) (dec_ptr "" dec_string));
  ("disabled", field ap_Disabled (λ x r, mkAdminPatch (ap_Role r) (ap_Address r) x (ap_Secret r)) (dec_ptr false dec_bool));
  ("secret", field ap_Secret (λ x r, mkAdminPatch (ap_Role r) (ap_Address r) (ap_Disabled r) x) (dec_ptr "" dec_string))].

Definition target_fields : fields (string * string) := [
  ("id", field fst (λ x t, (x, t.2)) dec_string);
  ("address", field snd (λ x t, (t.1, x)) dec_string)].

(** [TargetsResponse] *)
Definition targets_fields : fields (list (string * string) * Z) := [
  ("targets", field fst (λ x t, (x, t.2)) (dec_slice ("", "") (dec_struct false target_fields)));
  ("targets_version", field snd (λ x t, (t.1, x)) dec_int)].

(** The envelope of [notifyVersion]. *)
Definition version_fields : fields Z := [("targets_version", field id (λ x _, x) dec_int)].

(** [dec.Decode(&x)] of a body, with the zero value of [x]. *)
Definition Decode {A} (d : decoder A) (zero : A) (s : string) : res A :=
  match first_value s with None => Err syntax_error | Some v => d v zero end.

(** [json.Unmarshal(body, &x)] *)
Definition Unmarshal {A} (d : decoder A) (zero : A) (s : string) : res A :=
  match whole_value s with None => Err syntax_error | Some v => d v zero end.

(** The codecs of the two programs: the controller refuses unknown fields, the
    agent skips them. *)
Definition json_codec : Codec := {|
  decode_results := Decode (dec_struct true results_fields) zero_request;
  decode_create := Decode (dec_struct true create_fields) (mkAdminCreate "" "" "" false "");
  decode_patch := Decode (dec_struct true patch_fields) (mkAdminPatch None None None None);
|}.

Definition json_agent_codec : AgentCodec := {|
  encode_results := EncodePayload;
  decode_version := Unmarshal (dec_struct false version_fields) 0;
  decode_targets := Decode (dec_struct false targets_fields) ([], 0);
|}.

(** ** Numbers and times read back *)

Lemma format_int_number z rest :
  ends_number rest = true →
  read_number (format_int z ++ rest) = Some (mkNumber (z <? 0) (digits (Z.abs z)) "" None, rest).
Proof.
  intros Hr. unfold format_int. destruct (Z.ltb_spec z 0).
  - replace (Z.abs z) with (- z) by lia. apply (read_number_int true); [lia|done].
  - replace (Z.abs z) with z by lia. apply (read_number_int false); [lia|done].
Qed.

Lemma format_int_starts z : ∃ c s, format_int z = String c s ∧ (is_digit c = true ∨ c = "-"%char).
Proof.
  unfold format_int. destruct (z <? 0); [by eexists _, _; split; [|right]|].
  destruct (digits_nonempty z) as (c & s & -> & Hc). eauto.
Qed.

Lemma format_int_ok z : number_ok (format_int z).
Proof. split; [apply format_int_starts|]. intros rest Hr. eexists. by apply format_int_number. Qed.

Lemma dec_enc_int z old : dec_int (enc_int z) old = Ok (wrap64 z).
Proof.
  unfold dec_int, enc_int, literal_number.
  pose proof (format_int_number (wrap64 z) "" eq_refl) as H. rewrite string_app_nil_r in H. rewrite H.
  cbn [fmap option_fmap option_map fst mbind option_bind]. unfold number_int.
  cbn [n_frac n_exp n_int n_neg]. rewrite digits_value by lia.
  cbn [bool_decide mbind option_bind]. pose proof (wrap64_in_int64 z) as [Hlo Hhi].
  assert (Hz : (if wrap64 z <? 0 then - Z.abs (wrap64 z) else Z.abs (wrap64 z)) = wrap64 z)
    by (destruct (Z.ltb_spec (wrap64 z) 0); lia).
  change (bool_decide ("" = "") && bool_decide (@None Z = None)) with true. cbv iota. rewrite Hz.
  by rewrite (proj2 (Z.leb_le _ _) Hlo), (proj2 (Z.leb_le _ _) Hhi).
Qed.

Lemma format_float_starts f s : format_float f = Some s → ∃ c t, s = String c t ∧ (is_digit c = true ∨ c = "-"%char).
Proof.
  destruct f as [[]| | |[] m e]; cbn; try done.
  - intros [= <-]. eauto.
  - intros [= <-]. eauto.
  - destruct (shortest m e) as [d k]. intros [= <-]. eexists _, _. split; [reflexivity|]. by right.
  - destruct (shortest m e) as [d k]. intros [= <-]. cbn [String.append]. unfold format_decimal.
    destruct (_ && _); [destruct (0 <=? k)|].
    + destruct (digits_nonempty d) as (c & s & -> & Hc). eexists _, _. split; [reflexivity|by left].
    + destruct (digits_nonempty (d / 10 ^ (- k))) as (c & s & -> & Hc). eexists _, _. split; [reflexivity|by left].
    + destruct (digits_nonempty d) as (c & s & -> & Hc). eexists _, _. split; [reflexivity|by left].
Qed.

Lemma format_float_ok f s : valid_float f = true → format_float f = Some s → number_ok s.
Proof.
  intros Hv Hs. split; [by eapply format_float_starts|]. intros rest Hr.
  destruct (read_format_float f s rest Hv Hs Hr) as (n & Hn & _). by exists n.
Qed.

Lemma dec_enc_float f s old : valid_float f = true → format_float f = Some s → dec_float (jnum s) old = Ok f.
Proof.
  intros Hv Hs. destruct (read_format_float f s "" Hv Hs eq_refl) as (n & Hn & Hf).
  rewrite string_app_nil_r in Hn. unfold dec_float, literal_number. rewrite Hn. cbn. by rewrite Hf.
Qed.

Lemma dec_enc_string s old : dec_string (enc_string s) old = Ok (to_valid s).
Proof. unfold dec_string, enc_string. by rewrite unquote_quote. Qed.

Lemma strip_zeros_spec fuel d k :
  0 < d →
  let '(d', k') := strip_zeros fuel d k in 0 < d' ∧ k <= k' <= k + Z.of_nat fuel ∧ d = d' * 10 ^ (k' - k).
Proof.
  revert d k. induction fuel as [|fuel IH]; intros d k Hd; cbn [strip_zeros].
  { rewrite Z.sub_diag. lia. }
  destruct (Z.eqb_spec (d mod 10) 0) as [H0|].
  - specialize (IH (d / 10) (k + 1) ltac:(Z.to_euclidean_division_equations; lia)).
    destruct (strip_zeros fuel (d / 10) (k + 1)) as [d' k']. destruct IH as (H1 & H2 & H3).
    split; [done|]. split; [lia|]. replace (k' - k) with (Z.succ (k' - (k + 1))) by lia.
    rewrite Z.pow_succ_r by lia. pose proof (Z.div_mod d 10 ltac:(lia)). nia.
  - rewrite Z.sub_diag. lia.
Qed.

Lemma span_digits_app a c r v acc :
  all_digits a = true → is_digit c = false → dec_value acc a = Some v →
  ∃ ds, span_digits (a ++ String c r) = (ds, String c r) ∧ length ds = String.length a ∧
        fold_left (λ acc d, 10 * acc + d) ds acc = v.
Proof.
  revert acc. induction a as [|x a IH]; intros acc Ha Hc Hv.
  - cbn in *. unfold is_digit in Hc. apply bool_decide_eq_false in Hc.
    destruct (digit_val c); [by destruct Hc|]. exists []. by injection Hv as <-.
  - cbn in Ha. apply andb_true_iff in Ha as [Hx Ha]. cbn in Hv. cbn [String.append span_digits].
    destruct (digit_val x) as [d|]; [|done]. cbn in Hv. destruct (IH (10 * acc + d) Ha Hc Hv) as (ds & -> & Hl & Hf).
    exists (d :: ds). split; [done|]. split; [cbn; by rewrite Hl|done].
Qed.

(** The fraction of a second. *)
Lemma opt_fraction_text ns :
  0 <= ns < Second → opt_fraction (fraction_text ns ++ "Z") = (ns, "Z").
Proof.
  intros Hns. unfold fraction_text. destruct (Z.eqb_spec ns 0) as [->|Hne]; [reflexivity|].
  pose proof (strip_zeros_spec 9 ns 0 ltac:(lia)) as Hs. destruct (strip_zeros 9 ns 0) as [d k].
  destruct Hs as (Hd & Hk & Heq). rewrite Z.sub_0_r in Heq.
  assert (Hp : 0 < 10 ^ k) by (apply Z.pow_pos_nonneg; lia).
  assert (H9 : 10 ^ k * 10 ^ (9 - k) = Second) by (rewrite <- Z.pow_add_r by lia; replace (k + (9 - k)) with 9 by lia; reflexivity).
  assert (Hk9 : k <> 9) by (intros ->; unfold Second in *; nia).
  destruct (pad_spec (9 - k) d) as (Ha & Hl & Hv); [lia|nia|].
  destruct (span_digits_app (pad (9 - k) d) "Z" "" d 0 Ha eq_refl Hv) as (ds & Hsp & Hlen & Hf).
  cbn [String.append]. destruct (pad (9 - k) d) as [|x s] eqn:Hpad; [cbn in Hl; lia|].
  change (String x s ++ "Z") with (String x (s ++ "Z")) in *. cbn [opt_fraction].
  cbn in Ha. apply andb_true_iff in Ha as [Hx _]. unfold is_digit in Hx. rewrite Hx.
  change (bool_decide ("."%char = "."%char) || bool_decide ("."%char = ","%char)) with true. cbn [andb].
  rewrite Hsp. unfold nanos_of_digits. rewrite take_ge by (rewrite Hlen; lia). rewrite Hf, Hlen, Hl. f_equal.
  replace (9 - (9 - k)) with k by lia. lia.
Qed.

Lemma parse_rfc3339nano t :
  year_ok t = true → parse_in_utc (Layout true true) (format_rfc3339nano t) = Some t.
Proof.
  unfold year_ok. intros [H1%Z.leb_le H2%Z.leb_le]%andb_true_iff. unfold format_rfc3339nano.
  pose proof (Z.mod_pos_bound t Second ltac:(unfold Second; lia)) as Hm.
  rewrite (parse_fmt_fraction (Layout true true) _ (t mod Second) "Z").
  - f_equal. unfold Unix. pose proof (Z.div_mod t Second ltac:(unfold Second; lia)). lia.
  - done.
  - by apply opt_fraction_text.
  - reflexivity.
Qed.

(** ** Literals without escapes *)

Definition plain_byte (c : ascii) : bool :=
  let n := N_of_ascii c in ((32 <=? n) && (n <? 127) && negb (n =? 34) && negb (n =? 92))%N.

Fixpoint plain_text (s : string) : bool :=
  match s with String c s' => plain_byte c && plain_text s' | EmptyString => true end.

Lemma plain_text_app a b : plain_text (a ++ b) = plain_text a && plain_text b.
Proof. induction a as [|c a IH]; cbn; [done|]. by rewrite IH, andb_assoc. Qed.

Lemma plain_literal s : plain_text s = true → literal_ok s.
Proof.
  intros Hs rest. induction s as [|c s IH]; [done|]. cbn in Hs. apply andb_true_iff in Hs as [Hc Hs].
  cbn [String.append scan_str]. rewrite (IH Hs).
  destruct c as [[] [] [] [] [] [] [] []]; first [discriminate Hc | reflexivity].
Qed.

Lemma is_digit_plain c : is_digit c = true → plain_byte c = true.
Proof. intros Hc. destruct c as [[] [] [] [] [] [] [] []]; first [discriminate Hc | reflexivity]. Qed.

Lemma all_digits_plain s : all_digits s = true → plain_text s = true.
Proof.
  induction s as [|c s IH]; cbn; [done|]. intros [Hc Hs]%andb_true_iff. by rewrite is_digit_plain, IH.
Qed.

Lemma pad2_plain n rest : 0 <= n < 100 → plain_text (pad2 n rest) = plain_text rest.
Proof.
  intros Hn. unfold pad2. cbn [plain_text]. rewrite !is_digit_plain; [done|apply is_digit_digit; div_lia..].
Qed.

Lemma pad4_plain n rest : 0 <= n < 10000 → plain_text (pad4 n rest) = plain_text rest.
Proof. intros Hn. unfold pad4. rewrite !pad2_plain; [done|div_lia..]. Qed.

Lemma fraction_plain ns : 0 <= ns < Second → plain_text (fraction_text ns) = true.
Proof.
  intros Hns. unfold fraction_text. destruct (Z.eqb_spec ns 0) as [|Hne]; [done|].
  destruct (strip_zeros 9 ns 0) as [d k]. cbn [plain_text]. apply all_digits_plain.
  unfold pad. destruct (zeros_digits (Z.to_nat (9 - k) - String.length (digits d))) as (H & _).
  by rewrite all_digits_app, H, digits_all.
Qed.

Lemma rfc3339nano_plain t : year_ok t = true → plain_text (format_rfc3339nano t) = true.
Proof.
  unfold year_ok. intros [H1%Z.leb_le H2%Z.leb_le]%andb_true_iff. unfold format_rfc3339nano, fmt_secs.
  pose proof (civil_year_range (Unix t / 86400)) as Hy. pose proof (civil_from_days_roundtrip (Unix t / 86400)) as Hrt.
  destruct (civil_from_days (Unix t / 86400)) as [[y m] d].
  specialize (Hy ltac:(unfold min_unix, max_unix in *; div_lia)). destruct Hrt as (_ & Hm & Hd).
  pose proof (Z.mod_pos_bound (Unix t) 86400 ltac:(lia)) as Hs. set (sod := Unix t mod 86400) in *.
  unfold fmt_clock. rewrite pad4_plain by lia. cbn [plain_text]. rewrite pad2_plain by lia. cbn [plain_text].
  rewrite pad2_plain by lia. cbn [plain_text]. rewrite pad2_plain by div_lia. cbn [plain_text].
  rewrite pad2_plain by div_lia. cbn [plain_text]. rewrite pad2_plain by div_lia.
  rewrite plain_text_app, fraction_plain; [done|]. apply Z.mod_pos_bound. unfold Second. lia.
Qed.

(** ** Encodings are JSON *)

Lemma wf_enc_string s : wf_json (enc_string s).
Proof. constructor. apply quote_body_ok. Qed.

Lemma wf_enc_int z : wf_json (enc_int z).
Proof. constructor. apply format_int_ok. Qed.

Create HintDb json.
#[export] Hint Resolve wf_enc_string wf_enc_int : json.
#[export] Hint Constructors wf_json : json.

(** An object of named values. *)
Lemma wf_object l : Forall (λ kv, plain_text kv.1 = true ∧ wf_json kv.2) l → wf_json (jobj l).
Proof.
  intros HF. constructor. eapply Forall_impl; [exact HF|]. cbn. intros kv [Hk Hv]. split; [by apply plain_literal|done].
Qed.

Ltac wf_fields := apply wf_object; repeat (apply Forall_cons; split; [split; [reflexivity|cbn; auto with json]|]); try apply Forall_nil_2.

Lemma wf_enc_time t v : enc_time t = Ok v → wf_json v.
Proof.
  unfold enc_time. destruct (year_ok t) eqn:Hy; [|done]. intros [= <-]. constructor.
  by apply plain_literal, rfc3339nano_plain.
Qed.

Lemma wf_enc_float_ptr f v : enc_float_ptr f = Ok v → wf_json v.
Proof.
  unfold enc_float_ptr. destruct f as [f|]; [|by intros [= <-]; constructor].
  destruct (format_float f) as [s|] eqn:Hs; [|done]. destruct (valid_float f) eqn:Hv; [|done].
  intros [= <-]. constructor. by eapply format_float_ok.
Qed.

Lemma wf_enc_all {A} (f : A → res json) l vs :
  (∀ x v, f x = Ok v → wf_json v) → enc_all f l = Ok vs → Forall wf_json vs.
Proof.
  intros Hf. revert vs. induction l as [|x l IH]; intros vs; cbn; [by intros [= <-]|].
  destruct (f x) as [v|e] eqn:Hx; [|done]. cbn. destruct (enc_all f l) as [vs'|e]; [|done]. cbn.
  intros [= <-]. constructor; [by eapply Hf|by apply IH].
Qed.

Lemma wf_enc_observation o v : enc_observation o = Ok v → wf_json v.
Proof.
  unfold enc_observation. destruct (enc_float_ptr (LatencyMs o)) as [l|e] eqn:Hl; [|done]. cbn. intros [= <-].
  apply wf_enc_float_ptr in Hl. wf_fields.
Qed.

Lemma wf_enc_metadata m : wf_json (enc_metadata m).
Proof. unfold enc_metadata. wf_fields. Qed.
#[export] Hint Resolve wf_enc_metadata : json.

Lemma wf_enc_results r v : enc_results r = Ok v → wf_json v.
Proof.
  unfold enc_results. destruct (enc_time (ReqObservedAt r)) as [t|e] eqn:Ht; [|done]. cbn.
  destruct (enc_all enc_observation (Results r)) as [os|e] eqn:Hos; [|done]. cbn. intros [= <-].
  apply wf_enc_time in Ht. apply (wf_enc_all _ _ _ wf_enc_observation) in Hos. wf_fields.
Qed.

(** ** Round trips *)

(** One member of an object. *)
Lemma dec_member {A} strict (fs : fields A) k v ms a d a' :
  unquote k = Some k → find_field fs k = Some d → d v a = Ok a' →
  dec_members strict fs ((k, v) :: ms) a = dec_members strict fs ms a'.
Proof. intros Hk Hf Hd. cbn [dec_members]. by rewrite Hk, Hf, Hd. Qed.

Lemma dec_skip {A} (fs : fields A) k v ms a :
  unquote k = Some k → find_field fs k = None → dec_members false fs ((k, v) :: ms) a = dec_members false fs ms a.
Proof. intros Hk Hf. cbn [dec_members]. by rewrite Hk, Hf. Qed.

Lemma field_ok {A B} (get : A → B) (put : B → A → A) (d : decoder B) v a b :
  d v (get a) = Ok b → field get put d v a = Ok (put b a).
Proof. unfold field. by intros ->. Qed.

(** Decodes the members of an object one by one. *)
Ltac dec_step tac := erewrite dec_member; [|reflexivity|reflexivity|apply field_ok; tac].

(** What becomes of an observation and of a request on the way: bytes that are no
    UTF-8 are replaced, integers are those of the machine. *)
Definition clean_obs (o : ResultObservation) : ResultObservation :=
  mkObs (to_valid (TargetID o)) (LatencyMs o) (to_valid (ObsError o)).

Definition clean_meta (m : SpoolMetadata) : SpoolMetadata :=
  mkSpoolMetadata (wrap64 (SpoolDepth m)) (wrap64 (SpoolOldestAgeSeconds m)) (wrap64 (SpoolDropsTotal m)) (wrap64 (DrainAttempt m)).

Definition clean_request (r : ResultsRequest) : ResultsRequest :=
  mkResultsRequest (to_valid (SourceID r)) (to_valid (ProbeRunID r)) (ReqObservedAt r)
    (clean_obs <$> Results r) (clean_meta (SpoolMeta r)).

Lemma dec_enc_float_ptr f v old :
  enc_float_ptr f = Ok v → dec_ptr (S754_zero false) dec_float v old = Ok f.
Proof.
  unfold enc_float_ptr. destruct f as [f|]; [|by intros [= <-]].
  destruct (format_float f) as [s|] eqn:Hs; [|done]. destruct (valid_float f) eqn:Hv; [|done].
  intros [= <-]. unfold dec_ptr. by rewrite (dec_enc_float f s).
Qed.

Lemma dec_enc_observation o v old :
  enc_observation o = Ok v → dec_struct true observation_fields v old = Ok (clean_obs o).
Proof.
  unfold enc_observation. destruct (enc_float_ptr (LatencyMs o)) as [l|e] eqn:Hl; [|done]. cbn [mbind res_bind].
  intros [= <-]. unfold dec_struct.
  dec_step ltac:(apply dec_enc_string). dec_step ltac:(by apply dec_enc_float_ptr). dec_step ltac:(apply dec_enc_string).
  reflexivity.
Qed.

Lemma dec_enc_elements {A} (zero : A) (d : decoder A) {B} (enc : B → res json) (f : B → A) l vs old :
  (∀ x v old, enc x = Ok v → d v old = Ok (f x)) → enc_all enc l = Ok vs →
  dec_elements zero d vs old = Ok (f <$> l).
Proof.
  intros Hd. revert vs old. induction l as [|x l IH]; intros vs old; cbn; [by intros [= <-]|].
  destruct (enc x) as [v|e] eqn:Hx; [|done]. cbn. destruct (enc_all enc l) as [vs'|e]; [|done]. cbn.
  intros [= <-]. cbn. rewrite (Hd _ _ _ Hx). cbn. by rewrite (IH vs').
Qed.

Lemma dec_enc_metadata m old : dec_struct true metadata_fields (enc_metadata m) old = Ok (clean_meta m).
Proof. unfold dec_struct, enc_metadata. do 4 (dec_step ltac:(apply dec_enc_int)). reflexivity. Qed.

Lemma dec_enc_time t v old : enc_time t = Ok v → dec_time v old = Ok t.
Proof.
  unfold enc_time. destruct (year_ok t) eqn:Hy; [|done]. intros [= <-]. unfold dec_time.
  by rewrite parse_rfc3339nano.
Qed.

Lemma dec_enc_results r v old :
  enc_results r = Ok v → dec_struct true results_fields v old = Ok (clean_request r).
Proof.
  unfold enc_results. destruct (enc_time (ReqObservedAt r)) as [t|e] eqn:Ht; [|done]. cbn [mbind res_bind].
  destruct (enc_all enc_observation (Results r)) as [os|e] eqn:Hos; [|done]. cbn [mbind res_bind]. intros [= <-].
  unfold dec_struct. dec_step ltac:(apply dec_enc_string). dec_step ltac:(apply dec_enc_string).
  dec_step ltac:(by apply dec_enc_time).
  dec_step ltac:(by apply (dec_enc_elements _ _ enc_observation clean_obs (Results r)); [apply dec_enc_observation|]).
  dec_step ltac:(apply dec_enc_metadata). reflexivity.
Qed.

Lemma payload_decodes r pl :
  EncodePayload r = Ok pl → @decode_results json_codec pl = Ok (clean_request r).
Proof.
  unfold EncodePayload. destruct (enc_results r) as [v|e] eqn:Hv; [|done]. intros [= <-].
  cbn [decode_results json_codec]. unfold Decode.
  pose proof (first_value_print v "" (wf_enc_results _ _ Hv) eq_refl) as H. rewrite string_app_nil_r in H.
  rewrite H. by apply dec_enc_results.
Qed.

(** What can be encoded: a four-digit year and finite latencies. *)
Definition encodable (r : ResultsRequest) : Prop :=
  year_ok (ReqObservedAt r) = true ∧
  Forall (λ o, match LatencyMs o with Some f => finite_float f = true | None => True end) (Results r).

(** What arrives as it was. *)
Definition representable (r : ResultsRequest) : Prop :=
  valid_utf8 (SourceID r) = true ∧ valid_utf8 (ProbeRunID r) = true ∧
  Forall (λ o, valid_utf8 (TargetID o) = true ∧ valid_utf8 (ObsError o) = true) (Results r) ∧
  let m := SpoolMeta r in
  in_int64 (SpoolDepth m) ∧ in_int64 (SpoolOldestAgeSeconds m) ∧ in_int64 (SpoolDropsTotal m) ∧ in_int64 (DrainAttempt m).

Lemma clean_representable r : representable r → clean_request r = r.
Proof.
  destruct r as [src run t obs [d o dr a]]. unfold representable, clean_request, clean_meta.
  cbn [SourceID ProbeRunID ReqObservedAt Results SpoolMeta SpoolDepth SpoolOldestAgeSeconds SpoolDropsTotal DrainAttempt].
  intros (H1 & H2 & HF & H3 & H4 & H5 & H6). rewrite !to_valid_id, !wrap64_id by done. f_equal.
  induction HF as [|[x l e] obs [Hx He] _ IH]; [done|]. rewrite fmap_cons, IH.
  unfold clean_obs. cbn [TargetID LatencyMs ObsError] in *. by rewrite !to_valid_id by done.
Qed.

Lemma enc_all_total {A} (f : A → res json) l :
  (∃ vs, enc_all f l = Ok vs) ↔ Forall (λ x, ∃ v, f x = Ok v) l.
Proof.
  induction l as [|x l IH]; cbn.
  { split; [constructor|by exists []]. }
  rewrite Forall_cons, <- IH. split.
  - intros [vs H]. destruct (f x) as [v|]; [|done]. cbn in H. destruct (enc_all f l) as [vs'|]; [|done]. eauto.
  - intros [[v ->] [vs' ->]]. cbn. eauto.
Qed.

Lemma enc_observation_total o :
  (∃ v, enc_observation o = Ok v) ↔ match LatencyMs o with Some f => finite_float f = true | None => True end.
Proof.
  unfold enc_observation, enc_float_ptr. destruct (LatencyMs o) as [f|]; [|cbn; naive_solver].
  destruct f as [[]| | |[] m e]; cbn; try naive_solver; destruct (shortest m e) as [d k]; cbn;
    destruct (canonical m e); cbn; naive_solver.
Qed.

Lemma EncodePayload_total r : (∃ pl, EncodePayload r = Ok pl) ↔ encodable r.
Proof.
  unfold EncodePayload, encodable, enc_results, enc_time. destruct (year_ok (ReqObservedAt r)).
  - cbn [mbind res_bind]. setoid_rewrite <- enc_observation_total. rewrite <- enc_all_total.
    destruct (enc_all enc_observation (Results r)) as [os|]; cbn; naive_solver.
  - cbn. naive_solver.
Qed.

(** C5. Reports survive JSON: exactly the reports with a four-digit year and finite
    latencies are encoded, every encoded report is accepted by the controller's
    strict decoder, what it decodes is the report with invalid UTF-8 replaced and
    integers at machine width, and that is the report itself when its strings are
    valid UTF-8 and its integers are 64-bit: doubles, nanoseconds and all. *)
Theorem payload_roundtrip r :
  ((∃ pl, EncodePayload r = Ok pl) ↔ encodable r) ∧
  ∀ pl, EncodePayload r = Ok pl →
    @decode_results json_codec pl = Ok (clean_request r) ∧
    (representable r → @decode_results json_codec pl = Ok r).
Proof.
  split; [apply EncodePayload_total|]. intros pl Hpl. pose proof (payload_decodes r pl Hpl) as Hd.
  split; [done|]. intros Hr. by rewrite Hd, clean_representable.
Qed.

(** ** The controller's answers *)

Definition clean_targets (ts : list (string * string)) : list (string * string) :=
  (λ '(id, a), (to_valid id, to_valid a)) <$> ts.

Lemma newline_ends : ends_number (String (ascii_of_N 10) "") = true.
Proof. reflexivity. Qed.

Lemma wf_targets ts : Forall wf_json (map (λ '(id, a), jobj [("id", enc_string id); ("address", enc_string a)]) ts).
Proof. induction ts as [|[id a] ts IH]; constructor; [wf_fields|exact IH]. Qed.
#[export] Hint Resolve wf_targets : json.

Lemma dec_enc_targets ts old :
  dec_elements ("", "") (dec_struct false target_fields)
    (map (λ '(id, a), jobj [("id", enc_string id); ("address", enc_string a)]) ts) old = Ok (clean_targets ts).
Proof.
  assert (Hone : ∀ id a old, dec_struct false target_fields (jobj [("id", enc_string id); ("address", enc_string a)]) old
                   = Ok (to_valid id, to_valid a)).
  { intros id a old'. unfold dec_struct. do 2 dec_step ltac:(apply dec_enc_string). reflexivity. }
  revert old. induction ts as [|[id a] ts IH]; intros old; [done|]. cbn [map dec_elements].
  rewrite Hone. cbn [mbind res_bind]. by rewrite IH.
Qed.

Lemma targets_decodes ts v j :
  payload_json (JTargets ts v) = Some j →
  @decode_targets json_agent_codec (writeJSON_body j) = Ok (clean_targets ts, wrap64 v).
Proof.
  intros [= <-]. cbn [decode_targets json_agent_codec]. unfold Decode, writeJSON_body.
  rewrite first_value_print by (apply newline_ends || wf_fields).
  unfold dec_struct. dec_step ltac:(apply dec_enc_targets). dec_step ltac:(apply dec_enc_int). reflexivity.
Qed.

Lemma version_decodes v j :
  payload_json (JResults (Some v)) = Some j →
  @decode_version json_agent_codec (writeJSON_body j) = Ok (wrap64 v).
Proof.
  intros [= <-]. cbn [decode_version json_agent_codec app]. unfold Unmarshal, writeJSON_body.
  rewrite whole_value_print by (reflexivity || wf_fields). unfold dec_struct.
  rewrite dec_skip by reflexivity. dec_step ltac:(apply dec_enc_int). reflexivity.
Qed.
