(* ===== verification/AgentFacts.v ===== *)
(** * Correctness of the agent

    Every report a cycle builds passes the controller's validation; the target
    cache refreshes exactly when it must and never forgets a list it has; a
    failing cycle does not stop the hub. *)
From Stdlib Require Import Ascii ZArith Lia SpecFloat.
From S2P Require Import Prelude GoTime GoStrings Spool SpoolFacts SpoolClaims Chrony Config Server Results ResultsFacts Agent.

Local Open Scope string_scope.
Local Open Scope Z_scope.

(** ** Reports are valid *)

Definition ms_float : spec_float := S754_finite false 8589934592000000 (-33).

Lemma f64_millisecond : f64_of_Z Millisecond = ms_float.
Proof. vm_compute. reflexivity. Qed.

Lemma f64_of_Z_magnitude n : 0 <= n → magnitude (f64_of_Z n).
Proof. intros Hn. destruct n as [|p|p]; [done|apply f64_ratio_magnitude|lia]. Qed.

(** A float that is not negative, with its sign bit. *)
Definition positive_sign (f : spec_float) : Prop :=
  match f with S754_finite s _ _ | S754_infinity s => s = false | _ => True end.

Lemma f64_of_Z_sign n : 0 <= n → positive_sign (f64_of_Z n).
Proof.
  intros Hn. destruct n as [|p|p]; [done| |lia]. cbn [f64_of_Z f64_ratio]. unfold SFdiv.
  destruct (SFdiv_core_binary _ _ _ _ _ _) as [[m e] l]. apply round_aux_sign.
Qed.

Lemma f64_div_ms_magnitude f : positive_sign f → magnitude (f64_div f (f64_of_Z Millisecond)).
Proof.
  rewrite f64_millisecond. unfold magnitude, f64_div, ms_float.
  destruct f as [s|s| |s m e]; cbn [positive_sign]; intros Hs; subst; try reflexivity.
  unfold SFdiv. destruct (SFdiv_core_binary _ _ _ _ _ _) as [[m' e'] l]. cbn [xorb].
  pose proof (round_aux_sign m' e' l) as H.
  by destruct (binary_round_aux _ _ false m' e' l) as [s|s| |s m2 e2]; subst.
Qed.

Section Reports.
Context {Di : Dialer}.

(** What the reports rely on: a failed dial has an error text, and a dial does not
    end before it starts. *)
Definition sane_dialer : Prop :=
  (∀ k i a t e, DialContext k i a t = Some e → Error e ≠ "") ∧ (∀ k i, dial_start k i <= dial_end k i).

Lemma observe_valid k i t to : sane_dialer → t_ID t ≠ "" → valid_obs (observe k i t to).
Proof.
  intros [He Ht] Hid. unfold observe, Probe. destruct (DialContext k i (t_Address t) to) as [e|] eqn:Hd.
  - split; [done|]. split; [intros _; by eapply He|done].
  - split; [done|]. split; [done|]. intros l [= <-]. apply f64_div_ms_magnitude, f64_of_Z_sign.
    unfold TimeSub, sat64, min_int64, max_int64. specialize (Ht k i). lia.
Qed.

Lemma RunProbes_ids k ts to : TargetID <$> RunProbes k ts to = t_ID <$> ts.
Proof.
  apply list_eq. intros j. unfold RunProbes. rewrite !list_lookup_fmap, list_lookup_imap.
  destruct (ts !! j) as [t|]; [|done]. cbn. unfold observe. by destruct (Probe _ _ _ _).
Qed.

Lemma RunProbes_valid k ts to :
  sane_dialer → Forall (λ t, t_ID t ≠ "") ts → Forall valid_obs (RunProbes k ts to).
Proof.
  intros Hd Ht. apply Forall_lookup. intros j o. unfold RunProbes. rewrite list_lookup_imap.
  destruct (ts !! j) as [t|] eqn:Hj; [|done]. cbn. intros [= <-]. apply observe_valid; [done|].
  by apply (proj1 (Forall_lookup _ _) Ht j).
Qed.

Lemma cycle_request_ok c runID t k ts snap :
  sane_dialer → a_NodeID c ≠ "" → runID ≠ "" → t ≠ zero_time → ts ≠ [] →
  Forall (λ t, t_ID t ≠ "") ts → NoDup (t_ID <$> ts) →
  validateResultsRequest (a_NodeID c) (cycle_request c runID t (RunProbes k ts (a_ProbeTimeout c)) snap) = None.
Proof.
  intros Hd Hn Hr Ht Hts Hids Hnd. apply validateResultsRequest_spec. cbn.
  split; [done|]. split; [done|]. split; [done|]. split; [done|]. split.
  - intros H. apply (f_equal length) in H. unfold RunProbes in H. rewrite length_imap in H.
    by destruct ts.
  - rewrite RunProbes_ids. split; [done|]. by apply RunProbes_valid.
Qed.
End Reports.

(** C29. Agent and controller agree on what a report is: the request a probe cycle
    builds, whatever targets answered and however long they took, passes the
    controller's validation for the agent's own node, provided the node has an id,
    the target list is not empty and its ids are distinct and not empty (which
    [parseTargets_canonical] and the registry guarantee).  So a spooled report is
    never stuck on a 422 of its own making. *)
Theorem cycle_report_valid `{Dialer} c runID t k targets snap :
  sane_dialer → a_NodeID c ≠ "" → runID ≠ "" → t ≠ zero_time → targets ≠ [] →
  Forall (λ t, t_ID t ≠ "") targets → NoDup (t_ID <$> targets) →
  validateResultsRequest (a_NodeID c)
    (cycle_request c runID t (RunProbes k targets (a_ProbeTimeout c)) snap) = None.
Proof. apply cycle_request_ok. Qed.

(** ** The target cache *)

Section Cache.
Context {N : Type} {Tr : Transport N} {AC : AgentCodec} {E : Env}.

(** The contract of the target cache.  Without need for a refresh no request is
    sent and the cached list is returned.  With need, one request is sent, and
    either its list is returned and cached, with its version known, so that the
    next call needs a refresh only for age or a new notice; or the call reports an
    error, returns the list it had and leaves the cache as it was, so that the next
    call tries again. *)
Theorem cache_Targets_contract (w : world (sp_state (agent N))) :
  let c := cache (ext (st w)) in
  let '((ts, v, e), w') := cache_Targets w in
  let c' := cache (ext (st w')) in
  (needRefresh (clock (tick w)) c = false →
     ts = tc_targets c ∧ v = tc_knownVersion c ∧ e = None ∧ st w' = st w) ∧
  (needRefresh (clock (tick w)) c = true →
     (e = None ∧ tc_targets c' = ts ∧ tc_knownVersion c' = v ∧ tc_expectedNotice c' = v ∧
        (∃ k, tc_lastFetched c' = clock k ∧ (tick w < k)%nat)) ∨
     (e ≠ None ∧ ts = tc_targets c ∧ v = tc_knownVersion c ∧ c' = c)) ∧
  sdb (st w') = sdb (st w) ∧ sent (st w') = sent (st w).
Proof.
  cbn zeta. unfold cache_Targets, the_cache, now. unfold_M. cbn [st tick].
  destruct (needRefresh (clock (tick w)) (cache (ext (st w)))) eqn:Hr; cbn [negb];
    [|split; [by intros _|]; split; [done|by split]].
  unfold fetch. set (c := cache (ext (st w))) in *.
  destruct (NewRequest_error _) as [e|]; [cbn; split; [done|]; split; [intros _; by right|done]|].
  unfold http_do. unfold_M. cbn [st tick].
  destruct (Do _ _ _ (net (ext (st w)))) as [[resp|e] n]; cbn;
    [|split; [done|]; split; [intros _; by right|done]].
  destruct (negb _); cbn; [split; [done|]; split; [intros _; by right|done]|].
  destruct (decode_targets _) as [[l v]|e]; cbn; [|split; [done|]; split; [intros _; by right|done]].
  split; [done|]. split; [|done]. intros _. left. repeat split. eexists. split; [reflexivity|lia].
Qed.

(** The condition for a refresh, in words. *)
Lemma needRefresh_iff t c :
  needRefresh t c = true ↔
  tc_lastFetched c = zero_time ∨
  (tc_expectedNotice c ≠ 0 ∧ tc_expectedNotice c ≠ tc_knownVersion c) ∨
  (0 < tc_maxAge c ∧ tc_maxAge c <= TimeSub t (tc_lastFetched c)).
Proof. unfold needRefresh, IsZero. rewrite !orb_true_iff, !andb_true_iff, !negb_true_iff, !Z.eqb_eq, !Z.eqb_neq. lia. Qed.
End Cache.

(** ** The daemons *)

Section Daemons.
Context {N : Type} {Tr : Transport N} {AC : AgentCodec} {E : Env} {FS : FileSys} {D : SqlDriver} {Di : Dialer} {Ids : RunIDs}.

(** The world after [n] cycles, whatever they return. *)
Definition after_cycles (s : Spoke) (n : nat) (w : world (sp_state (agent N))) : world (sp_state (agent N)) :=
  Nat.iter n (λ w, (Run s w).2) w.

Lemma after_cycles_S s n w : after_cycles s (S n) w = after_cycles s n (Run s w).2.
Proof. exact (Nat.iter_succ_r n (λ w, (Run s w).2) w). Qed.

Lemma hub_loop_runs h n rest (w : world (sp_state (agent N))) :
  hub_loop h (replicate n Fires ++ CtxDone :: rest)%list w = (Some None, after_cycles (h_spoke h) n w).
Proof.
  revert w. induction n as [|n IH]; intros w; cbn [replicate app hub_loop]; [done|].
  rewrite after_cycles_S. unfold runCycle. unfold_M. destruct (Run (h_spoke h) w) as [r w1]. apply IH.
Qed.

(** The hub: one cycle at once, one per tick of its timer until the context is
    done, and no cycle's failure ends it. *)
Lemma hub_Run_runs h n rest (w : world (sp_state (agent N))) :
  h_startupJitter h <= 0 →
  hub_Run h (replicate n Fires ++ CtxDone :: rest)%list w = (Some None, after_cycles (h_spoke h) (S n) w).
Proof.
  intros Hj. unfold hub_Run. rewrite (proj2 (Z.ltb_ge _ _)) by done. rewrite after_cycles_S. unfold runCycle. unfold_M.
  destruct (Run (h_spoke h) w) as [r w1]. apply hub_loop_runs.
Qed.
End Daemons.

#[export] Instance accepted_eq_dec : EqDecision accepted.
Proof. solve_decision. Defined.

(** The listener goes on through connections and timeouts. *)
Definition goes_on (a : accepted) : bool :=
  match a with Conn => true | AcceptError _ timeout cancelled => timeout && negb cancelled end.

Lemma accept_loop_goes_on n pre rest :
  Forall (λ a, goes_on a = true) pre →
  accept_loop n (pre ++ rest)%list = accept_loop (n + length (filter (λ a, a = Conn) pre)) rest.
Proof.
  intros HF. revert n. induction HF as [|a pre Ha _ IH]; intros n; cbn [app accept_loop].
  { f_equal. cbn. lia. }
  rewrite filter_cons. destruct a as [|e [] []]; try done; cbn [accept_loop].
  rewrite IH, decide_True by done. f_equal. cbn. lia.
Qed.

(** ** Witnesses *)

Definition prompt_dialer : Dialer := {|
  DialContext _ i _ _ := if (i =? 1)%nat then Some (ErrMsg "i/o timeout") else None;
  dial_start _ _ := 0; dial_end _ _ := 1500 * 1000 |}.

Lemma prompt_dialer_sane : @sane_dialer prompt_dialer.
Proof. split; [intros k i a t e; cbn; destruct (i =? 1)%nat; [by intros [= <-]|done]|intros k i; cbn; lia]. Qed.

Definition two_targets : list Target := [mkTarget "hub-1" "10.0.0.1:8444"; mkTarget "hub-2" "10.0.0.2:8444"].

Lemma RunProbes_schedule_witness :
  @RunProbes_sched prompt_dialer [1%nat; 0%nat] 0 two_targets Second = @RunProbes prompt_dialer 0 two_targets Second.
Proof. apply (@RunProbes_schedule prompt_dialer [1%nat; 0%nat] 0 two_targets Second). apply Permutation_swap. Defined.

Lemma cycle_report_valid_witness :
  validateResultsRequest "spoke-1"
    (cycle_request (mkAgentConfig "spoke-1" "s" "https://c" two_targets Second Second 0 Minute Minute) "run-1" T0
       (@RunProbes prompt_dialer 0 two_targets Second) (mkDrainSnapshot 0 0 0)) = None.
Proof.
  apply (@cycle_report_valid prompt_dialer
    (mkAgentConfig "spoke-1" "s" "https://c" two_targets Second Second 0 Minute Minute) "run-1" T0 0 two_targets).
  - exact prompt_dialer_sane.
  - done.
  - done.
  - by vm_compute.
  - done.
  - by_decide.
  - by_decide.
Defined.
