(* ===== verification/Delivery.v ===== *)
(** * What a sender promises to the spool

    An interface between the spool and whatever is behind [Send]: if every send of
    a known report keeps an invariant of the receiving side, and an accepted one
    establishes (and none ever revokes) a guarantee, then after a drain pass the
    guarantee holds for every report the pass had accepted. *)
From Stdlib Require Import Ascii ZArith Lia.
From S2P Require Import Prelude GoTime GoStrings Backoff Spool SpoolFacts.

Local Open Scope Z_scope.

(** ** The contract *)

Section Contract.
Context {E : Env} {FS : FileSys} {D : SqlDriver} {X : Type} {SX : Sender X}.

(** The reports that may be sent, the invariant of the receiving side, and the
    guarantee for a report. *)
Context (known : string → string → Prop) (J : X → Prop) (G : string → string → X → Prop).

Class SenderContract : Prop := {
  send_keeps k run pl x : known run pl → J x → J (Send k run pl x).2;
  send_accepts k run pl x : known run pl → J x → (Send k run pl x).1.1 = OutcomeAccepted → G run pl (Send k run pl x).2;
  send_monotone k run pl x run' pl' : known run pl → J x → G run' pl' x → G run' pl' (Send k run pl x).2;
}.
Context {HC : SenderContract}.

(** The receiving side is sound, and what was accepted since [pre] is guaranteed,
    as is what was guaranteed before. *)
Definition honoured (pre : list send_event) (x0 : X) (s : sp_state X) : Prop :=
  J (ext s) ∧
  (∀ run pl, G run pl x0 → G run pl (ext s)) ∧
  ∃ evs, sent s = (pre ++ evs)%list ∧
    Forall (λ ev, known (ev_run ev) (ev_payload ev) ∧
                  (ev_outcome ev = OutcomeAccepted → G (ev_run ev) (ev_payload ev) (ext s))) evs.

Abbreviation keeps pre x0 := (moves (λ s s' : sp_state X, honoured pre x0 s → honoured pre x0 s')).

Lemma honoured_start s : J (ext s) → honoured (sent s) (ext s) s.
Proof. intros H. split; [done|]. split; [done|]. exists []. rewrite app_nil_r. split; [done|constructor]. Qed.

Lemma honoured_exec {A} pre x0 (f : Z → spool_db → res (A * spool_db)) : keeps pre x0 (exec f).
Proof.
  apply moves_stmt; [apply _|]. intros n s a s'. destruct (f (clock n) (sdb s)) as [[b db]|]; cbn; [|done].
  by intros [= _ <-].
Qed.

Lemma honoured_send pre x0 run pl : known run pl → keeps pre x0 (call_send run pl).
Proof.
  intros Hk w (HJ & Hm & evs & Hs & HF). unfold call_send.
  pose proof (send_keeps (tick w) run pl (ext (st w)) Hk HJ) as H1.
  pose proof (send_accepts (tick w) run pl (ext (st w)) Hk HJ) as H2.
  pose proof (λ r p, send_monotone (tick w) run pl (ext (st w)) r p Hk) as H3.
  destruct (Send _ _ _ _) as [[o e] x']. cbn in *. split; [done|]. split; [auto|].
  exists (evs ++ [SendEvent run pl o])%list. rewrite Hs, <- (assoc_L app). split; [done|].
  apply Forall_app. split; [|apply Forall_singleton; by split].
  eapply Forall_impl; [exact HF|]. cbn. intros ev [Hkv Hev]. split; [done|]. intros Ho. auto.
Qed.

Ltac go := unfold update, query, markFailure; repeat first [apply honoured_exec | moves_step].

Lemma honoured_footprint pre x0 p sfx tot : keeps pre x0 (footprint_go p sfx tot).
Proof.
  revert tot. induction sfx as [|s sfx IH]; intros tot; cbn [footprint_go]; [go|].
  apply moves_bind; [apply _|by intros w|]. intros []; [apply IH|apply IH|go].
Qed.

Lemma honoured_OldestAge pre x0 : keeps pre x0 OldestAge.
Proof. unfold OldestAge. go. Qed.

Lemma honoured_retention pre x0 fuel s n : keeps pre x0 (retention_loop fuel s n).
Proof.
  revert n. induction fuel as [|fuel IH]; intros n; cbn [retention_loop]; [go|].
  unfold FootprintBytes.
  repeat first [apply honoured_footprint | apply honoured_OldestAge | apply IH | progress go].
Qed.

Lemma honoured_drain_loop pre x0 s t batch stats :
  Forall (λ c, known (probe_run_id c) (payload c)) batch → keeps pre x0 (drain_loop s t batch stats).
Proof.
  intros HB. revert stats. induction HB as [|c batch Hc _ IH]; intros stats; cbn [drain_loop]; [go|].
  repeat first [apply (honoured_send _ _ _ _ Hc) | apply IH | progress go].
Qed.

(** A drain pass over known reports honours the contract. *)
Lemma honoured_Drain pre x0 s (w : world (sp_state X)) :
  (∀ c, c ∈ rows (sdb (st w)) → known (probe_run_id c) (payload c)) →
  honoured pre x0 (st w) → honoured pre x0 (st (Drain s w).2).
Proof.
  intros HR Hw. unfold Drain. unfold mbind at 1. unfold M_bind at 1.
  pose proof (honoured_exec pre x0 (λ (_ : Z) db, Ok (limit (DrainRows (cfg s)) (by_age db), db)) w Hw) as H1.
  fold (query (X := X) (λ db, limit (DrainRows (cfg s)) (by_age db))) in H1.
  destruct (query _ w) as [r w1] eqn:Hq. apply exec_run in Hq as (_ & _ & _ & Hr). cbn in H1.
  destruct r as [batch|e]; [|done]. injection Hr as Hb _.
  assert (HB : Forall (λ c, known (probe_run_id c) (payload c)) batch).
  { apply Forall_forall. intros c Hc. apply HR. subst batch. by apply (batch_rows s). }
  revert w1 H1. match goal with |- ∀ w1, _ → honoured _ _ (st (?m w1).2) => change (keeps pre x0 m) end.
  repeat first [apply (honoured_drain_loop _ _ _ _ _ _ HB) | progress go]. intros u. apply honoured_retention.
Qed.
End Contract.
