(* ===== verification/System.v ===== *)
(** * The system: agent, network and controller together

    The agent's transport is a lossy link to the controller's [Handler]: a request
    may be lost, or served with its response lost, and between any two requests of
    the agent the controller serves any requests of others.  The theorems are end
    to end: what becomes of a report from the spool of an agent to the table of
    results, and of a change in the registry to the target list of an agent. *)
From Stdlib Require Import Ascii ZArith Lia SpecFloat.
From S2P Require Import Prelude GoTime GoStrings Spool SpoolFacts Delivery Chrony Config ControllerDB Nodes Http Server Results ResultsFacts Handlers Routes HandlersFacts Agent AgentFacts.

Local Open Scope string_scope.
Local Open Scope Z_scope.

(** ** The link *)

Inductive fate := Lost | ReplyLost | Delivered.

(** What the network does to the agent's request of a step; the requests of others
    the controller has served by then; how a payload is written as a body. *)
Class Link := {
  fate_of : nat → fate;
  link_error : err;
  others : nat → list request;
  write_body : payload → string;
  url_error : string → option err;
}.

(** The request the controller sees: the path follows the base URL. *)
Definition server_request (base : string) (q : client_request) : request :=
  mkReq (q_Method q) (str_drop (String.length base) (q_URL q)) (q_Header q) "" "" false None ∅ ∅ (q_Body q).

(** What a client reads of a response; a handler that panics or hangs sends none. *)
Definition client_view `{Link} (resp : response) : res client_response :=
  match body resp with
  | Aborted | Hung => Err link_error
  | p => Ok (mkClientResponse (code resp) "" (write_body p))
  end.

Section Controller.
Context {CE : Env} {CD : CtlDriver} {Cd : Codec} {Rn : Rand} {MS : MatrixSQL} {Up : Upgrader} {Sz : Stat} {L : Link}.
Context (cf : Server.config) (metrics_on : bool) (base me : string).

Definition serve_one (w : world srv) (r : request) : world srv := (Handler cf metrics_on r w).2.

Definition link_Do (k : nat) (timeout : Z) (q : client_request) (w : world srv) : res client_response * world srv :=
  let w := foldl serve_one w (others k) in
  match fate_of k with
  | Lost => (Err link_error, w)
  | ReplyLost => (Err link_error, (Handler cf metrics_on (server_request base q) w).2)
  | Delivered =>
      let '(resp, w') := Handler cf metrics_on (server_request base q) w in
      (client_view resp, w')
  end.

#[export] Instance link_transport : Transport (world srv) := {| NewRequest_error := url_error; Do := link_Do |}.

(** ** Reports at the controller *)

(** A report: the payload decodes to a request of the node with the run id and with
    observations. *)
Definition report (run pl : string) (req : ResultsRequest) : Prop :=
  decode_results pl = Ok req ∧ ProbeRunID req = run ∧ SourceID req = me ∧ Results req ≠ [].

(** All observations of a request are stored; none of its keys is. *)
Definition delivered (req : ResultsRequest) (d : cdb) : Prop :=
  Forall (λ o, ∃ row, row ∈ results d ∧ stored req o row) (Results req).
Definition untouched (req : ResultsRequest) (d : cdb) : Prop :=
  Forall (λ o, ¬ obs_key req o ∈ (result_key <$> results d)) (Results req).

(** The reports an agent may send: one payload for a run id. *)
Context (known : string → string → Prop).
Definition one_payload : Prop := ∀ run pl pl', known run pl → known run pl' → pl = pl'.
Definition all_reports : Prop := ∀ run pl, known run pl → ∃ req, report run pl req.

(** The run ids the node has used so far. *)
Context (used : string → Prop).

(** What the controller's database says of the node's reports: each is there as a
    whole or not at all; and every result of the node has a run id it used. *)
Record whole_reports (d : cdb) : Prop := {
  wr_wf : wf_cdb d;
  wr_settled run pl req : known run pl → report run pl req → untouched req d ∨ delivered req d;
  wr_used row : row ∈ results d → r_source_id row = me → used (r_probe_run_id row);
}.

Lemma delivered_mono req d d' rows : results d' = (results d ++ rows)%list → delivered req d → delivered req d'.
Proof.
  intros Hr Hd. eapply Forall_impl; [exact Hd|]. cbn. intros o (row & Hin & Hs). exists row. split; [|done].
  rewrite Hr. apply elem_of_app. by left.
Qed.

Lemma report_source run pl req : report run pl req → SourceID req = me.
Proof. by intros (_ & _ & ? & _). Qed.

(** Rows with other keys leave a report untouched. *)
Lemma untouched_app req d d' rows :
  results d' = (results d ++ rows)%list →
  Forall (λ row, ¬ (r_source_id row = SourceID req ∧ r_probe_run_id row = ProbeRunID req)) rows →
  untouched req d → untouched req d'.
Proof.
  intros Hr HF Hu. eapply Forall_impl; [exact Hu|]. cbn. intros o Hn Hin. rewrite Hr, fmap_app in Hin.
  apply elem_of_app in Hin as [Hin|Hin]; [done|]. apply list_elem_of_fmap in Hin as (row & Hk & Hin).
  rewrite Forall_forall in HF. apply (HF row Hin). unfold obs_key, result_key in Hk. by injection Hk as <- <- _.
Qed.

(** Results of other nodes. *)
Lemma whole_reports_others d d' id :
  id ≠ me → wf_cdb d' → appends id d d' → whole_reports d → whole_reports d'.
Proof.
  intros Hid Hwf (rows & Hr & HF) [_ H1 H2]. split; [done| |].
  - intros run pl req Hk Hrep. destruct (H1 run pl req Hk Hrep) as [Hu|Hd]; [left|right; by eapply delivered_mono].
    eapply untouched_app; [exact Hr| |exact Hu]. eapply Forall_impl; [exact HF|]. cbn.
    intros row -> [He _]. by rewrite (report_source _ _ _ Hrep) in He.
  - intros row Hin Hs. rewrite Hr in Hin. apply elem_of_app in Hin as [Hin|Hin]; [by apply H2|].
    rewrite Forall_forall in HF. by rewrite (HF row Hin) in Hs.
Qed.

Lemma whole_reports_same d d' : wf_cdb d' → results d' = results d → whole_reports d → whole_reports d'.
Proof.
  intros Hwf Hr [_ H1 H2]. split; [done| |by rewrite Hr].
  intros run pl req Hk Hrep. unfold untouched, delivered. rewrite Hr. by eapply H1.
Qed.

Lemma ingested_delivered req d d' : ingested req (Results req) d d' → delivered req d'.
Proof.
  intros Hi. destruct (ing_rows _ _ _ _ Hi) as (rows & Hr & HS). apply Forall_forall. intros o Ho.
  destruct (Forall2_elem_r (flip (stored req)) rows (Results req) o) as (row & Hrow & Hst); [by apply Forall2_flip|done|].
  exists row. split; [rewrite Hr; apply elem_of_app; by right|done].
Qed.

(** A batch of the node's own. *)
Lemma whole_reports_ingested run pl req d d' :
  one_payload → used run → known run pl → report run pl req → wf_cdb d' →
  ingested req (Results req) d d' → whole_reports d → whole_reports d'.
Proof.
  intros Hone Hu Hk Hrep Hwf Hi [_ H1 H2]. destruct (ing_rows _ _ _ _ Hi) as (rows & Hr & HS).
  assert (HF : Forall (λ row, r_source_id row = me ∧ r_probe_run_id row = run) rows).
  { apply Forall_forall. intros row Hrow. destruct (Forall2_elem_r _ _ _ _ HS Hrow) as (o & _ & (Hs & Hp & _)).
    rewrite Hs, Hp, (report_source _ _ _ Hrep). split; [done|]. by destruct Hrep as (_ & ? & _). }
  split; [done| |].
  - intros run' pl' req' Hk' Hrep'. destruct (decide (run' = run)) as [->|Hne].
    + right. assert (pl' = pl) as -> by (by eapply Hone).
      assert (req' = req) as -> by (destruct Hrep as [Hd _], Hrep' as [Hd' _]; congruence).
      by apply ingested_delivered in Hi.
    + destruct (H1 run' pl' req' Hk' Hrep') as [Hun|Hd]; [left|right; by eapply delivered_mono].
      eapply untouched_app; [exact Hr| |exact Hun]. eapply Forall_impl; [exact HF|]. cbn.
      intros row [_ ->] [_ He]. destruct Hrep' as (_ & Hp & _). congruence.
  - intros row Hin Hs. rewrite Hr in Hin. apply elem_of_app in Hin as [Hin|Hin]; [by apply H2|].
    rewrite Forall_forall in HF. destruct (HF row Hin) as [_ ->]. done.
Qed.
(** ** Serving requests *)

Definition grows (d d' : cdb) : Prop := ∃ rows, results d' = (results d ++ rows)%list.

#[export] Instance grows_preorder : PreOrder grows.
Proof.
  split; [intros d; exists []; by rewrite app_nil_r|].
  intros d1 d2 d3 [r1 H1] [r2 H2]. exists (r1 ++ r2)%list. by rewrite H2, H1, <- (assoc_L app).
Qed.

Lemma delivered_grows req d d' : grows d d' → delivered req d → delivered req d'.
Proof. intros [rows Hr]. by eapply delivered_mono. Qed.

Abbreviation cdb_of w := (s_db (st w)).

(** Requests that do not name the node. *)
Lemma serve_others w l :
  Forall (λ r, Header_Get r "X-Nlm-Node-Id" ≠ me) l → whole_reports (cdb_of w) →
  whole_reports (cdb_of (foldl serve_one w l)) ∧ grows (cdb_of w) (cdb_of (foldl serve_one w l)).
Proof.
  intros HF. revert w. induction HF as [|r l Hr _ IH]; intros w Hw; cbn [foldl]; [done|].
  pose proof (Handler_appends cf metrics_on r w) as Ha. cbn in Ha.
  destruct (IH (serve_one w r)) as [H1 H2].
  - eapply whole_reports_others; [exact Hr| |exact Ha|done]. apply wf_Handler. cbn. apply (wr_wf _ Hw).
  - split; [done|]. etransitivity; [|exact H2]. destruct Ha as (rows & Hrows & _). by exists rows.
Qed.

Lemma route_results c pl : cl_base c = base →
  find_route metrics_on (server_request base (results_request c pl)) = RResults.
Proof.
  intros Hb. unfold server_request, results_request. cbn [q_URL q_Method q_Header q_Body].
  rewrite Hb, str_drop_app. by destruct metrics_on.
Qed.

Lemma route_targets tc : tc_base tc = base →
  find_route metrics_on (server_request base (targets_request tc)) = RTargets.
Proof.
  intros Hb. unfold server_request, targets_request. cbn [q_URL q_Method q_Header q_Body].
  rewrite Hb, str_drop_app. by destruct metrics_on.
Qed.

(** The status codes the client takes for an acceptance. *)
Definition accepting (code : Z) : Prop := 200 <= code < 300 ∨ code = 409.

(** The node's own report, posted. *)
Lemma post_report c run pl req w :
  honest_faults → one_payload → used run → known run pl → report run pl req →
  cl_base c = base → cl_nodeID c = me → whole_reports (cdb_of w) →
  let '(resp, w') := Handler cf metrics_on (server_request base (results_request c pl)) w in
  whole_reports (cdb_of w') ∧ grows (cdb_of w) (cdb_of w') ∧ (accepting (code resp) → delivered req (cdb_of w')).
Proof.
  intros Hh Hone Hu Hk Hrep Hb Hn Hw.
  set (r := server_request base (results_request c pl)).
  assert (Hwf : wf_cdb (cdb_of (Handler cf metrics_on r w).2)) by (apply wf_Handler; apply (wr_wf _ Hw)).
  revert Hwf. unfold Handler. unfold r at 1 3. rewrite (route_results c pl Hb). cbn [serve].
  assert (Hid : Header_Get r "X-Nlm-Node-Id" = me).
  { unfold r, Header_Get, server_request, results_request, auth_headers. cbn [Header q_Header].
    rewrite lookup_insert_ne, lookup_insert_eq by done. done. }
  destruct (bearerAuth_cases handleResults r w) as [(node & w1 & Hc & Hst & _ & ->)|(resp & w1 & -> & Hst & Hcode)].
  2: { intros _. rewrite Hst. split; [done|]. split; [reflexivity|].
       unfold accepting. apply list_elem_of_In in Hcode as [<-|[<-|[]]]; lia. }
  destruct Hc as (row & tok & _ & -> & _). rewrite Hid.
  pose proof (proj1 Hrep) as Hdec. destruct (validateResultsRequest me req) as [e|] eqn:Hval.
  { assert (Hrej : rejected (node_of me row) r) by 
      (unfold rejected, r; cbn [Body server_request results_request q_Body]; rewrite Hdec; cbn [node_of ID]; by rewrite Hval).
    pose proof (handleResults_rejected (node_of me row) r w1 Hrej) as H.
    destruct (handleResults (node_of me row) r w1) as [resp w2]. rewrite Hst in H. cbn [snd].
    destruct H as (Hcode & Hr & _). intros Hwf. split; [by eapply whole_reports_same|].
    split; [exists []; by rewrite app_nil_r|]. unfold accepting. rewrite Hcode. lia. }
  pose proof (handleResults_valid (node_of me row) r w1 req Hh Hdec Hval) as H.
  destruct (handleResults (node_of me row) r w1) as [resp w2]. rewrite Hst in H. cbn [snd].
  intros Hwf. destruct H as [_ [(Hcode & d1 & Hi & Ho)|(Hcode & Ho & H409)]].
  - destruct (ing_rows _ _ _ _ Hi) as (rows & Hr & _). destruct Ho as (Hr' & _ & _ & _).
    assert (Hi' : ingested req (Results req) (cdb_of w) d1) by done.
    assert (Hwf1 : wf_cdb d1) by (apply (ingested_wf _ _ _ Hi'), Hw).
    split; [|split].
    + eapply whole_reports_same; [done|exact Hr'|].
      by eapply (whole_reports_ingested run pl req).
    + exists rows. by rewrite Hr', Hr.
    + intros _. apply ingested_delivered in Hi. unfold delivered. by rewrite Hr'.
  - destruct Ho as (Hr' & _). split; [by eapply whole_reports_same|]. split; [exists []; by rewrite app_nil_r|].
    intros Ha. assert (H4 : code resp = 409).
    { destruct Ha as [Ha|Ha]; [|done]. apply list_elem_of_In in Hcode as [He|[He|[He|[]]]]; lia. }
    destruct (H409 H4) as (o & Ho & Hin). unfold delivered. rewrite Hr'.
    destruct (wr_settled _ Hw run pl req Hk ltac:(done)) as [Hun|Hd]; [|done].
    unfold untouched in Hun. rewrite Forall_forall in Hun. by destruct (Hun o Ho).
Qed.

(** The node's request for its targets. *)
Lemma get_targets tc w :
  tc_base tc = base → whole_reports (cdb_of w) →
  cdb_of (Handler cf metrics_on (server_request base (targets_request tc)) w).2 = cdb_of w.
Proof.
  intros Hb Hw. unfold Handler. rewrite (route_targets tc Hb). cbn [serve].
  destruct (bearerAuth_cases handleTargets (server_request base (targets_request tc)) w)
    as [(node & w1 & _ & Hst & _ & ->)|(resp & w1 & -> & Hst & _)].
  - rewrite <- Hst. symmetry. apply (same_db_handleTargets node _ w1).
  - cbn. by rewrite Hst.
Qed.
(** ** The contract of the client *)

Definition sound_side (x : agent (world srv)) : Prop :=
  whole_reports (cdb_of (net x)) ∧ tc_base (cache x) = base.

Definition arrived (run pl : string) (x : agent (world srv)) : Prop :=
  ∃ req, report run pl req ∧ delivered req (cdb_of (net x)).

Context (foreign : ∀ k, Forall (λ r, Header_Get r "X-Nlm-Node-Id" ≠ me) (others k)).
Context (honest : honest_faults) (Hone : one_payload) (Hall : all_reports).
Context (Hused : ∀ run pl, known run pl → used run).

Lemma outcome_accepting {AC : AgentCodec} resp b : (outcome_of resp b).1 = OutcomeAccepted → accepting (r_StatusCode resp).
Proof.
  unfold outcome_of, accepting. destruct ((200 <=? r_StatusCode resp) && (r_StatusCode resp <? 300)) eqn:H1; [lia|].
  destruct (Z.eqb_spec (r_StatusCode resp) 409); [by right|]. by repeat case_match.
Qed.

Lemma link_post c run pl req k w :
  known run pl → report run pl req → cl_base c = base → cl_nodeID c = me → whole_reports (cdb_of w) →
  let '(r, w') := link_Do k (cl_httpTimeout c) (results_request c pl) w in
  whole_reports (cdb_of w') ∧ grows (cdb_of w) (cdb_of w') ∧
  (∀ resp, r = Ok resp → accepting (r_StatusCode resp) → delivered req (cdb_of w')).
Proof.
  intros Hk Hrep Hb Hn Hw. unfold link_Do. destruct (serve_others w (others k) (foreign k) Hw) as [Hw1 Hg].
  set (w1 := foldl serve_one w (others k)) in *.
  pose proof (post_report c run pl req w1 honest Hone (Hused _ _ Hk) Hk Hrep Hb Hn Hw1) as H.
  destruct (Handler cf metrics_on _ w1) as [resp w2]. destruct H as (H1 & H2 & H3).
  destruct (fate_of k); cbn [snd].
  - split; [done|]. split; [done|]. done.
  - split; [done|]. split; [by etransitivity|]. done.
  - split; [done|]. split; [by etransitivity|]. unfold client_view.
    intros cr Hcr Ha. apply H3. destruct (body resp); simplify_eq; done.
Qed.

Lemma link_Send {AC : AgentCodec} c k run pl x :
  cl_base c = base → cl_nodeID c = me → known run pl → sound_side x →
  let '(oe, x') := client_Send c k run pl x in
  sound_side x' ∧ grows (cdb_of (net x)) (cdb_of (net x')) ∧ (oe.1 = OutcomeAccepted → arrived run pl x').
Proof.
  intros Hb Hn Hk [Hw Htc]. destruct (Hall run pl Hk) as [req Hrep]. unfold client_Send.
  change (NewRequest_error ?u) with (url_error u). change (Do ?a ?b ?q ?n) with (link_Do a b q n).
  destruct (url_error _) as [e|]; [split; [by split|]; split; [reflexivity|done]|].
  pose proof (link_post c run pl req k (net x) Hk Hrep Hb Hn Hw) as H.
  destruct (link_Do k _ _ (net x)) as [[resp|e] w']; destruct H as (H1 & H2 & H3).
  - split; [split; [done|]|split; [done|]].
    + cbn. case_bool_decide; [|done]. unfold notifyVersion, NoticeVersion. by repeat case_match.
    + intros Ho. exists req. split; [done|]. eapply H3; [reflexivity|]. by eapply outcome_accepting.
  - split; [by split|]. split; [done|]. done.
Qed.

Lemma client_contract {AC : AgentCodec} c :
  cl_base c = base → cl_nodeID c = me → SenderContract (SX := client_Sender c) known sound_side arrived.
Proof.
  intros Hb Hn. split; intros k run pl x; [intros Hk HJ|intros Hk HJ|intros run' pl' Hk HJ];
    pose proof (link_Send c k run pl x Hb Hn Hk HJ) as H; cbn [Send client_Sender];
    destruct (client_Send c k run pl x) as [oe x']; destruct H as (H1 & H2 & H3); [done|done|].
  intros (req & Hrep & Hd). exists req. split; [done|]. by eapply delivered_grows.
Qed.

(** Asking for targets does not touch the reports. *)
Lemma link_get tc k timeout w :
  tc_base tc = base → whole_reports (cdb_of w) →
  let w' := (link_Do k timeout (targets_request tc) w).2 in
  whole_reports (cdb_of w') ∧ grows (cdb_of w) (cdb_of w').
Proof.
  intros Hb Hw. unfold link_Do. destruct (serve_others w (others k) (foreign k) Hw) as [Hw1 Hg].
  set (w1 := foldl serve_one w (others k)) in *.
  pose proof (get_targets tc w1 Hb Hw1) as Ht.
  destruct (fate_of k); cbn [snd]; [done| |].
  - by rewrite Ht.
  - destruct (Handler cf metrics_on _ w1) as [resp w2]. cbn in *. by rewrite Ht.
Qed.
End Controller.
