(* ===== verification/EndToEnd.v ===== *)
(** * End to end: from a probe to a stored result

    The invariant that ties the spool of an agent to the table of results of the
    controller, kept by every probe cycle of the agent; and what it gives: a
    report leaves the spool only when it is stored, whole and once, or dropped by
    retention, and how many can be dropped without being counted. *)
From Stdlib Require Import Ascii ZArith Lia SpecFloat.
From S2P Require Import Prelude GoTime GoStrings GoNumbers Spool SpoolFacts SpoolClaims Delivery Chrony Config ControllerDB Nodes Http Server Results ResultsFacts Handlers Routes HandlersFacts Agent AgentFacts Json Wire System.

Local Open Scope string_scope.
Local Open Scope Z_scope.

(** Both programs speak JSON. *)
#[local] Existing Instance json_codec.
#[local] Existing Instance json_agent_codec.

(** ** The invariant *)

Section Cycle.
Context (CE : Env) {CD : CtlDriver} {Rn : Rand} {MS : MatrixSQL} {Up : Upgrader} {Sz : Stat} {L : Link}.
Context (cf : Server.config) (metrics_on : bool).
Context {E : Env} {FS : FileSys} {D : SqlDriver} {Di : Dialer} {Ids : RunIDs}.
Context (s : Spoke).

Abbreviation me := (a_NodeID (sk_cfg s)).
Abbreviation base := (cl_base (sk_client s)).
Abbreviation state := (sp_state (agent (world srv))).

#[local] Instance the_transport : Transport (world srv) := link_transport (CE := CE) cf metrics_on base.

(** What is spooled, and the run ids drawn before a step. *)
Definition spooled (db : spool_db) (run pl : string) : Prop :=
  ∃ r, r ∈ rows db ∧ probe_run_id r = run ∧ Spool.payload r = pl.
Definition issued (n : nat) (run : string) : Prop := ∃ k, (k < n)%nat ∧ NewV7 k = Ok run.

Record system_inv (w : world state) : Prop := {
  si_db : wf_db (sdb (st w));
  si_side : sound_side base me (spooled (sdb (st w))) (issued (tick w)) (ext (st w));
  si_reports r : r ∈ rows (sdb (st w)) →
    issued (tick w) (probe_run_id r) ∧ ∃ req, report me (probe_run_id r) (Spool.payload r) req;
}.

(** What the agent relies on in the outside world: run ids are never drawn twice,
    they and the node's id are UTF-8, requests of others do not carry the node's id,
    failures do not pose as duplicates, and the clock shows a four-digit year. *)
Record trusted : Prop := {
  t_client : cl_nodeID (sk_client s) = me;
  t_ids i j run : NewV7 i = Ok run → NewV7 j = Ok run → i = j;
  t_me : valid_utf8 me = true;
  t_runs i run : NewV7 i = Ok run → valid_utf8 run = true;
  t_foreign k : Forall (λ r, Header_Get r "X-Nlm-Node-Id" ≠ me) (others k);
  t_honest : @honest_faults CE;
  t_driver n e : fault n = Some e → Spool.isUniqueViolation e = false ∧ errors_Is e ErrDuplicate = false;
  t_clock : clock_in_range E;
}.

Lemma whole_reports_weaken (known known' : string → string → Prop) (used used' : string → Prop) d :
  (∀ run pl, known' run pl → known run pl) → (∀ run, used run → used' run) →
  whole_reports me known used d → whole_reports me known' used' d.
Proof. intros Hk Hu [H1 H2 H3]. split; [done| |]; eauto. Qed.

Lemma issued_mono n n' run : (n <= n')%nat → issued n run → issued n' run.
Proof. intros Hn (k & Hk & He). exists k. split; [lia|done]. Qed.

(** Steps that leave the rows, the drop count and the other side alone. *)
Definition quiet (x y : state) : Prop :=
  ext y = ext x ∧ rows (sdb y) = rows (sdb x) ∧ meta (sdb y) !! "drops_total" = meta (sdb x) !! "drops_total" ∧
  (wf_db (sdb x) → wf_db (sdb y)).

#[local] Instance quiet_preorder : PreOrder quiet.
Proof.
  split; [by intros x; unfold quiet|].
  intros x y z (?&?&?&?) (?&?&?&?). unfold quiet. split; [congruence|]. split; [congruence|]. split; [congruence|auto].
Qed.

Lemma quiet_query {A} (f : spool_db → A) : moves quiet (Spool.query f).
Proof.
  apply moves_stmt; [apply _|]. intros n x a y. cbn. by intros [= _ <-].
Qed.

Lemma quiet_meta k f : k ≠ "drops_total" → moves quiet (Spool.update (λ _, sql_update_meta k f)).
Proof.
  intros Hk. apply moves_stmt; [apply _|]. intros n x a y. cbn. intros [= _ <-].
  split; [done|]. split; [done|]. split; [by apply lookup_alter_ne|apply sql_update_meta_wf].
Qed.

Ltac quiet_auto := repeat first [apply quiet_query | apply quiet_meta; done | moves_step].

Lemma quiet_snapshot : moves quiet LastDrainSnapshot.
Proof. unfold LastDrainSnapshot. quiet_auto. Qed.

Lemma quiet_Depth : moves quiet Spool.Depth.
Proof. unfold Spool.Depth. quiet_auto. Qed.

Lemma quiet_OldestAge : moves quiet OldestAge.
Proof. unfold OldestAge. quiet_auto. Qed.

Lemma quiet_DropsTotal : moves quiet Spool.DropsTotal.
Proof. unfold Spool.DropsTotal. quiet_auto. Qed.

Lemma quiet_save d o n : moves quiet (SaveDrainSnapshot d o n).
Proof. unfold SaveDrainSnapshot. quiet_auto. Qed.

Lemma inv_quiet w w' : quiet (st w) (st w') → (tick w <= tick w')%nat → system_inv w → system_inv w'.
Proof.
  intros (He & Hr & Hm & Hwf) Ht [H1 [H3 H4] H5]. split; [auto| |].
  - rewrite He. split; [|done]. eapply whole_reports_weaken; [| |exact H3].
    + unfold spooled. by rewrite Hr.
    + intros run. by apply issued_mono.
  - intros r. rewrite Hr. intros Hin. destruct (H5 r Hin) as [Hi Hrep]. split; [|done]. by eapply issued_mono.
Qed.

(** What one step of a cycle may do, seen from the controller and the spool. *)
Abbreviation ctl w := (s_db (st (net (ext (st w))))).

(** ** Fetching targets *)

Lemma inv_Targets src w :
  trusted → system_inv w →
  let w' := (Targets src w).2 in
  system_inv w' ∧ sdb (st w') = sdb (st w) ∧ grows (ctl w) (ctl w') ∧ (tick w <= tick w')%nat.
Proof.
  intros HT Hi. destruct src as [ts|]; cbn [Targets]; [done|].
  unfold cache_Targets, the_cache, now. unfold_M. cbn [st tick].
  assert (Hlater : ∀ n (x : agent (world srv)),
    (tick w <= n)%nat → whole_reports me (spooled (sdb (st w))) (issued (tick w)) (s_db (st (net x))) → tc_base (cache x) = base →
    system_inv (mkWorld (SpState (sdb (st w)) x (sent (st w))) n)).
  { intros n x Hn Hw Hb. destruct Hi as [H1 _ H5]. split; cbn; [done| |].
    - split; [|done]. eapply whole_reports_weaken; [done| |exact Hw]. intros run. by apply issued_mono.
    - intros r Hr. destruct (H5 r Hr) as [? ?]. split; [|done]. by eapply issued_mono. }
  destruct Hi as [H1 [H3 H4] H5]. set (x := ext (st w)) in *.
  assert (Hrefl : system_inv (mkWorld (st w) (S (tick w)))).
  { specialize (Hlater (S (tick w)) x). destruct (st w) as [db x0 sn]. apply Hlater; [lia|done|done]. }
  destruct (negb (needRefresh _ _)); [split; [done|]; split; [done|]; split; [reflexivity|cbn; lia]|].
  unfold fetch. change (NewRequest_error ?u) with (url_error u).
  destruct (url_error _); [split; [done|]; split; [done|]; split; [reflexivity|cbn; lia]|].
  unfold http_do. unfold_M. cbn [st tick]. change (Do ?a ?b ?q ?n) with (link_Do (CE := CE) cf metrics_on base a b q n).
  pose proof (link_get (CE := CE) cf metrics_on base me _ _ (t_foreign HT) (cache x) (S (tick w))
    (tc_httpTimeout (cache x)) (net x) H4 H3) as H. cbn zeta in H.
  fold x. destruct (link_Do _ _ _ _ _ _ (net x)) as [r n]. cbn [snd] in H. destruct H as [Hw Hg].
  assert (Hend : ∀ t (c : TargetCache), (S (tick w) <= t)%nat → tc_base c = base →
    let w' := mkWorld (SpState (sdb (st w)) (mkAgent c n) (sent (st w))) t in
    system_inv w' ∧ sdb (st w') = sdb (st w) ∧ grows (ctl w) (ctl w') ∧ (tick w <= tick w')%nat).
  { intros t c Ht Hc. split; [apply Hlater; [lia|done|done]|]. split; [done|]. split; [done|cbn; lia]. }
  destruct r as [resp|e]; [|apply Hend; [lia|done]].
  destruct (negb _); [apply Hend; [lia|done]|].
  destruct (decode_targets _) as [[l v]|e]; [|apply Hend; [lia|done]].
  cbn. apply (Hend _ (cache_store _ _ _ _)); [cbn; lia|done].
Qed.
(** ** Enqueueing the report of a cycle *)

Lemma run_fresh w k run :
  trusted → system_inv w → (tick w <= k)%nat → NewV7 k = Ok run →
  ¬ issued (tick w) run ∧ ¬ run ∈ (probe_run_id <$> rows (sdb (st w))).
Proof.
  intros HT Hi Hk Hid.
  assert (Hn : ¬ issued (tick w) run).
  { intros (j & Hj & Hjd). pose proof (t_ids HT k j run Hid Hjd). lia. }
  split; [done|]. intros Hin. apply list_elem_of_fmap in Hin as (r & -> & Hr). apply Hn. by apply (si_reports w Hi).
Qed.

(** A row with a fresh run id joins the spool. *)
Lemma inv_new_row w w2 r req k :
  trusted → system_inv w → (tick w <= k < tick w2)%nat → NewV7 k = Ok (probe_run_id r) →
  report me (probe_run_id r) (Spool.payload r) req → wf_db (sdb (st w2)) →
  rows (sdb (st w2)) = (rows (sdb (st w)) ++ [r])%list → ext (st w2) = ext (st w) → system_inv w2.
Proof.
  intros HT Hi Hk Hid Hrep Hwf Hr He. destruct (run_fresh w k _ HT Hi ltac:(lia) Hid) as [Hnew _].
  destruct Hi as [H1 [[W1 W2 W3] H4] H5]. split; [done| |].
  - rewrite He. split; [|done]. split; [done| |].
    + intros run pl q (r' & Hin & <- & <-) Hq. rewrite Hr in Hin.
      apply elem_of_app in Hin as [Hin|Hin]; [apply (W2 (probe_run_id r') (Spool.payload r')); [by exists r'|done]|].
      apply list_elem_of_singleton in Hin as ->. left. apply Forall_forall. intros o _ Hin.
      apply list_elem_of_fmap in Hin as (row & Hkey & Hrow). unfold obs_key, result_key in Hkey.
      injection Hkey as Hs Hp _. apply Hnew.
      destruct Hq as (_ & Hqr & Hqs & _). rewrite <- Hqr, Hp. apply (W3 row Hrow). congruence.
    + intros row Hrow Hs. eapply issued_mono; [|by apply (W3 row)]. lia.
  - intros r' Hin. rewrite Hr in Hin. apply elem_of_app in Hin as [Hin|Hin].
    + destruct (H5 r' Hin) as [? ?]. split; [|done]. eapply issued_mono; [|done]. lia.
    + apply list_elem_of_singleton in Hin as ->. split; [exists k; split; [lia|done]|by exists req].
Qed.

Lemma inv_Enqueue w w1 k run pl req :
  trusted → system_inv w → quiet (st w) (st w1) → (tick w <= k < tick w1)%nat → NewV7 k = Ok run →
  report me run pl req →
  let '(e, w2) := Enqueue run pl w1 in
  system_inv w2 ∧ ext (st w2) = ext (st w) ∧ (tick w1 <= tick w2)%nat ∧
  meta (sdb (st w2)) !! "drops_total" = meta (sdb (st w)) !! "drops_total" ∧
  match e with
  | None => ∃ r, rows (sdb (st w2)) = (rows (sdb (st w)) ++ [r])%list ∧ probe_run_id r = run ∧ Spool.payload r = pl
  | Some e => rows (sdb (st w2)) = rows (sdb (st w)) ∧ errors_Is e ErrDuplicate = false
  end.
Proof.
  intros HT Hi Hq Hk Hid Hrep. destruct (run_fresh w k run HT Hi ltac:(lia) Hid) as [_ Hnr].
  destruct Hq as (Qe & Qr & Qm & Qw).
  pose proof (keeps_Enqueue (t_clock HT) run pl w1 (Qw (si_db w Hi))) as Hwf.
  assert (Hsame : ∀ n, (tick w1 <= n)%nat → system_inv (mkWorld (st w1) n)).
  { intros n Hn. apply (inv_quiet w); [done|cbn; lia|done]. }
  unfold Enqueue in *. case_bool_decide.
  { cbn. split; [destruct w1; by apply Hsame|]. by rewrite Qr, Qm. }
  case_bool_decide.
  { cbn. split; [destruct w1; by apply Hsame|]. by rewrite Qr, Qm. }
  unfold Spool.exec, stmt in *. unfold_M.
  destruct (fault (tick w1)) as [e|] eqn:Hf.
  { destruct (t_driver HT _ _ Hf) as [Hu Hd]. rewrite Hu. cbn [st tick sdb].
    split; [apply Hsame; lia|]. split; [done|]. split; [lia|]. split; [done|]. split; [done|].
    cbn. by rewrite Hd. }
  unfold sql_insert in *. rewrite bool_decide_eq_false_2 in * by (by rewrite Qr). cbn in Hwf |- *.
  set (r := Row _ _ _ _ _ _ _) in *.
  split; [|split; [done|]; split; [lia|]; split; [done|]; exists r; by rewrite Qr].
  apply (inv_new_row w _ r req k); try done; [cbn; lia|]. cbn. by rewrite Qr.
Qed.
(** ** Draining *)

(** Where a report is: still spooled, stored at the controller, or lost. *)
Definition accounted (lost : list row) (x : state) (r : row) : Prop :=
  (∃ r', r' ∈ rows (sdb x) ∧ same_item r r') ∨
  arrived me (probe_run_id r) (Spool.payload r) (ext x) ∨
  (∃ r', r' ∈ lost ∧ same_item r r').

Definition drops (x : state) : Z := default 0 (meta (sdb x) !! "drops_total").

Lemma drops_Some w : system_inv w → meta (sdb (st w)) !! "drops_total" = Some (drops (st w)).
Proof.
  intros [H1 _ _]. pose proof (wf_meta _ H1) as Hm. apply Forall_cons in Hm as [[v Hv] _]. unfold drops. by rewrite Hv.
Qed.

Lemma spooled_one db : wf_db db → one_payload (spooled db).
Proof.
  intros Hwf run pl pl' (r & Hr & <- & <-) (r' & Hr' & Hrun & <-).
  assert (r' = r) as -> by (apply (key_inj probe_run_id (rows db)); [apply Hwf|done..]). done.
Qed.

(** Fewer rows, and the other side sound for them: the invariant. *)
Lemma inv_fewer w w' :
  system_inv w → wf_db (sdb (st w')) → (tick w <= tick w')%nat →
  (∀ r', r' ∈ rows (sdb (st w')) → ∃ r, r ∈ rows (sdb (st w)) ∧ same_item r r') →
  sound_side base me (spooled (sdb (st w))) (issued (tick w)) (ext (st w')) → system_inv w'.
Proof.
  intros [H1 _ H5] Hwf Ht Hsub [H3 H4].
  assert (Hsp : ∀ r', r' ∈ rows (sdb (st w')) → ∃ r, r ∈ rows (sdb (st w)) ∧ probe_run_id r = probe_run_id r' ∧ Spool.payload r = Spool.payload r').
  { intros r' Hr'. destruct (Hsub r' Hr') as (r & Hr & (_ & _ & ? & ? & _)). by exists r. }
  split; [done| |].
  - split; [|done]. eapply whole_reports_weaken; [| |exact H3]; [|intros run; by apply issued_mono].
    intros run pl (r' & Hr' & <- & <-). destruct (Hsp r' Hr') as (r & Hr & ? & ?). by exists r.
  - intros r' Hr'. destruct (Hsp r' Hr') as (r & Hr & <- & <-). destruct (H5 r Hr) as [? ?].
    split; [|done]. by eapply issued_mono.
Qed.

Lemma inv_Drain w :
  trusted → system_inv w →
  ∃ stats e w' lost k,
    Drain (SX := client_Sender (sk_client s)) (sk_spool s) w = (Some (stats, e), w') ∧ system_inv w' ∧
    (∀ run pl, arrived me run pl (ext (st w)) → arrived me run pl (ext (st w'))) ∧
    (tick w <= tick w')%nat ∧ (∀ r, r ∈ rows (sdb (st w)) → accounted lost (st w') r) ∧
    drops (st w') = drops (st w) + Z.of_nat k ∧
    length lost = (k + uncounted e)%nat ∧ (uncounted e <= onsets (tick w) (tick w'))%nat.
Proof.
  intros HT Hi. pose proof (client_contract (CE := CE) cf metrics_on base me (spooled (sdb (st w))) (issued (tick w))
    (t_foreign HT) (t_honest HT) (spooled_one _ (si_db w Hi))) as HC.
  specialize (HC ltac:(intros run pl (r & Hr & <- & <-); by apply (si_reports w Hi))).
  specialize (HC ltac:(intros run pl (r & Hr & <- & <-); by apply (si_reports w Hi))).
  specialize (HC _ (sk_client s) eq_refl (t_client HT)).
  destruct (Drain_accounts (SX := client_Sender (sk_client s)) (sk_spool s) w (drops (st w)) (t_clock HT) (si_db w Hi) (drops_Some w Hi))
    as (stats & e & w' & evs & lost & k & HD & Hsent & Hacc & Hsub & _ & Hdrops & Hlen & Hon).
  pose proof (honoured_Drain (SX := client_Sender (sk_client s)) (HC := HC) (spooled (sdb (st w))) _ _ (sent (st w)) (ext (st w))
    (sk_spool s) w ltac:(intros c Hc; by exists c) (honoured_start _ _ _ _ (si_side w Hi))) as Hh.
  pose proof (keeps_Drain (SX := client_Sender (sk_client s)) (t_clock HT) (sk_spool s) w (si_db w Hi)) as Hwf.
  pose proof (ticks_Drain (SX := client_Sender (sk_client s)) (sk_spool s) w) as Ht.
  fold the_transport in Hh. rewrite HD in Hh, Hwf, Ht. cbn [snd] in Hh, Hwf, Ht. destruct Hh as (HJ & Hmono & evs' & Hs' & HF).
  rewrite Hsent in Hs'. apply (inj (app (sent (st w)))) in Hs' as <-.
  exists stats, e, w', lost, k. split; [done|]. split; [by eapply inv_fewer|]. split; [done|]. split; [done|].
  split; [|split; [|done]].
  - intros r Hr. destruct (Hacc r Hr) as [?|[Hev|?]]; [by left| |by right; right]. right. left.
    rewrite Forall_forall in HF. by apply (HF _ Hev).
  - unfold drops at 1. by rewrite Hdrops.
Qed.
(** ** A cycle *)

Lemma arrived_grows run pl x x' :
  grows (s_db (st (net x))) (s_db (st (net x'))) → arrived me run pl x → arrived me run pl x'.
Proof. intros Hg (req & Hrep & Hd). exists req. split; [done|]. by eapply delivered_grows. Qed.

(** What a stretch of the agent's run did, from [w] to [w']: the invariant holds,
    nothing stored was unstored, and every report of [reports] is accounted for,
    [missed] being the number of rows dropped but not counted. *)
Record journey (reports : list row) (w w' : world state) (missed : nat) : Prop := {
  jn_inv : system_inv w';
  jn_arrived run pl : arrived me run pl (ext (st w)) → arrived me run pl (ext (st w'));
  jn_ticks : (tick w <= tick w')%nat;
  jn_accounts : ∃ lost k, Forall (accounted lost (st w')) reports ∧
    drops (st w') = drops (st w) + Z.of_nat k ∧ length lost = (k + missed)%nat;
}.

(** One row is missed at most each time statements start to fail. *)
Definition stretch (reports : list row) (w w' : world state) (missed : nat) : Prop :=
  journey reports w w' missed ∧ (missed <= onsets (tick w) (tick w'))%nat.

Lemma pg_inv reports w w' f : stretch reports w w' f → system_inv w'.
Proof. by intros [[] _]. Qed.

(** Nothing but quiet steps. *)
Lemma stretch_quiet reports w w' :
  system_inv w → quiet (st w) (st w') → (tick w <= tick w')%nat →
  Forall (λ r, r ∈ rows (sdb (st w))) reports → stretch reports w w' 0.
Proof.
  intros Hi Hq Ht HF. split; [|lia]. split; [by eapply inv_quiet| |done|].
  - destruct Hq as (He & _). by rewrite He.
  - destruct Hq as (He & Hr & Hm & _). exists [], 0%nat. unfold drops. rewrite Hm. split; [|split; [lia|cbn; lia]].
    eapply Forall_impl; [exact HF|]. cbn. intros r Hin. left. exists r. by rewrite Hr.
Qed.

(** They compose: what is kept by the first is accounted for by the second. *)
Lemma journey_trans reports reports' w w' w'' f f' :
  (∀ r', r' ∈ rows (sdb (st w')) → r' ∈ reports') →
  journey reports w w' f → journey reports' w' w'' f' → journey reports w w'' (f + f').
Proof.
  intros Hsub [I1 A1 T1 (lost & k & F1 & D1 & L1)] [I2 A2 T2 (lost' & k' & F2 & D2 & L2)].
  split; [done|auto|lia|]. exists (lost ++ lost')%list, (k + k')%nat. rewrite length_app.
  split; [|split; [lia|lia]]. eapply Forall_impl; [exact F1|]. cbn. rewrite Forall_forall in F2.
  intros r [(r' & Hr' & Hs)|[Ha|(r' & Hr' & Hs)]].
  - destruct (F2 r' (Hsub r' Hr')) as [(r2 & Hr2 & Hs2)|[Ha|(r2 & Hr2 & Hs2)]].
    + left. exists r2. split; [done|by etransitivity].
    + right. left. destruct Hs as (_ & _ & -> & -> & _). done.
    + right. right. exists r2. split; [apply elem_of_app; by right|by etransitivity].
  - right. left. by apply A2.
  - right. right. exists r'. split; [apply elem_of_app; by left|done].
Qed.

Lemma stretch_trans reports reports' w w' w'' f f' :
  (∀ r', r' ∈ rows (sdb (st w')) → r' ∈ reports') →
  stretch reports w w' f → stretch reports' w' w'' f' → stretch reports w w'' (f + f').
Proof.
  intros Hsub [J1 O1] [J2 O2]. split; [by eapply journey_trans|].
  rewrite (onsets_split _ (tick w')) by (split; [apply J1|apply J2]). lia.
Qed.

Lemma stretch_weaken reports reports' w w' f :
  (∀ r, r ∈ reports' → r ∈ reports) → stretch reports w w' f → stretch reports' w w' f.
Proof.
  intros Hsub [[I A T (lost & k & F & Dr & Ln)] O]. split; [|done]. split; [done..|]. exists lost, k.
  split; [|done]. rewrite Forall_forall in *. auto.
Qed.

(** The rows a cycle has dropped uncounted, by the error it returns: one when its
    drain stopped between a deletion and the count. *)
Definition missed_by (e : option err) : nat :=
  match e with
  | Some (ErrWrap m e') => if bool_decide (m = "spoke: drain") then uncounted (Some e') else 0
  | _ => 0
  end.

Lemma stretch_drain_and_save w runID n :
  trusted → system_inv w →
  ∃ cs e w', drain_and_save s runID n w = (Some (cs, e), w') ∧ cs_ProbeRunID cs = runID ∧
    stretch (rows (sdb (st w))) w w' (missed_by e).
Proof.
  intros HT Hi. unfold drain_and_save. unfold_M.
  destruct (inv_Drain w HT Hi) as (stats & e & w1 & lost & k & HD & Hi1 & Ha & Ht & Hacc & Hdr & Hlen & Hon).
  rewrite HD.
  assert (Hp : stretch (rows (sdb (st w))) w w1 (uncounted e)).
  { split; [|done]. split; [done..|]. exists lost, k. split; [by apply Forall_forall|]. by split. }
  destruct e as [e|]; [by eexists _, _, w1|].
  pose proof (quiet_Depth w1) as Q1. pose proof (ticks_Depth (X := agent (world srv)) w1) as T1.
  destruct (Spool.Depth w1) as [[d0 e0] w2]. cbn in Q1, T1.
  pose proof (quiet_OldestAge w2) as Q2. pose proof (ticks_OldestAge (X := agent (world srv)) w2) as T2.
  destruct (OldestAge w2) as [[o0 e1] w3]. cbn in Q2, T2.
  pose proof (quiet_DropsTotal w3) as Q3. pose proof (ticks_DropsTotal (X := agent (world srv)) w3) as T3.
  destruct (Spool.DropsTotal w3) as [[n0 e2] w4]. cbn in Q3, T3.
  pose proof (quiet_save d0 (f64_to_int (Seconds o0)) n0 w4) as Q4.
  pose proof (ticks_SaveDrainSnapshot (X := agent (world srv)) d0 (f64_to_int (Seconds o0)) n0 w4) as T4.
  destruct (SaveDrainSnapshot _ _ _ w4) as [e3 w5]. cbn in Q4, T4.
  eexists _, _, w5. split; [reflexivity|]. split; [done|].
  apply (stretch_trans _ (rows (sdb (st w1))) w w1 w5 0 0); [done|done|]. apply stretch_quiet; [done| |lia|by apply Forall_forall].
  etransitivity; [exact Q1|]. etransitivity; [exact Q2|]. by etransitivity.
Qed.
(** The rows that are there are accounted for. *)
Lemma stretch_here w w' :
  system_inv w' → (∀ run pl, arrived me run pl (ext (st w)) → arrived me run pl (ext (st w'))) →
  (tick w <= tick w')%nat → drops (st w') = drops (st w) → stretch (rows (sdb (st w'))) w w' 0.
Proof.
  intros Hi Ha Ht Hd. split; [|lia]. split; [done..|]. exists [], 0%nat. split; [|split; [lia|cbn; lia]].
  apply Forall_forall. intros r Hr. left. by exists r.
Qed.

(** An encoded report is one: it decodes, to a request with the same ids. *)
Lemma report_encoded req pl run :
  trusted → valid_utf8 run = true → encode_results req = Ok pl → ProbeRunID req = run → SourceID req = me → Results req ≠ [] →
  report me run pl (clean_request req).
Proof.
  intros HT Hrun Henc Hr Hs Hne. split; [by apply payload_decodes|]. cbn [clean_request ProbeRunID SourceID Results].
  rewrite Hr, Hs, !to_valid_id; [|apply HT|done]. split; [done|]. split; [done|]. by intros ?%fmap_nil_inv.
Qed.

(** The request a cycle that starts with [w] builds, under a run id: what it
    observed at the targets of its source. *)
Definition cycle_built (w : world state) (runID : string) (req : ResultsRequest) : Prop :=
  let '((targets, _, _), w1) := Targets (sk_source s) w in
  let k := tick w1 in
  targets ≠ [] ∧ NewV7 k = Ok runID ∧
  req = cycle_request (sk_cfg s) runID (clock (S k)) (RunProbes (S (S k)) targets (a_ProbeTimeout (sk_cfg s)))
          (LastDrainSnapshot (mkWorld (st w1) (S (S (S k))))).1.1.

Lemma Run_stretch w :
  trusted → system_inv w →
  ∃ cs e w' reports, Run s w = (Some (cs, e), w') ∧
    (∀ r, r ∈ rows (sdb (st w)) → r ∈ reports) ∧
    (e = None → ∃ req r, cycle_built w (cs_ProbeRunID cs) req ∧ r ∈ reports ∧ probe_run_id r = cs_ProbeRunID cs ∧
       encode_results req = Ok (Spool.payload r)) ∧
    stretch reports w w' (missed_by e).
Proof.
  intros HT Hi. unfold Run, cycle_built. unfold_M. pose proof (inv_Targets (sk_source s) w HT Hi) as H. cbn zeta in H.
  destruct (Targets (sk_source s) w) as [[[targets v] e0] w1]. cbn [snd] in H. destruct H as (Hi1 & Hdb & Hg & Ht1).
  (* an early end: nothing happened to the spool *)
  assert (Hend : ∀ w', quiet (st w1) (st w') → (tick w1 <= tick w')%nat →
    (∀ r, r ∈ rows (sdb (st w)) → r ∈ rows (sdb (st w'))) ∧ stretch (rows (sdb (st w'))) w w' 0).
  { intros w' Hq Ht'. pose proof Hq as (He & Hr & Hm & _). split; [by rewrite Hr, Hdb|].
    apply stretch_here; [by eapply inv_quiet| |lia|].
    - intros run pl Hrp. rewrite He. by eapply arrived_grows.
    - unfold drops. by rewrite Hm, Hdb. }
  assert (Hstop : ∀ w' (cs : CycleStats) (e : err), quiet (st w1) (st w') → (tick w1 <= tick w')%nat → missed_by (Some e) = 0%nat →
    ∃ cs' e' w'' reports, (Some (cs, Some e), w') = (Some (cs', e'), w'') ∧
      (∀ r, r ∈ rows (sdb (st w)) → r ∈ reports) ∧
      (e' = None → ∃ req r, (targets ≠ [] ∧ NewV7 (tick w1) = Ok (cs_ProbeRunID cs') ∧
         req = cycle_request (sk_cfg s) (cs_ProbeRunID cs') (clock (S (tick w1)))
           (RunProbes (S (S (tick w1))) targets (a_ProbeTimeout (sk_cfg s)))
           (LastDrainSnapshot (mkWorld (st w1) (S (S (S (tick w1)))))).1.1) ∧
         r ∈ reports ∧ probe_run_id r = cs_ProbeRunID cs' ∧ encode_results req = Ok (Spool.payload r)) ∧
      stretch reports w w'' (missed_by e')).
  { intros w' cs e Hq Ht' He. destruct (Hend w' Hq Ht') as [H1 H2]. eexists _, _, w', (rows (sdb (st w'))).
    split; [reflexivity|]. split; [done|]. split; [done|]. by rewrite He. }
  case_bool_decide as Hne; [by apply Hstop|]. unfold at_step at 1. cbv beta iota.
  destruct (NewV7 (tick w1)) as [runID|e] eqn:Hid; [|apply Hstop; [done|cbn; lia|done]].
  unfold now, at_step. cbn [st tick].
  set (w4 := mkWorld (st w1) _) in *. pose proof (quiet_snapshot w4) as Q. cbn in Q.
  pose proof (ticks_LastDrainSnapshot (X := agent (world srv)) w4) as T. cbn in T.
  destruct (LastDrainSnapshot w4) as [[snap e1] w5]. cbn [snd fst] in *.
  set (req := cycle_request _ _ _ _ _). destruct (encode_results req) as [pl|e] eqn:Henc;
    [|apply Hstop; [done|lia|done]].
  pose proof (inv_Enqueue w1 w5 (tick w1) runID pl (clean_request req) HT Hi1 Q ltac:(lia) Hid) as HE.
  assert (Hres : Results req ≠ []) by (cbn; unfold RunProbes; destruct targets; done).
  specialize (HE (report_encoded _ _ _ HT (t_runs HT _ _ Hid) Henc eq_refl eq_refl Hres)).
  destruct (Enqueue runID pl w5) as [e2 w6]. destruct HE as (Hi6 & He6 & Ht6 & Hm6 & Hr6).
  assert (H6 : stretch (rows (sdb (st w6))) w w6 0).
  { apply stretch_here; [done| |lia|].
    - intros run pl' Hrp. rewrite He6. by eapply arrived_grows.
    - unfold drops. by rewrite Hm6, Hdb. }
  destruct e2 as [e2|].
  - destruct Hr6 as [Hr6 ->]. cbn [negb]. eexists _, _, w6, (rows (sdb (st w6))). split; [reflexivity|].
    split; [by rewrite Hr6, Hdb|]. by split.
  - destruct Hr6 as (r & Hr6 & Hrun & Hpl).
    destruct (stretch_drain_and_save w6 runID (Z.of_nat (length (RunProbes (S (S (tick w1))) targets (a_ProbeTimeout (sk_cfg s))))) HT Hi6)
      as (cs & e & w' & HD & Hcs & Hp).
    exists cs, e, w', (rows (sdb (st w6))). split; [done|].
    split; [intros r' Hr'; rewrite Hr6; apply elem_of_app; left; by rewrite Hdb|].
    split; [|by apply (stretch_trans _ _ w w6 w' 0 (missed_by e) ltac:(done) H6)].
    intros _. exists req, r. rewrite Hcs, Hpl. split; [done|]. split; [rewrite Hr6; apply elem_of_app; right; by left|done].
Qed.
(** ** Exactly once *)

(** Every observation of a request is stored in exactly one row. *)
Definition stored_once (req : ResultsRequest) (d : cdb) : Prop :=
  Forall (λ o, ∃ row, filter (λ x, result_key x = obs_key req o) (results d) = [row] ∧ stored req o row) (Results req).

Lemma delivered_once req d : wf_cdb d → delivered req d → stored_once req d.
Proof.
  intros Hwf Hd. eapply Forall_impl; [exact Hd|]. cbn. intros o (row & Hin & Hs). exists row. split; [|done].
  rewrite <- (stored_key _ _ _ Hs). apply filter_key_unique; [apply Hwf|done].
Qed.

(** A number of probe cycles, and what each of them returned. *)
Fixpoint cycles (n : nat) : M state (list (option (CycleStats * option err))) :=
  match n with
  | O => mret []
  | S n' => r ← Run s; rs ← cycles n'; mret (r :: rs)
  end.

(** The rows the cycles have dropped uncounted, by the errors they returned. *)
Definition missed (rs : list (option (CycleStats * option err))) : nat := sum_list ((λ r, missed_by (r ≫= snd)) <$> rs).

Lemma cycles_stretch n w :
  trusted → system_inv w →
  Forall is_Some (cycles n w).1 ∧ stretch (rows (sdb (st w))) w (cycles n w).2 (missed (cycles n w).1).
Proof.
  intros HT. revert w. induction n as [|n IH]; intros w Hi; cbn [cycles].
  { split; [constructor|]. by apply stretch_here. }
  unfold_M. destruct (Run_stretch w HT Hi) as (cs & e & w1 & reports & -> & Hsub & _ & Hp).
  destruct (IH w1 (pg_inv _ _ _ _ Hp)) as [Hs Hp']. destruct (cycles n w1) as [rs w2]. cbn in Hs, Hp' |- *.
  split; [by constructor|]. eapply stretch_weaken; [exact Hsub|].
  by eapply (stretch_trans reports (rows (sdb (st w1))) w w1 w2 (missed_by e)).
Qed.

(** Where a report is after a stretch, with the controller's side spelled out. *)
Definition settled_report (lost : list row) (w : world state) (r : row) : Prop :=
  (∃ r', r' ∈ rows (sdb (st w)) ∧ same_item r r') ∨
  (∃ req, report me (probe_run_id r) (Spool.payload r) req ∧ stored_once req (ctl w)) ∨
  (∃ r', r' ∈ lost ∧ same_item r r').

Lemma accounted_settled lost w r : system_inv w → accounted lost (st w) r → settled_report lost w r.
Proof.
  intros [_ [[Hwf _ _] _] _] [?|[(req & Hrep & Hd)|?]]; [by left| |by right; right].
  right. left. exists req. split; [done|]. by apply delivered_once.
Qed.



(** A fresh spool, beside a controller that has no results of the node. *)
Lemma system_inv_start (w : world state) :
  sdb (st w) = Spool.migrated → wf_cdb (ctl w) → Forall (λ row, r_source_id row ≠ me) (results (ctl w)) →
  tc_base (cache (ext (st w))) = base → system_inv w.
Proof.
  intros Hdb Hwf Hr Hb. split.
  - rewrite Hdb. apply migrated_wf.
  - split; [|done]. split; [done| |].
    + intros run pl req (r & Hin & _). rewrite Hdb in Hin. by apply not_elem_of_nil in Hin.
    + intros row Hin Hs. rewrite Forall_forall in Hr. by destruct (Hr row Hin).
  - intros r. rewrite Hdb. by intros Hin%not_elem_of_nil.
Qed.
End Cycle.

(** ** A concrete system

    One hub to probe, one report of an earlier cycle in the spool, a controller
    that knows the node, and a link that delivers. *)

Definition ex_ids : RunIDs := {| NewV7 n := Ok ("run-" ++ digits (Z.of_nat (S n))) |}.
Definition ex_dialer : Dialer := {|
  DialContext _ _ _ _ := None; dial_start _ _ := 0; dial_end _ _ := 2 * Millisecond |}.

Definition ex_agent_config : AgentConfig :=
  mkAgentConfig "spoke-1" "s3cret" "https://c/" [mkTarget "hub-1" "10.0.0.1:8444"] (5 * Second) (10 * Second) 0 0 0.

Definition ex_spoke : Spoke :=
  NewSpoke ex_agent_config ex_spool (NewClient "https://c/" "spoke-1" "s3cret" (10 * Second)) None.

(** The report in the spool. *)
Definition ex_payload : string :=
  Eval vm_compute in match EncodePayload (example_req 0) with Ok pl => pl | Err _ => "" end.

Definition json_body (p : payload) : string :=
  match payload_json p with Some j => writeJSON_body j | None => "" end.

Definition ex_link : Link := {|
  fate_of _ := Delivered; link_error := ErrMsg "EOF"; others _ := []; write_body := json_body; url_error _ := None |}.

Definition ex_secret_hash : string := Eval vm_compute in HashSecret "s3cret".

Definition ex_controller : srv :=
  NewWithOptions
    (CDB (<["spoke-1" := NodeRow "spoke" ex_secret_hash "2026-01-01 00:00:00" None 0 None 0 None None 0]> (nodes example_db))
         [] 0 (Some 4))
    (mkOptions None None None (Some newMetrics)).

Definition ex_state : world (sp_state (agent (world srv))) :=
  mkWorld
    (SpState (SpoolDB [Row 1 (format_datetime T0) "run-1" ex_payload 0 None None] 1 (meta Spool.migrated))
             (mkAgent (buildCache ex_agent_config) (mkWorld ex_controller 0)) []) 1.

Abbreviation ex_trusted := (@trusted calm ex_link (quiet_env T0) ex_ids ex_spoke).
Abbreviation ex_inv := (@system_inv ex_ids ex_spoke).

Lemma ex_trusted_ok : ex_trusted.
Proof.
  split.
  - reflexivity.
  - intros i j run [= <-] Hj. cbn in Hj. injection Hj as Hj. apply digits_inj in Hj; lia.
  - reflexivity.
  - intros i run [= <-]. apply ascii_valid. cbn [String.append ascii_only]. apply ascii_digits, digits_all.
  - constructor.
  - done.
  - done.
  - apply quiet_T0.
Qed.

Lemma ex_state_inv : ex_inv ex_state.
Proof.
  split.
  - assert (Hts : is_timestamp (format_datetime T0)) by (exists T0; split; [exact (proj2 (proj2 quiet_T0) 0%nat)|done]).
    split; [by_decide|by_decide| | |cbn; lia|by_decide].
    + apply Forall_singleton. cbn. lia.
    + apply Forall_singleton. split; [done|done|done|done|]. cbn. split; [lia|done].
  - split; [|reflexivity]. split.
    + split; [constructor|constructor|]. apply map_Forall_to_list. by_decide.
    + intros run pl req _ _. left. apply Forall_forall. intros o _. apply not_elem_of_nil.
    + intros row Hin. by apply not_elem_of_nil in Hin.
  - intros r Hr. apply list_elem_of_singleton in Hr as ->. split; [exists 0%nat; split; [cbn; lia|reflexivity]|].
    exists (example_req 0). split; [vm_compute; reflexivity|by split].
Qed.

Abbreviation ex_cycles n :=
  (@cycles calm sqlite_driver fixed_rand plain_sql any_handshake no_files ex_link admin_config true
     (quiet_env T0) (one_file "/var/lib/nlm/spool.db" 4096) text_driver ex_dialer ex_ids ex_spoke n).

(** One cycle sends both reports and empties the spool. *)
Example ex_one_cycle :
  let w := (ex_cycles 1 ex_state).2 in
  rows (sdb (st w)) = [] ∧
  (r_probe_run_id <$> results (s_db (st (net (ext (st w)))))) = ["run-1"; "run-1"; "run-2"] ∧
  tc_expectedNotice (cache (ext (st w))) = 0.
Proof. vm_compute. done. Qed.

(** ** Witnesses *)

Abbreviation ex_row := (Row 1 (format_datetime T0) "run-1" ex_payload 0 None None).

(** With the spool empty and nothing dropped, a report that is accounted for is
    stored. *)
Lemma settled_stored sk lost (w : world (sp_state (agent (world srv)))) r :
  rows (sdb (st w)) = [] → lost = [] → settled_report sk lost w r →
  ∃ req, report (a_NodeID (sk_cfg sk)) (probe_run_id r) (Spool.payload r) req ∧ stored_once req (s_db (st (net (ext (st w))))).
Proof. intros Hr -> [(r' & Hin & _)|[?|(r' & Hin & _)]]; [rewrite Hr in Hin|done|]; by apply not_elem_of_nil in Hin. Qed.


Abbreviation ex_Run :=
  (@Run (world srv) (@the_transport calm sqlite_driver fixed_rand plain_sql any_handshake no_files ex_link
      admin_config true ex_spoke) json_agent_codec (quiet_env T0) (one_file "/var/lib/nlm/spool.db" 4096) text_driver
      ex_dialer ex_ids ex_spoke).

