(* ===== verification/AgentMain.v ===== *)
(** * The agent's processes ([cmd/nlm-agent/main.go])

    What [main] does in each mode, from the environment and the spool file on the
    disk to the exit status, and what a series of such processes does: in spoke
    mode the timer unit starts one process per probe cycle, so the reports of one
    process are drained by the next, out of the same file.  A process can be
    killed at any step: from then on nothing it does has an effect. *)
From Stdlib Require Import Ascii ZArith Lia SpecFloat.
From S2P Require Import Prelude GoTime GoStrings GoNumbers Spool SpoolFacts SpoolClaims Delivery Chrony Config ControllerDB Migrate Nodes Http Server Results ResultsFacts Handlers Routes HandlersFacts Agent AgentFacts Json Wire System EndToEnd.

Local Open Scope string_scope.
Local Open Scope Z_scope.

(** The spool file on the disk and the rest of the world. *)
Record proc (N : Type) := Proc { p_disk : disk (option spool_db); p_net : N }.
Arguments Proc {N} p_disk p_net.
Arguments p_disk {N} _.
Arguments p_net {N} _.

(** [log.Fatal] ends the process with status 1. *)
Inductive exit_status := ExitOK | Fatal (msg : string) (e : option err).

Definition spool_config (c : SpoolConfig) : Spool.Config :=
  Spool.mkConfig (sc_DrainRows c) (sc_MaxAge c) (sc_MaxSizeBytes c) (sc_BackoffBase c) (sc_BackoffMax c).

Section Main.
Context {N : Type} {Tr : Transport N} {AC : AgentCodec} {E : Env} {FS : FileSys} {D : SqlDriver}.
Context {Di : Dialer} {Ids : RunIDs} {PE : ProcEnv} {SO : SqlOpen} {Mg : Migrator (option spool_db)}.

Abbreviation MA := (M (sp_state (agent N))).
Abbreviation MP := (M (proc N)).

(** A call on the file. *)
Definition on_disk {A} (m : M (disk (option spool_db)) A) : MP A := λ w,
  let '(a, w') := m (mkWorld (p_disk (st w)) (tick w)) in
  (a, mkWorld (Proc (st w') (p_net (st w))) (tick w')).

(** A run on the tables of the open file, with the cache the process has built;
    statements on a file without tables fail. *)
Definition on_spool (c : TargetCache) (m : MA (option (option err))) : MP (option (option err)) := λ w,
  let f := d_file (p_disk (st w)) in
  match f_tables f with
  | None => (Some (Some (ErrDriver "no such table: spool")), w)
  | Some db =>
      let '(r, w') := m (mkWorld (SpState db (mkAgent c (p_net (st w))) []) (tick w)) in
      (r, mkWorld (Proc (Disk (DbFile (f_version f) (f_dirty f) (Some (sdb (st w')))) (d_handles (p_disk (st w))))
                        (net (ext (st w')))) (tick w'))
  end.

Definition openSpool : MP (res Spool) :=
  match LoadSpool with
  | Err e => mret (Err (ErrWrap "load spool config" e))
  | Ok c =>
      r ← on_disk (Open (sc_Path c) (spool_config c));
      match r with
      | Err e => mret (Err (ErrWrap "open spool" e))
      | Ok sp => mret (Ok sp)
      end
  end.

(** [runSpoke]; the deferred [Close] runs on every return. *)
Definition runSpoke (once : bool) : MP (option (option err)) :=
  match LoadAgent with
  | Err e => mret (Some (Some (ErrWrap "load agent config" e)))
  | Ok c =>
      r ← openSpool;
      match r with
      | Err e => mret (Some (Some e))
      | Ok sp =>
          let '(source, client) := buildTargetSource c (NewClient (a_ControllerURL c) (a_NodeID c) (a_NodeSecret c) (a_HTTPTimeout c)) in
          let sk := NewSpoke c sp client (Some source) in
          res ← (if negb once
                 then mret (Some (Some (ErrMsg "spoke daemon mode not implemented; use --once with the nlm-spoke.timer unit")))
                 else on_spool (buildCache c) (r ← Run sk; mret (snd <$> r)));
          _ ← on_disk Close;
          mret res
      end
  end.

Definition runHub (wakes : list wake) : MP (option (option err)) :=
  match LoadAgent with
  | Err e => mret (Some (Some (ErrWrap "load agent config" e)))
  | Ok c =>
      r ← openSpool;
      match r with
      | Err e => mret (Some (Some e))
      | Ok sp =>
          let '(source, client) := buildTargetSource c (NewClient (a_ControllerURL c) (a_NodeID c) (a_NodeSecret c) (a_HTTPTimeout c)) in
          let hub := BuildHub (mkHubDeps c sp client (Some source) (a_HubProbeInterval c) (a_StartupJitter c)) in
          res ← on_spool (buildCache c) (hub_Run hub wakes);
          match res with
          | None => mret None
          | Some _ => _ ← on_disk Close; mret res
          end
      end
  end.

Definition runListener (bind : string → option err) (as_ : list accepted) : MP (option (option err)) :=
  mret (ListenAndServe (bind listener_addr) as_).2.

(** The flags, and what the process meets while it runs: the choices of the
    daemon's selects, and the results of binding and accepting. *)
Record args := mkArgs {
  mode : string;
  once : bool;
  wakes : list wake;
  bind : string → option err;
  accepts : list accepted;
  (** the step at which the process is killed, if it is *)
  killed : option nat;
}.

(** What [main] makes of the error of a mode. *)
Definition exit_of (msg : string) (r : option (option err)) : option exit_status :=
  match r with
  | None => None
  | Some None => Some ExitOK
  | Some (Some e) => Some (Fatal msg (Some e))
  end.

(** [main]; [None]: still running. *)
Definition main (a : args) : MP (option exit_status) :=
  if bool_decide (mode a = "") then mret (Some (Fatal "--mode required (spoke|hub|listener)" None))
  else if bool_decide (mode a = "spoke") then r ← runSpoke (once a); mret (exit_of "spoke failed" r)
  else if bool_decide (mode a = "listener") then r ← runListener (bind a) (accepts a); mret (exit_of "listener failed" r)
  else if bool_decide (mode a = "hub") then r ← runHub (wakes a); mret (exit_of "hub failed" r)
  else mret (Some (Fatal "unknown mode" None)).

End Main.

(** ** Being killed

    A process that is killed at step [K] does nothing from then on: no statement
    takes effect, no migration runs, no request leaves. *)

Definition ErrKilled : err := ErrMsg "signal: killed".

Definition cut {A} (K : nat) (dead : A) (f : nat → A) (n : nat) : A := if (K <=? n)%nat then dead else f n.

Definition env_until (K : nat) (E : Env) : Env := {|
  fault := cut K (Some ErrKilled) (@fault E); clock := @clock E; ctx_done := @ctx_done E |}.

Definition migrator_until {T} (K : nat) (Mg : Migrator T) : Migrator T := {|
  iofs_New := @iofs_New T Mg; WithInstance := @WithInstance T Mg; NewWithInstance := @NewWithInstance T Mg;
  m_Up := cut K (λ _ f, (Some ErrKilled, f)) (@m_Up T Mg);
  driver_fault := cut K (Some ErrKilled) (@driver_fault T Mg) |}.

Definition link_until (K : nat) (L : Link) : Link := {|
  fate_of := cut K Lost (@fate_of L); link_error := @link_error L; others := cut K [] (@others L);
  write_body := @write_body L; url_error := @url_error L |}.

Section Processes.
Context {N : Type} (Tr : Link → Transport N) (L : Link) {AC : AgentCodec} (E : Env) {FS : FileSys} {D : SqlDriver}.
Context {Di : Dialer} {Ids : RunIDs} {PE : ProcEnv} {SO : SqlOpen} (Mg : Migrator (option spool_db)).

(** A process from start to end, with its exit status; the handles of one that is
    killed, or that is still running at the end, go with it. *)
Definition process (a : args) : M (proc N) (option exit_status) := λ p,
  let '(s, p') :=
    match killed a with
    | None => main (Tr := Tr L) (E := E) (Mg := Mg) a p
    | Some K =>
        (None, (main (Tr := Tr (link_until K L)) (E := env_until K E) (Mg := migrator_until K Mg) a p).2)
    end in
  (s,
   match s with
   | Some _ => p'
   | None => mkWorld (Proc (Disk (d_file (p_disk (st p'))) (d_handles (p_disk (st p)))) (p_net (st p'))) (tick p')
   end).

(** A series of processes on the same machine. *)
Fixpoint processes (l : list args) : M (proc N) (list (option exit_status)) :=
  match l with
  | [] => mret []
  | a :: l' => s ← process a; ss ← processes l'; mret (s :: ss)
  end.
End Processes.

(** ** Delivery across processes *)

#[local] Existing Instance json_codec.
#[local] Existing Instance json_agent_codec.

Section Timer.
Context (CE : Env) {CD : CtlDriver} {Rn : Rand} {MS : MatrixSQL} {Up : Upgrader} {Sz : Stat} {L : Link}.
Context (cf : Server.config) (metrics_on : bool).
Context {E : Env} {FS : FileSys} {D : SqlDriver} {Di : Dialer} {Ids : RunIDs} {PE : ProcEnv}.
Context {SO : SqlOpen} {Mg : Migrator (option spool_db)} {MgS : MigratorSpec (option spool_db)}.
Context (c : AgentConfig) (sc : SpoolConfig).

(** The spoke every process builds from its configuration. *)
Definition the_spoke : Spoke :=
  let '(source, client) := buildTargetSource c (NewClient (a_ControllerURL c) (a_NodeID c) (a_NodeSecret c) (a_HTTPTimeout c)) in
  NewSpoke c (mkSpool (sc_Path sc) (spool_config sc)) client (Some source).

#[local] Instance timer_transport : Transport (world srv) := the_transport CE cf metrics_on the_spoke.

(** What the next process will find. *)
Definition next_run (p : world (proc (world srv))) : world (sp_state (agent (world srv))) :=
  mkWorld (SpState (file_db (d_file (p_disk (st p)))) (mkAgent (buildCache c) (p_net (st p))) []) (tick p).

Record process_inv (p : world (proc (world srv))) : Prop := {
  pi_file : file_ok (d_file (p_disk (st p)));
  pi_system : system_inv the_spoke (next_run p);
}.

Lemma the_spoke_base : cl_base (sk_client the_spoke) = tc_base (buildCache c).
Proof. unfold the_spoke, buildTargetSource. by destruct (a_Targets c). Qed.

(** The cache and the log of the process that ended do not matter. *)
Lemma stretch_reset reports w w' w'' f :
  sdb (st w'') = sdb (st w') → net (ext (st w'')) = net (ext (st w')) → tc_base (cache (ext (st w''))) = cl_base (sk_client the_spoke) →
  (tick w' <= tick w'')%nat → stretch the_spoke reports w w' f → stretch the_spoke reports w w'' f.
Proof.
  intros Hdb Hnet Hc Ht [[[I1 [I2 _] I3] A T (lost & k & F & Dr & Ln)] O].
  split; [|rewrite (onsets_split _ (tick w')) by lia; lia]. split.
  - split; [by rewrite Hdb| |].
    + split; [|done]. rewrite Hnet. eapply whole_reports_weaken; [| |exact I2].
      * unfold spooled. by rewrite Hdb.
      * intros run. by apply issued_mono.
    + intros r. rewrite Hdb. intros Hr. destruct (I3 r Hr) as [Hi Hrep]. split; [by eapply issued_mono|done].
  - intros run pl Ha. unfold arrived. rewrite Hnet. by apply A.
  - lia.
  - exists lost, k. split; [|split; [|done]].
    + eapply Forall_impl; [exact F|]. unfold accounted, arrived. intros r. by rewrite Hdb, Hnet.
    + rewrite <- Dr. unfold drops. by rewrite Hdb.
Qed.

Lemma stretch_later w w' :
  system_inv the_spoke w → st w' = st w → (tick w <= tick w')%nat → stretch the_spoke (rows (sdb (st w))) w w' 0.
Proof.
  intros Hi Hs Ht. apply stretch_quiet; [done|by rewrite Hs|done|]. by apply Forall_forall.
Qed.

Context (HA : LoadAgent = Ok c) (HS : LoadSpool = Ok sc).

Lemma ticks_Open path cfg : ticks (Open path cfg).
Proof.
  unfold Open, runMigrations, Migrate.Up. repeat first [ticks_step | intros w; unfold lib, call_Up, acquire, close_db; cbn; lia].
  intros w. unfold call_Up. destruct (m_Up _ _ _). cbn. lia.
Qed.

Abbreviation rows_of p := (rows (sdb (st (next_run p)))).

(** Opening, closing and the run between them, as stretches. *)
Lemma open_stretch (p : world (proc (world srv))) :
  process_inv p →
  let '(r, p1) := openSpool p in
  process_inv p1 ∧ stretch the_spoke (rows_of p) (next_run p) (next_run p1) 0 ∧
  match r with
  | Ok sp => sp = mkSpool (sc_Path sc) (spool_config sc) ∧ d_handles (p_disk (st p1)) = S (d_handles (p_disk (st p))) ∧
             ∃ db, d_file (p_disk (st p1)) = DbFile 2 false (Some db)
  | Err _ => d_handles (p_disk (st p1)) = d_handles (p_disk (st p))
  end.
Proof.
  intros [Hf Hi]. unfold openSpool. rewrite HS. unfold on_disk. unfold_M. set (w0 := mkWorld (p_disk (st p)) (tick p)).
  pose proof (Open_spec (sc_Path sc) (spool_config sc) w0 Hf) as HO. pose proof (ticks_Open (sc_Path sc) (spool_config sc) w0) as Ht.
  destruct (Open _ _ w0) as [r w1]. cbn [snd st tick w0] in *. destruct HO as (Hf1 & Hr & _).
  assert (Hgo : ∀ p1, p1 = mkWorld (Proc (st w1) (p_net (st p))) (tick w1) → file_db (d_file (st w1)) = file_db (d_file (p_disk (st p))) →
    process_inv p1 ∧ stretch the_spoke (rows_of p) (next_run p) (next_run p1) 0).
  { intros p1 -> Hdb. assert (Hs : stretch the_spoke (rows_of p) (next_run p) (next_run (mkWorld (Proc (st w1) (p_net (st p))) (tick w1))) 0).
    { apply stretch_later; [done| |done]. unfold next_run. cbn. by rewrite Hdb. }
    split; [split; [done|apply (pg_inv _ _ _ _ _ Hs)]|done]. }
  destruct r as [sp|e]; cbn [st tick p_disk p_net].
  - destruct Hr as (-> & Hh & Hd). destruct (Hgo _ eq_refl) as [H1 H2]; [|by eauto 10].
    rewrite Hd. unfold file_db at 1. cbn. by apply add_snapshot_wf, (si_db _ _ Hi).
  - destruct Hr as [Hh Hdb]. by destruct (Hgo _ eq_refl Hdb).
Qed.

Lemma on_spool_stretch (p : world (proc (world srv))) m db r w' f :
  process_inv p → d_file (p_disk (st p)) = DbFile 2 false (Some db) →
  m (next_run p) = (r, w') → stretch the_spoke (rows_of p) (next_run p) w' f →
  ∃ p', on_spool (buildCache c) m p = (r, p') ∧ process_inv p' ∧ d_handles (p_disk (st p')) = d_handles (p_disk (st p)) ∧
    stretch the_spoke (rows_of p) (next_run p) (next_run p') f.
Proof.
  intros [Hf Hi] Hd Hm Hs. unfold on_spool. rewrite Hd. cbn [f_tables].
  assert (Hdb : file_db (d_file (p_disk (st p))) = db).
  { rewrite Hd in Hf |- *. destruct (Hf eq_refl) as (db' & [= <-] & H). exact H. }
  unfold next_run in Hm. rewrite Hdb in Hm. rewrite Hm. eexists. split; [reflexivity|].
  match goal with |- process_inv ?q ∧ _ => set (p' := q) end.
  assert (Hwf : wf_db (sdb (st w'))) by (apply (si_db _ _ (pg_inv _ _ _ _ _ Hs))).
  assert (Hs' : stretch the_spoke (rows_of p) (next_run p) (next_run p') f).
  { apply (stretch_reset _ _ w'); [|done|symmetry; apply the_spoke_base|done|exact Hs]. cbn. by apply add_snapshot_wf. }
  split; [split; [|apply (pg_inv _ _ _ _ _ Hs')]|done]. intros _. cbn. eexists. split; [done|]. by apply add_snapshot_wf.
Qed.

Lemma close_stretch (p : world (proc (world srv))) :
  process_inv p →
  let p' := (on_disk Close p).2 in
  process_inv p' ∧ d_handles (p_disk (st p')) = pred (d_handles (p_disk (st p))) ∧
  stretch the_spoke (rows_of p) (next_run p) (next_run p') 0.
Proof.
  intros [Hf Hi]. cbn zeta. unfold on_disk, Close, close_db. cbn [snd st tick p_disk].
  match goal with |- process_inv ?q ∧ _ => set (p' := q) end.
  assert (Hs : stretch the_spoke (rows_of p) (next_run p) (next_run p') 0) by (apply stretch_later; [done|done|cbn; lia]).
  split; [split; [done|apply (pg_inv _ _ _ _ _ Hs)]|done].
Qed.

(** The daemon: some cycles. *)
Lemma hub_loop_stretch h ws w :
  h_spoke h = the_spoke → trusted CE the_spoke → system_inv the_spoke w →
  ∃ f, stretch the_spoke (rows (sdb (st w))) w (hub_loop h ws w).2 f.
Proof.
  intros Hh HT. revert w. induction ws as [|[] ws IH]; intros w Hi; cbn [hub_loop].
  - exists 0%nat. by apply stretch_later.
  - exists 0%nat. by apply stretch_later.
  - unfold runCycle. rewrite Hh. unfold_M.
    destruct (Run_stretch CE cf metrics_on the_spoke w HT Hi) as (cs & e & w1 & reports & HR & Hsub & _ & Hp).
    unfold timer_transport. rewrite HR. destruct (IH w1 (pg_inv _ _ _ _ _ Hp)) as (f & Hs).
    exists (missed_by e + f)%nat. eapply stretch_weaken; [exact Hsub|].
    eapply stretch_trans; [|exact Hp|exact Hs]. done.
Qed.

Lemma hub_Run_stretch h ws w :
  h_spoke h = the_spoke → trusted CE the_spoke → system_inv the_spoke w →
  ∃ f, stretch the_spoke (rows (sdb (st w))) w (hub_Run h ws w).2 f.
Proof.
  intros Hh HT Hi. unfold hub_Run. destruct (0 <? h_startupJitter h).
  - destruct (hub_loop_stretch h ws w Hh HT Hi) as (f & Hs). exists f. destruct ws as [|[] ws]; [done..|exact Hs].
  - destruct (hub_loop_stretch h (Fires :: ws) w Hh HT Hi) as (f & Hs). exists f. exact Hs.
Qed.

(** What a run function of the agent does with the spool, whatever runs in it. *)
Lemma session_stretch (p p1 : world (proc (world srv))) m db f :
  process_inv p1 → stretch the_spoke (rows_of p) (next_run p) (next_run p1) 0 →
  d_handles (p_disk (st p1)) = S (d_handles (p_disk (st p))) → d_file (p_disk (st p1)) = DbFile 2 false (Some db) →
  stretch the_spoke (rows_of p1) (next_run p1) (m (next_run p1)).2 f →
  let '(r, p2) := on_spool (buildCache c) m p1 in
  r = (m (next_run p1)).1 ∧ process_inv p2 ∧ stretch the_spoke (rows_of p) (next_run p) (next_run p2) f ∧
  let p3 := (on_disk Close p2).2 in
  process_inv p3 ∧ d_handles (p_disk (st p3)) = d_handles (p_disk (st p)) ∧ stretch the_spoke (rows_of p) (next_run p) (next_run p3) f.
Proof.
  intros Hi1 Hs1 Hh Hd Hm.
  destruct (on_spool_stretch p1 m db _ _ f Hi1 Hd (surjective_pairing _) Hm) as (p2 & -> & Hi2 & Hh2 & Hs2).
  assert (Hs : stretch the_spoke (rows_of p) (next_run p) (next_run p2) f) by (by eapply (stretch_trans _ _ _ _ _ _ 0 f)).
  split; [done|]. split; [done|]. split; [done|].
  destruct (close_stretch p2 Hi2) as (Hi3 & Hh3 & Hs3). cbn zeta. split; [done|]. split; [by rewrite Hh3, Hh2, Hh|].
  rewrite <- (Nat.add_0_r f). by eapply stretch_trans.
Qed.

Lemma spoke_of_parts :
  NewSpoke c (mkSpool (sc_Path sc) (spool_config sc))
    (buildTargetSource c (NewClient (a_ControllerURL c) (a_NodeID c) (a_NodeSecret c) (a_HTTPTimeout c))).2
    (Some (buildTargetSource c (NewClient (a_ControllerURL c) (a_NodeID c) (a_NodeSecret c) (a_HTTPTimeout c))).1) = the_spoke.
Proof. unfold the_spoke. by destruct (buildTargetSource _ _). Qed.

(** What one process does: it closes what it opened, unless it is still running,
    and is one stretch of the agent's work. *)
Definition process_ok (p : world (proc (world srv))) (s : option exit_status) (p' : world (proc (world srv))) : Prop :=
  process_inv p' ∧ (is_Some s → d_handles (p_disk (st p')) = d_handles (p_disk (st p))) ∧
  ∃ f, stretch the_spoke (rows_of p) (next_run p) (next_run p') f.

Lemma process_ok_idle p s : process_inv p → process_ok p s p.
Proof. intros Hi. split; [done|]. split; [done|]. exists 0%nat. apply stretch_later; [apply Hi|done|done]. Qed.

Lemma runSpoke_ok once p msg :
  trusted CE the_spoke → process_inv p →
  let '(r, p') := runSpoke once p in process_ok p (exit_of msg r) p'.
Proof.
  intros HT Hi. unfold runSpoke. rewrite HA. unfold_M. pose proof (open_stretch p Hi) as HO.
  destruct (openSpool p) as [[sp|e] p1]; destruct HO as (Hi1 & Hs1 & HO).
  2: { split; [done|]. split; [done|]. by eexists. }
  destruct HO as (-> & Hh & db & Hd). rewrite (surjective_pairing (buildTargetSource _ _)), spoke_of_parts.
  destruct once; cbn [negb].
  - destruct (Run_stretch CE cf metrics_on the_spoke (next_run p1) HT (pi_system _ Hi1)) as (cs & e & w3 & reports & HR & Hsub & _ & Hp).
    match goal with |- context [on_spool _ ?x p1] => set (m := x) end.
    assert (Hm : m (next_run p1) = (Some e, w3)) by (unfold m, timer_transport; by rewrite HR).
    pose proof (session_stretch p p1 m db (missed_by e) Hi1 Hs1 Hh Hd) as H. rewrite Hm in H.
    specialize (H ltac:(by eapply stretch_weaken; [exact Hsub|exact Hp])).
    destruct (on_spool _ m p1) as [r p2]. destruct H as (-> & _ & _ & Hi3 & Hh3 & Hs3).
    destruct (on_disk Close p2) as [u p3]. cbn [snd fst] in *. split; [done|]. split; [done|]. by eexists.
  - destruct (close_stretch p1 Hi1) as (Hi3 & Hh3 & Hs3). destruct (on_disk Close p1) as [u p3]. cbn [snd exit_of] in *.
    split; [done|]. split; [intros _; by rewrite Hh3, Hh|]. eexists. eapply stretch_trans; [|exact Hs1|exact Hs3]. done.
Qed.

Lemma runHub_ok ws p msg :
  trusted CE the_spoke → process_inv p →
  let '(r, p') := runHub ws p in process_ok p (exit_of msg r) p'.
Proof.
  intros HT Hi. unfold runHub. rewrite HA. unfold_M. pose proof (open_stretch p Hi) as HO.
  destruct (openSpool p) as [[sp|e] p1]; destruct HO as (Hi1 & Hs1 & HO).
  2: { split; [done|]. split; [done|]. by eexists. }
  destruct HO as (-> & Hh & db & Hd). rewrite (surjective_pairing (buildTargetSource _ _)). unfold BuildHub. cbn [hd_Cfg hd_Spool hd_Sender hd_Source].
  rewrite spoke_of_parts. set (h := NewHub _ _ _).
  destruct (hub_Run_stretch h ws (next_run p1) eq_refl HT (pi_system _ Hi1)) as (f & Hs).
  pose proof (session_stretch p p1 (hub_Run h ws) db f Hi1 Hs1 Hh Hd Hs) as H.
  destruct (on_spool _ (hub_Run h ws) p1) as [r p2]. destruct H as (_ & Hi2 & Hs2 & Hi3 & Hh3 & Hs3).
  destruct r as [e|]; unfold_M.
  - destruct (on_disk Close p2) as [u p3]. cbn [snd] in *. split; [done|]. split; [done|]. by eexists.
  - split; [done|]. split; [by intros []|]. by eexists.
Qed.

Lemma main_ok a p :
  trusted CE the_spoke → process_inv p →
  let '(s, p') := main a p in process_ok p s p'.
Proof.
  intros HT Hi. unfold main. unfold_M.
  case_bool_decide; [by apply process_ok_idle|].
  case_bool_decide.
  { pose proof (runSpoke_ok (once a) p "spoke failed" HT Hi) as HR. by destruct (runSpoke (once a) p) as [r p']. }
  case_bool_decide; [by apply process_ok_idle|].
  case_bool_decide; [|by apply process_ok_idle].
  pose proof (runHub_ok (wakes a) p "hub failed" HT Hi) as HR. by destruct (runHub (wakes a) p) as [r p'].
Qed.
End Timer.

(** ** Processes that are killed *)

(** Being killed is one more way for statements to start failing. *)
Lemma onsets_until K E a b : (@onsets (env_until K E) a b <= @onsets E a b + 1)%nat.
Proof.
  unfold onsets. generalize (b - a)%nat as n. intros n. revert a. induction n as [|n IH]; intros a; cbn [seq]; [cbn; lia|].
  rewrite !filter_cons. destruct (decide (@onset (env_until K E) a)) as [[H1 H2]|_]; [|case_decide; cbn [length]; specialize (IH (S a)); lia].
  cbn in H1, H2. unfold cut in H1, H2. destruct (Nat.leb_spec K a); [done|]. destruct (Nat.leb_spec K (S a)).
  - assert (Hz : filter (@onset (env_until K E)) (seq (S a) n) = []).
    { apply filter_none. intros i Hi%elem_of_seq [Hn _]. cbn in Hn. unfold cut in Hn. destruct (Nat.leb_spec K i); [done|lia]. }
    rewrite Hz. cbn. lia.
  - rewrite decide_True by done. cbn [length]. specialize (IH (S a)). lia.
Qed.

#[export] Instance migrator_until_spec {T} K (Mg : Migrator T) : MigratorSpec T (Mg := Mg) → MigratorSpec T (Mg := migrator_until K Mg).
Proof.
  intros HM. split; cbn; unfold cut; intros n ms f; destruct (Nat.leb_spec K n).
  - done.
  - apply up_done.
  - by intros e f' [= <- <-].
  - apply up_no_change.
  - intros e f' [= <- <-] _. exists 0%nat. split; [done|]. intros Hd. rewrite Nat.add_0_r. split; [done|]. split; [done|lia].
  - apply up_failed.
  - done.
  - apply up_reason.
Qed.

Lemma trusted_until {CE : Env} {L : Link} {E : Env} {Ids : RunIDs} s K :
  trusted CE s → @trusted CE (link_until K L) (env_until K E) Ids s.
Proof.
  intros []. split; [done..| |done| |done].
  - intros k. cbn. unfold cut. destruct (K <=? k)%nat; [constructor|done].
  - intros n e. cbn. unfold cut. destruct (K <=? n)%nat; [by intros [= <-]|by apply t_driver].
Qed.

Section Series.
Context (CE : Env) {CD : CtlDriver} {Rn : Rand} {MS : MatrixSQL} {Up : Upgrader} {Sz : Stat} {L : Link}.
Context (cf : Server.config) (metrics_on : bool).
Context {E : Env} {FS : FileSys} {D : SqlDriver} {Di : Dialer} {Ids : RunIDs} {PE : ProcEnv}.
Context {SO : SqlOpen} {Mg : Migrator (option spool_db)} {MgS : MigratorSpec (option spool_db)}.
Context (c : AgentConfig) (sc : SpoolConfig).
Context (HA : LoadAgent = Ok c) (HS : LoadSpool = Ok sc).

Abbreviation spoke := (the_spoke c sc).
Abbreviation machine := (world (proc (world srv))).
Abbreviation rows_of p := (rows (sdb (st (next_run c p)))).

(** The processes of the machine, over the link to the controller. *)
Abbreviation run_process := (process (λ L', timer_transport CE (L := L') cf metrics_on c sc) L E Mg).
Abbreviation run_processes := (processes (λ L', timer_transport CE (L := L') cf metrics_on c sc) L E Mg).

Definition kills (l : list args) : nat := length (filter (λ a, is_Some (killed a)) l).

Definition series_ok (p p' : machine) (extra : nat) : Prop :=
  process_inv c sc p' ∧ d_handles (p_disk (st p')) = d_handles (p_disk (st p)) ∧
  ∃ f, journey spoke (rows_of p) (next_run c p) (next_run c p') f ∧
       (f <= onsets (tick p) (tick p') + extra)%nat.

Lemma process_series a p : trusted CE spoke → process_inv c sc p → series_ok p (run_process a p).2 (kills [a]).
Proof.
  intros HT Hi. unfold process, kills. rewrite filter_cons, filter_nil. destruct (killed a) as [K|] eqn:HK.
  - rewrite decide_True by eauto.
    pose proof (main_ok CE (L := link_until K L) cf metrics_on (E := env_until K E) (Mg := migrator_until K Mg) c sc HA HS a p
      (trusted_until _ K HT) Hi) as H.
    destruct (main a p) as [s p']. destruct H as ([F1 F2] & _ & f & Hj & Hf). cbn [snd]. split; [by split|]. split; [done|].
    exists f. split; [done|]. pose proof (onsets_until K E (tick p) (tick p')). cbn [next_run tick length] in Hf |- *. lia.
  - rewrite decide_False by (by intros []).
    pose proof (main_ok CE cf metrics_on c sc HA HS a p HT Hi) as H.
    destruct (main a p) as [s p']. destruct H as (Hi' & Hh & f & Hj & Hf). destruct s; cbn [snd].
    + split; [done|]. split; [by apply Hh|]. exists f. split; [done|]. cbn [next_run tick length] in Hf |- *. lia.
    + destruct Hi' as [F1 F2]. split; [by split|]. split; [done|]. exists f. split; [done|]. cbn [next_run tick length] in Hf |- *. lia.
Qed.

Lemma processes_series l p : trusted CE spoke → process_inv c sc p → series_ok p (run_processes l p).2 (kills l).
Proof.
  intros HT. revert p. induction l as [|a l IH]; intros p Hi; cbn [processes].
  { split; [done|]. split; [done|]. exists 0%nat. split; [|cbn; lia].
    apply (stretch_later (E := E) c sc (next_run c p) (next_run c p)); [apply Hi|done|done]. }
  unfold_M. pose proof (process_series a p HT Hi) as H1. destruct (process _ _ _ _ a p) as [s p1]. cbn [snd] in H1.
  destruct H1 as (Hi1 & Hh1 & f1 & J1 & B1). specialize (IH p1 Hi1).
  destruct (processes _ _ _ _ l p1) as [ss p2]. cbn [snd] in *. destruct IH as (Hi2 & Hh2 & f2 & J2 & B2).
  split; [done|]. split; [congruence|]. exists (f1 + f2)%nat. split; [by eapply journey_trans|].
  pose proof (jn_ticks _ _ _ _ _ J1) as T1. pose proof (jn_ticks _ _ _ _ _ J2) as T2. cbn in T1, T2.
  rewrite (onsets_split (tick p) (tick p1)) by lia. unfold kills in *. rewrite filter_cons in *. rewrite filter_nil in B1.
  destruct (decide _); cbn in *; lia.
Qed.

End Series.

(** ** A concrete installation

    A new machine: no spool file yet, the controller's target list, four timer
    ticks, of which the second finds the file locked and the last is killed between
    the controller's answer and the deletion of the report, and a hub daemon that
    is still running after two cycles. *)

Definition install_env : ProcEnv := {|
  LookupEnv k := (list_to_map [("NLM_NODE_ID", "spoke-1"); ("NLM_CONTROLLER_URL", "https://c/"); ("NLM_NODE_SECRET", "s3cret")]
                    : gmap string string) !! k;
  ReadFile _ := Err (ErrMsg "no such file or directory");
|}.

Definition busy_once : SqlOpen := {|
  sql_Open _ _ := None; Migrate.Ping n := if (n =? 34)%nat then Some (ErrDriver "database is locked (5)") else None;
  fs_Sub _ := None; db_Close _ := None |}.

Definition install_agent : AgentConfig :=
  Eval vm_compute in match @LoadAgent install_env with Ok c => c | Err _ => ex_agent_config end.

Definition install_spool : SpoolConfig :=
  Eval vm_compute in match @LoadSpool install_env with Ok c => c | Err _ => mkSpoolConfig "" 0 0 0 0 0 end.

Abbreviation install_spoke := (the_spoke install_agent install_spool).

Definition install_start : world (proc (world srv)) :=
  mkWorld (Proc (Disk (DbFile 0 false None) 0) (mkWorld ex_controller 0)) 1.

Definition one_shot : args := mkArgs "spoke" true [] (λ _, None) [] None.
Definition one_shot_until (K : nat) : args := mkArgs "spoke" true [] (λ _, None) [] (Some K).
Definition daemon (ws : list wake) : args := mkArgs "hub" false ws (λ _, None) [] None.

Abbreviation install_run l :=
  (@processes (world srv) (λ L, @timer_transport calm sqlite_driver fixed_rand plain_sql any_handshake no_files L admin_config true
     install_agent install_spool) ex_link json_agent_codec (quiet_env T0) (one_file "/var/lib/nlm/spool.db" 4096) text_driver ex_dialer ex_ids
     install_env busy_once (plain_migrator _) l).

Definition install_days : list args := [one_shot; one_shot; one_shot; one_shot_until 87; daemon [Fires; Fires]].

Lemma install_trusted : @trusted calm ex_link (quiet_env T0) ex_ids install_spoke.
Proof. destruct ex_trusted_ok. by split. Qed.

Lemma install_inv : @process_inv ex_ids install_agent install_spool install_start.
Proof.
  split; [by intros _|]. apply system_inv_start; [done| |constructor|done].
  split; [constructor|constructor|]. apply map_Forall_to_list. by_decide.
Qed.

(** What the killed process leaves: its report both in the file and at the
    controller. *)
Example install_killed :
  let '(_, p) := install_run (take 4 install_days) install_start in
  (probe_run_id <$> rows (file_db (d_file (p_disk (st p))))) = ["run-79"] ∧
  (r_probe_run_id <$> results (s_db (st (p_net (st p))))) = ["run-12"; "run-47"; "run-79"].
Proof. vm_compute. done. Qed.

(** Five reports arrive, each once, also the one that was sent twice; the process
    that found the file locked sent none. *)
Example install_report :
  let '(_, p) := install_run install_days install_start in
  (r_probe_run_id <$> results (s_db (st (p_net (st p))))) = ["run-12"; "run-47"; "run-79"; "run-100"; "run-125"] ∧
  f_version (d_file (p_disk (st p))) = 2%nat ∧ rows (file_db (d_file (p_disk (st p)))) = [].
Proof. vm_compute. done. Qed.

(** The machine after the kill, and when the daemon has run. *)
Abbreviation after_kill := (install_run (take 4 install_days) install_start).2.
Abbreviation after_all := (install_run (drop 4 install_days) after_kill).2.

