(* ===== verification/Propagation.v ===== *)
(** * From the registry to the agents

    A change of the hub set bumps the targets version; the response to every
    accepted report carries the version; the agent's cache compares it with the
    version it knows.  Here is that chain from end to end. *)
From Stdlib Require Import Ascii ZArith Lia SpecFloat.
From S2P Require Import Prelude GoTime GoStrings GoNumbers GoFloat Spool SpoolFacts Delivery Chrony Config ControllerDB Nodes Http Server Results ResultsFacts Handlers Routes HandlersFacts Agent AgentFacts Json Html Wire System EndToEnd.

Local Open Scope string_scope.
Local Open Scope Z_scope.

#[local] Existing Instance json_codec.
#[local] Existing Instance json_agent_codec.

(** The list the controller holds for a node, as a JSON text carries it
    ([to_valid] is the identity on valid UTF-8). *)
Definition hub_list (me : string) (d : cdb) : list Target :=
  (λ h, mkTarget (to_valid (ID h)) (to_valid (Address h))) <$> sql_hub_targets me d.

(** Statistics do not matter for it. *)
Lemma active_addr_node_of k r r' : node_of k r = node_of k r' → active_addr r = active_addr r'.
Proof.
  unfold node_of, active_addr. intros [= Hr _ Ha Hd]. rewrite Hr.
  assert (Hd' : (n_disabled r =? 0) = (n_disabled r' =? 0)) by (by destruct (n_disabled r =? 0), (n_disabled r' =? 0)).
  rewrite Hd'. destruct (_ && _); [|done].
  destruct (n_address r) as [a|], (n_address r') as [a'|]; cbn in *; subst; try done; by case_bool_decide.
Qed.

Lemma active_hubs_node_of d d' :
  (∀ k, node_of k <$> nodes d' !! k = node_of k <$> nodes d !! k) → active_hubs d' = active_hubs d.
Proof.
  intros H. apply map_eq. intros k. unfold active_hubs. rewrite !lookup_omap. specialize (H k).
  destruct (nodes d !! k) as [r|], (nodes d' !! k) as [r'|]; cbn in *; try done.
  apply (inj Some) in H. by apply (active_addr_node_of k).
Qed.

Lemma hub_list_node_of me d d' :
  (∀ k, node_of k <$> nodes d' !! k = node_of k <$> nodes d !! k) → hub_list me d' = hub_list me d.
Proof. intros H. unfold hub_list, sql_hub_targets. by rewrite (active_hubs_node_of _ _ H). Qed.

Lemma node_effect_node_of n d d' : node_effect n d d' → ∀ k, node_of k <$> nodes d' !! k = node_of k <$> nodes d !! k.
Proof. intros (Ho & Hn & _) k. destruct (decide (k = n)) as [->|Hne]; [done|]. by rewrite Ho. Qed.

Lemma node_effect_version n d d' : node_effect n d d' → targets_version d' = targets_version d.
Proof. by intros (_ & _ & ? & _). Qed.

Lemma str_take_all n s : (String.length s <= n)%nat → str_take n s = s.
Proof.
  revert s. induction n as [|n IH]; intros [|c s] Hn; cbn in *; try done; [lia|]. rewrite IH by lia. done.
Qed.

Section Version.
Context {E : Env} {D : CtlDriver}.

(** With nothing failing, a finished request carries the version. *)
Lemma finish_version id req status start (w : world srv) v :
  fault_free E → targets_version (s_db (st w)) = Some v →
  let resp := (finish_results id req status start w).1 in
  body resp = JResults (Some v) ∨ body resp ∈ [Aborted; Hung].
Proof.
  intros Hff Hv. unfold finish_results. unfold_M. destruct (now w) as [t w1] eqn:H1.
  assert (Hs1 : s_db (st w1) = s_db (st w)) by (unfold now in H1; by injection H1 as <- <-).
  pose proof (keeps_UpdateSpoolStats id (spool_stats req t) w1) as Hk.
  destruct (UpdateSpoolStats _ _ w1) as [e w2]. cbn in Hk.
  pose proof (keeps_report id req status w2) as Hk2.
  destruct (report_metrics id req status w2) as [[p|] w3] eqn:Hr; cbn in Hk2.
  - right. unfold report_metrics in Hr. destruct (s_metrics (st w2)); [|done].
    cbn in *. repeat case_match; simplify_eq; set_solver.
  - left. match goal with |- context [(if ?b then ?x else ?y) w3] =>
      assert (Hk3 : s_db (st ((if b then x else y) w3).2) = s_db (st w3)) by (by destruct b);
      destruct ((if b then x else y) w3) as [u4 w4] end. cbn in Hk3.
    pose proof (keeps_observe id status start w4) as Hk4.
    destruct (observeIngest _ _ _ w4) as [u5 w5]. cbn in Hk4.
    assert (Hv5 : targets_version (the_db (st w5)) = Some v).
    { cbn. destruct Hk as (_ & _ & Ha & _), Hk2 as (_ & _ & Hb & _), Hk4 as (_ & _ & Hc & _).
      rewrite Hc, Hk3, Hb, Ha, Hs1. done. }
    destruct (gives_TargetsVersion Hff w5 v Hv5) as [Ht _].
    destruct (TargetsVersion w5) as [r6 w6]. cbn in *. by subst r6.
Qed.

(** The answer to a report that is not refused. *)
Lemma handleResults_version node r (w : world srv) v :
  fault_free E → targets_version (s_db (st w)) = Some v →
  let '(resp, w') := handleResults node r w in
  (accepting (code resp) → body resp = JResults (Some v)) ∧
  (∀ k, node_of k <$> nodes (s_db (st w')) !! k = node_of k <$> nodes (s_db (st w)) !! k) ∧
  targets_version (s_db (st w')) = Some v.
Proof.
  intros Hff Hv. pose proof (handleResults_effect node r w) as Hef. pose proof (node_effect_node_of _ _ _ Hef) as Hn.
  pose proof (node_effect_version _ _ _ Hef) as Hv'. clear Hef. revert Hn Hv'.
  unfold handleResults. unfold_M. cbn zeta. destruct (now w) as [start w0] eqn:Hw0.
  assert (Hs0 : st w0 = st w) by (unfold now in Hw0; by injection Hw0 as <- <-). unfold accepting.
  destruct (decode_results (Body r)) as [req|e].
  2: { destruct (observeIngest _ _ _ w0) as [u w1]. cbn. intros Hn ->.
    unfold StatusUnprocessableEntity, StatusInternalServerError. split; [intros Ha; exfalso; lia|done]. }
  destruct (validateResultsRequest (ID node) req) as [e|].
  { destruct (observeIngest _ _ _ w0) as [u w1]. cbn. intros Hn ->.
    unfold StatusUnprocessableEntity, StatusInternalServerError. split; [intros Ha; exfalso; lia|done]. }
  pose proof (persistResults_cases req w0) as Hp. rewrite Hs0 in Hp.
  destruct (persistResults req w0) as [p w1].
  assert (Hfin : ∀ s, targets_version (s_db (st w1)) = Some v →
    (∀ k, node_of k <$> nodes (s_db (st (finish_results (ID node) req s start w1).2)) !! k = node_of k <$> nodes (s_db (st w)) !! k) →
    targets_version (s_db (st (finish_results (ID node) req s start w1).2)) = targets_version (s_db (st w)) →
    let '(resp, w') := finish_results (ID node) req s start w1 in
    (200 <= code resp < 300 ∨ code resp = 409 → body resp = JResults (Some v)) ∧
    (∀ k, node_of k <$> nodes (s_db (st w')) !! k = node_of k <$> nodes (s_db (st w)) !! k) ∧
    targets_version (s_db (st w')) = Some v).
  { intros s Hv1 Hn Hv2. pose proof (finish_version (ID node) req s start w1 v Hff Hv1) as Hb.
    pose proof (finish_code (ID node) req s start w1) as Hc. cbn zeta in Hb, Hc.
    destruct (finish_results _ _ _ _ w1) as [resp w2]. cbn in *. split; [|split; [done|congruence]].
    intros Ha. destruct Hb as [|Hb]; [done|]. exfalso.
    destruct Hc as [(_ & v' & He)|(Hc & _)]; [|lia]. rewrite He in Hb. set_solver. }
  destruct Hp as [(-> & d1 & Hi & Hst)|[(-> & Hst & Hl)|(e & -> & Hst & _)]].
  - apply Hfin. rewrite Hst. cbn. by rewrite (ing_version _ _ _ _ Hi).
  - apply Hfin. by rewrite Hst.
  - destruct (observeIngest _ _ _ w1) as [u w2]. cbn. intros Hn ->.
    unfold StatusUnprocessableEntity, StatusInternalServerError. split; [intros Ha; exfalso; lia|done].
Qed.

(** Valid credentials pass. *)
Lemma bearerAuth_passes next r (w : world srv) node :
  fault_free E → node_credentials (s_db (st w)) r node →
  ∃ w', st w' = st w ∧ bearerAuth next r w = next node r w'.
Proof.
  intros Hff (row & tok & Hrow & -> & Hid & Hp & Hv). unfold bearerAuth. rewrite Hp.
  rewrite bool_decide_eq_false_2 by done. unfold Get. unfold_M. rewrite db_query_ff by done. cbn [the_db srv_HasDB].
  rewrite Hrow, Hv. cbn [negb]. eexists. split; [|reflexivity]. cbn. by destruct (st w).
Qed.
End Version.

Section Propagation.
Context {CE : Env} {CD : CtlDriver} {Rn : Rand} {MS : MatrixSQL} {Up : Upgrader} {Sz : Stat} {L : Link}.
Context (cf : Server.config) (metrics_on : bool) (base : string).

#[local] Instance prop_transport : Transport (world srv) := link_transport (CE := CE) cf metrics_on base.

(** A controller on which nothing fails, and bodies that are the JSON of the
    answers.  The network may lose what it likes. *)
Record serving : Prop := {
  sv_ff : fault_free CE;
  sv_body p j : payload_json p = Some j → write_body p = writeJSON_body j;
}.

(** The answer to a report fits what the client reads of it, and reads back. *)
Lemma version_body v :
  serving → 0 < v <= max_int64 →
  decode_version (read_limited 4096 (write_body (JResults (Some v)))) = Ok v ∧
  read_limited 4096 (write_body (JResults (Some v))) ≠ "".
Proof.
  intros HR Hv. erewrite (sv_body HR) by reflexivity. unfold read_limited. rewrite str_take_all.
  - erewrite version_decodes by reflexivity. split; [|done]. rewrite wrap64_id; [done|].
    unfold in_int64, min_int64. unfold max_int64 in *. lia.
  - assert (Hb : ∃ a b, writeJSON_body (jobj ([("status", enc_string "ok")] ++ [("targets_version", enc_int v)])%list) =
        a ++ (format_int (wrap64 v) ++ b) ++ String (ascii_of_N 10) "" ∧ (String.length a + String.length b <= 1000)%nat).
    { eexists (lit "{`status`:`ok`,`targets_version`:"), "}". split; [reflexivity|]. cbn. lia. }
    destruct Hb as (a & b & -> & Hab). rewrite wrap64_id by (unfold in_int64, min_int64; unfold max_int64 in *; lia).
    unfold format_int. rewrite (proj2 (Z.ltb_ge _ _)) by lia.
    assert (Hd : (String.length (digits v) <= 19 + 0)%nat) by (apply digits_acc_length; [unfold max_int64 in *; lia|lia]).
    rewrite !string_length_app. cbn [String.length]. lia.
Qed.

Lemma targets_body ts v :
  serving → in_int64 v → decode_targets (write_body (JTargets ts v)) = Ok (clean_targets ts, v).
Proof. intros HR Hv. erewrite (sv_body HR), targets_decodes by reflexivity. by rewrite wrap64_id. Qed.

Abbreviation db_of x := (s_db (st (net x))).

(** ** Requests and the version *)

(** Served one at a time, every request lets the version track the hub set. *)
Lemma Handler_tracks r (w : world srv) :
  fault_free CE → version_tracks (s_db (st w)) (s_db (st (Handler cf metrics_on r w).2)).
Proof.
  intros Hff. apply Handler_methods; [apply _| | |].
  - intros n u. apply (tracks_ff _ _ Hff), Upsert_tracks, fault_free_plain, Hff.
  - intros id u. apply (tracks_ff _ _ Hff), Delete_tracks, fault_free_plain, Hff.
  - intros node _ u. pose proof (handleResults_effect node r u) as He. cbn.
    apply version_tracks_same; [by apply (node_effect_version (ID node))|].
    by apply active_hubs_node_of, (node_effect_node_of (ID node)).
Qed.

Lemma serve_tracks l (w : world srv) :
  fault_free CE → version_tracks (s_db (st w)) (s_db (st (foldl (serve_one cf metrics_on) w l))).
Proof.
  intros Hff. revert w. induction l as [|r l IH]; intros w; cbn [foldl]; [reflexivity|].
  etransitivity; [by apply (Handler_tracks r)|apply IH].
Qed.

Lemma link_tracks k timeout q (w : world srv) :
  fault_free CE → version_tracks (s_db (st w)) (s_db (st (link_Do cf metrics_on base k timeout q w).2)).
Proof.
  intros Hff. unfold link_Do. pose proof (serve_tracks (others k) w Hff) as Hs. set (w1 := foldl _ w _) in *.
  pose proof (Handler_tracks (server_request base q) w1 Hff) as Hh.
  destruct (fate_of k); cbn [snd]; [done|by etransitivity|].
  destruct (Handler cf metrics_on _ w1). cbn in *. by etransitivity.
Qed.

(** The credentials the cache sends are those of a registered node. *)
Definition logged_in (tc : TargetCache) (d : cdb) : Prop :=
  ∃ node, node_credentials d (server_request base (targets_request tc)) node.

Lemma logged_in_node_of tc d d' :
  (∀ k, node_of k <$> nodes d' !! k = node_of k <$> nodes d !! k) → logged_in tc d → logged_in tc d'.
Proof.
  intros H (node & row & tok & Hrow & Hn & Hrest). specialize (H (Header_Get (server_request base (targets_request tc)) "X-Nlm-Node-Id")).
  rewrite Hrow in H. exists node. unfold node_credentials.
  destruct (nodes d' !! _) as [row'|]; [|done]. cbn [fmap option_fmap option_map] in H.
  apply (inj Some) in H. exists row', tok. split; [done|]. by rewrite H.
Qed.

(** Client and cache send the same credentials. *)
Definition same_login (c : Client) (tc : TargetCache) : Prop := cl_nodeID c = tc_nodeID tc ∧ cl_secret c = tc_secret tc.

Lemma same_login_in c tc pl d node :
  same_login c tc → node_credentials d (server_request base (results_request c pl)) node → logged_in tc d.
Proof.
  intros [Hi Hs] Hc. exists node. unfold node_credentials in *.
  assert (H : ∀ h, h ≠ "Content-Type" →
    Header_Get (server_request base (targets_request tc)) h = Header_Get (server_request base (results_request c pl)) h).
  { intros h Hh. unfold Header_Get, server_request, targets_request, results_request. cbn [Header q_Header].
    by rewrite lookup_insert_ne, Hi, Hs. }
  by rewrite !H.
Qed.

(** ** One exchange *)

(** The cache but for the notice. *)
Definition same_cache (a b : TargetCache) : Prop :=
  tc_base b = tc_base a ∧ tc_nodeID b = tc_nodeID a ∧ tc_secret b = tc_secret a ∧
  tc_targets b = tc_targets a ∧ tc_knownVersion b = tc_knownVersion a.

Lemma Send_tracks c k run pl x :
  fault_free CE →
  same_cache (cache x) (cache (client_Send c k run pl x).2) ∧ version_tracks (db_of x) (db_of (client_Send c k run pl x).2).
Proof.
  intros Hff. unfold client_Send. change (NewRequest_error ?u) with (url_error u).
  change (Do ?a ?b ?q ?n) with (link_Do (CE := CE) cf metrics_on base a b q n).
  destruct (url_error _); [by split|]. pose proof (link_tracks k (cl_httpTimeout c) (results_request c pl) (net x) Hff) as Hl.
  destruct (link_Do _ _ _ _ _ _ (net x)) as [[resp|e] n]; cbn [snd cache net] in *; [|by split]. split; [|done].
  case_bool_decide; [|done]. unfold notifyVersion, NoticeVersion. by repeat case_match.
Qed.

(** An accepted report leaves the current version as a notice, and was sent with
    credentials that are good. *)
Lemma Send_notices c k run pl x e x' v :
  serving → cl_base c = base → cl_notifier c = true → same_login c (cache x) →
  client_Send c k run pl x = ((OutcomeAccepted, e), x') →
  targets_version (db_of x') = Some v → 0 < v <= max_int64 →
  cache x' = NoticeVersion v (cache x) ∧ logged_in (cache x) (db_of x').
Proof.
  intros HR Hb Hn Hlog HS Hv Hpos. revert HS. unfold client_Send.
  change (NewRequest_error ?u) with (url_error u). destruct (url_error _); [done|].
  change (Do ?a ?b ?q ?n) with (link_Do (CE := CE) cf metrics_on base a b q n).
  unfold link_Do. set (w0 := foldl _ (net x) _).
  destruct (fate_of k); [done|done|]. unfold Handler. rewrite (route_results metrics_on base c pl Hb). cbn [serve].
  set (r := server_request base (results_request c pl)).
  destruct (bearerAuth_cases handleResults r w0) as [(node & w1 & Hcred & Hst & _ & ->)|(resp & w1 & -> & Hst & Hcode)].
  2: { unfold client_view. assert (Hna : ¬ accepting (code resp)).
       { unfold accepting. apply list_elem_of_In in Hcode as [<-|[<-|[]]]; lia. }
       assert (Hok : ∀ b, (outcome_of (mkClientResponse (code resp) "" b) (read_limited 4096 b)).1 ≠ OutcomeAccepted).
       { intros b Ho. apply outcome_accepting in Ho. done. }
       destruct (body resp); try done; intros [= Ho _]; exfalso; eapply Hok; by rewrite Ho. }
  pose proof (handleResults_effect node r w1) as Hef.
  pose proof (handleResults_version node r w1) as H. destruct (handleResults node r w1) as [resp w2].
  cbn [snd] in Hef. destruct (client_view resp) as [cr|e0] eqn:Hcv; [|done].
  assert (Hcr : ∃ b, cr = mkClientResponse (code resp) "" b).
  { unfold client_view in Hcv. destruct (body resp); simplify_eq; by eexists. }
  destruct Hcr as [b ->]. cbn [r_Body]. intros [= Ho <-]. cbn [net cache] in *.
  rewrite Ho. cbn [fst]. rewrite bool_decide_eq_true_2 by done.
  specialize (H v (sv_ff HR)). rewrite <- (node_effect_version _ _ _ Hef), Hv in H. specialize (H eq_refl).
  destruct H as (Hbody & _).
  assert (Ha : accepting (code resp)) by (apply (outcome_accepting (mkClientResponse (code resp) "" b) (read_limited 4096 b)); by rewrite Ho).
  unfold client_view in Hcv. rewrite (Hbody Ha) in Hcv. injection Hcv as <-. split.
  - unfold notifyVersion. destruct (version_body v HR Hpos) as [Hd Hne].
    rewrite Hn, Hd, bool_decide_eq_false_2 by done. cbn [negb orb]. by rewrite (proj2 (Z.ltb_lt _ _) (proj1 Hpos)).
  - rewrite <- Hst in Hcred. apply (logged_in_node_of _ (s_db (st w1))); [by apply (node_effect_node_of (ID node))|].
    by eapply same_login_in.
Qed.

(** What [handleTargets] answers. *)
Lemma handleTargets_answer node r (w : world srv) v :
  fault_free CE → targets_version (s_db (st w)) = Some v →
  let '(resp, w') := handleTargets node r w in
  s_db (st w') = s_db (st w) ∧
  resp = reply StatusOK (JTargets ((λ n, (ID n, Address n)) <$> sql_hub_targets (ID node) (s_db (st w))) v).
Proof.
  intros Hff Hv. pose proof (same_db_handleTargets node r w) as Hd. revert Hd. unfold handleTargets. unfold_M.
  destruct (gives_HubTargetsFor (HD := srv_HasDB) Hff (ID node) w v Hv) as [Hg _].
  destruct (HubTargetsFor _ w) as [g w2]. cbn in Hg. subst g. cbn. by intros <-.
Qed.

Lemma targets_request_id tc : Header_Get (server_request base (targets_request tc)) "X-Nlm-Node-Id" = tc_nodeID tc.
Proof. unfold Header_Get, server_request, targets_request, auth_headers. cbn [Header q_Header]. by rewrite lookup_insert_eq. Qed.

(** A list that was fetched is the controller's, whatever happened on the way; and
    it is fetched when nothing happens. *)
Lemma fetch_list (w : world (sp_state (agent (world srv)))) v tc :
  serving → tc_base tc = base → targets_version (db_of (ext (st w))) = Some v →
  let '(r, w') := fetch tc w in
  let d' := db_of (ext (st w')) in
  cache (ext (st w')) = cache (ext (st w)) ∧ version_tracks (db_of (ext (st w))) d' ∧
  match r with
  | Ok (ts, n) => ts = hub_list (tc_nodeID tc) d' ∧ (∃ v', targets_version d' = Some v' ∧ (in_int64 v' → n = v'))
  | Err _ => True
  end ∧
  (url_error (base ++ "/api/v1/targets") = None → fate_of (tick w) = Delivered → others (tick w) = [] →
   logged_in tc (db_of (ext (st w))) → is_Ok r = true ∧ db_of (ext (st w')) = db_of (ext (st w))).
Proof.
  intros HR Hb Hv. unfold fetch. rewrite Hb. change (NewRequest_error ?u) with (url_error u).
  destruct (url_error _) as [e|]; [by split; [|split; [|split]]|].
  unfold http_do. unfold_M. change (Do ?a ?b ?q ?n) with (link_Do (CE := CE) cf metrics_on base a b q n).
  pose proof (link_tracks (tick w) (tc_httpTimeout tc) (targets_request tc) (net (ext (st w))) (sv_ff HR)) as Htr.
  unfold link_Do in *. pose proof (serve_tracks (others (tick w)) (net (ext (st w))) (sv_ff HR)) as Hs.
  assert (H0 : others (tick w) = [] → s_db (st (foldl (serve_one cf metrics_on) (net (ext (st w))) (others (tick w)))) = db_of (ext (st w))) by (by intros ->).
  set (w0 := foldl _ (net _) _) in *.
  destruct (fate_of (tick w)) eqn:Hfate; [by split; [|split; [|split]]..|].
  unfold Handler in *. rewrite (route_targets metrics_on base tc Hb) in *. cbn [serve] in *.
  assert (Hv0 : ∃ v0, targets_version (s_db (st w0)) = Some v0).
  { unfold version_tracks in Hs. rewrite Hv in Hs. destruct (targets_version (s_db (st w0))) as [v0|]; [by exists v0|done]. }
  destruct Hv0 as [v0 Hv0].
  destruct (bearerAuth_cases handleTargets (server_request base (targets_request tc)) w0)
    as [(node & w1 & Hc & Hst & _ & Hba)|(resp & w1 & Hba & Hst & Hcode)].
  - rewrite Hba in *. rewrite <- Hst in Hv0. pose proof (handleTargets_answer node (server_request base (targets_request tc)) w1 v0 (sv_ff HR) Hv0) as Ha.
    destruct (handleTargets _ _ w1) as [resp w2]. destruct Ha as [Hd ->]. cbn [client_view body reply r_StatusCode code snd] in *.
    erewrite (sv_body HR) by reflexivity. cbn [negb Z.eqb r_Body Pos.eqb StatusOK]. erewrite targets_decodes by reflexivity.
    cbn [ext st net cache]. rewrite Hd. split; [done|]. split; [by rewrite <- Hd|].
    destruct Hc as (row & tok & _ & -> & _). rewrite targets_request_id. split.
    + split; [|exists v0; split; [done|by apply wrap64_id]].
      unfold clean_targets, hub_list. rewrite <- !list_fmap_compose. done.
    + intros _ _ Ho _. split; [done|]. rewrite Hst. by apply H0.
  - rewrite Hba in *. cbn [client_view] in *.
    assert (Hne : (code resp =? 200) = false) by (apply list_elem_of_In in Hcode as [<-|[<-|[]]]; done).
    assert (Hcv : ∀ cr, client_view resp = Ok cr → r_StatusCode cr = code resp).
    { unfold client_view. intros cr. destruct (body resp); intros [= <-]; done. }
    destruct (client_view resp) as [cr|e]; [rewrite (Hcv cr eq_refl), Hne; cbn [negb]|]; cbn [ext st net cache];
      (split; [done|]); (split; [done|]); (split; [done|]); intros _ _ Ho (node & Hlog); exfalso;
      rewrite <- (H0 Ho) in Hlog;
      destruct (bearerAuth_passes handleTargets _ w0 node (sv_ff HR) Hlog) as (w1' & Hst' & Hp); rewrite Hba in Hp;
      pose proof (handleTargets_answer node (server_request base (targets_request tc)) w1' v0 (sv_ff HR) ltac:(by rewrite Hst')) as Ha;
      rewrite <- Hp in Ha; destruct Ha as [_ ->]; done.
Qed.

(** ** The history of an agent *)

Context {E : Env} (c : Client).

(** What happens: the controller serves a request of somebody, the agent sends a
    report, the agent asks for its targets. *)
Inductive event :=
  | Serve (r : request)
  | Report (k : nat) (run pl : string)
  | AskTargets (k : nat).

Definition happens (x : agent (world srv)) (ev : event) : agent (world srv) :=
  match ev with
  | Serve r => mkAgent (cache x) (serve_one (CE := CE) cf metrics_on (net x) r)
  | Report k run pl => (client_Send c k run pl x).2
  | AskTargets k => ext (st (cache_Targets (mkWorld (SpState Spool.migrated x []) k)).2)
  end.

(** The cache is never ahead of the controller, and at its version it has its list. *)
Definition coherent (id : string) (x : agent (world srv)) : Prop :=
  tc_nodeID (cache x) = id ∧ ∃ v, targets_version (db_of x) = Some v ∧ 0 < v ∧
  (v <= max_int64 → tc_knownVersion (cache x) <= v ∧
     (tc_knownVersion (cache x) = v → tc_targets (cache x) = hub_list id (db_of x))).

Lemma coherent_tracks id x x' :
  same_cache (cache x) (cache x') → version_tracks (db_of x) (db_of x') → coherent id x → coherent id x'.
Proof.
  intros (_ & Hid & _ & Hts & Hk) Htr (Hi & v & Hv & Hpos & Hcoh). split; [congruence|]. unfold version_tracks in Htr. rewrite Hv in Htr.
  destruct (targets_version (db_of x')) as [v'|]; [|done]. destruct Htr as [Hle Heq]. exists v'. split; [done|]. split; [lia|].
  intros Hmax. destruct (Hcoh ltac:(lia)) as [H1 H2]. rewrite Hk, Hts. split; [lia|]. intros Hk'. rewrite H2 by lia.
  unfold hub_list, sql_hub_targets. by rewrite Heq by lia.
Qed.

(** Asking keeps it so. *)
Lemma cache_Targets_coherent (w : world (sp_state (agent (world srv)))) id :
  serving → tc_base (cache (ext (st w))) = base → coherent id (ext (st w)) →
  let x' := ext (st (cache_Targets w).2) in
  coherent id x' ∧ tc_base (cache x') = base ∧ tc_secret (cache x') = tc_secret (cache (ext (st w))).
Proof.
  intros HR Hb Hc. pose proof Hc as (Hid & v & Hv & Hpos & _). unfold cache_Targets, the_cache, now. unfold_M. cbn [st tick].
  destruct (needRefresh _ _); cbn [negb]; [|done].
  pose proof (fetch_list (mkWorld (st w) (S (tick w))) v (cache (ext (st w))) HR Hb Hv) as Hf.
  destruct (fetch _ _) as [r w1]. cbn zeta in Hf. cbn [st] in Hf. destruct Hf as (Hca & Htr & Hr & _).
  assert (Hsame : coherent id (ext (st w1))) by (apply (coherent_tracks id (ext (st w))); [by rewrite Hca|done|done]).
  destruct r as [[ts n]|e]; [|cbn; by rewrite Hca].
  cbn. rewrite Hca. destruct Hr as (-> & v' & Hv' & Hn). split; [|done]. split; [done|].
  destruct Hsame as (_ & v1 & Hv1 & Hpos1 & _). exists v1. split; [done|]. split; [done|]. intros Hmax.
  cbn [cache cache_store tc_knownVersion tc_targets net]. assert (v' = v1) as -> by congruence.
  rewrite Hn by (unfold in_int64, min_int64; lia). split; [lia|]. intros _. by rewrite Hid.
Qed.

Record agent_inv (id : string) (x : agent (world srv)) : Prop := {
  ai_coherent : coherent id x;
  ai_base : tc_base (cache x) = base;
  ai_login : same_login c (cache x);
}.

Lemma happens_inv id x ev : serving → agent_inv id x → agent_inv id (happens x ev).
Proof.
  intros HR [Hc Hb Hl]. destruct ev as [r|k run pl|k]; cbn [happens].
  - split; [|done|done]. apply (coherent_tracks id x); [done|apply Handler_tracks, (sv_ff HR)|done].
  - destruct (Send_tracks c k run pl x (sv_ff HR)) as [Hs Ht]. pose proof Hs as (H1 & H2 & H3 & _).
    split; [by apply (coherent_tracks id x)|congruence|]. destruct Hl. split; congruence.
  - destruct (cache_Targets_coherent (mkWorld (SpState Spool.migrated x []) k) id HR Hb Hc) as (H1 & H2 & H3).
    split; [done|done|]. destruct Hl as [Hi Hse]. split; [|by rewrite H3]. destruct H1 as [-> _], Hc as [<- _]. done.
Qed.

Lemma history_inv id x evs : serving → agent_inv id x → agent_inv id (foldl happens x evs).
Proof.
  intros HR. revert x. induction evs as [|ev evs IH]; intros x Hx; cbn [foldl]; [done|]. apply IH. by apply happens_inv.
Qed.

(** An agent as [buildTargetSource] leaves it: the cache has nothing yet. *)
Definition fresh (x : agent (world srv)) : Prop :=
  tc_knownVersion (cache x) = 0 ∧ tc_base (cache x) = base ∧ same_login c (cache x) ∧
  ∃ v, targets_version (db_of x) = Some v ∧ 0 < v.

(** C11. A change in the registry reaches the agents.  Start an agent with an empty
    cache and let anything happen: requests of anybody at the controller, registry
    changes among them, reports and refreshes of the agent, over a network that
    loses what it likes; the controller serves one request at a time and its
    statements do not fail.  Then let a report of the agent be accepted, and its
    targets be asked for next, with a request that gets through if one is made:
    they are exactly the hubs the controller lists for the node, at the
    controller's version, whether the cache had to fetch them or held them already.
    (The version is assumed to fit 64 bits; without the conditions on the
    controller this fails: [HubTargetsFor_torn], [unbumped_change].) *)
Theorem registry_reaches_agent evs x0 k run pl e x' v (w : world (sp_state (agent (world srv)))) :
  serving → cl_base c = base → cl_notifier c = true → fresh x0 →
  client_Send c k run pl (foldl happens x0 evs) = ((OutcomeAccepted, e), x') →
  targets_version (db_of x') = Some v → v <= max_int64 →
  ext (st w) = x' →
  url_error (base ++ "/api/v1/targets") = None → fate_of (S (tick w)) = Delivered → others (S (tick w)) = [] →
  (cache_Targets w).1 = (hub_list (cl_nodeID c) (db_of x'), v, None).
Proof.
  intros HR Hb Hn (Hk0 & Hb0 & Hl0 & v0 & Hv0 & Hpos0) HS Hv Hmax Hw Hu Hfate Hoth.
  assert (Hx0 : agent_inv (cl_nodeID c) x0).
  { split; [|done|done]. split; [symmetry; apply Hl0|]. exists v0. rewrite Hk0. split; [done|]. split; [done|]. intros _. split; lia. }
  destruct (history_inv _ x0 evs HR Hx0) as [Hc Hbx Hl]. set (x := foldl happens x0 evs) in *.
  destruct (Send_tracks c k run pl x (sv_ff HR)) as [Hs Ht]. rewrite HS in Hs, Ht. cbn [snd] in Hs, Ht.
  pose proof (coherent_tracks (cl_nodeID c) x x' Hs Ht Hc) as (Hid & v1 & Hv1 & Hpos & Hcoh).
  assert (v1 = v) as -> by congruence. destruct (Hcoh Hmax) as [_ Hlist].
  destruct (Send_notices c k run pl x e x' v HR Hb Hn Hl HS Hv ltac:(lia)) as [Hca Hlog].
  assert (Hexp : tc_expectedNotice (cache x') = v) by (rewrite Hca; unfold NoticeVersion; by rewrite (proj2 (Z.leb_gt _ _) Hpos)).
  destruct Hs as (Hs1 & Hs2 & Hs3 & _).
  unfold cache_Targets, the_cache, now. unfold_M. cbn [st tick]. rewrite Hw.
  destruct (needRefresh _ (cache x')) eqn:Hneed; cbn [negb].
  - pose proof (fetch_list (mkWorld (st w) (S (tick w))) v (cache x') HR ltac:(congruence)) as Hf. cbn [st tick] in Hf.
    rewrite Hw in Hf. specialize (Hf Hv). destruct (fetch _ _) as [r w1]. cbn zeta in Hf. destruct Hf as (_ & _ & Hr & Hok).
    destruct Hok as [Hr1 Hd]; [done|done|done| |].
    { destruct Hlog as [node Hlog]. exists node. unfold targets_request in *. by rewrite Hs1, Hs2, Hs3. }
    rewrite Hd in Hr. destruct r as [[ts n]|]; [|done]. destruct Hr as (-> & v' & Hv' & Hn'). cbn.
    rewrite Hid, Hn' by (unfold in_int64, min_int64; assert (v' = v) by congruence; lia). congruence.
  - assert (Hk : tc_knownVersion (cache x') = v).
    { destruct (decide (tc_knownVersion (cache x') = v)) as [|Hne]; [done|exfalso].
      apply not_true_iff_false in Hneed. apply Hneed. apply needRefresh_iff. right. left. lia. }
    cbn. by rewrite Hk, (Hlist Hk).
Qed.
End Propagation.

(** ** A concrete system *)

Lemma ex_serving : @serving calm ex_link.
Proof. split; [done|]. intros p j Hj. cbn. unfold json_body. by rewrite Hj. Qed.

Definition ex_client : Client := SetVersionNotifier (NewClient "https://c/" "spoke-1" "s3cret" (10 * Second)).

Definition ex_side : agent (world srv) := mkAgent (buildCache ex_agent_config) (mkWorld ex_controller 0).

Abbreviation ex_transport :=
  (@prop_transport calm sqlite_driver fixed_rand plain_sql any_handshake no_files ex_link admin_config true (cl_base ex_client)).

(** The agent has fetched its targets when the operator registers a second hub. *)
Definition add_hub : request :=
  mkReq "POST" "/api/v1/admin/nodes" {[ "Authorization" := "Bearer s3cret" ]} "c" "10.0.0.9:1" false None ∅ ∅
    (lit "{`id`:`hub-2`,`role`:`hub`,`address`:`10.0.0.2:9000`,`secret`:`x`}").

Definition ex_history : list event := [AskTargets 0; Serve add_hub; AskTargets 3].

Abbreviation ex_before :=
  (foldl (@happens calm sqlite_driver fixed_rand plain_sql any_handshake no_files ex_link admin_config true (cl_base ex_client) calm ex_client)
     ex_side ex_history).

Definition ex_sent : (SendOutcome * option err) * agent (world srv) :=
  @client_Send (world srv) ex_transport json_agent_codec ex_client 6 "run-1" ex_payload ex_before.

(** Asked in between, the cache had no reason to fetch. *)
Example ex_stale : t_ID <$> tc_targets (cache ex_before) = ["hub-1"].
Proof. vm_compute. reflexivity. Qed.

Lemma registry_reaches_agent_witness :
  (@cache_Targets (world srv) ex_transport json_agent_codec calm (mkWorld (SpState Spool.migrated ex_sent.2 []) 7)).1 =
    ([mkTarget "hub-1" "10.0.0.1:9000"; mkTarget "hub-2" "10.0.0.2:9000"], 5, None).
Proof.
  assert (Hl : hub_list (cl_nodeID ex_client) (s_db (st (net ex_sent.2))) =
    [mkTarget "hub-1" "10.0.0.1:9000"; mkTarget "hub-2" "10.0.0.2:9000"]) by (vm_compute; reflexivity).
  rewrite <- Hl.
  apply (@registry_reaches_agent calm sqlite_driver fixed_rand plain_sql any_handshake no_files ex_link
    admin_config true (cl_base ex_client) calm ex_client ex_history ex_side 6 "run-1" ex_payload None ex_sent.2 5).
  - exact ex_serving.
  - reflexivity.
  - reflexivity.
  - split; [reflexivity|]. split; [reflexivity|]. split; [split; reflexivity|]. exists 4. split; [reflexivity|lia].
  - assert (H : ex_sent.1 = (OutcomeAccepted, None)) by (vm_compute; reflexivity).
    rewrite <- H. exact (surjective_pairing ex_sent).
  - vm_compute. reflexivity.
  - unfold max_int64. lia.
  - reflexivity.
  - reflexivity.
  - reflexivity.
  - reflexivity.
Defined.
