(* ===== verification/ControllerMain.v ===== *)
(** * The controller's process ([cmd/nlm-controller/main.go])

    From the environment and the database file to the running server, the events
    that a running controller sees, one at a time (requests, polls of the
    replication watcher, ticks of the ticket pruner, a signal, the end of the HTTP
    server), and its end. *)
From Stdlib Require Import Ascii ZArith Lia SpecFloat.
From stdpp Require Import relations.
From S2P Require Import Prelude GoTime GoStrings Ticket RateLimit Litestream Chrony Config ControllerDB Migrate Nodes Http Ui Server Results ResultsFacts Handlers Routes HandlersFacts.

Local Open Scope string_scope.
Local Open Scope Z_scope.

Section Main.
Context {PE : ProcEnv} {SO : SqlOpen} {Mg : Migrator ctl_tables} {XF : ExoticFloat} {Ex : Exec}.

(** The immutable part of the server. *)
Definition server_config (c : ControllerConfig) : Server.config :=
  Server.mkConfig (c_DBPath c) (Some (Drift (mkCommandQuerier (c_ChronycBinary c) (2 * Second)))) (c_MaxClockDriftMS c)
    (c_MaxLitestreamLag c) (c_MetricsToken c) (c_AdminToken c) (c_WSAllowedOrigins c).

(** The server and the watcher that feeds its replication tracker, on a database. *)
Definition build (c : ControllerConfig) (db : cdb) : srv * Watcher :=
  let lstrack := NewTracker (c_MaxLitestreamLag c) in
  let lswatch := NewWatcher lstrack (mkWatcherConfig "" 0 (c_MaxLitestreamLag c)) in
  let tickets := NewStore DefaultTTL in
  let rl := NewRateLimiter (c_WSTicketRateLimit c) DefaultWindow DefaultBlockDuration in
  (NewWithOptions db (mkOptions (Some tickets) (Some rl) (Some lstrack) (Some newMetrics)), lswatch).

(** The phases of the process. *)
Inductive phase := Serving | ShuttingDown | Exited (status : Z).

(** The server and the watcher share the tracker; [g_handles] are the database
    handles the process holds, and [g_version] and [g_dirty] what golang-migrate has
    left in the file: serving does not touch them. *)
Record program := Program {
  g_phase : phase;
  g_srv : srv;
  g_watch : Watcher;
  g_handles : nat;
  g_tick : nat;
  g_version : nat;
  g_dirty : bool;
}.

(** The file on the disk. *)
Definition file_of (p : program) : dbfile ctl_tables := DbFile (g_version p) (g_dirty p) (V2 (s_db (g_srv p))).

(** The process later on, on the same file. *)
Definition later (p : program) (ph : phase) (s : srv) (lw : Watcher) (handles tick : nat) : program :=
  Program ph s lw handles tick (g_version p) (g_dirty p).

(** [main] up to the point where it serves; an error is [log.Fatal]. *)
Definition start : M (disk ctl_tables) (res (Server.config * program)) :=
  match LoadController with
  | Err e => mret (Err (ErrWrap "controller: bad config" e))
  | Ok c =>
      e ← OpenDB (c_DBPath c);
      match e with
      | Some e => mret (Err (ErrWrap "controller: open db" e))
      | None => λ w,
          match f_tables (d_file (st w)) with
          | V2 db =>
              let '(s, lw) := build c db in
              (Ok (server_config c, Program Serving s lw (d_handles (st w)) (tick w)
                 (f_version (d_file (st w))) (f_dirty (d_file (st w)))), w)
          | _ => (Err (ErrDriver "no such table"), w)
          end
      end
  end.
End Main.

Definition with_litestream (t : option Tracker) (s : srv) : srv :=
  mkSrv (s_db s) (s_tickets s) (s_wsRateLimit s) t (s_metrics s) (s_lastDropsByNode s) (s_dropsLocked s) (s_wsHub s).

Inductive event :=
  | Serve (r : request)
  | Poll
  | PruneTick
  | Signal
  | ListenFailed (e : err)
  | ShutdownReturned (e : option err).

Section Events.
Context {E : Env} {D : CtlDriver} {Cd : Codec} {Rn : Rand} {MS : MatrixSQL} {Up : Upgrader} {Sz : Stat}.
Context {Q : Querier} {Zn : Zone} (cf : Server.config).

(** What an event does to the process.  [httpServer.Shutdown] lets requests that
    are under way finish; [log.Fatal] and [os.Exit] skip the deferred
    [db.Close]. *)
Definition handle (ev : event) (p : program) : option program :=
  match ev, g_phase p with
  | Serve r, (Serving | ShuttingDown) =>
      let '(_, w') := Handler cf true r (mkWorld (g_srv p) (g_tick p)) in
      Some (later p (g_phase p) (st w') (g_watch p) (g_handles p) (tick w'))
  | Poll, Serving =>
      let '(_, w') := poll (mkWorld (set_tracker (default (tracker (g_watch p)) (s_litestream (g_srv p))) (g_watch p)) (g_tick p)) in
      Some (later p Serving (with_litestream (Some (tracker (st w'))) (g_srv p)) (st w') (g_handles p) (tick w'))
  | PruneTick, Serving =>
      Some (later p Serving (with_tickets (Prune (clock (g_tick p)) (s_tickets (g_srv p))).2 (g_srv p)) (g_watch p) (g_handles p) (S (g_tick p)))
  | Signal, Serving => Some (later p ShuttingDown (g_srv p) (g_watch p) (g_handles p) (g_tick p))
  | ListenFailed _, (Serving | ShuttingDown) => Some (later p (Exited 1) (g_srv p) (g_watch p) (g_handles p) (g_tick p))
  | ShutdownReturned (Some _), ShuttingDown => Some (later p (Exited 1) (g_srv p) (g_watch p) (g_handles p) (g_tick p))
  | ShutdownReturned None, ShuttingDown => Some (later p (Exited 0) (g_srv p) (g_watch p) (pred (g_handles p)) (g_tick p))
  | _, _ => None
  end.

Inductive step : program → program → Prop :=
  | step_event ev p p' : handle ev p = Some p' → step p p'.

Fixpoint run_events (evs : list event) (p : program) : option program :=
  match evs with [] => Some p | ev :: evs' => p' ← handle ev p; run_events evs' p' end.

Lemma run_events_steps evs p p' : run_events evs p = Some p' → rtc step p p'.
Proof.
  revert p. induction evs as [|ev evs IH]; intros p; cbn [run_events]; [intros [= <-]; reflexivity|].
  destruct (handle ev p) as [p1|] eqn:Hp; [|done]. intros H. by eapply rtc_l; [exact (step_event ev p p1 Hp)|apply IH].
Qed.

(** The state of a process started on the database [d0]. *)
Record program_inv (d0 : cdb) (p : program) : Prop := {
  pi_wf : wf_cdb (s_db (g_srv p));
  pi_kept : ∃ rows, results (s_db (g_srv p)) = (results d0 ++ rows)%list;
  pi_handles : g_handles p = match g_phase p with Exited 0 => 0%nat | _ => 1%nat end;
  pi_file : g_version p = length ctl_migrations ∧ g_dirty p = false;
}.

Lemma step_inv d0 p p' : program_inv d0 p → step p p' → program_inv d0 p'.
Proof.
  intros Hi Hs. destruct Hs as [ev q q' He]. destruct Hi as [Hwf [rows Hr] Hh [Hv Hd]]. unfold handle, later in He.
  assert (Hserve : ∀ r, let '(_, w') := Handler cf true r (mkWorld (g_srv q) (g_tick q)) in
    wf_cdb (s_db (st w')) ∧ ∃ rows', results (s_db (st w')) = (results d0 ++ rows')%list).
  { intros r. pose proof (wf_Handler cf true r (mkWorld (g_srv q) (g_tick q)) Hwf) as H1.
    destruct (Handler_appends cf true r (mkWorld (g_srv q) (g_tick q))) as (rows' & H2 & _). cbn in H1, H2.
    destruct (Handler _ _ _ _) as [resp w']. split; [done|]. exists (rows ++ rows')%list. cbn in H2. by rewrite H2, Hr, (assoc_L app). }
  destruct ev as [r| | | |e|[e|]], (g_phase q) eqn:Hph; try discriminate.
  - specialize (Hserve r). destruct (Handler _ _ _ _) as [resp w']. injection He as <-. destruct Hserve. split; cbn; by rewrite ?Hh.
  - specialize (Hserve r). destruct (Handler _ _ _ _) as [resp w']. injection He as <-. destruct Hserve. split; cbn; by rewrite ?Hh.
  - destruct (poll _) as [u w']. injection He as <-. split; cbn; eauto.
  - injection He as <-. split; cbn; eauto.
  - injection He as <-. split; cbn; eauto.
  - injection He as <-. split; cbn; eauto.
  - injection He as <-. split; cbn; eauto.
  - injection He as <-. split; cbn; eauto.
  - injection He as <-. split; cbn; eauto. by rewrite Hh.
Qed.

Lemma steps_inv d0 p p' : rtc step p p' → program_inv d0 p → program_inv d0 p'.
Proof. induction 1 as [|p p1 p2 Hs _ IH]; [done|]. intros Hi. apply IH. by eapply step_inv. Qed.
End Events.

Section Run.
Context {PE : ProcEnv} {SO : SqlOpen} {Mg : Migrator ctl_tables} {MgS : MigratorSpec ctl_tables} {XF : ExoticFloat} {Ex : Exec}.
Context {E : Env} {D : CtlDriver} {Cd : Codec} {Rn : Rand} {MS : MatrixSQL} {Up : Upgrader} {Sz : Stat} {Q : Querier} {Zn : Zone}.

Lemma LoadController_path c : LoadController = Ok c → c_DBPath c ≠ "".
Proof.
  unfold LoadController, reject_if. intros H. destruct (bool_decide_reflect (getString "NLM_CONTROLLER_DB_PATH" "/var/lib/nlm/nlm.db" = "")) as [Hp|Hp]; [discriminate|]. cbn [mbind res_bind] in H.
  repeat (match type of H with context [if ?b then _ else _] => destruct b | context [getInt ?k ?d] => destruct (getInt k d) end;
          cbn [mbind res_bind] in H; try discriminate).
  injection H as <-. done.
Qed.

(** What starting does: a fatal error without a handle left, or a server on the
    data of the file. *)
Lemma start_cases (w : world (disk ctl_tables)) :
  ctl_file_ok (d_file (st w)) →
  let '(r, w') := start w in
  match r with
  | Err _ => d_handles (st w') = d_handles (st w) ∧ ctl_db (d_file (st w')) = ctl_db (d_file (st w))
  | Ok (cf, p) => ∃ c, LoadController = Ok c ∧ cf = server_config c ∧ g_phase p = Serving ∧ g_handles p = S (d_handles (st w)) ∧
      g_srv p = (build c (ctl_db (d_file (st w)))).1 ∧ d_file (st w') = file_of p ∧
      g_version p = length ctl_migrations ∧ g_dirty p = false
  end ∧
  (library_works → is_Ok LoadController = true → f_dirty (d_file (st w)) = false → (f_version (d_file (st w)) <= 2)%nat → is_Ok r = true).
Proof.
  intros Hok. unfold start. destruct LoadController as [c|e] eqn:Hc; [|by split]. unfold_M.
  pose proof (OpenDB_spec (c_DBPath c) w Hok) as HO. destruct (OpenDB _ w) as [e w1]. destruct HO as (_ & Hr & HL).
  destruct e as [e|]; [by split; [|intros H1 H2 H3 H4; discriminate (HL H1 (LoadController_path c Hc) H3 H4)]|].
  destruct Hr as [Hh Hf]. rewrite Hf. cbn [f_tables]. split; [|done].
  exists c. unfold file_of. by rewrite Hf, Hh.
Qed.

(** C12. The life of the controller process.  Started on a consistent database
    file, it either dies before it serves, with the data as it was and no handle
    left, or serves; then whatever requests, polls, pruner ticks and signals come,
    in any order, until it exits: the database keeps its invariant, every result
    the file held is still there in front of the new ones, the file on disk is one
    the next start accepts as it is, and a clean exit has closed the database. *)
Theorem controller_process (w : world (disk ctl_tables)) :
  ctl_file_ok (d_file (st w)) → d_handles (st w) = 0%nat → wf_cdb (ctl_db (d_file (st w))) →
  match start w with
  | (Err _, w') => d_handles (st w') = 0%nat ∧ ctl_db (d_file (st w')) = ctl_db (d_file (st w))
  | (Ok (cf, p), w') => ∀ p', rtc (step cf) p p' →
      wf_cdb (s_db (g_srv p')) ∧
      (∃ rows, results (s_db (g_srv p')) = (results (ctl_db (d_file (st w))) ++ rows)%list) ∧
      ctl_file_ok (file_of p') ∧ ctl_db (file_of p') = s_db (g_srv p') ∧
      f_dirty (file_of p') = false ∧ f_version (file_of p') = length ctl_migrations ∧
      (g_phase p' = Exited 0 → g_handles p' = 0%nat)
  end.
Proof.
  intros Hok Hh0 Hwf. pose proof (start_cases w Hok) as H. destruct (start w) as [[[cf p]|e] w'].
  - destruct H as [(c & _ & _ & Hph & Hh & Hs & _ & Hv & Hd) _]. intros p' Hrtc.
    assert (Hi : program_inv (ctl_db (d_file (st w))) p).
    { split; [by rewrite Hs|rewrite Hs; exists []; by rewrite app_nil_r| |done]. by rewrite Hph, Hh, Hh0. }
    destruct (steps_inv cf _ p p' Hrtc Hi) as [H1 H2 H3 [H4 H5]]. split; [done|]. split; [done|].
    split; [intros _; cbn; by rewrite H4|]. split; [done|]. split; [done|]. split; [done|].
    intros He. by rewrite He in H3.
  - destruct H as [[Hh Hdb] _]. by rewrite Hh.
Qed.
End Run.

(** ** A concrete process: a new database, one registration, a signal. *)

Definition new_env : ProcEnv := {|
  LookupEnv k := if bool_decide (k = "NLM_ADMIN_TOKEN") then Some "s3cret" else None;
  ReadFile _ := Err (ErrMsg "no such file or directory");
|}.

Definition no_chrony : Exec := {| run_command _ _ _ := Err (ErrMsg "chronyc: not found") |}.

Abbreviation new_file := (mkWorld (Disk (DbFile 0 false NoTables) 0) 0).
Abbreviation new_start := (@start new_env working_sql (plain_migrator _) no_exotic no_chrony new_file).
Abbreviation new_events :=
  (@run_events calm sqlite_driver create_codec fixed_rand plain_sql any_handshake no_files one_sync utc).

Definition one_day : list event := [Serve create_request; Poll; PruneTick; Signal; ShutdownReturned None].

Example new_day :
  match new_start with
  | (Ok (cf, p), _) => ∃ p', new_events cf one_day p = Some p' ∧ g_phase p' = Exited 0 ∧ is_Some (nodes (s_db (g_srv p')) !! "hub-9")
  | _ => False
  end.
Proof. vm_compute. by repeat eexists. Qed.

Lemma controller_process_witness :
  match new_start with
  | (Ok (cf, p), _) => ∀ p', new_events cf one_day p = Some p' → wf_cdb (s_db (g_srv p')) ∧ (g_phase p' = Exited 0 → g_handles p' = 0%nat)
  | _ => False
  end.
Proof.
  pose proof (@controller_process new_env working_sql (plain_migrator _) (plain_migrator_spec _) no_exotic no_chrony
    calm sqlite_driver create_codec fixed_rand plain_sql any_handshake no_files one_sync utc new_file
    ltac:(by intros _) eq_refl migrated_wf_cdb) as H.
  assert (Hok : is_Ok new_start.1 = true) by (vm_compute; reflexivity).
  destruct new_start as [[[cf p]|e] w']; [|done]. intros p' Hev.
  destruct (H p' (run_events_steps cf _ p p' Hev)) as (H1 & _ & _ & _ & _ & _ & H2). by split.
Defined.
